(* ===== verification/_CoqProject ===== *)
-Q . S2P
Prelude.v
PyStr.v
Json.v
JsonFacts.v
JsonExt.v
Hash.v
AuditLog.v
AuditFacts.v
AuditProps.v
Lifecycle.v
LifecycleFacts.v
LifecycleProps.v
PyDyn.v
IpAddr.v
IpFacts.v
Addressing.v
AddressProps.v
Resolver.v
Pdp.v
PdpProps.v
Conc.v
World.v
Registry.v
Gateway.v
System.v
SystemFacts.v
SystemOk.v
SystemProps.v
HandlerProps.v
Scenario.v
E10Anchor.v
VerifyE10.v
VerifyE10Facts.v
E10AnchorFacts.v
VerifyE10Props.v
Protocol.v
VerifyE10Scenario.v
Evidence.v
LayerB.v
B7.v
Regex.v
PyAst.v
SourceAudit.v
GateAudit.v
SourceProps.v
EvidenceProps.v
EvidenceScenario.v
Acceptance.v
AcceptanceProps.v
Startup.v
StartupProps.v
Harness.v
HarnessFacts.v
HarnessProps.v
TlsHarness.v
TlsProps.v
Transport.v
TransportProps.v
Independent.v
PepClient.v
PepClientProps.v
Ca.v
CaProps.v
Inventory.v
InventoryProps.v
Adversary.v
AdversaryTls.v
AdversaryProps.v
Targets.v
Udp.v
Records.v
Relay.v
BudgetBound.v
Conform.v
ConformProps.v
Accepted.v
AcceptedOk.v
AcceptedRun.v
AcceptedFlow.v
AcceptedProps.v
