(* ===== verification/Prelude.v ===== *)
(** * Verification of the Strix secure execution pipeline

    The pipeline (under [src/]) lets an untrusted sandbox reach the network only
    through a policy enforcement point.  A gateway terminates the sandbox's TLS,
    asks a decision point about every request, records what it is about to do in
    a hash-chained log, connects to a pinned address, and can be cancelled from
    outside at any moment; a set of verifiers then decides from the log and the
    evidence files whether a run may be called certified.  This library models
    that code and proves what makes it correct.

    ** The parts and their files

    Foundations.  [Prelude]: outcomes that may raise ([res]), automation, lemmas
    on lists and options.  [PyStr], [Json], [JsonFacts], [JsonExt], [PyDyn]:
    Python's strings and bytes, JSON values with [json.dumps] and [json.loads],
    and its operations on values of any type, with the exceptions they raise.
    [Hash]: SHA-256 and HMAC as the class [Digest].  [Conc]: threads as
    resumptions, pools of threads, reachability and the rely-guarantee rules.

    The log ([src/pep/audit.py]).  [AuditLog] is the object [AuditLog]: the
    file's bytes, the health latch, the seal, the redaction set (its texts, and
    whether it holds something that is no text); [init], [write], [seal_with],
    [verify], [startup_verify]; the storage's answers are the record [wio].
    [AuditFacts], [AuditProps].

    The permits ([src/pep/lifecycle.py]).  [Lifecycle]: [RunContext] and
    [ConnectionLifecycle], each public method one atomic function.  [World]:
    [EffectPermit] and [EffectGate] over the state the threads share.
    [LifecycleFacts], [LifecycleProps].

    The policy.  [IpAddr], [IpFacts]: the standard library's [ipaddress].
    [Addressing], [AddressProps] ([src/pep/addressing.py]): canonical hosts and
    the verdict on an address.  [Resolver] ([src/pep/resolver.py]).  [Pdp],
    [PdpProps] ([src/pep/pdp.py]): [decide] in the order of the code, and the
    budgets.

    The gateway ([src/pep/gateway.py], [src/pep/server.py]).  [Registry]: the live
    connections, [terminate_all], [cancel_and_quiesce].  [Gateway]: [do_CONNECT],
    the tunnel, the effect and the relay as one thread per connection, which goes
    on to the next command where the code leaves the connection open.  [System]
    states the promises on a pool of handlers and kill watchers; [SystemFacts],
    [SystemOk], [SystemProps] and [HandlerProps] prove them, from any world that
    is [SystemProps.boot]; [Scenario] evaluates a run.  [Startup], [StartupProps]:
    [serve] and [main], whose running world, with its STARTUP on record, is shown
    to be such a world.

    The close of a run.  [E10Anchor], [VerifyE10] ([src/pep/e10_anchor.py],
    [src/pep/verify_e10.py]): the anchor and the verifier of a closed log;
    [VerifyE10Facts], [E10AnchorFacts], [VerifyE10Props], [VerifyE10Scenario].
    [Protocol]: the abstract effect protocol the verifier implements.  [Conform],
    [ConformProps]: the records the running gateway writes have the verifier's
    schema.  The gateway, its log file and the verifier put together: [Accepted]
    (the verifier's step on each record, and what the file of the successful
    writes loads as), [AcceptedOk] (the rely and the guarantee of a handler),
    [AcceptedRun], [AcceptedFlow] (the handlers obey them) and [AcceptedProps].

    The evidence.  [Evidence] ([verify_pp18.py], [stamp_artifacts.py],
    [collect_artifacts.py]), [LayerB] ([verify_layerb_audit.py]), [B7]
    ([verify_b7_evidence.py]), [EvidenceProps], [EvidenceScenario].  [Regex] and
    [PyAst] are Python's [re] and the syntax trees of [ast], [SourceAudit] and
    [GateAudit] the auditor over them ([audit_gate_evidence.py]), with
    [SourceProps]; [Inventory], [InventoryProps] ([audit_inventory.py]) compare
    the auditor's own text with what it imports.

    The suites.  [Acceptance], [AcceptanceProps] ([ipv6_acceptance.py]),
    [Transport], [TransportProps] ([ipv6_transport.py]): the two layers of the
    IPv6 suite.  [PepClient], [PepClientProps] ([pep_client.py]): the IPv4 suite.
    [Independent] ([src/verification/independent/]): the independent replay.
    [Records]: [verify_tabletop.py] and [verify_f01_candidate.py].

    The interception authority.  [Ca], [CaProps] ([src/pep/ca.py]): which
    certificates exist when, over openssl as the classes [Openssl] and
    [OpensslOk].

    The proof harnesses the gateway grew out of.  [Harness], [HarnessFacts],
    [HarnessProps] ([src/phase2a/policy_gw.py]); [TlsHarness], [TlsProps]
    ([src/phase2b/policy_gw_tls.py]), whose world
    contains that of phase 2a, as the process imports it.  [Relay]: the two-way
    relay of phase 2a as a step relation, and the control plane.  [BudgetBound]:
    how far a race can overdraw the budget.  [Adversary], [AdversaryTls],
    [AdversaryProps] ([adversary.py], [adversary_tls.py]): the probes and their
    score.  [Targets], [Udp]: the upstream fixtures and the UDP pair of B7.

    ** How state and operations correspond

    A Python object is a record and each method a function on it with the
    method's name; a method that may raise answers in [res], and an exception is
    its class and message.  A critical section is one [Atom] of a thread, a timed
    wait a [Wait]; reads and writes outside a lock are separate atoms.  What the
    kernel, the network, TLS, the clock and the random source answer to one call
    is an argument ([wio], [client], [hclient], [tclient], [pdp_env], [kill_env],
    [serve_env], [suite_env]), over which the theorems quantify, and so is the
    order in which a set is iterated ([ke_order]); what a peer answers may depend
    on the bytes sent to it.  The digest, the IDNA codec and
    openssl are classes, instantiated for the witnesses, and Python's parser is
    the argument [parse] of the auditors.  A JSON document
    is a [val] of any shape, so an ill-typed policy or record takes the path it
    takes in Python.  [w_trace], [hw_trace] are ghost histories; an event of
    [hw_trace] marks each critical section of a decision, so that the counters
    are a function of the history.

    ** What the theorems show

    On the running gateway, in every interleaving: no connection or byte leaves
    without the decisions, the durable intent, the permit and the attempt record
    that justify it; none leaves once a cancelled run has drained; a durable
    RUN_CLOSED is final; no permit leaks; the chain stays intact unless the sink
    latched or a close failed; every handler ends and restores the registry; and
    the start establishes what these theorems assume.  On the log: two files that
    verify and re-anchor to one hash hold the same records, append-only,
    redaction of clean secrets in the values of a record, round trip, sealing,
    what each storage failure leaves.  On the
    policy: the verdict as intervals, embedded IPv4, what an allowing decision
    implies, budgets under interleaving.  On the verifiers: every record
    the gateway writes in any schedule has the schema they read; the file left by
    a process on working storage, from its STARTUP through any interleaving of
    handlers to a cancellation that runs after them and seals, is accepted, when
    methods, server names, credentials, policies and upstreams have the forms the
    schema reads, no record holds a secret and a request got as far as its
    intent; an accepted history
    refines the effect protocol, is complete and bound to its anchor; a certified
    run has its evidence; the auditor and the Layer B verifier agree up to the
    two conditions only one of them checks; stamps bind; a source the auditor certifies has the calls it asks for; and no verdict
    depends on how a record's URL goes on after its host, a finding.  On the
    suites: each succeeds exactly on the observations that are proof, and a
    score is the number of probes that were refused.  On the harnesses: every
    connection is decided, once or twice, in any schedule, on the question a
    request asks and with every check of the decision point passed; a relay delivers a
    prefix of what was sent and ends; a budget is exceeded by no more than the
    handlers in flight.  Evaluated runs show where the code does less than it
    says; they are the manifest's findings.

    ** Bounds and fuel

    Recursion is structural on the data except: [split_str] and [replace] with
    the length of the text, which each step shortens; the parser of [Json] with
    the length of its input, shown sufficient by the round trip in [JsonFacts];
    printing of numbers by their size.  Lists of chunks and of turns end where
    the peer does.  Nothing is assumed to terminate that is not shown to.

    ** Not modelled, and why

    Every file has its model; inside them the following is left to an argument
    or left out.  Code points above 255 in texts; the bytes of replies and how
    [http.server] parses a request; what closing a socket does to a call blocked
    on it (its outcome is an argument); the encrypted bytes of TLS; Python's
    parser and openssl (arguments); printed lines and the indentation of the
    JSON files; the parsing of command lines. *)

From stdpp Require Export base list strings gmap fin_maps.
From Stdlib Require Export ZArith NArith Ascii Lia.
From Stdlib Require String.

(** ** Exceptions and fallible computations

    A Python exception is its class name and message.  [res A] is the outcome
    of a computation that may raise. *)

Record exn := PyExn { exn_cls : string; exn_msg : string }.

Inductive res (A : Type) : Type :=
| Ok (a : A)
| Raise (e : exn).
Arguments Ok {A} a.
Arguments Raise {A} e.

#[export] Instance exn_eq_dec : EqDecision exn.
Proof. solve_decision. Defined.
Definition rbind {A B} (m : res A) (f : A -> res B) : res B :=
  match m with Ok a => f a | Raise e => Raise e end.
#[export] Instance res_ret : MRet res := fun A a => Ok a.
#[export] Instance res_bind : MBind res := fun A B f m => rbind m f.

Declare Scope py_scope.
Delimit Scope py_scope with py.
Notation "x <- m ;; k" := (rbind m (fun x => k))
  (at level 20, m at level 99, k at level 200) : py_scope.
Notation "' pat <- m ;; k" := (rbind m (fun pat => k))
  (at level 20, pat pattern, m at level 99, k at level 200) : py_scope.
#[global] Open Scope py_scope.

Definition is_ok {A} (r : res A) : bool :=
  match r with Ok _ => true | Raise _ => false end.

Lemma res_bind_Ok {A B} (m : res A) (f : A -> res B) (b : B) :
  rbind m f = Ok b <-> exists a, m = Ok a /\ f a = Ok b.
Proof.
  destruct m as [a | e]; cbn; split; [eauto | by intros (? & [= <-] & ?) | done | by intros (? & ? & ?)].
Qed.

(** ** Hints

    [json] proves well-formedness of records; [py] normalises string operations. *)

Create HintDb json.
Create HintDb py.

(** ** Tactics

    [case_bool] splits on the condition of the first [if] or [match] of the
    goal or of a hypothesis; [simp_res] inverts equations between outcomes. *)

Ltac simp_res :=
  repeat match goal with
  | H : Ok _ = Ok _ |- _ => injection H as H; subst
  | H : Raise _ = Raise _ |- _ => injection H as H; subst
  | H : Ok _ = Raise _ |- _ => discriminate H
  | H : Raise _ = Ok _ |- _ => discriminate H
  | H : Some _ = Some _ |- _ => injection H as H; subst
  | H : Some _ = None |- _ => discriminate H
  | H : None = Some _ |- _ => discriminate H
  | H : (_, _) = (_, _) |- _ => injection H as H; subst
  | H : true = false |- _ => discriminate H
  | H : false = true |- _ => discriminate H
  end.

Ltac case_bool_in H :=
  match type of H with
  | context [if ?b then _ else _] => destruct b eqn:?
  | context [match ?b with _ => _ end] => destruct b eqn:?
  end.

Ltac break H := repeat (case_bool_in H; simp_res; try done).

Ltac bools :=
  repeat match goal with
  | H : _ && _ = true |- _ => apply andb_true_iff in H as [? ?]
  | H : _ || _ = false |- _ => apply orb_false_iff in H as [? ?]
  | H : negb _ = true |- _ => apply negb_true_iff in H
  | H : negb _ = false |- _ => apply negb_false_iff in H
  | H : bool_decide _ = true |- _ => apply bool_decide_eq_true in H
  | H : bool_decide _ = false |- _ => apply bool_decide_eq_false in H
  | H : Z.eqb _ _ = true |- _ => apply Z.eqb_eq in H
  | H : Z.eqb _ _ = false |- _ => apply Z.eqb_neq in H
  | H : Z.ltb _ _ = true |- _ => apply Z.ltb_lt in H
  | H : Z.ltb _ _ = false |- _ => apply Z.ltb_ge in H
  | H : Z.leb _ _ = true |- _ => apply Z.leb_le in H
  | H : Z.leb _ _ = false |- _ => apply Z.leb_gt in H
  | H : N.leb _ _ = true |- _ => apply N.leb_le in H
  | H : N.leb _ _ = false |- _ => apply N.leb_gt in H
  | H : N.eqb _ _ = true |- _ => apply N.eqb_eq in H
  | H : N.eqb _ _ = false |- _ => apply N.eqb_neq in H
  | H : String.eqb _ _ = true |- _ => apply String.eqb_eq in H
  | H : String.eqb _ _ = false |- _ => apply String.eqb_neq in H
  end.

(** [not_in] refutes membership of a literal in a list of literals, and
    [is_in] finds it. *)
Ltac not_in :=
  let H := fresh in intros H;
  repeat (apply elem_of_cons in H as [H|H]; [discriminate H|]); by apply not_elem_of_nil in H.
Ltac is_in := repeat (apply elem_of_cons; first [left; reflexivity | right]).

(** ** Lists *)

Fixpoint findb {A} (p : A -> bool) (l : list A) : option A :=
  match l with [] => None | x :: l' => if p x then Some x else findb p l' end.

Lemma findb_Some {A} (p : A -> bool) l x :
  findb p l = Some x -> x ∈ l /\ p x = true.
Proof.
  induction l as [|y l IH]; cbn; [done|].
  destruct (p y) eqn:Hy; intros; simp_res.
  - split; [by left | done].
  - destruct (IH H). split; [by right | done].
Qed.

Lemma existsb_elem_of {A} (p : A -> bool) (l : list A) :
  existsb p l = true <-> exists x, x ∈ l /\ p x = true.
Proof.
  rewrite existsb_exists. split; intros (x & Hx & ?); exists x;
    split; auto; by apply list_elem_of_In.
Qed.

Lemma forallb_elem_of {A} (p : A -> bool) (l : list A) :
  forallb p l = true <-> forall x, x ∈ l -> p x = true.
Proof.
  rewrite forallb_forall. split; intros H x Hx; apply H; by apply list_elem_of_In.
Qed.

Lemma Forall_both {A} (P Q R : A -> Prop) (l : list A) :
  Forall P l -> Forall Q l -> (forall x, P x -> Q x -> R x) -> Forall R l.
Proof. intros HP HQ H. induction HP; inversion HQ; subst; constructor; auto. Qed.

Definition mem_str (s : string) (l : list string) : bool := existsb (String.eqb s) l.

Lemma mem_str_spec s l : mem_str s l = true <-> s ∈ l.
Proof.
  unfold mem_str. rewrite existsb_elem_of. split.
  - intros (x & ? & ?%String.eqb_eq). by subst.
  - intros. exists s. by rewrite String.eqb_refl.
Qed.

(** [[f(x) for x in l]] and [[x for x in l if p(x)]] when [f] and [p] may raise. *)
Fixpoint rmap {A B} (f : A -> res B) (l : list A) : res (list B) :=
  match l with
  | [] => Ok []
  | x :: l' => y <- f x;; ys <- rmap f l';; Ok (y :: ys)
  end.
Lemma rmap_Forall2 {A B} (f : A -> res B) l : forall ys, rmap f l = Ok ys <-> Forall2 (fun x y => f x = Ok y) l ys.
Proof.
  induction l as [|x l IH]; intros ys; cbn; split; intros H.
  - simp_res. constructor.
  - apply Forall2_nil_inv_l in H as ->. done.
  - apply res_bind_Ok in H as (y & Hy & H). apply res_bind_Ok in H as (ys' & Hys & H). simp_res.
    constructor; [done|by apply IH].
  - apply Forall2_cons_inv_l in H as (y & ys' & Hy & Hys & ->). rewrite Hy. cbn. by rewrite (proj2 (IH ys') Hys).
Qed.
