(* ===== verification/PyStr.v ===== *)
(** * Python strings and bytes

    A [str] is a sequence of code points below 256 and a [bytes] a sequence of
    octets; both are a [string].  The operations are the ones the pipeline
    uses, over that range of code points. *)

From S2P Require Import Prelude.

#[global] Open Scope string_scope.
Infix "++" := String.append : string_scope.
#[global] Arguments String.append !s1 s2 : simpl nomatch.

Definition code (c : ascii) : N := N_of_ascii c.
Definition chr (n : N) : ascii := ascii_of_N n.
Definition in_range (lo hi : N) (c : ascii) : bool := (lo <=? code c)%N && (code c <=? hi)%N.

(** ** Character classes *)

Definition is_dec (c : ascii) : bool := in_range 48 57 c.
(** [str.isdigit] is also true of the superscripts U+00B2, U+00B3 and U+00B9. *)
Definition c_isdigit (c : ascii) : bool :=
  is_dec c || (code c =? 178)%N || (code c =? 179)%N || (code c =? 185)%N.
Definition c_isspace (c : ascii) : bool :=
  in_range 9 13 c || in_range 28 32 c || (code c =? 133)%N || (code c =? 160)%N.
Definition b_isspace (c : ascii) : bool := in_range 9 13 c || (code c =? 32)%N.
Definition is_lhex (c : ascii) : bool := is_dec c || in_range 97 102 c.
Definition is_ascii (c : ascii) : bool := (code c <? 128)%N.

Definition c_lower (c : ascii) : ascii :=
  if in_range 65 90 c || (in_range 192 222 c && negb (code c =? 215)%N)
  then chr (code c + 32) else c.
(** U+00B5 and U+00FF have no upper case below 256 and are left alone. *)
Definition c_upper (c : ascii) : string :=
  if in_range 97 122 c || (in_range 224 254 c && negb (code c =? 247)%N)
  then String (chr (code c - 32)) ""
  else if (code c =? 223)%N then "SS" else String c "".

(** ** Strings as lists of characters *)

Fixpoint str_all (p : ascii -> bool) (s : string) : bool :=
  match s with EmptyString => true | String c s' => p c && str_all p s' end.
Fixpoint str_any (p : ascii -> bool) (s : string) : bool :=
  match s with EmptyString => false | String c s' => p c || str_any p s' end.
Fixpoint str_count (c : ascii) (s : string) : nat :=
  match s with
  | EmptyString => 0
  | String d s' => if Ascii.eqb c d then S (str_count c s') else str_count c s'
  end.
Fixpoint str_lower (s : string) : string :=
  match s with EmptyString => "" | String c s' => String (c_lower c) (str_lower s') end.
Fixpoint str_upper (s : string) : string :=
  match s with EmptyString => "" | String c s' => c_upper c ++ str_upper s' end.

Fixpoint lstrip (p : ascii -> bool) (s : string) : string :=
  match s with
  | EmptyString => ""
  | String c s' => if p c then lstrip p s' else s
  end.
Fixpoint rstrip (p : ascii -> bool) (s : string) : string :=
  match s with
  | EmptyString => ""
  | String c s' =>
      match rstrip p s' with
      | EmptyString => if p c then "" else String c ""
      | t => String c t
      end
  end.
Definition strip (p : ascii -> bool) (s : string) : string := lstrip p (rstrip p s).
Definition str_strip : string -> string := strip c_isspace.
Definition b_strip : string -> string := strip b_isspace.

Definition is_char (c d : ascii) : bool := Ascii.eqb c d.
Definition str_isdigit (s : string) : bool :=
  negb (String.eqb s "") && str_all c_isdigit s.

Definition startswith (p s : string) : bool := String.prefix p s.
Definition str_rev (s : string) : string := String.string_of_list_ascii (rev (String.list_ascii_of_string s)).
Definition endswith (p s : string) : bool := String.prefix (str_rev p) (str_rev s).

(** [p in s]. *)
Fixpoint contains (p s : string) : bool :=
  String.prefix p s ||
  match s with EmptyString => false | String _ s' => contains p s' end.

(** ** Splitting

    [partition c s] is [s.partition(c)] with the separator as a flag;
    [rpartition] splits at the last occurrence; [split] is [s.split(c)]. *)

Fixpoint partition (c : ascii) (s : string) : string * bool * string :=
  match s with
  | EmptyString => ("", false, "")
  | String d s' =>
      if Ascii.eqb c d then ("", true, s')
      else let '(a, f, b) := partition c s' in (String d a, f, b)
  end.

Fixpoint rpartition (c : ascii) (s : string) : string * bool * string :=
  match s with
  | EmptyString => ("", false, "")
  | String d s' =>
      let '(a, f, b) := rpartition c s' in
      if f then (String d a, true, b)
      else if Ascii.eqb c d then ("", true, s')
      else ("", false, String d s')
  end.

Fixpoint split (c : ascii) (s : string) : list string :=
  match s with
  | EmptyString => [""]
  | String d s' =>
      if Ascii.eqb c d then "" :: split c s'
      else match split c s' with
           | [] => [String d ""]
           | w :: ws => String d w :: ws
           end
  end.

(** [s.split(c, 1)[0]] and [s.split(c, 1)[1]]. *)
Definition split1 (c : ascii) (s : string) : list string :=
  let '(a, f, b) := partition c s in if f then [a; b] else [s].

(** Splitting at a separator string, for [bytes.partition]. *)
Fixpoint drop (n : nat) (s : string) : string :=
  match n, s with
  | O, _ => s
  | S n', String _ s' => drop n' s'
  | S _, EmptyString => ""
  end.
Fixpoint take (n : nat) (s : string) : string :=
  match n, s with
  | S n', String c s' => String c (take n' s')
  | _, _ => ""
  end.
Fixpoint partition_str (p s : string) : string * bool * string :=
  if String.prefix p s then ("", true, drop (String.length p) s)
  else match s with
       | EmptyString => ("", false, "")
       | String c s' => let '(a, f, b) := partition_str p s' in (String c a, f, b)
       end.
Fixpoint split_str_fuel (n : nat) (p s : string) : list string :=
  match n with
  | O => [s]
  | S n' => let '(a, f, b) := partition_str p s in
            if f then a :: split_str_fuel n' p b else [s]
  end.
Definition split_str (p s : string) : list string := split_str_fuel (String.length s) p s.

(** [s.replace(p, r)], for a non-empty [p]; each step consumes a character. *)
Fixpoint replace_fuel (n : nat) (p r s : string) : string :=
  match n with
  | O => s
  | S n' =>
      if String.prefix p s then r ++ replace_fuel n' p r (drop (String.length p) s)
      else match s with
           | EmptyString => ""
           | String c s' => String c (replace_fuel n' p r s')
           end
  end.
Definition replace (p r s : string) : string := replace_fuel (S (String.length s)) p r s.

(** ** Decimal numbers *)

Definition digit_char (d : N) : ascii := chr (48 + d).
Definition digit_val (c : ascii) : N := (code c - 48)%N.

Fixpoint show_N_fuel (fuel : nat) (n : N) (acc : string) : string :=
  match fuel with
  | O => acc
  | S f => let acc' := String (digit_char (n mod 10)) acc in
           if (n <? 10)%N then acc' else show_N_fuel f (n / 10) acc'
  end.
Definition show_N (n : N) : string := show_N_fuel (S (N.size_nat n)) n "".
Definition show_Z (z : Z) : string :=
  match z with
  | Z.neg p => String "-" (show_N (N.pos p))
  | _ => show_N (Z.to_N z)
  end.
Definition show_nat (n : nat) : string := show_N (N.of_nat n).

Fixpoint read_N_acc (acc : N) (s : string) : N :=
  match s with
  | EmptyString => acc
  | String c s' => read_N_acc (10 * acc + digit_val c) s'
  end.
Definition read_N (s : string) : N := read_N_acc 0 s.

(** [int(s)] for a string of digits: a superscript is a [ValueError]. *)
Definition int_of_digits (s : string) : option Z :=
  if negb (String.eqb s "") && str_all is_dec s then Some (Z.of_N (read_N s)) else None.

(** ** UTF-8 encoding of code points below 256 *)

Fixpoint utf8 (s : string) : string :=
  match s with
  | EmptyString => ""
  | String c s' =>
      if is_ascii c then String c (utf8 s')
      else String (chr (192 + code c / 64)) (String (chr (128 + code c mod 64)) (utf8 s'))
  end.

(** ** Lemmas *)

Lemma append_nil_r (s : string) : s ++ "" = s.
Proof. induction s; cbn; congruence. Qed.
Lemma append_assoc (a b c : string) : (a ++ b) ++ c = a ++ (b ++ c).
Proof. induction a; cbn; congruence. Qed.
Lemma length_append (a b : string) :
  String.length (a ++ b) = String.length a + String.length b.
Proof. induction a; cbn; congruence. Qed.
Lemma append_cons c (a b : string) : String c a ++ b = String c (a ++ b).
Proof. done. Qed.

Lemma str_all_append p a b : str_all p (a ++ b) = str_all p a && str_all p b.
Proof. induction a as [|c a IH]; cbn; [done|]. by rewrite IH, andb_assoc. Qed.
Lemma str_all_impl (p q : ascii -> bool) s :
  (forall c, p c = true -> q c = true) -> str_all p s = true -> str_all q s = true.
Proof. intros Hpq. induction s; cbn; [done|]. intros; bools. rewrite Hpq; auto. Qed.

Lemma code_chr n : (n < 256)%N -> code (chr n) = n.
Proof. apply N_ascii_embedding. Qed.
Lemma chr_code c : chr (code c) = c.
Proof. apply ascii_N_embedding. Qed.
Lemma code_lt c : (code c < 256)%N.
Proof. destruct c as [[] [] [] [] [] [] [] []]; vm_compute; reflexivity. Qed.

(** Case analysis on all 256 characters. *)
Ltac all_ascii c := destruct c as [[] [] [] [] [] [] [] []].

Lemma prefix_refl s : String.prefix s s = true.
Proof. induction s as [|c s IH]; cbn; [done|]. by destruct (ascii_dec c c). Qed.
Lemma prefix_append p s : String.prefix p (p ++ s) = true.
Proof. induction p as [|c p IH]; cbn; [by destruct s|]. by destruct (ascii_dec c c). Qed.
Lemma prefix_spec p s : String.prefix p s = true <-> exists t, s = p ++ t.
Proof.
  split.
  - revert s; induction p as [|c p IH]; intros s H; [by exists s|].
    destruct s as [|d s]; cbn in H; [done|].
    destruct (ascii_dec c d) as [->|]; [|done].
    destruct (IH _ H) as [t ->]. by exists t.
  - intros [t ->]. apply prefix_append.
Qed.

Lemma digit_char_dec d : (d < 10)%N -> is_dec (digit_char d) = true.
Proof.
  intros. unfold is_dec, in_range, digit_char. rewrite code_chr by lia.
  apply andb_true_iff; split; apply N.leb_le; lia.
Qed.
Lemma digit_val_char d : (d < 10)%N -> digit_val (digit_char d) = d.
Proof. intros. unfold digit_val, digit_char. rewrite code_chr; lia. Qed.

Lemma size_nat_bound n : (n < 2 ^ N.of_nat (N.size_nat n))%N.
Proof.
  destruct n as [|p]; [cbn; lia|]. cbn.
  induction p as [p IH|p IH|]; cbn [Pos.size_nat]; [| |cbn; lia];
    rewrite Nat2N.inj_succ, N.pow_succ_r'; lia.
Qed.

(** Printing produces digits, and reading them back gives the number. *)
Lemma show_N_fuel_spec fuel : forall n acc,
  (n < 2 ^ N.of_nat fuel)%N ->
  str_all is_dec acc = true ->
  str_all is_dec (show_N_fuel fuel n acc) = true /\
  (forall a, read_N_acc a (show_N_fuel fuel n acc)
     = read_N_acc (a * 10 ^ N.of_nat (String.length (show_N_fuel fuel n acc) - String.length acc) + n) acc) /\
  String.length acc <= String.length (show_N_fuel fuel n acc).
Proof.
  induction fuel as [|f IH]; intros n acc Hn Hacc.
  - cbn in Hn. assert (n = 0%N) as -> by lia. cbn. split_and!; [done| |done].
    intros a. rewrite Nat.sub_diag. cbn. f_equal; lia.
  - rewrite Nat2N.inj_succ, N.pow_succ_r' in Hn.
    pose proof (N.mod_lt n 10 ltac:(lia)) as Hm.
    cbn [show_N_fuel].
    assert (Hacc' : str_all is_dec (String (digit_char (n mod 10)) acc) = true)
      by (cbn; by rewrite digit_char_dec).
    destruct (N.ltb_spec n 10) as [Hlt|Hge].
    + split_and!; [done| |cbn; lia]. intros a. cbn [read_N_acc String.length].
      rewrite digit_val_char by done.
      replace (S (String.length acc) - String.length acc)%nat with 1%nat by lia.
      rewrite N.mod_small by lia. f_equal. change (N.of_nat 1) with 1%N. lia.
    + destruct (IH (n / 10)%N _ ltac:(apply N.Div0.div_lt_upper_bound; lia) Hacc')
        as (H1 & H2 & H3).
      cbn [String.length] in H2, H3.
      split_and!; [done| |lia]. intros a. rewrite H2. cbn [read_N_acc].
      rewrite digit_val_char by done. f_equal.
      set (L := String.length (show_N_fuel f (n / 10) _)) in *.
      replace (L - String.length acc)%nat with (S (L - S (String.length acc))) by lia.
      rewrite Nat2N.inj_succ, N.pow_succ_r'.
      pose proof (N.div_mod n 10 ltac:(lia)). lia.
Qed.

Lemma show_N_lt n : (n < 2 ^ N.of_nat (S (N.size_nat n)))%N.
Proof.
  pose proof (size_nat_bound n). rewrite Nat2N.inj_succ, N.pow_succ_r'. lia.
Qed.
Lemma show_N_dec n : str_all is_dec (show_N n) = true.
Proof. by apply (show_N_fuel_spec _ n "" (show_N_lt n)). Qed.
Lemma read_show_N n : read_N (show_N n) = n.
Proof.
  destruct (show_N_fuel_spec _ n "" (show_N_lt n) eq_refl) as (_ & H & _).
  unfold read_N, show_N. rewrite H. cbn. lia.
Qed.
Lemma show_N_fuel_head f n acc :
  exists d s, (d < 10)%N /\ show_N_fuel (S f) n acc = String (digit_char d) s /\
              ((n = 0)%N \/ (n < 2 ^ N.of_nat (S f) -> d <> 0)%N).
Proof.
  revert n acc. induction f as [|f IH]; intros n acc; cbn [show_N_fuel].
  - exists (n mod 10)%N, acc. split; [apply N.mod_lt; lia|]. split; [by destruct (n <? 10)%N|].
    destruct (N.eq_dec n 0); [by left|right]. intros Hn. cbn in Hn.
    rewrite N.mod_small; lia.
  - destruct (N.ltb_spec n 10) as [Hlt|Hge].
    + exists (n mod 10)%N, acc. split; [apply N.mod_lt; lia|]. split; [done|].
      destruct (N.eq_dec n 0); [by left|right]. intros _. rewrite N.mod_small; lia.
    + destruct (IH (n / 10)%N (String (digit_char (n mod 10)) acc)) as (d & s & Hd & Hs & Hz).
      exists d, s. split; [done|]. split; [exact Hs|]. right. intros Hn.
      destruct Hz as [Hz|Hz].
      * exfalso. pose proof (N.div_mod n 10 ltac:(lia)). pose proof (N.mod_lt n 10 ltac:(lia)). lia.
      * apply Hz. rewrite Nat2N.inj_succ, N.pow_succ_r' in Hn.
        apply N.Div0.div_lt_upper_bound; lia.
Qed.
Lemma show_N_head n :
  exists d s, (d < 10)%N /\ show_N n = String (digit_char d) s /\ ((d = 0)%N -> n = 0%N).
Proof.
  destruct (show_N_fuel_head (N.size_nat n) n "") as (d & s & ? & ? & Hz).
  exists d, s. split_and!; [done|done|]. intros ->. destruct Hz as [|Hz]; [done|].
  by specialize (Hz (show_N_lt n)).
Qed.
Lemma show_N_0 : show_N 0 = "0".
Proof. done. Qed.
