(* ===== verification/Json.v ===== *)
(** * JSON values: Python objects, [json.dumps] and [json.loads]

    The records of the audit log, the policy and the evidence artifacts are
    JSON objects.  A [dict] is an insertion-ordered association list with
    unique keys, as in Python. *)

From S2P Require Import Prelude PyStr.

(** A finite float is the decimal of its [repr]: [FFin m k] is m / 10^(k+1). *)
Inductive pyfloat :=
| FFin (m : Z) (k : nat)
| FInf (neg : bool)
| FNan.

#[export] Instance pyfloat_eq_dec : EqDecision pyfloat.
Proof. solve_decision. Defined.

Inductive val :=
| VNull
| VBool (b : bool)
| VInt (z : Z)
| VFloat (f : pyfloat)
| VStr (s : string)
| VList (l : list val)
| VDict (d : list (string * val)).

Abbreviation dict := (list (string * val)).

Section val_ind.
Variable P : val -> Prop.
Hypothesis Hnull : P VNull.
Hypothesis Hbool : forall b, P (VBool b).
Hypothesis Hint : forall z, P (VInt z).
Hypothesis Hfloat : forall f, P (VFloat f).
Hypothesis Hstr : forall s, P (VStr s).
Hypothesis Hlist : forall l, Forall P l -> P (VList l).
Hypothesis Hdict : forall d : dict, Forall (fun kv => P kv.2) d -> P (VDict d).
Fixpoint val_ind' (v : val) : P v :=
  match v with
  | VNull => Hnull
  | VBool b => Hbool b
  | VInt z => Hint z
  | VFloat f => Hfloat f
  | VStr s => Hstr s
  | VList l => Hlist l ((fix go (l : list val) : Forall P l :=
      match l with [] => Forall_nil_2 _ | x :: l' => Forall_cons_2 _ _ _ (val_ind' x) (go l') end) l)
  | VDict d => Hdict d ((fix go (d : dict) : Forall (fun kv => P kv.2) d :=
      match d with
      | [] => Forall_nil_2 _
      | kv :: d' => Forall_cons_2 _ _ _ (val_ind' kv.2) (go d')
      end) d)
  end.
End val_ind.

(** ** Dictionaries *)

(** [d.get(k)], with [None] for an absent key. *)
Fixpoint dget (k : string) (d : dict) : option val :=
  match d with
  | [] => None
  | (k', v) :: d' => if String.eqb k k' then Some v else dget k d'
  end.

(** [d[k] = v]: the value is replaced in place, a new key goes last. *)
Fixpoint dset (k : string) (v : val) (d : dict) : dict :=
  match d with
  | [] => [(k, v)]
  | (k', v') :: d' => if String.eqb k k' then (k', v) :: d' else (k', v') :: dset k v d'
  end.

Definition dkeys (d : dict) : list string := d.*1.
Definition dmem (k : string) (d : dict) : bool :=
  match dget k d with Some _ => true | None => false end.
(** [d.update(e)]. *)
Definition dupdate (d e : dict) : dict := foldl (fun acc kv => dset kv.1 kv.2 acc) d e.
Definition ddel (k : string) (d : dict) : dict :=
  filter (fun kv => negb (String.eqb k kv.1) = true) d.

(** [d[k]], a [KeyError] when absent. *)
Definition dindex (d : dict) (k : string) : res val :=
  match dget k d with Some v => Ok v | None => Raise (PyExn "KeyError" k) end.
(** [d.get(k, dflt)]. *)
Definition dget_or (k : string) (dflt : val) (d : dict) : val := default dflt (dget k d).
(** [d.get(k)]. *)
Definition fld (k : string) (d : dict) : val := dget_or k VNull d.

(** ** Truth, equality, [str] *)

Definition truthy (v : val) : bool :=
  match v with
  | VNull => false
  | VBool b => b
  | VInt z => negb (z =? 0)%Z
  | VFloat (FFin m _) => negb (m =? 0)%Z
  | VFloat _ => true
  | VStr s => negb (String.eqb s "")
  | VList l => negb (bool_decide (l = []))
  | VDict d => negb (bool_decide (d.*1 = []))
  end.

(** The numeric value of a number as a fraction m / 10^k. *)
Definition num_of (v : val) : option (Z * nat) :=
  match v with
  | VBool b => Some (if b then 1 else 0, 0%nat)%Z
  | VInt z => Some (z, 0%nat)
  | VFloat (FFin m k) => Some (m, S k)
  | _ => None
  end.
Definition num_eqb (a b : Z * nat) : bool :=
  (a.1 * 10 ^ Z.of_nat b.2 =? b.1 * 10 ^ Z.of_nat a.2)%Z.
Definition num_leb (a b : Z * nat) : bool :=
  (a.1 * 10 ^ Z.of_nat b.2 <=? b.1 * 10 ^ Z.of_nat a.2)%Z.

(** Python's [==]: numbers by value, dicts regardless of order. *)
Fixpoint py_eqb (a b : val) {struct a} : bool :=
  match a, b with
  | VNull, VNull => true
  | VStr s, VStr t => String.eqb s t
  | VFloat (FInf n), VFloat (FInf n') => Bool.eqb n n'
  | VList l, VList m =>
      (fix go (l m : list val) : bool :=
         match l, m with
         | [], [] => true
         | x :: l', y :: m' => py_eqb x y && go l' m'
         | _, _ => false
         end) l m
  | VDict d, VDict e =>
      Nat.eqb (length d) (length e) &&
      (fix go (d : dict) : bool :=
         match d with
         | [] => true
         | (k, x) :: d' => match dget k e with Some y => py_eqb x y | None => false end && go d'
         end) d
  | _, _ => match num_of a, num_of b with Some x, Some y => num_eqb x y | _, _ => false end
  end.

Definition is_str (s : string) (o : option val) : bool :=
  match o with Some (VStr t) => String.eqb s t | _ => false end.

(** ** Printing *)

Definition dquote : ascii := "034".
Definition bslash : ascii := "092".

Definition hex_char (d : N) : ascii := if (d <? 10)%N then chr (48 + d) else chr (87 + d).

(** [ensure_ascii]: printable ASCII is copied, the rest is escaped. *)
Definition esc_char (c : ascii) : string :=
  let n := code c in
  if Ascii.eqb c dquote then String bslash (String dquote "")
  else if Ascii.eqb c bslash then String bslash (String bslash "")
  else if in_range 32 126 c then String c ""
  else if (n =? 10)%N then String bslash "n"
  else if (n =? 13)%N then String bslash "r"
  else if (n =? 9)%N then String bslash "t"
  else if (n =? 12)%N then String bslash "f"
  else if (n =? 8)%N then String bslash "b"
  else String bslash (String "u" (String "0" (String "0"
         (String (hex_char (n / 16)) (String (hex_char (n mod 16)) ""))))).
Fixpoint esc (s : string) : string :=
  match s with EmptyString => "" | String c s' => esc_char c ++ esc s' end.
Definition print_str (s : string) : string :=
  String dquote (esc s ++ String dquote "").

(** The fraction digits of [FFin m k], padded with zeros to k+1 places. *)
Fixpoint frac_digits (k : nat) (n : N) : string :=
  match k with
  | O => ""
  | S k' => String (digit_char (n / 10 ^ N.of_nat k' mod 10)) (frac_digits k' n)
  end.
Definition print_float (f : pyfloat) : string :=
  match f with
  | FNan => "NaN"
  | FInf false => "Infinity"
  | FInf true => "-Infinity"
  | FFin m k =>
      let n := Z.abs_N m in
      (if (m <? 0)%Z then "-" else "")
      ++ show_N (n / 10 ^ N.of_nat (S k)) ++ "." ++ frac_digits (S k) n
  end.

Fixpoint print (v : val) : string :=
  match v with
  | VNull => "null"
  | VBool true => "true"
  | VBool false => "false"
  | VInt z => show_Z z
  | VFloat f => print_float f
  | VStr s => print_str s
  | VList [] => "[]"
  | VList (x :: l) =>
      "[" ++ print x ++
      (fix go (l : list val) : string :=
         match l with [] => "]" | y :: l' => "," ++ print y ++ go l' end) l
  | VDict [] => "{}"
  | VDict ((k, x) :: d) =>
      "{" ++ print_str k ++ ":" ++ print x ++
      (fix go (d : dict) : string :=
         match d with
         | [] => "}"
         | (k', y) :: d' => "," ++ print_str k' ++ ":" ++ print y ++ go d'
         end) d
  end.

(** [sort_keys]: every dict is printed in the order of its keys. *)
Fixpoint insert_key (kv : string * val) (d : dict) : dict :=
  match d with
  | [] => [kv]
  | kv' :: d' => if String.leb kv.1 kv'.1 then kv :: d else kv' :: insert_key kv d'
  end.
Fixpoint sort_keys (d : dict) : dict :=
  match d with [] => [] | kv :: d' => insert_key kv (sort_keys d') end.
Fixpoint canon (v : val) : val :=
  match v with
  | VList l => VList (map canon l)
  | VDict d => VDict (sort_keys (map (fun kv => (kv.1, canon kv.2)) d))
  | _ => v
  end.

(** [json.dumps(v, sort_keys=True, separators=(",", ":"))]. *)
Definition dumps (v : val) : string := print (canon v).

(** ** Parsing: [json.loads]

    [None] is Python's [ValueError].  Escapes of code points above 255, which a
    string of the model cannot hold, are refused as well. *)

Definition json_ws (c : ascii) : bool :=
  (code c =? 32)%N || (code c =? 9)%N || (code c =? 10)%N || (code c =? 13)%N.
Definition skip_ws : string -> string := lstrip json_ws.

Fixpoint span (p : ascii -> bool) (s : string) : string * string :=
  match s with
  | EmptyString => ("", "")
  | String c s' => if p c then let '(a, b) := span p s' in (String c a, b) else ("", s)
  end.
Definition num_char (c : ascii) : bool :=
  is_dec c || Ascii.eqb c "-" || Ascii.eqb c "+" || Ascii.eqb c "." ||
  Ascii.eqb c "e" || Ascii.eqb c "E".

(** A decimal integer literal: no leading zero. *)
Definition int_lit (s : string) : option N :=
  match s with
  | "" => None
  | String c s' =>
      if negb (str_all is_dec s) then None
      else if Ascii.eqb c "0" && negb (String.eqb s' "") then None
      else Some (read_N s)
  end.
Definition apply_sign (neg : bool) (z : Z) : Z := if neg then (- z)%Z else z.

Definition exp_lit (s : string) : option Z :=
  let '(neg, t) := match s with
                   | String "+" t => (false, t)
                   | String "-" t => (true, t)
                   | _ => (false, s) end in
  if str_all is_dec t && negb (String.eqb t "")
  then Some (apply_sign neg (Z.of_N (read_N t))) else None.

(** m * 10^e / 10^k as a float. *)
Definition mk_float (m : Z) (k : nat) (e : Z) : pyfloat :=
  let d := (Z.of_nat k - e)%Z in
  if (d <=? 0)%Z then FFin (m * 10 ^ (1 - d)) 0
  else FFin m (Z.to_nat (d - 1)).

Definition parse_num (tok : string) : option val :=
  let '(neg, t) := match tok with String "-" t => (true, t) | _ => (false, tok) end in
  let '(ip, r) := span is_dec t in
  match int_lit ip with
  | None => None
  | Some n =>
      match r with
      | "" => Some (VInt (apply_sign neg (Z.of_N n)))
      | String "." r' =>
          let '(fp, r'') := span is_dec r' in
          if String.eqb fp "" then None else
          let m := apply_sign neg (Z.of_N (read_N (ip ++ fp))) in
          match r'' with
          | "" => Some (VFloat (FFin m (pred (String.length fp))))
          | String c e =>
              if Ascii.eqb c "e" || Ascii.eqb c "E" then
                x ← exp_lit e; Some (VFloat (mk_float m (String.length fp) x))
              else None
          end
      | String c e =>
          if Ascii.eqb c "e" || Ascii.eqb c "E" then
            x ← exp_lit e; Some (VFloat (mk_float (apply_sign neg (Z.of_N n)) 0 x))
          else None
      end
  end.

Definition hex_val (c : ascii) : option N :=
  if is_dec c then Some (digit_val c)
  else if in_range 97 102 c then Some (code c - 87)%N
  else if in_range 65 70 c then Some (code c - 55)%N else None.

(** The rest of a string literal after its opening quote. *)
Fixpoint parse_str (s : string) : option (string * string) :=
  match s with
  | "" => None
  | String c s' =>
      if Ascii.eqb c dquote then Some ("", s')
      else if Ascii.eqb c bslash then
        match s' with
        | "" => None
        | String e s2 =>
            let one (x : ascii) := '(t, r) ← parse_str s2; Some (String x t, r) in
            if Ascii.eqb e dquote then one dquote
            else if Ascii.eqb e bslash then one bslash
            else if Ascii.eqb e "/" then one "/"%char
            else if Ascii.eqb e "b" then one (chr 8)
            else if Ascii.eqb e "f" then one (chr 12)
            else if Ascii.eqb e "n" then one (chr 10)
            else if Ascii.eqb e "r" then one (chr 13)
            else if Ascii.eqb e "t" then one (chr 9)
            else if Ascii.eqb e "u" then
              match s2 with
              | String "0" (String "0" (String h1 (String h2 s3))) =>
                  a ← hex_val h1; b ← hex_val h2;
                  '(t, r) ← parse_str s3; Some (String (chr (16 * a + b)) t, r)
              | _ => None
              end
            else None
        end
      else if (code c <? 32)%N then None
      else if is_ascii c then '(t, r) ← parse_str s'; Some (String c t, r)
      else (* a two-byte UTF-8 sequence *)
        match s' with
        | String d s2 =>
            if in_range 194 195 c && in_range 128 191 d then
              '(t, r) ← parse_str s2; Some (String (chr ((code c - 192) * 64 + (code d - 128))) t, r)
            else None
        | "" => None
        end
  end.

Definition strip_prefix (p s : string) : option string :=
  if String.prefix p s then Some (drop (String.length p) s) else None.

Fixpoint parse_value (fuel : nat) (s : string) : option (val * string) :=
  match fuel with
  | O => None
  | S f =>
      match s with
      | "" => None
      | String c r =>
          if Ascii.eqb c dquote then '(t, r') ← parse_str r; Some (VStr t, r')
          else if Ascii.eqb c "{" then
            match skip_ws r with
            | String "}" r' => Some (VDict [], r')
            | r' => parse_members f r' []
            end
          else if Ascii.eqb c "[" then
            match skip_ws r with
            | String "]" r' => Some (VList [], r')
            | r' => parse_elems f r' []
            end
          else match strip_prefix "null" s with Some r' => Some (VNull, r') | None =>
               match strip_prefix "true" s with Some r' => Some (VBool true, r') | None =>
               match strip_prefix "false" s with Some r' => Some (VBool false, r') | None =>
               match strip_prefix "NaN" s with Some r' => Some (VFloat FNan, r') | None =>
               match strip_prefix "Infinity" s with Some r' => Some (VFloat (FInf false), r') | None =>
               match strip_prefix "-Infinity" s with Some r' => Some (VFloat (FInf true), r') | None =>
               let '(tok, r') := span num_char s in v ← parse_num tok; Some (v, r')
               end end end end end end
      end
  end
with parse_elems (fuel : nat) (s : string) (acc : list val) : option (val * string) :=
  match fuel with
  | O => None
  | S f =>
      '(v, r) ← parse_value f s;
      match skip_ws r with
      | String "," r' => parse_elems f (skip_ws r') (acc ++ [v])%list
      | String "]" r' => Some (VList (acc ++ [v])%list, r')
      | _ => None
      end
  end
with parse_members (fuel : nat) (s : string) (acc : dict) : option (val * string) :=
  match fuel with
  | O => None
  | S f =>
      match s with
      | String c r =>
          if Ascii.eqb c dquote then
            '(k, r1) ← parse_str r;
            match skip_ws r1 with
            | String ":" r2 =>
                '(v, r3) ← parse_value f (skip_ws r2);
                match skip_ws r3 with
                | String "," r4 => parse_members f (skip_ws r4) (dset k v acc)
                | String "}" r4 => Some (VDict (dset k v acc), r4)
                | _ => None
                end
            | _ => None
            end
          else None
      | "" => None
      end
  end.

(** Every nested call of the parser consumes a character of the text. *)
Definition loads (s : string) : option val :=
  let t := skip_ws s in
  '(v, r) ← parse_value (S (2 * String.length t)) t;
  if String.eqb (skip_ws r) "" then Some v else None.
