(* ===== verification/JsonFacts.v ===== *)
(** * Facts about dictionaries and the JSON round trip *)

From S2P Require Import Prelude PyStr Json.

(** ** Dictionaries *)

Lemma dget_dset k k' v d :
  dget k (dset k' v d) = if String.eqb k k' then Some v else dget k d.
Proof.
  induction d as [|[k2 v2] d IH]; cbn.
  - by destruct (String.eqb k k').
  - destruct (String.eqb k' k2) eqn:E; cbn.
    + apply String.eqb_eq in E as ->. by destruct (String.eqb k k2).
    + rewrite IH. destruct (String.eqb k k2) eqn:E2; [|done].
      apply String.eqb_eq in E2 as ->. destruct (String.eqb k2 k') eqn:E3; [|done].
      apply String.eqb_eq in E3 as ->. by rewrite String.eqb_refl in E.
Qed.
Lemma dget_dset_eq k v d : dget k (dset k v d) = Some v.
Proof. by rewrite dget_dset, String.eqb_refl. Qed.
Lemma dget_dset_ne k k' v d : k <> k' -> dget k (dset k' v d) = dget k d.
Proof. intros. rewrite dget_dset. by destruct (String.eqb_spec k k'). Qed.

Lemma dget_elem k v d : dget k d = Some v -> (k, v) ∈ d.
Proof.
  induction d as [|[k' v'] d IH]; cbn; [done|].
  destruct (String.eqb_spec k k') as [->|]; intros; simp_res; [by left | right; auto].
Qed.
Lemma dget_None k d : dget k d = None <-> k ∉ dkeys d.
Proof.
  unfold dkeys. induction d as [|[k' v'] d IH]; cbn; [set_solver|].
  destruct (String.eqb_spec k k') as [->|]; set_solver.
Qed.
Lemma elem_dget k v d : NoDup (dkeys d) -> (k, v) ∈ d -> dget k d = Some v.
Proof.
  induction d as [|[k' v'] d IH]; cbn; [set_solver|].
  intros [Hk Hd]%NoDup_cons [[= -> ->]|Hin]%elem_of_cons; [by rewrite String.eqb_refl|].
  destruct (String.eqb_spec k k') as [->|]; [|auto].
  destruct Hk. apply list_elem_of_fmap. by exists (k', v).
Qed.

Lemma dkeys_dset k v d :
  dkeys (dset k v d) = if dmem k d then dkeys d else (dkeys d ++ [k])%list.
Proof.
  unfold dkeys, dmem. induction d as [|[k' v'] d IH]; cbn; [done|].
  destruct (String.eqb_spec k k') as [->|]; cbn; [done|].
  rewrite IH. by destruct (dget k d).
Qed.
Lemma NoDup_dset k v d : NoDup (dkeys d) -> NoDup (dkeys (dset k v d)).
Proof.
  intros H. rewrite dkeys_dset. unfold dmem. destruct (dget k d) eqn:E; [done|].
  apply dget_None in E. apply NoDup_app; split_and!; [done|set_solver|apply NoDup_singleton].
Qed.

Lemma dset_fresh k v d : k ∉ dkeys d -> dset k v d = (d ++ [(k, v)])%list.
Proof.
  unfold dkeys. induction d as [|[k' v'] d IH]; cbn; [done|].
  intros. destruct (String.eqb_spec k k') as [->|]; [set_solver|].
  f_equal. apply IH. set_solver.
Qed.

(** ** Sorting *)

Lemma insert_key_Permutation kv d : insert_key kv d ≡ₚ kv :: d.
Proof.
  induction d as [|kv' d IH]; cbn; [done|].
  destruct (String.leb _ _); [done|]. rewrite IH. apply Permutation_swap.
Qed.
Lemma sort_keys_Permutation d : sort_keys d ≡ₚ d.
Proof. induction d as [|kv d IH]; cbn; [done|]. by rewrite insert_key_Permutation, IH. Qed.
Lemma dget_Permutation k d e : NoDup (dkeys d) -> d ≡ₚ e -> dget k d = dget k e.
Proof.
  intros Hnd HP.
  assert (NoDup (dkeys e)) by (unfold dkeys in *; by rewrite <- HP).
  destruct (dget k e) eqn:E.
  - apply elem_dget; [done|]. rewrite HP. by apply dget_elem.
  - apply dget_None in E. apply dget_None. unfold dkeys in *. by rewrite HP.
Qed.

(** A value is well formed when the keys of its dicts are unique. *)
Inductive wf : val -> Prop :=
| wf_null : wf VNull
| wf_bool b : wf (VBool b)
| wf_int z : wf (VInt z)
| wf_float f : wf (VFloat f)
| wf_str s : wf (VStr s)
| wf_list l : Forall wf l -> wf (VList l)
| wf_dict d : NoDup (dkeys d) -> Forall (fun kv => wf kv.2) d -> wf (VDict d).
#[export] Hint Constructors wf : json.

Definition canon_d (d : dict) : dict := sort_keys (map (fun kv => (kv.1, canon kv.2)) d).

Lemma dkeys_map (f : val -> val) d : dkeys (map (fun kv => (kv.1, f kv.2)) d) = dkeys d.
Proof. unfold dkeys. induction d as [|[k v] d IH]; cbn; congruence. Qed.
Lemma dget_map (f : val -> val) k d :
  dget k (map (fun kv => (kv.1, f kv.2)) d) = f <$> dget k d.
Proof. induction d as [|[k' v] d IH]; cbn; [done|]. by destruct (String.eqb k k'). Qed.

Lemma NoDup_canon_d d : NoDup (dkeys d) -> NoDup (dkeys (canon_d d)).
Proof.
  intros. unfold canon_d, dkeys. rewrite sort_keys_Permutation.
  by rewrite (dkeys_map canon).
Qed.
Lemma dget_canon_d k d : NoDup (dkeys d) -> dget k (canon_d d) = canon <$> dget k d.
Proof.
  intros. unfold canon_d. rewrite <- (dget_Permutation k (map (fun kv => (kv.1, canon kv.2)) d)).
  - apply dget_map.
  - by rewrite (dkeys_map canon).
  - by rewrite sort_keys_Permutation.
Qed.
Lemma wf_canon v : wf v -> wf (canon v).
Proof.
  induction v as [|b|z|f|s|l HL|d HD] using val_ind'; cbn [canon]; auto with json;
    inversion 1 as [| | | | |? HW|? HN HW]; subst; constructor.
  - apply Forall_fmap. apply (Forall_both _ _ _ _ HL HW). unfold compose; simpl; auto.
  - by apply NoDup_canon_d.
  - rewrite sort_keys_Permutation. apply Forall_fmap.
    apply (Forall_both _ _ _ _ HD HW). unfold compose; simpl; auto.
Qed.

(** ** Round trip *)

Fixpoint need (v : val) : nat :=
  match v with
  | VList l => S (sum_list_with (fun x => S (need x)) l)
  | VDict d => S ((fix go (d : dict) : nat :=
                     match d with [] => 0 | (_, x) :: d' => S (need x) + go d' end) d)
  | _ => 1
  end.

Definition delim (s : string) : bool :=
  match s with
  | "" => true
  | String c _ => Ascii.eqb c "," || Ascii.eqb c "]" || Ascii.eqb c "}"
  end.

Lemma delim_not_num rest : delim rest = true ->
  match rest with "" => True | String c _ => num_char c = false end.
Proof.
  destruct rest as [|c r]; [done|]. cbn. intros H.
  repeat (apply orb_true_iff in H as [H|H]); apply Ascii.eqb_eq in H as ->; done.
Qed.

Lemma span_append p s rest :
  str_all p s = true ->
  match rest with "" => True | String c _ => p c = false end ->
  span p (s ++ rest) = (s, rest).
Proof.
  intros Hs Hr. induction s as [|c s IH]; cbn in *.
  - destruct rest; cbn; [done|]. by rewrite Hr.
  - bools. rewrite H, IH; auto.
Qed.

Lemma parse_str_esc_char c t :
  parse_str (esc_char c ++ t) = ('(u, r) ← parse_str t; Some (String c u, r)).
Proof. all_ascii c; reflexivity. Qed.
Lemma parse_str_esc s rest : parse_str (esc s ++ String dquote rest) = Some (s, rest).
Proof.
  induction s as [|c s IH]; [done|]. cbn [esc].
  by rewrite append_assoc, parse_str_esc_char, IH.
Qed.

(** *** Numbers *)

Lemma dec_num c : is_dec c = true -> num_char c = true.
Proof. intros H. unfold num_char. by rewrite H. Qed.
Lemma dec_range c : is_dec c = true -> (48 <= code c <= 57)%N.
Proof. unfold is_dec, in_range. intros. bools. done. Qed.
Lemma eqb_code c d : Ascii.eqb c d = (code c =? code d)%N.
Proof.
  destruct (Ascii.eqb_spec c d) as [->|H]; [by rewrite N.eqb_refl|].
  symmetry. apply N.eqb_neq. intros E. apply H.
  by rewrite <- (chr_code c), <- (chr_code d), E.
Qed.
Lemma dec_neq c d : is_dec c = true -> is_dec d = false -> Ascii.eqb c d = false.
Proof. intros. destruct (Ascii.eqb_spec c d); congruence. Qed.

Lemma int_lit_show n : int_lit (show_N n) = Some n.
Proof.
  destruct (show_N_head n) as (d & s & Hd & Hs & Hz).
  pose proof (show_N_dec n) as Hdec. pose proof (read_show_N n) as Hr.
  rewrite Hs in *. unfold int_lit. rewrite Hdec, Hr. cbn [negb].
  destruct (Ascii.eqb (digit_char d) "0") eqn:E; [|done].
  assert (d = 0)%N as ->.
  { rewrite eqb_code in E. unfold digit_char in E. rewrite code_chr in E by lia.
    apply N.eqb_eq in E. cbn in E. lia. }
  rewrite (Hz eq_refl) in Hs. injection Hs as <-. done.
Qed.

(** The text of a number: an optional sign and then digits. *)
Definition num_text (tok : string) : Prop :=
  exists neg ip more,
    tok = (if neg : bool then "-" else "") ++ show_N ip ++ more /\
    str_all num_char more = true.

Lemma num_text_num tok : num_text tok -> str_all num_char tok = true.
Proof.
  intros (neg & ip & more & -> & Hm). rewrite !str_all_append, Hm.
  rewrite (str_all_impl _ _ _ dec_num (show_N_dec ip)). by destruct neg.
Qed.

Lemma prefix_head_ne (c d : ascii) p s :
  Ascii.eqb c d = false -> String.prefix (String d p) (String c s) = false.
Proof.
  intros H. cbn. destruct (ascii_dec d c) as [->|]; [|done].
  by rewrite Ascii.eqb_refl in H.
Qed.

Lemma prefix_head_eq (c : ascii) p s :
  String.prefix (String c p) (String c s) = String.prefix p s.
Proof. cbn. by destruct (ascii_dec c c). Qed.

(** Decide comparisons of literal characters. *)
Ltac eqb_lit :=
  repeat match goal with
  | |- context [Ascii.eqb ?a ?b] =>
      let r := eval vm_compute in (Ascii.eqb a b) in
      match r with true => idtac | false => idtac end;
      change (Ascii.eqb a b) with r
  end; cbv beta iota.

Lemma parse_value_num f tok rest :
  num_text tok -> delim rest = true ->
  parse_value (S f) (tok ++ rest) = (v ← parse_num tok; Some (v, rest)).
Proof.
  intros Htok Hrest.
  assert (Hspan : span num_char (tok ++ rest) = (tok, rest)).
  { apply span_append; [by apply num_text_num | by apply delim_not_num]. }
  destruct Htok as (neg & ip & more & -> & _).
  destruct (show_N_head ip) as (d & s & Hd & Hs & _). rewrite Hs in *.
  pose proof (digit_char_dec d Hd) as Hdec.
  set (e := digit_char d) in *. clearbody e.
  destruct neg; cbn [String.append] in *.
  - unfold parse_value, strip_prefix.
    rewrite !prefix_head_ne by reflexivity. eqb_lit.
    rewrite prefix_head_eq, prefix_head_ne by (by apply dec_neq).
    by rewrite Hspan.
  - unfold parse_value, strip_prefix.
    rewrite !prefix_head_ne by (by apply dec_neq).
    rewrite !(dec_neq e) by done. by rewrite Hspan.
Qed.

Lemma dec_not_minus e s :
  is_dec e = true ->
  match String e s with String "-" t => (true, t) | _ => (false, String e s) end = (false, String e s).
Proof. all_ascii e; done. Qed.

Lemma strip_sign (neg : bool) n more :
  let tok := (if neg then "-" else "") ++ show_N n ++ more in
  match tok with String "-" t => (true, t) | _ => (false, tok) end = (neg, show_N n ++ more).
Proof.
  destruct (show_N_head n) as (d & s & Hd & Hs & _). rewrite Hs.
  destruct neg; cbn [String.append]; [done|].
  by apply dec_not_minus, digit_char_dec.
Qed.

Lemma parse_show_Z z : num_text (show_Z z) /\ parse_num (show_Z z) = Some (VInt z).
Proof.
  assert (Heq : show_Z z = (if (z <? 0)%Z then "-" else "") ++ show_N (Z.abs_N z) ++ "").
  { rewrite append_nil_r. by destruct z. }
  rewrite Heq. split; [by exists (z <? 0)%Z, (Z.abs_N z), ""|].
  unfold parse_num. rewrite strip_sign.
  rewrite span_append by (done || apply show_N_dec).
  rewrite int_lit_show. do 2 f_equal. unfold apply_sign.
  destruct (Z.ltb_spec z 0); lia.
Qed.

Lemma frac_digits_spec k n :
  str_all is_dec (frac_digits k n) = true /\ String.length (frac_digits k n) = k /\
  forall a, read_N_acc a (frac_digits k n) = (a * 10 ^ N.of_nat k + n mod 10 ^ N.of_nat k)%N.
Proof.
  induction k as [|k IH]; cbn [frac_digits].
  - split_and!; [done|done|]. intros a. cbn. rewrite N.mod_1_r. lia.
  - destruct IH as (H1 & H2 & H3).
    pose proof (N.mod_lt (n / 10 ^ N.of_nat k) 10 ltac:(lia)) as Hm.
    cbn [str_all String.length read_N_acc]. rewrite digit_char_dec, H1, H2 by done.
    split_and!; [done|done|]. intros a. rewrite H3, digit_val_char by done.
    rewrite Nat2N.inj_succ, N.pow_succ_r'.
    rewrite (N.mul_comm 10 (10 ^ N.of_nat k)).
    rewrite (N.Div0.mod_mul_r n (10 ^ N.of_nat k) 10). lia.
Qed.

Lemma read_N_acc_append a s t : read_N_acc a (s ++ t) = read_N_acc (read_N_acc a s) t.
Proof. revert a. induction s; cbn; auto. Qed.

Lemma parse_print_fin m k :
  num_text (print_float (FFin m k)) /\
  parse_num (print_float (FFin m k)) = Some (VFloat (FFin m k)).
Proof.
  unfold print_float. set (n := Z.abs_N m).
  destruct (frac_digits_spec (S k) n) as (H1 & H2 & H3).
  set (fd := frac_digits (S k) n) in *. clearbody fd.
  split.
  - eexists (m <? 0)%Z, (n / 10 ^ N.of_nat (S k))%N, ("." ++ fd). split; [done|].
    cbn [str_all String.append]. by rewrite (str_all_impl _ _ _ dec_num H1).
  - unfold parse_num. rewrite strip_sign.
    rewrite span_append by (done || apply show_N_dec).
    rewrite int_lit_show. cbn [String.append].
    pose proof (span_append is_dec fd "" H1 I) as Hsp. rewrite append_nil_r in Hsp.
    rewrite Hsp. assert (String.eqb fd "" = false) as -> by (by destruct fd).
    rewrite H2. cbn [pred]. do 3 f_equal.
    unfold read_N. rewrite read_N_acc_append, H3. fold (read_N (show_N (n / 10 ^ N.of_nat (S k)))).
    rewrite read_show_N. unfold apply_sign.
    pose proof (N.div_mod n (10 ^ N.of_nat (S k)) ltac:(apply N.pow_nonzero; lia)).
    destruct (Z.ltb_spec m 0); lia.
Qed.

(** *** Values *)

Lemma num_text_head tok : num_text tok ->
  exists c s, tok = String c s /\ json_ws c = false /\ Ascii.eqb c "]" = false /\ Ascii.eqb c "}" = false.
Proof.
  intros (neg & ip & more & -> & _).
  destruct (show_N_head ip) as (d & s & Hd & Hs & _). rewrite Hs.
  destruct neg; cbn; [by eexists _, _|].
  eexists _, _. split; [done|]. pose proof (digit_char_dec d Hd) as H.
  apply dec_range in H. rewrite !eqb_code. unfold json_ws.
  rewrite !orb_false_iff, !N.eqb_neq. cbn. lia.
Qed.

Lemma print_head v :
  exists c s, print v = String c s /\ json_ws c = false /\ Ascii.eqb c "]" = false /\ Ascii.eqb c "}" = false.
Proof.
  destruct v as [|[]|z|[m k|[]|]|s|[|x l]|[|[k x] d]]; try by eexists _, _.
  - apply num_text_head, parse_show_Z.
  - apply num_text_head, parse_print_fin.
Qed.
Lemma skip_ws_head c s : json_ws c = false -> skip_ws (String c s) = String c s.
Proof. intros H. unfold skip_ws. cbn. by rewrite H. Qed.
Lemma skip_ws_print v rest : skip_ws (print v ++ rest) = print v ++ rest.
Proof. destruct (print_head v) as (c & s & -> & H & _). by apply skip_ws_head. Qed.

(** The tails printed after the first element of a list or a dict. *)
Definition tail_l : list val -> string :=
  fix go (l : list val) : string :=
    match l with [] => "]" | y :: l' => "," ++ print y ++ go l' end.
Definition tail_d : dict -> string :=
  fix go (d : dict) : string :=
    match d with
    | [] => "}"
    | (k', y) :: d' => "," ++ print_str k' ++ ":" ++ print y ++ go d'
    end.
Definition need_d : dict -> nat :=
  fix go (d : dict) : nat := match d with [] => 0 | (_, x) :: d' => S (need x) + go d' end.

Definition parses (v : val) : Prop := forall fuel rest,
  need v <= fuel -> delim rest = true ->
  parse_value fuel (print v ++ rest) = Some (v, rest).

Lemma parse_elems_print x l : forall fuel acc rest,
  Forall parses (x :: l) -> sum_list_with (fun x => S (need x)) (x :: l) <= fuel ->
  parse_elems fuel (print x ++ tail_l l ++ rest) acc = Some (VList (acc ++ x :: l)%list, rest).
Proof.
  revert x. induction l as [|y l IH]; intros x fuel acc rest HF Hfuel;
    (destruct fuel as [|f]; [cbn in Hfuel; lia|]);
    apply Forall_cons in HF as [Hx HF]; cbn [sum_list_with] in Hfuel;
    cbn [parse_elems tail_l]; rewrite Hx by (done || lia);
    cbn [mbind option_bind String.append]; rewrite skip_ws_head by done.
  - done.
  - rewrite append_assoc, skip_ws_print, IH by (done || cbn; lia).
    by rewrite <- app_assoc.
Qed.

Lemma parse_members_print k x d : forall fuel acc rest,
  Forall (fun kv => parses kv.2) ((k, x) :: d) -> need_d ((k, x) :: d) <= fuel ->
  NoDup (dkeys (acc ++ (k, x) :: d)%list) ->
  parse_members fuel (print_str k ++ ":" ++ print x ++ tail_d d ++ rest) acc
  = Some (VDict (acc ++ (k, x) :: d)%list, rest).
Proof.
  revert k x. induction d as [|[k2 y] d IH]; intros k x fuel acc rest HF Hfuel Hnd;
    (destruct fuel as [|f]; [cbn in Hfuel; lia|]);
    apply Forall_cons in HF as [Hx HF]; cbn [need_d] in Hfuel; cbn [snd] in Hx;
    unfold print_str; cbn [parse_members String.append]; rewrite Ascii.eqb_refl;
    rewrite append_assoc; cbn [String.append]; rewrite parse_str_esc;
    cbn [mbind option_bind tail_d]; rewrite skip_ws_head by done;
    rewrite skip_ws_print, Hx by (done || lia);
    cbn [mbind option_bind String.append]; rewrite skip_ws_head by done;
    rewrite dset_fresh by (unfold dkeys in *; rewrite fmap_app, NoDup_app in Hnd; set_solver).
  - done.
  - assert (Hacc : ((acc ++ [(k, x)]) ++ (k2, y) :: d)%list = (acc ++ (k, x) :: (k2, y) :: d)%list)
      by (by rewrite <- app_assoc).
    pose proof (IH k2 y f (acc ++ [(k, x)])%list rest HF ltac:(cbn; lia) ltac:(by rewrite Hacc)) as IH'.
    rewrite Hacc in IH'. unfold print_str in *. cbn [String.append] in *.
    rewrite skip_ws_head by done.
    etransitivity; [|exact IH']. rewrite !append_assoc; cbn [String.append]; by rewrite ?append_assoc.
Qed.

Lemma parse_print v : wf v -> parses v.
Proof.
  induction v as [|b|z|f|s|l HL|d HD] using val_ind'; intros Hwf fuel rest Hfuel Hrest;
    (destruct fuel as [|fl]; [cbn in Hfuel; lia|]).
  - by destruct rest.
  - by destruct b, rest.
  - destruct (parse_show_Z z) as [H1 H2]. cbn [print]. by rewrite parse_value_num, H2.
  - destruct f as [m k|[]|]; [|by destruct rest..].
    destruct (parse_print_fin m k) as [H1 H2]. cbn [print]. by rewrite parse_value_num, H2.
  - cbn [print]. unfold print_str. cbn [String.append parse_value]. rewrite Ascii.eqb_refl.
    rewrite append_assoc. cbn [String.append]. by rewrite parse_str_esc.
  - inversion Hwf as [| | | | |? HW|]; subst. destruct l as [|x l]; [done|].
    cbn [print]. fold tail_l. cbn [String.append parse_value]. eqb_lit.
    rewrite append_assoc, skip_ws_print.
    destruct (print_head x) as (c & s & Hp & _ & Hc & _).
    assert (Forall parses (x :: l)).
    { eapply Forall_both; [exact HL|exact HW|]; auto. }
    pose proof (parse_elems_print x l fl [] rest H (le_S_n _ _ Hfuel)) as HP.
    rewrite Hp in *. cbn [String.append] in *.
    all_ascii c; first [discriminate Hc | exact HP].
  - inversion Hwf as [| | | | | |? HN HW]; subst. destruct d as [|[k x] d]; [done|].
    cbn [print]. fold tail_d. cbn [String.append parse_value]. eqb_lit.
    assert (Forall (fun kv => parses kv.2) ((k, x) :: d)).
    { eapply Forall_both; [exact HD|exact HW|]; auto. }
    pose proof (parse_members_print k x d fl [] rest H (le_S_n _ _ Hfuel) HN) as HP.
    unfold print_str in *. cbn [String.append] in *. rewrite skip_ws_head by done.
    etransitivity; [|exact HP]. cbv beta iota delta [dquote].
    repeat (rewrite !append_assoc; cbn [String.append]). done.
Qed.

Lemma need_bound v : need v <= 2 * String.length (print v) + 1.
Proof.
  induction v as [|b|z|f|s|l HL|d HD] using val_ind'; try (cbn; lia).
  - destruct l as [|x l]; [cbn; lia|]. cbn [need print]. fold tail_l.
    assert (HT : sum_list_with (fun x => S (need x)) l <= 2 * String.length (tail_l l)).
    { apply Forall_cons in HL as [_ HL]. induction HL as [|y l Hy HL IH]; [cbn; lia|].
      cbn [sum_list_with tail_l]. rewrite !length_append. cbn [String.length]. lia. }
    apply Forall_cons in HL as [Hx _]. cbn [sum_list_with].
    rewrite !length_append. cbn [String.length]. lia.
  - destruct d as [|[k x] d]; [cbn; lia|]. cbn [need print]. fold tail_d need_d.
    assert (HT : need_d d <= 2 * String.length (tail_d d)).
    { apply Forall_cons in HD as [_ HD]. induction HD as [|[k' y] d Hy HD IH]; [cbn; lia|].
      cbn [need_d tail_d]. rewrite !length_append. cbn [String.length]. cbn [snd] in Hy. lia. }
    apply Forall_cons in HD as [Hx _]. cbn [snd] in Hx.
    rewrite !length_append. cbn [String.length]. lia.
Qed.

Lemma loads_print v : wf v -> loads (print v) = Some v.
Proof.
  intros Hwf. unfold loads. pose proof (skip_ws_print v "") as H. rewrite append_nil_r in H.
  rewrite H. rewrite <- (append_nil_r (print v)) at 2.
  rewrite parse_print; [done|done| |done]. pose proof (need_bound v). lia.
Qed.
Lemma loads_dumps v : wf v -> loads (dumps v) = Some (canon v).
Proof. intros. by apply loads_print, wf_canon. Qed.

(** The printed text is one line of printable ASCII. *)
Definition printable (c : ascii) : bool := in_range 32 126 c.

Lemma esc_printable s : str_all printable (esc s) = true.
Proof.
  induction s as [|c s IH]; [done|]. cbn [esc]. rewrite str_all_append, IH, andb_true_r.
  all_ascii c; reflexivity.
Qed.
Lemma print_str_printable s : str_all printable (print_str s) = true.
Proof. unfold print_str. cbn. by rewrite str_all_append, esc_printable. Qed.
Lemma num_printable c : num_char c = true -> printable c = true.
Proof. all_ascii c; done. Qed.
Lemma print_printable v : str_all printable (print v) = true.
Proof.
  induction v as [|b|z|f|s|l HL|d HD] using val_ind'.
  - done.
  - by destruct b.
  - eapply str_all_impl; [apply num_printable|]. apply num_text_num, parse_show_Z.
  - destruct f as [m k|[]|]; try done.
    eapply str_all_impl; [apply num_printable|]. apply num_text_num, parse_print_fin.
  - apply print_str_printable.
  - destruct l as [|x l]; [done|]. cbn [print]. fold tail_l.
    apply Forall_cons in HL as [Hx HL].
    assert (str_all printable (tail_l l) = true) as Ht.
    { induction HL as [|y l Hy HL IH]; [done|]. cbn [tail_l].
      by rewrite !str_all_append, Hy, IH. }
    by rewrite !str_all_append, Hx, Ht.
  - destruct d as [|[k x] d]; [done|]. cbn [print]. fold tail_d.
    apply Forall_cons in HD as [Hx HD]. cbn [snd] in Hx.
    assert (str_all printable (tail_d d) = true) as Ht.
    { induction HD as [|[k' y] d Hy HD IH]; [done|]. cbn [tail_d snd] in *.
      by rewrite !str_all_append, print_str_printable, Hy, IH. }
    by rewrite !str_all_append, print_str_printable, Hx, Ht.
Qed.

#[global] Arguments loads : simpl never.
#[global] Arguments dumps : simpl never.
#[global] Arguments show_N : simpl never.
