(* ===== verification/JsonExt.v ===== *)
(** * A complete JSON object does not continue

    The parser of [Json] answers the same on a text that goes on, so no complete
    object is the beginning of another text. *)

From S2P Require Import Prelude.
From S2P Require Import PyStr.
From S2P Require Import Json.
From S2P Require Import JsonFacts.

(** ** A parsed text can be continued *)

Lemma strip_prefix_ext p s r x : strip_prefix p s = Some r -> strip_prefix p (s ++ x) = Some (r ++ x).
Proof.
  unfold strip_prefix. destruct (String.prefix p s) eqn:E; [|done]. intros [= <-].
  apply prefix_spec in E as [t ->]. rewrite append_assoc, prefix_append.
  assert (forall u, drop (String.length p) (p ++ u) = u) as Hd by (intros u; induction p; auto).
  by rewrite !Hd.
Qed.
Lemma parse_str_ext_n x : forall n s t r, (String.length s <= n)%nat ->
  parse_str s = Some (t, r) -> parse_str (s ++ x) = Some (t, (r ++ x)%string).
Proof.
  induction n as [|n IH]; intros [|c s] t r Hn; try done; [cbn in Hn; lia|]. cbn in Hn.
  assert (forall s' (g : string -> string), (String.length s' <= n)%nat -> forall t r,
    ('(a, b) ← parse_str s'; Some (g a, b)) = Some (t, r) ->
    ('(a, b) ← parse_str (s' ++ x); Some (g a, b)) = Some (t, (r ++ x)%string)) as Hb.
  { intros s' g Hs' t' r' H. destruct (parse_str s') as [[a b]|] eqn:E; [|done]. cbn in H. injection H as <- <-.
    by rewrite (IH s' a b Hs' E). }
  rewrite append_cons. cbn [parse_str].
  destruct (Ascii.eqb c dquote); [by intros [= <- <-]|]. destruct (Ascii.eqb c bslash).
  - destruct s as [|e s2]; [done|]. rewrite append_cons. cbn in Hn. cbv zeta.
    repeat match goal with |- (if ?b then _ else _) = _ -> _ =>
      destruct b; [try (apply (Hb s2); lia)|] end; [|done].
    intros H. destruct s2 as [|[[] [] [] [] [] [] [] []] s2]; try discriminate H.
    destruct s2 as [|[[] [] [] [] [] [] [] []] s2]; try discriminate H.
    destruct s2 as [|h1 [|h2 s3]]; try discriminate H. rewrite !append_cons.
    destruct (hex_val h1) as [a|]; [|done]. destruct (hex_val h2) as [b|]; [|done]. cbn in H |- *.
    apply (Hb s3 (fun t => String _ t)); [cbn in *; lia|exact H].
  - destruct (code c <? 32)%N; [done|]. destruct (is_ascii c); [apply (Hb s); lia|].
    destruct s as [|e s2]; [done|]. rewrite append_cons.
    destruct (_ && _); [|done]. apply (Hb s2); cbn in *; lia.
Qed.
Lemma parse_str_ext x s t r : parse_str s = Some (t, r) -> parse_str (s ++ x) = Some (t, (r ++ x)%string).
Proof. by apply (parse_str_ext_n x (String.length s)). Qed.

Lemma lstrip_ext p s c r x : lstrip p s = String c r -> lstrip p (s ++ x) = String c (r ++ x).
Proof.
  induction s as [|d s IH]; cbn; [done|]. destruct (p d); [exact IH|]. by intros [= -> ->].
Qed.
Lemma lstrip_length p s : (String.length (lstrip p s) <= String.length s)%nat.
Proof. induction s as [|d s IH]; cbn; [done|]. destruct (p d); cbn; lia. Qed.
Lemma span_ext p s a c r x : span p s = (a, String c r) -> span p (s ++ x) = (a, String c (r ++ x)).
Proof.
  revert a. induction s as [|d s IH]; intros a; cbn; [done|]. destruct (p d).
  - destruct (span p s) as [a' b]. intros [= <- ->]. by rewrite (IH a').
  - by intros [= <- -> ->].
Qed.
(** A number is the text of no literal. *)
Lemma parse_num_head tok v : parse_num tok = Some v ->
  exists c t, (tok = String c t \/ tok = String "-" (String c t)) /\ is_dec c = true.
Proof.
  unfold parse_num.
  assert (forall (t : string) (g : string -> string -> N -> option val),
    (let '(ip, r) := span is_dec t in match int_lit ip with None => None | Some n => g ip r n end) = Some v ->
    exists c t', t = String c t' /\ is_dec c = true) as Hs.
  { intros [|c t] g; cbn; [done|]. destruct (is_dec c) eqn:E; [intros _; by exists c, t|done]. }
  cbv zeta. destruct tok as [|c t]; [done|]. destruct (ascii_dec c "-") as [->|Hne].
  - intros H. apply Hs in H as (c & t' & -> & Hc). exists c, t'. auto.
  - intros H. exists c, t. split; [auto|].
    assert (exists g, (let '(ip, r) := span is_dec (String c t) in
              match int_lit ip with None => None | Some n => g ip r n end) = Some v) as [g Hg].
    { destruct c as [[] [] [] [] [] [] [] []]; first [by destruct Hne|eexists (fun ip r n => _); exact H]. }
    apply Hs in Hg as (c' & t' & [= <- <-] & Hc). done.
Qed.

Lemma strip_prefix_Some p s r : strip_prefix p s = Some r -> s = (p ++ r)%string.
Proof.
  unfold strip_prefix. destruct (String.prefix p s) eqn:E; [|done]. intros [= <-].
  apply prefix_spec in E as [t ->]. f_equal. induction p; auto.
Qed.
(** The literal and number branches of [parse_value]. *)
Definition parse_literal (s : string) : option (val * string) :=
  match strip_prefix "null" s with Some r' => Some (VNull, r') | None =>
  match strip_prefix "true" s with Some r' => Some (VBool true, r') | None =>
  match strip_prefix "false" s with Some r' => Some (VBool false, r') | None =>
  match strip_prefix "NaN" s with Some r' => Some (VFloat FNan, r') | None =>
  match strip_prefix "Infinity" s with Some r' => Some (VFloat (FInf false), r') | None =>
  match strip_prefix "-Infinity" s with Some r' => Some (VFloat (FInf true), r') | None =>
  let '(tok, r') := span num_char s in v ← parse_num tok; Some (v, r')
  end end end end end end.
Lemma dec_no_literal c s : is_dec c = true ->
  parse_literal (String c s) = let '(tok, r') := span num_char (String c s) in v ← parse_num tok; Some (v, r').
Proof.
  intros Hc. unfold parse_literal, strip_prefix.
  by rewrite !(prefix_head_ne c) by (apply dec_neq; [done|reflexivity]).
Qed.
Lemma minus_no_literal c s : is_dec c = true ->
  parse_literal (String "-" (String c s)) =
  let '(tok, r') := span num_char (String "-" (String c s)) in v ← parse_num tok; Some (v, r').
Proof.
  intros Hc. unfold parse_literal, strip_prefix. rewrite !(prefix_head_ne "-") by reflexivity.
  by rewrite prefix_head_eq, (prefix_head_ne c) by (by apply dec_neq).
Qed.
Lemma parse_literal_ext s v r x : parse_literal s = Some (v, r) -> r <> "" ->
  parse_literal (s ++ x) = Some (v, (r ++ x)%string).
Proof.
  intros H Hr. unfold parse_literal in H.
  repeat match type of H with
  | match strip_prefix ?p s with _ => _ end = _ =>
      let E := fresh "E" in destruct (strip_prefix p s) as [u|] eqn:E;
      [apply strip_prefix_Some in E as ->; injection H as <- <-; cbn; by destruct u|clear E]
  end.
  destruct (span num_char s) as [tok r'] eqn:Es. destruct (parse_num tok) as [n|] eqn:En; [|done].
  cbn in H. injection H as -> ->. destruct r as [|c r]; [done|]. apply (span_ext _ _ _ _ _ x) in Es as Ex.
  assert (exists d t, s = String d t /\ tok = String d (span num_char t).1) as (d & t & -> & Et).
  { destruct (parse_num_head _ _ En) as (d & t & Hd & Hdec). destruct s as [|e s]; cbn in Es.
    - discriminate Es.
    - destruct (num_char e); [|destruct Hd; subst tok; discriminate Es].
      destruct (span num_char s) as [a b] eqn:E. injection Es as <- ->. exists e, s. by rewrite E. }
  destruct (parse_num_head _ _ En) as (e & u & Hd & Hdec).
  assert (parse_literal (String d t ++ x) =
    let '(tok, r') := span num_char (String d t ++ x) in v ← parse_num tok; Some (v, r')) as ->.
  { destruct Hd as [Hd|Hd].
    - rewrite Et in Hd. injection Hd as -> _. by apply dec_no_literal.
    - rewrite Et in Hd. injection Hd as -> Ht. destruct t as [|e' t]; [done|]. cbn in Ht.
      destruct (num_char e'); [|done]. destruct (span num_char t). cbn in Ht. injection Ht as -> _.
      by apply minus_no_literal. }
  rewrite Ex, En. done.
Qed.
Lemma parse_value_cons f c r : parse_value (S f) (String c r) =
  if Ascii.eqb c dquote then '(t, r') ← parse_str r; Some (VStr t, r')
  else if Ascii.eqb c "{" then
    match skip_ws r with String "}" r' => Some (VDict [], r') | r' => parse_members f r' [] end
  else if Ascii.eqb c "[" then
    match skip_ws r with String "]" r' => Some (VList [], r') | r' => parse_elems f r' [] end
  else parse_literal (String c r).
Proof. reflexivity. Qed.
Definition value_ext (f : nat) : Prop := forall s v r x f', (f <= f')%nat -> parse_value f s = Some (v, r) ->
  r <> "" \/ startswith "{" s = true -> parse_value f' (s ++ x) = Some (v, (r ++ x)%string).
Definition elems_ext (f : nat) : Prop := forall s acc v r x f', (f <= f')%nat -> parse_elems f s acc = Some (v, r) ->
  parse_elems f' (s ++ x) acc = Some (v, (r ++ x)%string).
Definition members_ext (f : nat) : Prop := forall s acc v r x f', (f <= f')%nat -> parse_members f s acc = Some (v, r) ->
  parse_members f' (s ++ x) acc = Some (v, (r ++ x)%string).

Lemma elems_ext_S f : value_ext f -> elems_ext f -> elems_ext (S f).
Proof.
  intros HV HE s acc v r x [|f'] Hf; [lia|]. cbn [parse_elems].
  destruct (parse_value f s) as [[v1 r1]|] eqn:E; [|done]. cbn [mbind option_bind].
  destruct (decide (r1 = "")) as [->|Hr1]; [done|].
  rewrite (HV s v1 r1 x f') by (auto; lia). cbn [mbind option_bind]. intros H.
  destruct (skip_ws r1) as [|c u] eqn:Ec; [discriminate H|]. unfold skip_ws in *.
  rewrite (lstrip_ext _ _ _ _ x Ec).
  destruct c as [[] [] [] [] [] [] [] []]; try discriminate H.
  - injection H as <- <-. done.
  - destruct (lstrip json_ws u) as [|d w] eqn:Eu.
    + destruct f; [done|]. cbn in H. destruct f; done.
    + rewrite (lstrip_ext _ _ _ _ x Eu). apply (HE (String d w)); [lia|done].
Qed.
Lemma members_ext_S f : value_ext f -> members_ext f -> members_ext (S f).
Proof.
  intros HV HM [|c s] acc v r x [|f'] Hf; try done; [lia|]. cbn [parse_members String.append].
  destruct (Ascii.eqb c dquote); [|done].
  destruct (parse_str s) as [[k r1]|] eqn:E; [|done]. rewrite (parse_str_ext x _ _ _ E). cbn [mbind option_bind].
  intros H. unfold skip_ws in *. destruct (lstrip json_ws r1) as [|d u] eqn:Ec; [discriminate H|].
  rewrite (lstrip_ext _ _ _ _ x Ec). destruct d as [[] [] [] [] [] [] [] []]; try discriminate H.
  destruct (parse_value f (lstrip json_ws u)) as [[v1 r3]|] eqn:Ev; [|done]. cbn [mbind option_bind] in H.
  destruct (lstrip json_ws u) as [|e w] eqn:Eu; [destruct f; done|]. rewrite (lstrip_ext _ _ _ _ x Eu).
  destruct (decide (r3 = "")) as [->|Hr3]; [done|].
  rewrite <- append_cons, (HV _ v1 r3 x f') by (auto; lia). cbn [mbind option_bind].
  destruct (lstrip json_ws r3) as [|g t] eqn:E3; [discriminate H|]. rewrite (lstrip_ext _ _ _ _ x E3).
  destruct g as [[] [] [] [] [] [] [] []]; try discriminate H.
  - by injection H as <- <-.
  - destruct (lstrip json_ws t) as [|h t'] eqn:Et; [destruct f; done|]. rewrite (lstrip_ext _ _ _ _ x Et).
    apply (HM (String h t')); [lia|done].
Qed.
Lemma head_brace c s : startswith "{" (String c s) = true -> c = "{"%char.
Proof. intros [t [= -> _]]%prefix_spec. done. Qed.
Lemma value_ext_S f : elems_ext f -> members_ext f -> value_ext (S f).
Proof.
  intros HE HM [|c s] v r x [|f'] Hf; try done; [lia|]. rewrite append_cons, !parse_value_cons. intros H Hr.
  destruct (Ascii.eqb c dquote).
  { destruct (parse_str s) as [[t r']|] eqn:E; [|done]. rewrite (parse_str_ext x _ _ _ E). cbn in *. by injection H as <- <-. }
  destruct (Ascii.eqb_spec c "{") as [->|Hnb]; [|destruct (Ascii.eqb_spec c "[") as [->|Hns]].
  - unfold skip_ws in *. destruct (lstrip json_ws s) as [|d u] eqn:Ec; [destruct f; done|].
    rewrite (lstrip_ext _ _ _ _ x Ec).
    destruct d as [[] [] [] [] [] [] [] []]; first [by injection H as <- <-|apply (HM (String _ u)); [lia|exact H]].
  - unfold skip_ws in *. destruct (lstrip json_ws s) as [|d u] eqn:Ec; [destruct f as [|[]]; done|].
    rewrite (lstrip_ext _ _ _ _ x Ec).
    destruct d as [[] [] [] [] [] [] [] []]; first [by injection H as <- <-|apply (HE (String _ u)); [lia|exact H]].
  - rewrite <- append_cons. apply parse_literal_ext; [exact H|]. destruct Hr as [Hr|Hr]; [done|].
    by apply head_brace in Hr.
Qed.
Lemma parser_ext f : value_ext f /\ elems_ext f /\ members_ext f.
Proof.
  induction f as [|f (HV & HE & HM)]; [by split_and!|]. assert (value_ext (S f)) by by apply value_ext_S.
  split_and!; [done|by apply elems_ext_S|by apply members_ext_S].
Qed.
(** A complete object is not the beginning of another text, but for spaces. *)
Lemma loads_object_ext s v x w : startswith "{" s = true -> loads s = Some v -> loads (s ++ x) = Some w ->
  str_all json_ws x = true.
Proof.
  unfold loads. intros Hs. destruct s as [|c s]; [done|].
  apply head_brace in Hs as ->.
  rewrite append_cons, !(skip_ws_head "{") by done. cbv zeta.
  destruct (parse_value (S (2 * String.length (String "{" s))) (String "{" s)) as [[v1 r1]|] eqn:E; [|done].
  cbn [mbind option_bind]. destruct (String.eqb_spec (skip_ws r1) ""); [intros _|done].
  apply (proj1 (parser_ext _) _ _ _ x (S (2 * String.length (String "{" s ++ x)))) in E;
    [|rewrite length_append; lia|right; exact (prefix_append "{" s)]. rewrite <- append_cons, E. cbn [mbind option_bind].
  destruct (String.eqb_spec (skip_ws (r1 ++ x)) "") as [Hx|]; [intros _|done].
  assert (forall u, skip_ws u = "" <-> str_all json_ws u = true) as Hw.
  { induction u as [|d u IHu]; cbn; [done|]. destruct (json_ws d); cbn; [done|by split]. }
  apply Hw in Hx. rewrite str_all_append in Hx. by bools.
Qed.
(** What parses to an object begins with a brace. *)
Lemma elems_list f : forall s acc v r, parse_elems f s acc = Some (v, r) -> exists l, v = VList l.
Proof.
  induction f as [|f IH]; intros s acc v r; [done|]. cbn [parse_elems].
  destruct (parse_value f s) as [[v1 r1]|]; [|done]. cbn [mbind option_bind].
  destruct (skip_ws r1) as [|[[] [] [] [] [] [] [] []] u]; try done.
  - intros [= <- _]. by eexists.
  - apply IH.
Qed.
Lemma literal_scalar s v r d : parse_literal s = Some (v, r) -> v <> VDict d.
Proof.
  unfold parse_literal. intros H.
  repeat match type of H with
  | match strip_prefix ?p s with _ => _ end = _ => destruct (strip_prefix p s); [by injection H as <- _|]
  end.
  destruct (span num_char s) as [tok r']. destruct (parse_num tok) as [n|] eqn:En; [|done].
  cbn in H. injection H as <- _. revert En. unfold parse_num.
  destruct (match tok with String "-" t => (true, t) | _ => (false, tok) end) as [neg t]. destruct (span is_dec t) as [ip q].
  destruct (int_lit ip); [|done]. destruct q as [|c q]; [by intros [= <-]|].
  assert (forall (b : bool) (o : option Z) (g : Z -> pyfloat),
    (if b then x ← o; Some (VFloat (g x)) else None) = Some n -> n <> VDict d) as Ho
    by (intros [] [z|] g; cbn; try done; by intros [= <-]).
  destruct (ascii_dec c ".") as [->|Hc].
  - cbv beta iota. destruct (span is_dec q) as [fp q']. destruct (String.eqb fp ""); [done|].
    destruct q' as [|e q']; [by intros [= <-]|]. apply Ho.
  - intros H. eapply (Ho (Ascii.eqb c "e" || Ascii.eqb c "E")).
    destruct c as [[] [] [] [] [] [] [] []]; first [by destruct Hc|exact H].
Qed.
Lemma loads_object_head c s d : json_ws c = false -> loads (String c s) = Some (VDict d) -> c = "{"%char.
Proof.
  intros Hc. unfold loads. rewrite skip_ws_head by done. cbv zeta.
  destruct (parse_value _ _) as [[v r]|] eqn:E; [|done]. cbn [mbind option_bind].
  destruct (String.eqb _ _); [|done]. intros [= ->]. rewrite parse_value_cons in E.
  destruct (Ascii.eqb c dquote); [by destruct (parse_str s) as [[]|]|].
  destruct (Ascii.eqb_spec c "{") as [->|_]; [done|]. exfalso. destruct (Ascii.eqb c "[").
  - assert (forall u, parse_elems (2 * String.length (String c s)) u [] <> Some (VDict d, r)) as Hn.
    { intros u Hu. by apply elems_list in Hu as [l ?]. }
    destruct (skip_ws s) as [|[[] [] [] [] [] [] [] []] u]; first [discriminate E|by eapply Hn].
  - by apply (literal_scalar _ _ _ d) in E.
Qed.
(** Spaces after a complete object are skipped. *)
Lemma loads_pad s v x : startswith "{" s = true -> loads s = Some v -> str_all json_ws x = true -> loads (s ++ x) = Some v.
Proof.
  unfold loads. intros Hs. destruct s as [|c s]; [done|]. apply head_brace in Hs as ->.
  rewrite append_cons, !(skip_ws_head "{") by done. cbv zeta.
  destruct (parse_value (S (2 * String.length (String "{" s))) (String "{" s)) as [[v1 r1]|] eqn:E; [|done].
  cbn [mbind option_bind]. destruct (String.eqb_spec (skip_ws r1) "") as [Hr|]; [|done]. intros [= ->] Hx.
  apply (proj1 (parser_ext _) _ _ _ x (S (2 * String.length (String "{" s ++ x)))) in E;
    [|rewrite length_append; lia|right; exact (prefix_append "{" s)]. rewrite <- append_cons, E. cbn [mbind option_bind].
  assert (skip_ws (r1 ++ x) = "") as ->; [|done]. unfold skip_ws in *.
  revert Hr Hx. clear. induction r1 as [|c r IH]; cbn.
  - intros _. induction x as [|c x IH]; cbn; [done|]. intros [-> Hx]%andb_true_iff. auto.
  - destruct (json_ws c); [auto|done].
Qed.
