(* ===== verification/Hash.v ===== *)
(** * Hashing: SHA-256 and HMAC-SHA256

    [hashlib.sha256(m).hexdigest()] and [hmac.new(k, m, sha256).hexdigest()]
    behind a class, so that the theorems hold for every digest function with
    64 lower-case hex characters, and their executable standard instance. *)

From S2P Require Import Prelude PyStr Json.

(** ** The interface *)

Definition is_hex64 (s : string) : bool := Nat.eqb (String.length s) 64 && str_all is_lhex s.

Class Digest := {
  sha256 : string -> string;          (** [hashlib.sha256(m).hexdigest()] *)
  hmac_sha256 : string -> string -> string;  (** [hmac.new(key, m, sha256).hexdigest()] *)
  sha256_hex m : is_hex64 (sha256 m) = true;
  hmac_hex k m : is_hex64 (hmac_sha256 k m) = true
}.

(** ** SHA-256 (FIPS 180-4) on bytes *)

Module Sha256.
Local Open Scope N_scope.

Definition w32 (x : N) : N := N.land x 0xffffffff.
Definition add32 (x y : N) : N := w32 (x + y).
Definition rotr (n x : N) : N := N.lor (N.shiftr x n) (w32 (N.shiftl x (32 - n))).
Definition not32 (x : N) : N := N.lxor x 0xffffffff.
Definition ch (x y z : N) : N := N.lxor (N.land x y) (N.land (not32 x) z).
Definition maj (x y z : N) : N := N.lxor (N.land x y) (N.lxor (N.land x z) (N.land y z)).
Definition bsig0 (x : N) : N := N.lxor (rotr 2 x) (N.lxor (rotr 13 x) (rotr 22 x)).
Definition bsig1 (x : N) : N := N.lxor (rotr 6 x) (N.lxor (rotr 11 x) (rotr 25 x)).
Definition ssig0 (x : N) : N := N.lxor (rotr 7 x) (N.lxor (rotr 18 x) (N.shiftr x 3)).
Definition ssig1 (x : N) : N := N.lxor (rotr 17 x) (N.lxor (rotr 19 x) (N.shiftr x 10)).

(** The constants are the first 32 bits of the fractional parts of the cube
    and square roots of the first primes. *)
Definition is_prime (n : N) : bool :=
  forallb (fun d => negb (n mod d =? 0)) (map N.of_nat (seq 2 (N.to_nat n - 2))).
Definition primes (bound : nat) : list N := List.filter is_prime (map N.of_nat (seq 2 bound)).
(** The cube root of [n] rounded down, one bit at a time from bit [bits - 1]. *)
Fixpoint cbrt (bits : nat) (n acc : N) : N :=
  match bits with
  | O => acc
  | S b => let x := acc + N.shiftl 1 (N.of_nat b) in
           cbrt b n (if x * x * x <=? n then x else acc)
  end.
Definition K : list N :=
  Eval vm_compute in map (fun p => w32 (cbrt 36 (N.shiftl p 96) 0)) (primes 310).
Definition H0 : list N :=
  Eval vm_compute in map (fun p => w32 (N.sqrt (N.shiftl p 64))) (firstn 8 (primes 18)).

Fixpoint bytes (s : string) : list N :=
  match s with EmptyString => [] | String c s' => code c :: bytes s' end.
Definition be64 (n : N) : list N :=
  map (fun i => N.land (N.shiftr n (8 * i)) 255) [7; 6; 5; 4; 3; 2; 1; 0].
Definition pad (m : list N) : list N :=
  let len := N.of_nat (length m) in
  let z := (119 - len mod 64) mod 64 in
  (m ++ 128 :: replicate (N.to_nat z) 0 ++ be64 (8 * len))%list.

Fixpoint words (l : list N) : list N :=
  match l with
  | a :: b :: c :: d :: l' =>
      N.lor (N.shiftl a 24) (N.lor (N.shiftl b 16) (N.lor (N.shiftl c 8) d)) :: words l'
  | _ => []
  end.
(** The schedule, most recent word first. *)
Fixpoint extend (n : nat) (ws : list N) : list N :=
  match n with
  | O => ws
  | S n' =>
      let g i := nth i ws 0 in
      extend n' (add32 (add32 (ssig1 (g 1%nat)) (g 6%nat)) (add32 (ssig0 (g 14%nat)) (g 15%nat)) :: ws)
  end.
Definition schedule (block : list N) : list N := rev (extend 48 (rev block)).

Definition round (st : list N) (kw : N * N) : list N :=
  match st with
  | [a; b; c; d; e; f; g; h] =>
      let t1 := add32 (add32 h (bsig1 e)) (add32 (ch e f g) (add32 kw.1 kw.2)) in
      let t2 := add32 (bsig0 a) (maj a b c) in
      [add32 t1 t2; a; b; c; add32 d t1; e; f; g]
  | _ => st
  end.
Definition compress (st block : list N) : list N :=
  zip_with add32 st (foldl round st (zip K (schedule block))).
Fixpoint blocks (n : nat) (st ws : list N) : list N :=
  match n with
  | O => st
  | S n' => match ws with [] => st | _ => blocks n' (compress st (firstn 16 ws)) (skipn 16 ws) end
  end.
Definition digest (m : list N) : list N :=
  let ws := words (pad m) in blocks (length ws) H0 ws.

(** Eight 32-bit words as 64 lower-case hex characters. *)
Definition hex_word (x : N) : string :=
  fold_right (fun i s => String (hex_char (N.land (N.shiftr x (4 * i)) 15)) s) ""
             [7; 6; 5; 4; 3; 2; 1; 0].
Definition hex_words (l : list N) : string :=
  fold_right (fun i s => hex_word (nth i l 0) ++ s) "" (seq 0 8).
Definition hexdigest (m : string) : string := hex_words (digest (bytes m)).

(** The 32 bytes of a digest. *)
Definition raw (l : list N) : list N :=
  flat_map (fun x => map (fun i => N.land (N.shiftr x (8 * i)) 255) [3; 2; 1; 0]) l.

Definition hmac (key m : string) : string :=
  let k := bytes key in
  let k := if Nat.leb (length k) 64 then k else raw (digest k) in
  let k := (k ++ replicate (64 - length k) 0)%list in
  let inner := digest (map (N.lxor 0x36) k ++ bytes m)%list in
  hex_words (digest (map (N.lxor 0x5c) k ++ raw inner)%list).

Lemma hex_char_lhex d : is_lhex (hex_char (N.land d 15)) = true.
Proof.
  assert (Hd : N.land d 15 < 16).
  { change 15 with (N.ones 4). rewrite N.land_ones. apply N.mod_lt. lia. }
  assert (N.land d 15 = 0 \/ N.land d 15 = 1 \/ N.land d 15 = 2 \/ N.land d 15 = 3 \/
          N.land d 15 = 4 \/ N.land d 15 = 5 \/ N.land d 15 = 6 \/ N.land d 15 = 7 \/
          N.land d 15 = 8 \/ N.land d 15 = 9 \/ N.land d 15 = 10 \/ N.land d 15 = 11 \/
          N.land d 15 = 12 \/ N.land d 15 = 13 \/ N.land d 15 = 14 \/ N.land d 15 = 15) as Hc by lia.
  repeat (destruct Hc as [->|Hc]; [reflexivity|]). by rewrite Hc.
Qed.
Lemma hex_words_hex l : is_hex64 (hex_words l) = true.
Proof.
  unfold hex_words, hex_word, is_hex64. cbn [seq fold_right String.append String.length Nat.eqb str_all].
  by rewrite !hex_char_lhex.
Qed.
End Sha256.

(** ** The standard instance *)

#[export] Instance hashlib : Digest := {|
  sha256 := Sha256.hexdigest;
  hmac_sha256 := Sha256.hmac;
  sha256_hex m := Sha256.hex_words_hex _;
  hmac_hex k m := Sha256.hex_words_hex _
|}.

Example sha256_abc :
  sha256 "abc" = "ba7816bf8f01cfea414140de5dae2223b00361a396177a9cb410ff61f20015ad".
Proof. vm_compute. reflexivity. Qed.
Example sha256_empty :
  sha256 "" = "e3b0c44298fc1c149afbf4c8996fb92427ae41e4649b934ca495991b7852b855".
Proof. vm_compute. reflexivity. Qed.
Example hmac_rfc4231_2 :
  hmac_sha256 "Jefe" "what do ya want for nothing?"
  = "5bdcc146bf60754e6a042426089575c75a003f089d2739839dec58b964ec3843".
Proof. vm_compute. reflexivity. Qed.

(** Two byte strings with the same digest: what a tamper-evidence proof finds
    when the log it is given differs from the one that was written. *)
Definition collision `{Digest} : Prop := exists a b, a <> b /\ sha256 a = sha256 b.
