(* ===== verification/AuditLog.v ===== *)
(** * The append-only audit log ([src/pep/audit.py])

    The log file is its bytes; the operating system's answers to one call
    (open, write, fsync, close, directory sync) are the record [wio], so every
    failure of the storage is a value of the model. *)

From S2P Require Import Prelude PyStr Json JsonFacts Hash.

Definition GENESIS : string :=
  "0000000000000000000000000000000000000000000000000000000000000000".
Definition newline : ascii := "010".

(** Iterating a binary file yields its newline-separated lines; a final newline
    ends the last line and opens no other. *)
Fixpoint drop_last_empty (l : list string) : list string :=
  match l with
  | [] => []
  | [w] => if String.eqb w "" then [] else [w]
  | w :: l' => w :: drop_last_empty l'
  end.
Definition file_lines (f : string) : list string := drop_last_empty (split newline f).

Definition RuntimeError (m : string) : exn := PyExn "RuntimeError" m.
Definition OSError (m : string) : exn := PyExn "OSError" m.
Definition ValueError (m : string) : exn := PyExn "ValueError" m.
Definition AttributeError (m : string) : exn := PyExn "AttributeError" m.

(** The detail [verify] reports next to its verdict. *)
Inductive chain_detail :=
| Unparseable (line : nat)
| ChainBreak (line : nat) (expected : string)
| Intact (records : nat)
| NotChecked
| CreatedDurably
| CouldNotCreate
| ParentNotDurable.

(** The answers of the operating system to one [AuditLog.write]. *)
Inductive wres := WN (n : Z) | WErr.
Record wio := WIO {
  io_time : val;           (** [time.time()] *)
  io_open : bool;          (** [os.open] succeeds *)
  io_writes : list wres;   (** the successive [os.write]; past the end, all is written *)
  io_fsync : bool;
  io_close : bool }.

(** The object and the file it appends to. *)
Record alog := ALog {
  l_file : option string;
  l_redact : list string;   (** the texts of the redaction set, in its iteration order *)
  l_mixed : bool;           (** the set holds a value that is no text *)
  l_run_id : string;
  l_healthy : bool;
  l_sealed : bool;
  l_prev : string;
  l_dir_durable : option bool;
  l_detail : chain_detail;
  l_locked : bool }.

Definition set_file (f : option string) (l : alog) : alog :=
  ALog f (l_redact l) (l_mixed l) (l_run_id l) (l_healthy l) (l_sealed l) (l_prev l)
       (l_dir_durable l) (l_detail l) (l_locked l).
Definition set_healthy (h : bool) (l : alog) : alog :=
  ALog (l_file l) (l_redact l) (l_mixed l) (l_run_id l) h (l_sealed l) (l_prev l)
       (l_dir_durable l) (l_detail l) (l_locked l).
Definition set_sealed (s : bool) (l : alog) : alog :=
  ALog (l_file l) (l_redact l) (l_mixed l) (l_run_id l) (l_healthy l) s (l_prev l)
       (l_dir_durable l) (l_detail l) (l_locked l).
Definition set_prev (p : string) (l : alog) : alog :=
  ALog (l_file l) (l_redact l) (l_mixed l) (l_run_id l) (l_healthy l) (l_sealed l) p
       (l_dir_durable l) (l_detail l) (l_locked l).
Definition set_detail (d : chain_detail) (l : alog) : alog :=
  ALog (l_file l) (l_redact l) (l_mixed l) (l_run_id l) (l_healthy l) (l_sealed l) (l_prev l)
       (l_dir_durable l) d (l_locked l).
Definition set_dir (b : bool) (l : alog) : alog :=
  ALog (l_file l) (l_redact l) (l_mixed l) (l_run_id l) (l_healthy l) (l_sealed l) (l_prev l)
       (Some b) (l_detail l) (l_locked l).
Definition set_redact (r : list string) (l : alog) : alog :=
  ALog (l_file l) r (l_mixed l) (l_run_id l) (l_healthy l) (l_sealed l) (l_prev l)
       (l_dir_durable l) (l_detail l) (l_locked l).

Definition set_mixed (l : alog) : alog :=
  ALog (l_file l) (l_redact l) true (l_run_id l) (l_healthy l) (l_sealed l) (l_prev l)
       (l_dir_durable l) (l_detail l) (l_locked l).

(** ** Redaction *)

Definition REDACTED : string := String (chr 171) ("REDACTED" ++ String (chr 187) "").

Definition scrub_str (secrets : list string) (s : string) : string :=
  foldl (fun out sec =>
           if negb (String.eqb sec "") && contains sec out
           then replace sec REDACTED out else out) s secrets.
Fixpoint scrub (secrets : list string) (v : val) : val :=
  match v with
  | VStr s => VStr (scrub_str secrets s)
  | VDict d => VDict (map (fun kv => (kv.1, scrub secrets kv.2)) d)
  | VList l => VList (map (scrub secrets) l)
  | _ => v
  end.

(** [_scrub] looks for each secret in each text: [s in out] raises when [s] is no text. *)
Fixpoint has_text (v : val) : bool :=
  match v with
  | VStr _ => true
  | VDict d => existsb (fun kv => has_text kv.2) d
  | VList l => existsb has_text l
  | _ => false
  end.

Definition add_secret (secret : string) (l : alog) : alog :=
  if String.eqb secret "" then l
  else if mem_str secret (l_redact l) then l
  else set_redact (l_redact l ++ [secret])%list l.

Section Log.
Context `{Digest}.

(** ** Verification of a chain *)

Definition as_dict (v : val) : res dict :=
  match v with VDict d => Ok d | _ => Raise (AttributeError "get") end.

Fixpoint verify_loop (i n : nat) (prev : string) (lines : list string)
    : res (bool * chain_detail) :=
  match lines with
  | [] => Ok (true, Intact n)
  | raw :: rest =>
      let line := b_strip raw in
      if String.eqb line "" then verify_loop (S i) n prev rest
      else match loads line with
           | None => Ok (false, Unparseable i)
           | Some v =>
               rec <- as_dict v;;
               if is_str prev (dget "prev" rec)
               then verify_loop (S i) (S n) (sha256 line) rest
               else Ok (false, ChainBreak i prev)
           end
  end.
(** [AuditLog.verify]. *)
Definition verify (f : option string) : res (bool * chain_detail) :=
  match f with
  | None => Raise (PyExn "FileNotFoundError" "open")
  | Some c => verify_loop 1 0 GENESIS (file_lines c)
  end.

(** ** Recovery *)

Fixpoint recover_loop (last : option (string * val)) (lines : list string)
    : option (string * val) :=
  match lines with
  | [] => last
  | raw :: rest =>
      let line := b_strip raw in
      if String.eqb line "" then recover_loop last rest
      else match loads line with
           | None => recover_loop last rest
           | Some v => recover_loop (Some (line, v)) rest
           end
  end.
(** [_recover_tail]: the new [_prev], sealing the object after a RUN_CLOSED. *)
Definition recover_tail (l : alog) : res alog :=
  match l_file l with
  | None => Ok (set_prev GENESIS l)
  | Some c =>
      match recover_loop None (file_lines c) with
      | None => Ok (set_prev GENESIS l)
      | Some (line, v) =>
          rec <- as_dict v;;
          let l' := if is_str "RUN_CLOSED" (dget "decision" rec) then set_sealed true l else l in
          Ok (set_prev (sha256 line) l')
      end
  end.

Definition ensure_parent_durable (dir_ok : bool) (l : alog) : alog :=
  let l' := set_dir dir_ok l in if dir_ok then l' else set_healthy false l'.

(** The creation of a missing log: created, lost to another creator of the
    given contents, or refused (with the file possibly created unsynced). *)
Inductive creation := Created | AlreadyExists (contents : string) | CreateFailed (remains : option string).

Definition accept_existing (dir_ok : bool) (l : alog) : res alog :=
  '(intact, detail) <- verify (l_file l);;
  let l1 := set_detail detail l in
  if intact then (l2 <- recover_tail l1;; Ok (ensure_parent_durable dir_ok l2))
  else Ok (set_healthy false l1).
Definition initialize_storage (cr : creation) (dir_ok : bool) (l : alog) : res alog :=
  match l_file l with
  | Some _ => accept_existing dir_ok l
  | None =>
      match cr with
      | Created =>
          Ok (ensure_parent_durable dir_ok (set_detail CreatedDurably (set_file (Some "") l)))
      | AlreadyExists c => accept_existing dir_ok (set_file (Some c) l)
      | CreateFailed remains => Ok (set_detail CouldNotCreate (set_healthy false (set_file remains l)))
      end
  end.

(** [AuditLog.__init__]. *)
Definition init (file : option string) (redact : list string) (run_id : option string)
    (exclusive flock_ok : bool) (cr : creation) (dir_ok : bool) : res alog :=
  let l := ALog file redact false (default "" run_id) true false GENESIS None NotChecked exclusive in
  if exclusive && negb flock_ok then Raise (RuntimeError "AUDIT_WRITER_NOT_EXCLUSIVE")
  else initialize_storage cr dir_ok l.

Definition close (l : alog) : alog :=
  ALog (l_file l) (l_redact l) (l_mixed l) (l_run_id l) (l_healthy l) (l_sealed l) (l_prev l)
       (l_dir_durable l) (l_detail l) false.

Definition startup_verify (dir_ok : bool) (l : alog) : res (alog * (bool * chain_detail)) :=
  if negb (l_healthy l) then Ok (l, (false, l_detail l)) else
  '(intact, detail) <- verify (l_file l);;
  if negb intact then Ok (set_detail detail (set_healthy false l), (false, detail)) else
  let l1 := ensure_parent_durable dir_ok l in
  if negb (l_healthy l1) then Ok (l1, (false, ParentNotDurable))
  else Ok (set_detail detail l1, (true, detail)).

(** ** Writing *)

(** [_write_all] under the answers [ws]: the bytes appended and the success. *)
Fixpoint write_all (ws : list wres) (data file : string) : string * bool :=
  if String.eqb data "" then (file, true) else
  match ws with
  | [] => (file ++ data, true)
  | WErr :: _ => (file, false)
  | WN n :: ws' =>
      if (n <=? 0)%Z then (file, false)
      else let k := Nat.min (Z.to_nat n) (String.length data) in
           write_all ws' (drop k data) (file ++ take k data)
  end.

(** The record as it is serialised. *)
Definition stamp (io : wio) (entry : dict) (l : alog) : dict :=
  let rec := map (fun kv => (kv.1, scrub (l_redact l) kv.2)) entry in
  dset "prev" (VStr (l_prev l))
    (dset "run_id" (VStr (l_run_id l)) (dset "ts" (io_time io) rec)).
Definition line_of (io : wio) (entry : dict) (l : alog) : string :=
  dumps (VDict (stamp io entry l)).

Definition write (io : wio) (entry : dict) (l : alog) : alog * res string :=
  if l_sealed l then (l, Raise (RuntimeError "AUDIT_LOG_SEALED: final RUN_CLOSED already fsynced"))
  else if negb (l_healthy l) then
    (l, Raise (RuntimeError "AUDIT_SINK_UNHEALTHY: refusing to write after a latched failure"))
  else
  if l_mixed l && has_text (VDict entry) then (l, Raise (PyExn "TypeError" "'in <string>' requires string")) else
  let line := line_of io entry l in
  if negb (io_open io) then (l, Raise (OSError "open")) else
  let '(f, wrote) := write_all (io_writes io) (line ++ String newline "") (default "" (l_file l)) in
  let l1 := set_file (Some f) l in
  if negb (wrote && io_fsync io) then (set_healthy false l1, Raise (OSError "write"))
  else if negb (io_close io) then (l1, Raise (OSError "close"))
  else (set_prev (sha256 line) l1, Ok (sha256 line)).

Definition seal_with (io : wio) (entry : dict) (l : alog) : alog * res string :=
  if negb (is_str "RUN_CLOSED" (dget "decision" entry)) then
    (l, Raise (ValueError "AUDIT_SEAL_REQUIRES_RUN_CLOSED"))
  else if l_sealed l then (l, Raise (RuntimeError "AUDIT_LOG_ALREADY_SEALED"))
  else match write io entry l with
       | (l', Ok tail) => (set_sealed true l', Ok tail)
       | (l', Raise e) => (l', Raise e)
       end.

End Log.
