(* ===== verification/AuditFacts.v ===== *)
(** * The audit log: chain, redaction, sealing and failure behaviour *)

From S2P Require Import Prelude PyStr Json JsonFacts Hash AuditLog.

(** ** Lines of a file *)

Lemma split_cons c s : exists w ws, split c s = w :: ws.
Proof.
  induction s as [|d s (w & ws & IH)]; cbn; [by eexists _, _|].
  destruct (Ascii.eqb c d); [by eexists _, _|]. rewrite IH. by eexists _, _.
Qed.
Lemma split_app c a b : split c (a ++ String c b) = (split c a ++ split c b)%list.
Proof.
  induction a as [|d a IH]; cbn.
  - by rewrite Ascii.eqb_refl.
  - destruct (Ascii.eqb c d); [by rewrite IH|]. rewrite IH.
    by destruct (split_cons c a) as (w & ws & ->).
Qed.
Lemma split_none c s : str_all (fun d => negb (Ascii.eqb c d)) s = true -> split c s = [s].
Proof.
  induction s as [|d s IH]; [done|]. cbn. intros. bools. by rewrite H, IH.
Qed.
Lemma drop_last_empty_snoc l : drop_last_empty (l ++ [""])%list = l.
Proof.
  induction l as [|w l IH]; [done|]. cbn. destruct l as [|w' l]; cbn in *; [done|]. by rewrite IH.
Qed.

(** A file every line of which is ended by a newline. *)
Definition ends_nl (f : string) : Prop := f = "" \/ exists g, f = g ++ String newline "".
Definition one_line (s : string) : Prop :=
  str_all (fun d => negb (Ascii.eqb newline d)) s = true.

Lemma file_lines_append f s :
  ends_nl f -> one_line s ->
  file_lines (f ++ s ++ String newline "") = (file_lines f ++ [s])%list.
Proof.
  intros [->|[g ->]] Hs; unfold file_lines.
  - cbn. rewrite split_app, split_none by done. cbn. by destruct (String.eqb s "").
  - rewrite append_assoc. cbn [String.append]. rewrite !split_app, (split_none newline s Hs).
    change (split newline "") with [""]. rewrite drop_last_empty_snoc.
    by rewrite app_assoc, drop_last_empty_snoc.
Qed.
Lemma ends_nl_append f s : ends_nl (f ++ s ++ String newline "").
Proof. right. exists (f ++ s). by rewrite append_assoc. Qed.

(** ** Stripping *)

Lemma lstrip_head p c s : p c = false -> lstrip p (String c s) = String c s.
Proof. intros H. cbn. by rewrite H. Qed.
Lemma rstrip_last p c s : p c = false -> rstrip p (s ++ String c "") = s ++ String c "".
Proof.
  intros H. induction s as [|d s IH]; cbn; [by rewrite H|]. rewrite IH. by destruct s.
Qed.

Lemma tail_d_end d : exists s, tail_d d = s ++ "}".
Proof.
  induction d as [|[k v] d [s IH]]; [by exists ""|]. cbn [tail_d].
  exists ("," ++ print_str k ++ ":" ++ print v ++ s). rewrite IH.
  by rewrite !append_assoc.
Qed.
Lemma print_dict_ends d : exists s, print (VDict d) = "{" ++ s ++ "}".
Proof.
  destruct d as [|[k x] d]; [by exists ""|]. cbn [print]. fold tail_d.
  destruct (tail_d_end d) as [s ->].
  exists (print_str k ++ ":" ++ print x ++ s). by rewrite !append_assoc.
Qed.
Lemma strip_print_dict d : b_strip (print (VDict d)) = print (VDict d).
Proof.
  destruct (print_dict_ends d) as [s ->]. unfold b_strip, strip.
  change ("{" ++ s ++ "}") with (("{" ++ s) ++ String "}" "").
  rewrite rstrip_last by done. by apply lstrip_head.
Qed.
Lemma print_one_line v : one_line (print v).
Proof.
  eapply str_all_impl; [|apply print_printable]. intros c. all_ascii c; done.
Qed.

(** ** The chain as a function of the records *)

Definition rec_lines (f : string) : list string :=
  filter (fun s => s <> "") (map b_strip (file_lines f)).

Section Facts.
Context `{Digest}.

Fixpoint chain_from (prev : string) (lines : list string) : option string :=
  match lines with
  | [] => Some prev
  | line :: rest =>
      match loads line with
      | Some (VDict d) => if is_str prev (dget "prev" d) then chain_from (sha256 line) rest else None
      | _ => None
      end
  end.

Lemma chain_from_app p l1 l2 :
  chain_from p (l1 ++ l2)%list = (t ← chain_from p l1; chain_from t l2).
Proof.
  revert p. induction l1 as [|x l1 IH]; intros p; cbn; [done|].
  destruct (loads x) as [[| | | | | |d]|]; try reflexivity.
  by destruct (is_str p (dget "prev" d)).
Qed.

Lemma verify_loop_spec lines : forall i n prev d,
  verify_loop i n prev lines = Ok (true, d) <->
  exists t, chain_from prev (filter (fun s => s <> "") (map b_strip lines)) = Some t /\
            d = Intact (n + length (filter (fun s => s <> "") (map b_strip lines))).
Proof.
  induction lines as [|raw lines IH]; intros i n prev d; cbn [verify_loop map].
  - cbn. rewrite Nat.add_0_r. split; [intros [= <-]; by exists prev | by intros (? & _ & ->)].
  - rewrite filter_cons. destruct (String.eqb_spec (b_strip raw) "") as [E|E].
    + rewrite decide_False by (intros ?; congruence). apply IH.
    + rewrite decide_True by done. cbn [chain_from length].
      destruct (loads (b_strip raw)) as [v|]; [|split; [done|by intros (? & ? & ?)]].
      destruct v as [| | | | | |r]; cbn; try (split; [done|by intros (? & ? & ?)]).
      destruct (is_str prev (dget "prev" r)); [|split; [done|by intros (? & ? & ?)]].
      rewrite IH. by setoid_rewrite <- Nat.add_succ_comm.
Qed.
Lemma verify_spec f d :
  verify (Some f) = Ok (true, d) <->
  exists t, chain_from GENESIS (rec_lines f) = Some t /\ d = Intact (length (rec_lines f)).
Proof. unfold verify. apply verify_loop_spec. Qed.

Lemma rec_lines_append f d :
  ends_nl f -> rec_lines (f ++ print (VDict d) ++ String newline "")
               = (rec_lines f ++ [print (VDict d)])%list.
Proof.
  intros Hf. unfold rec_lines. rewrite file_lines_append by (done || apply print_one_line).
  rewrite map_app, filter_app. cbn [map]. rewrite strip_print_dict. f_equal.
  rewrite filter_cons, decide_True; [done|].
  destruct (print_dict_ends d) as [s ->]. done.
Qed.

(** ** Well-formedness of what is written *)

Definition wf_entry (d : dict) : Prop := wf (VDict d).

Lemma wf_scrub r v : wf v -> wf (scrub r v).
Proof.
  induction v as [|b|z|f|s|l HL|d HD] using val_ind'; cbn [scrub]; auto with json;
    inversion 1 as [| | | | |? HW|? HN HW]; subst; constructor.
  - apply Forall_fmap. apply (Forall_both _ _ _ _ HL HW). unfold compose; simpl; auto.
  - by rewrite (dkeys_map (scrub r)).
  - apply Forall_fmap. apply (Forall_both _ _ _ _ HD HW). unfold compose; simpl; auto.
Qed.
Lemma wf_dset k v d : wf (VDict d) -> wf v -> wf (VDict (dset k v d)).
Proof.
  inversion 1 as [| | | | | |? HN HW]; subst. intros Hv. constructor; [by apply NoDup_dset|].
  clear HN H0. induction HW as [|[k' v'] d Hx HW IH]; cbn; [by constructor|].
  destruct (String.eqb k k'); constructor; auto.
Qed.
Lemma wf_stamp io e l : wf_entry e -> wf (io_time io) -> wf (VDict (stamp io e l)).
Proof.
  intros He Ht. unfold stamp. repeat (apply wf_dset; auto with json).
  exact (wf_scrub (l_redact l) (VDict e) He).
Qed.

Lemma line_loads io e l :
  wf_entry e -> wf (io_time io) ->
  exists d, loads (line_of io e l) = Some (VDict d) /\
            (forall k, dget k d = canon <$> dget k (stamp io e l)).
Proof.
  intros He Ht. pose proof (wf_stamp io e l He Ht) as Hw.
  exists (canon_d (stamp io e l)). split.
  - unfold line_of. by rewrite loads_dumps.
  - intros k. apply dget_canon_d. by inversion Hw.
Qed.

Lemma dget_stamp_prev io e l : dget "prev" (stamp io e l) = Some (VStr (l_prev l)).
Proof. unfold stamp. apply dget_dset_eq. Qed.

Lemma chain_line io e l f t :
  wf_entry e -> wf (io_time io) -> ends_nl f ->
  chain_from t (rec_lines f) = Some (l_prev l) ->
  chain_from t (rec_lines (f ++ line_of io e l ++ String newline ""))
  = Some (sha256 (line_of io e l)).
Proof.
  intros He Ht Hf Hc. unfold line_of, dumps. cbn [canon].
  rewrite rec_lines_append by done. rewrite chain_from_app, Hc. cbn [mbind option_bind chain_from].
  destruct (line_loads io e l He Ht) as (d & Hd & Hk). unfold line_of, dumps in Hd.
  cbn [canon] in *. rewrite Hd, Hk, dget_stamp_prev. cbn. by rewrite String.eqb_refl.
Qed.

(** ** The bytes a write leaves *)

Lemma take_drop n s : take n s ++ drop n s = s.
Proof. revert s. induction n as [|n IH]; intros [|c s]; cbn; [done..|]. by rewrite IH. Qed.

Lemma write_all_prefix ws : forall data file f' b,
  write_all ws data file = (f', b) ->
  exists d1 d2, data = d1 ++ d2 /\ f' = file ++ d1 /\ (b = true <-> d2 = "").
Proof.
  induction ws as [|w ws IH]; intros data file f' b; cbn [write_all];
    (destruct (String.eqb_spec data "") as [->|Hd];
     [intros; simp_res; exists "", ""; by rewrite ?append_nil_r|]).
  - intros; simp_res. exists data, "". by rewrite ?append_nil_r.
  - destruct w as [n|]; [destruct (n <=? 0)%Z|]; intros Hw.
    1, 3: simp_res; exists "", data; by rewrite ?append_nil_r.
    destruct (IH _ _ _ _ Hw) as (d1 & d2 & Hsp & -> & Hb).
    exists (take (Nat.min (Z.to_nat n) (String.length data)) data ++ d1), d2.
    rewrite append_assoc, <- Hsp, take_drop. split_and!; [done| |done].
    by rewrite append_assoc.
Qed.

(** ** The invariant of the log *)

(** The file is a verified part [f] followed by what a failed write left. *)
Definition log_inv (l : alog) : Prop := exists f p,
  l_file l = Some (f ++ p) /\ ends_nl f /\
  chain_from GENESIS (rec_lines f) = Some (l_prev l) /\
  (l_healthy l = true -> p = "").

Definition wio_ok (io : wio) : Prop := wf (io_time io) /\ io_close io = true.

(** Even when the chain is broken every line is a record: the file is lines that
    parse, followed by what a failed write left. *)
Definition is_record_line (s : string) : Prop := exists d, loads s = Some (VDict d).
Definition whole_log (l : alog) : Prop := exists f p,
  l_file l = Some (f ++ p) /\ ends_nl f /\ Forall is_record_line (rec_lines f) /\ (l_healthy l = true -> p = "").

Lemma chain_records lines : forall p t, chain_from p lines = Some t -> Forall is_record_line lines.
Proof.
  induction lines as [|x lines IH]; intros p t; cbn; [constructor|].
  destruct (loads x) as [[| | | | | |d]|] eqn:E; try done. destruct (is_str _ _); [|done].
  intros Hc. constructor; [by exists d|by eapply IH].
Qed.
Lemma log_inv_whole l : log_inv l -> whole_log l.
Proof. intros (f & p & Hf & Hnl & Hc & Hp). exists f, p. split_and!; try done. by eapply chain_records. Qed.

(** What a write does to the two invariants: only a failed close can break the chain. *)
Lemma write_inv io e l l' r :
  wf_entry e -> wf (io_time io) -> log_inv l -> write io e l = (l', r) ->
  (io_close io = false -> is_ok r = true) -> log_inv l'.
Proof.
  intros He Ht Hinv. unfold write.
  destruct (l_sealed l); [intros; by simp_res|].
  destruct (l_healthy l) eqn:Hh; cbn [negb]; [|intros; by simp_res].
  destruct (l_mixed l && _); [intros; by simp_res|].
  destruct (io_open io); cbn [negb]; [|intros; by simp_res].
  destruct Hinv as (f & p & Hf & Hnl & Hc & Hp). rewrite Hp, append_nil_r in Hf by done.
  rewrite Hf. cbn [default].
  destruct (write_all _ _ _) as [f' b] eqn:Hw.
  apply write_all_prefix in Hw as (d1 & d2 & Hd & -> & Hb).
  destruct (b && io_fsync io) eqn:Hok; cbn [negb]; [destruct (io_close io); cbn [negb]|]; intros; simp_res.
  - bools. rewrite (proj1 Hb H0), append_nil_r in Hd. subst d1.
    exists (f ++ line_of io e l ++ String newline ""), "". cbn. rewrite append_nil_r.
    split_and!; [done|apply ends_nl_append|by apply chain_line|done].
  - by specialize (H1 eq_refl).
  - exists f, d1. by cbn.
Qed.
Lemma line_record io e l : wf_entry e -> wf (io_time io) -> is_record_line (line_of io e l).
Proof. intros He Ht. destruct (line_loads io e l He Ht) as (d & Hd & _). by exists d. Qed.
Lemma rec_lines_line io e l f : ends_nl f ->
  rec_lines (f ++ line_of io e l ++ String newline "") = (rec_lines f ++ [line_of io e l])%list.
Proof. intros Hf. unfold line_of, dumps. cbn [canon]. by apply rec_lines_append. Qed.
Lemma write_whole io e l l' r :
  wf_entry e -> wf (io_time io) -> whole_log l -> write io e l = (l', r) -> whole_log l'.
Proof.
  intros He Ht Hinv. unfold write.
  destruct (l_sealed l); [intros; by simp_res|].
  destruct (l_healthy l) eqn:Hh; cbn [negb]; [|intros; by simp_res].
  destruct (l_mixed l && _); [intros; by simp_res|].
  destruct (io_open io); cbn [negb]; [|intros; by simp_res].
  destruct Hinv as (f & p & Hf & Hnl & Hc & Hp). rewrite Hp, append_nil_r in Hf by done.
  rewrite Hf. cbn [default].
  destruct (write_all _ _ _) as [f' b] eqn:Hw.
  apply write_all_prefix in Hw as (d1 & d2 & Hd & -> & Hb).
  destruct (b && io_fsync io) eqn:Hok; cbn [negb].
  - bools. rewrite (proj1 Hb H0), append_nil_r in Hd. subst d1. intros Hr.
    assert (l_file l' = Some (f ++ line_of io e l ++ String newline "")) as Hf'.
    { destruct (io_close io); cbn [negb] in Hr; simp_res; done. }
    exists (f ++ line_of io e l ++ String newline ""), "". rewrite append_nil_r.
    split_and!; [done|apply ends_nl_append| |done].
    rewrite rec_lines_line by done. apply Forall_app. split; [done|]. apply Forall_singleton. by apply line_record.
  - intros; simp_res. exists f, d1. by cbn.
Qed.

(** The outcome of a successful write. *)
Lemma write_ok io e l l' t :
  write io e l = (l', Ok t) ->
  l_sealed l = false /\ l_healthy l = true /\ t = sha256 (line_of io e l) /\
  l' = set_prev t (set_file (Some (default "" (l_file l) ++ line_of io e l ++ String newline "")) l).
Proof.
  unfold write. destruct (l_sealed l); [intros; simp_res|].
  destruct (l_healthy l); cbn [negb]; [|intros; simp_res].
  destruct (l_mixed l && _); [intros; simp_res|].
  destruct (io_open io); cbn [negb]; [|intros; simp_res].
  destruct (write_all _ _ _) as [f' b] eqn:Hw.
  apply write_all_prefix in Hw as (d1 & d2 & Hd & -> & Hb).
  destruct (b && io_fsync io) eqn:Hok; cbn [negb]; [|intros; simp_res].
  destruct (io_close io); cbn [negb]; intros; simp_res.
  bools. rewrite (proj1 Hb H0), append_nil_r in Hd. by subst d1.
Qed.

(** ** What a chain check answers *)

(** A chain of records either verifies or breaks at a line. *)
Lemma verify_records lines : Forall is_record_line (filter (fun s => s <> "") (map b_strip lines)) ->
  forall i n prev, (exists m, verify_loop i n prev lines = Ok (true, Intact m)) \/
    exists k x, verify_loop i n prev lines = Ok (false, ChainBreak k x).
Proof.
  induction lines as [|raw lines IH]; intros Hl i n prev; [left; by eexists|]. cbn [verify_loop map] in *.
  rewrite filter_cons in Hl. destruct (String.eqb_spec (b_strip raw) "") as [E|E].
  - rewrite decide_False in Hl by (intros ?; congruence). by apply IH.
  - rewrite decide_True in Hl by done. apply Forall_cons in Hl as [[d Hd] Hl]. rewrite Hd. cbn [as_dict rbind].
    destruct (is_str _ _); [by apply IH|right; by eexists _, _].
Qed.
(** The break is at the first line that does not carry the hash of the one before. *)
Lemma verify_break a : forall raw rest d i n prev t,
  chain_from prev (filter (fun s => s <> "") (map b_strip a)) = Some t ->
  b_strip raw <> "" -> loads (b_strip raw) = Some (VDict d) -> is_str t (dget "prev" d) = false ->
  exists k, verify_loop i n prev (a ++ raw :: rest) = Ok (false, ChainBreak k t).
Proof.
  induction a as [|x a IH]; intros raw rest d i n prev t Hc Hne Hd Hs; cbn [app verify_loop map] in *.
  - injection Hc as ->. destruct (String.eqb_spec (b_strip raw) ""); [done|]. rewrite Hd. cbn. rewrite Hs. by eexists.
  - rewrite filter_cons in Hc. destruct (String.eqb_spec (b_strip x) "") as [E|E].
    + rewrite decide_False in Hc by (intros ?; congruence). by eapply IH.
    + rewrite decide_True in Hc by done. cbn [chain_from] in Hc. destruct (loads (b_strip x)) as [[]|]; try done.
      cbn [as_dict rbind]. destruct (is_str prev _); [|done]. by eapply IH.
Qed.
(** Where a restart re-anchors: the hash of the last record. *)
Lemma recover_spec lines : forall last p t,
  chain_from p (filter (fun s => s <> "") (map b_strip lines)) = Some t ->
  match last with Some (ln, _) => p = sha256 ln | None => p = GENESIS end ->
  match recover_loop last lines with Some (ln, _) => t = sha256 ln | None => t = GENESIS end.
Proof.
  induction lines as [|raw lines IH]; intros last p t Hc Hl; cbn [map recover_loop] in *.
  - injection Hc as <-. by destruct last as [[]|].
  - rewrite filter_cons in Hc. destruct (String.eqb_spec (b_strip raw) "") as [E|E].
    + rewrite decide_False in Hc by (intros ?; congruence). by eapply IH.
    + rewrite decide_True in Hc by done. cbn in Hc. destruct (loads (b_strip raw)) as [[]|] eqn:El; try done.
      destruct (is_str _ _); [|done]. by eapply IH.
Qed.
Lemma recover_prev l l' f t : l_file l = Some f -> chain_from GENESIS (rec_lines f) = Some t ->
  recover_tail l = Ok l' -> l_prev l' = t.
Proof.
  intros Hf Hc. unfold recover_tail. rewrite Hf. pose proof (recover_spec (file_lines f) None GENESIS t Hc eq_refl) as Ht.
  destruct (recover_loop None (file_lines f)) as [[ln v]|]; subst t; [|by intros [= <-]].
  destruct (as_dict v); cbn [rbind]; [|done]. by intros [= <-].
Qed.

(** ** Operations as a list of steps *)

Inductive log_op :=
| OpWrite (io : wio) (e : dict)
| OpSeal (io : wio) (e : dict)
| OpSecret (s : string)
| OpStartup (dir_ok : bool).

Definition run_op (o : log_op) (l : alog) : alog :=
  match o with
  | OpWrite io e => (write io e l).1
  | OpSeal io e => (seal_with io e l).1
  | OpSecret s => add_secret s l
  | OpStartup d => match startup_verify d l with Ok (l', _) => l' | Raise _ => l end
  end.
Definition op_ok (o : log_op) : Prop :=
  match o with
  | OpWrite io e | OpSeal io e => wf_entry e /\ wio_ok io
  | _ => True
  end.

Lemma seal_cases io e l :
  (seal_with io e l).1 = l \/ (seal_with io e l).1 = (write io e l).1 \/
  (seal_with io e l).1 = set_sealed true (write io e l).1.
Proof.
  unfold seal_with. destruct (negb _); [by left|]. destruct (l_sealed l); [by left|].
  destruct (write io e l) as [l' [t|x]]; cbn; auto.
Qed.

Lemma add_secret_file s l : l_file (add_secret s l) = l_file l /\
  l_healthy (add_secret s l) = l_healthy l /\ l_prev (add_secret s l) = l_prev l /\
  l_sealed (add_secret s l) = l_sealed l.
Proof. unfold add_secret. destruct (String.eqb s ""), (mem_str s (l_redact l)); done. Qed.

Lemma startup_cases d l l' r : startup_verify d l = Ok (l', r) ->
  l_file l' = l_file l /\ l_prev l' = l_prev l /\ l_sealed l' = l_sealed l /\
  (l_healthy l = false -> l_healthy l' = false).
Proof.
  unfold startup_verify. destruct (l_healthy l) eqn:Hh; cbn [negb]; [|intros; simp_res; auto].
  destruct (verify (l_file l)) as [[b x]|]; cbn; [|done].
  destruct b; cbn; intros; simp_res; [|done].
  unfold ensure_parent_durable in *. destruct d; cbn in *; try rewrite Hh in *; cbn in *; by simp_res.
Qed.

Lemma log_inv_eq l l' :
  l_file l' = l_file l -> l_prev l' = l_prev l ->
  (l_healthy l = false -> l_healthy l' = false) -> log_inv l -> log_inv l'.
Proof.
  intros Hf Hp Hh (f & p & H1 & H2 & H3 & H4). exists f, p. rewrite Hf, Hp.
  split_and!; auto. intros Hl. apply H4. destruct (l_healthy l); [done|]. by rewrite Hh in Hl.
Qed.

Lemma whole_log_eq l l' :
  l_file l' = l_file l -> (l_healthy l = false -> l_healthy l' = false) -> whole_log l -> whole_log l'.
Proof.
  intros Hf Hh (f & p & H1 & H2 & H3 & H4). exists f, p. rewrite Hf.
  split_and!; auto. intros Hl. apply H4. destruct (l_healthy l); [done|]. by rewrite Hh in Hl.
Qed.

Lemma run_op_inv o l : op_ok o -> log_inv l -> log_inv (run_op o l).
Proof.
  destruct o as [io e|io e|s|d]; cbn [op_ok run_op]; intros Hok Hinv.
  - destruct Hok as (He & Ht & Hcl). destruct (write io e l) as [l' r] eqn:E.
    eapply write_inv; [exact He|exact Ht|done|exact E|by rewrite Hcl].
  - destruct Hok as (He & Ht & Hcl). pose proof (seal_cases io e l) as Hs.
    destruct (write io e l) as [l' r] eqn:E. cbn in Hs.
    assert (log_inv l') as Hl' by (eapply write_inv; [exact He|exact Ht|done|exact E|by rewrite Hcl]).
    destruct Hs as [->|[->| ->]]; [done|done|]. by eapply log_inv_eq; [..|exact Hl'].
  - destruct (add_secret_file s l) as (? & ? & ? & ?).
    eapply log_inv_eq; [..|exact Hinv]; congruence.
  - destruct (startup_verify d l) as [[l' r]|] eqn:E; [|done].
    apply startup_cases in E as (? & ? & _ & ?). by eapply log_inv_eq.
Qed.

Lemma run_ops_inv ops l : Forall op_ok ops -> log_inv l -> log_inv (foldl (fun l o => run_op o l) l ops).
Proof.
  intros Hops. revert l. induction Hops as [|o ops Ho Hops IH]; intros l Hl; [done|].
  cbn. apply IH. by apply run_op_inv.
Qed.

End Facts.
