(* ===== verification/AuditProps.v ===== *)
(** * Properties of the audit log

    Chain integrity over every sequence of operations and storage failures,
    tamper evidence, redaction, sealing, and the failures that do not latch. *)

From S2P Require Import Prelude PyStr Json JsonFacts Hash AuditLog AuditFacts.

#[local] Arguments replace : simpl never.

(** ** Redaction lemmas *)

Definition mark_l : ascii := "171".
Definition mark_r : ascii := "187".

(** A secret the marker itself cannot spell. *)
Definition clean (q : string) : Prop :=
  q <> "" /\ str_all (fun c => negb (Ascii.eqb c mark_l) && negb (Ascii.eqb c mark_r)) q = true /\
  contains q "REDACTED" = false.

(** Some string value inside [v] contains [q]. *)
Fixpoint leaks (q : string) (v : val) : bool :=
  match v with
  | VStr s => contains q s
  | VList l => existsb (leaks q) l
  | VDict d => existsb (fun kv => leaks q kv.2) d
  | _ => false
  end.

Lemma prefix_barrier m q a b :
  str_all (fun c => negb (Ascii.eqb c m)) q = true ->
  String.prefix q (a ++ String m b) = String.prefix q a.
Proof.
  revert a. induction q as [|c q IH]; intros a Hq; [by destruct a|].
  cbn [str_all] in Hq. bools. destruct a as [|d a].
  - apply prefix_head_ne. by rewrite Ascii.eqb_sym.
  - cbn. destruct (ascii_dec c d); [by apply IH|done].
Qed.
Lemma contains_barrier m q a b :
  q <> "" -> str_all (fun c => negb (Ascii.eqb c m)) q = true ->
  contains q (a ++ String m b) = contains q a || contains q b.
Proof.
  intros Hne Hq. induction a as [|d a IH].
  - cbn [String.append contains].
    rewrite (prefix_barrier m q "" b Hq : String.prefix q (String m b) = _).
    by destruct q.
  - rewrite append_cons. cbn [contains]. rewrite IH, <- append_cons.
    rewrite prefix_barrier by done. by rewrite orb_assoc.
Qed.
Lemma contains_marker q t : clean q -> contains q (REDACTED ++ t) = contains q t.
Proof.
  intros (Hne & Hq & Hr).
  assert (Hl : str_all (fun c => negb (Ascii.eqb c mark_l)) q = true).
  { eapply str_all_impl; [|exact Hq]. by intros ? [? ?]%andb_true_iff. }
  assert (Hr' : str_all (fun c => negb (Ascii.eqb c mark_r)) q = true).
  { eapply str_all_impl; [|exact Hq]. by intros ? [? ?]%andb_true_iff. }
  change (REDACTED ++ t) with ("" ++ String mark_l ("REDACTED" ++ String mark_r t)).
  rewrite contains_barrier, contains_barrier, Hr by done.
  by destruct q as [|c q]; [congruence|].
Qed.

Lemma prefix_replace q p n s :
  str_all (fun c => negb (Ascii.eqb c mark_l)) q = true ->
  String.prefix q (replace_fuel n p REDACTED s) = true -> String.prefix q s = true.
Proof.
  revert q s. induction n as [|n IH]; intros q s Hq; cbn [replace_fuel]; [done|].
  destruct (String.prefix p s).
  - change (REDACTED ++ ?x) with ("" ++ String mark_l ("REDACTED" ++ String mark_r x)).
    rewrite prefix_barrier by done. destruct q; [by destruct s | done].
  - destruct s as [|c s]; [done|]. destruct q as [|d q]; [done|].
    cbn [str_all] in Hq. bools. cbn.
    destruct (ascii_dec d c); [by apply IH|done].
Qed.

Lemma contains_drop q n s : contains q s = false -> contains q (drop n s) = false.
Proof.
  revert s. induction n as [|n IH]; intros [|c s]; cbn; try done.
  intros. bools. auto.
Qed.
Lemma contains_replace_other q p n s :
  clean q -> contains q s = false -> contains q (replace_fuel n p REDACTED s) = false.
Proof.
  intros Hq. revert s. induction n as [|n IH]; intros s Hs; [done|]. cbn [replace_fuel].
  destruct (String.prefix p s).
  - rewrite contains_marker by done. by apply IH, contains_drop.
  - destruct s as [|c s]; [done|].
    destruct (String.prefix q (String c (replace_fuel n p REDACTED s))) eqn:E.
    + assert (Hp : String.prefix q (String c s) = true).
      { destruct q as [|d q]; [done|]. cbn in E |- *. destruct (ascii_dec d c); [|done].
        eapply prefix_replace; [|exact E]. destruct Hq as (_ & Hq & _). cbn [str_all] in Hq.
        bools. eapply str_all_impl; [|eassumption]. by intros ? [? ?]%andb_true_iff. }
      cbn [contains] in Hs. by rewrite Hp in Hs.
    + cbn [contains]. rewrite E. cbn [contains] in Hs. bools. by apply IH.
Qed.
Lemma length_drop n s : String.length (drop n s) <= String.length s.
Proof. revert s. induction n as [|n IH]; intros [|c s]; cbn; [lia..|]. specialize (IH s). lia. Qed.
Lemma contains_replace_self q n s :
  clean q -> String.length s < n -> contains q (replace_fuel n q REDACTED s) = false.
Proof.
  intros Hq. revert s. induction n as [|n IH]; intros s Hn; [lia|].
  pose proof Hq as (Hne & Hc & _).
  destruct (String.prefix q s) eqn:E; cbn [replace_fuel]; rewrite E.
  - rewrite contains_marker by done. apply IH.
    destruct q as [|d q]; [done|]. destruct s as [|c s]; [done|].
    cbn [String.length drop] in *. pose proof (length_drop (String.length q) s). lia.
  - destruct s as [|c s]; [by destruct q|]. cbn [contains].
    destruct (String.prefix q (String c (replace_fuel n q REDACTED s))) eqn:E2.
    + exfalso. destruct q as [|d q]; [done|]. cbn in E, E2. destruct (ascii_dec d c); [|done].
      apply prefix_replace in E2; [congruence|]. cbn [str_all] in Hc. bools.
      eapply str_all_impl; [|eassumption]. by intros ? [? ?]%andb_true_iff.
    + rewrite IH; [done|cbn in Hn; lia].
Qed.

Lemma scrub_str_clean q secrets s :
  clean q -> q ∈ secrets -> contains q (scrub_str secrets s) = false.
Proof.
  intros Hq. unfold scrub_str.
  assert (Hkeep : forall secrets s, contains q s = false ->
    contains q (foldl (fun out sec => if negb (String.eqb sec "") && contains sec out
      then replace sec REDACTED out else out) s secrets) = false).
  { induction secrets0 as [|p ps IH]; intros t Ht; [done|]. cbn. apply IH.
    destruct (_ && _); [|done]. unfold replace. by apply contains_replace_other. }
  revert s. induction secrets as [|p ps IH]; intros s; [set_solver|].
  intros [->|Hin]%elem_of_cons; cbn; [|by apply IH]. apply Hkeep.
  destruct (contains p s) eqn:E.
  - destruct (String.eqb_spec p "") as [->|]; [by destruct Hq|]. cbn.
    unfold replace. apply contains_replace_self; [done|lia].
  - by rewrite andb_false_r.
Qed.
Lemma scrub_clean q secrets v : clean q -> q ∈ secrets -> leaks q (scrub secrets v) = false.
Proof.
  intros Hq Hin. induction v as [|b|z|f|s|l HL|d HD] using val_ind'; cbn; try done.
  - by apply scrub_str_clean.
  - induction HL as [|x l Hx HL IH]; cbn; [done|]. by rewrite Hx, IH.
  - induction HD as [|[k x] d Hx HD IH]; cbn in *; [done|]. by rewrite Hx, IH.
Qed.

(** Sorting keys keeps the values. *)
Lemma leaks_canon q v : leaks q (canon v) = leaks q v.
Proof.
  induction v as [|b|z|f|s|l HL|d HD] using val_ind'; cbn; try done.
  - induction HL as [|x l Hx HL IH]; cbn; [done|]. by rewrite Hx, IH.
  - apply eq_true_iff_eq. rewrite !existsb_elem_of. setoid_rewrite sort_keys_Permutation.
    rewrite Forall_forall in HD. split.
    + intros (x & (y & -> & Hy)%list_elem_of_fmap & Hl). exists y. split; [done|]. cbn in Hl. by rewrite <- (HD y).
    + intros (y & Hy & Hl). exists (y.1, canon y.2). split; [by apply list_elem_of_fmap; exists y|]. cbn. by rewrite HD.
Qed.

Section Props.
Context `{Digest}.

(** ** Helper lemmas *)

Lemma log_inv_verify l : log_inv l -> l_healthy l = true ->
  exists n, verify (l_file l) = Ok (true, Intact n).
Proof.
  intros (f & p & Hf & _ & Hc & Hp) Hh. rewrite Hp, append_nil_r in Hf by done.
  rewrite Hf. eexists. apply verify_spec. eauto.
Qed.

Lemma fresh_inv redact run_id ex d l0 :
  init None redact run_id ex true Created d = Ok l0 -> log_inv l0.
Proof.
  unfold init. rewrite andb_false_r. cbn. intros [= <-].
  exists "", "". destruct d; cbn; split_and!; try done; by left.
Qed.

Lemma run_op_append o l :
  (exists c, l_file l = Some c) ->
  exists c more, l_file l = Some c /\ l_file (run_op o l) = Some (c ++ more).
Proof.
  intros [c Hc]. exists c.
  assert (Hw : forall io e, exists more, l_file (write io e l).1 = Some (c ++ more)).
  { intros io e. unfold write.
    destruct (l_sealed l); [exists ""; by rewrite append_nil_r|].
    destruct (l_healthy l); cbn [negb]; [|exists ""; by rewrite append_nil_r].
    destruct (l_mixed l && _); [exists ""; by rewrite append_nil_r|].
    destruct (io_open io); cbn [negb]; [|exists ""; by rewrite append_nil_r].
    rewrite Hc. cbn [default]. destruct (write_all _ _ _) as [f b] eqn:E.
    apply write_all_prefix in E as (d1 & d2 & _ & -> & _).
    exists d1. destruct (b && io_fsync io), (io_close io); done. }
  destruct o as [io e|io e|s|d]; cbn.
  - destruct (Hw io e) as [m ?]; eauto.
  - destruct (seal_cases io e l) as [->|[->| ->]].
    + exists "". by rewrite append_nil_r.
    + destruct (Hw io e) as [m ?]; eauto.
    + destruct (Hw io e) as [m ?]; exists m; split; [done|]. by destruct (write io e l).
  - exists "". rewrite append_nil_r. split; [done|]. by destruct (add_secret_file s l) as [-> _].
  - exists "". rewrite append_nil_r. split; [done|].
    destruct (startup_verify d l) as [[l' r]|] eqn:E; [|done].
    by apply startup_cases in E as [-> _].
Qed.

Definition stopped (l : alog) : Prop := l_sealed l = true \/ l_healthy l = false.

Lemma write_stopped io e l : stopped l -> (write io e l).1 = l /\ is_ok (write io e l).2 = false.
Proof.
  unfold stopped, write. destruct (l_sealed l); [done|].
  intros [?| ->]; [done|]. done.
Qed.
Lemma run_op_stopped o l : stopped l ->
  stopped (run_op o l) /\ l_file (run_op o l) = l_file l.
Proof.
  intros Hs. destruct o as [io e|io e|s|d]; cbn.
  - by destruct (write_stopped io e l Hs) as [-> _].
  - destruct (write_stopped io e l Hs) as [Hw Hf].
    destruct (seal_cases io e l) as [->|[->| ->]]; rewrite ?Hw; [done..|].
    split; [by left|done].
  - destruct (add_secret_file s l) as (-> & Hh & _ & He). split; [|done].
    unfold stopped in *. by rewrite Hh, He.
  - destruct (startup_verify d l) as [[l' r]|] eqn:E; [|done].
    apply startup_cases in E as (-> & _ & He & Hh). split; [|done].
    destruct Hs; [left; congruence | right; auto].
Qed.

(** Two chains that end in the same hash are the same, up to what the hash
    function allows. *)
Definition genesis_preimage : Prop := exists line, sha256 line = GENESIS.
Lemma chain_snoc l x t : chain_from GENESIS (l ++ [x])%list = Some t ->
  exists p d, chain_from GENESIS l = Some p /\ loads x = Some (VDict d) /\ is_str p (dget "prev" d) = true /\ t = sha256 x.
Proof.
  rewrite chain_from_app. destruct (chain_from GENESIS l) as [p|]; [|done]. cbn.
  destruct (loads x) as [[| | | | | |d]|] eqn:Hx; try done. destruct (is_str p _) eqn:Hp; [|done].
  intros [= <-]. by exists p, d.
Qed.
Lemma is_str_det p q o : is_str p o = true -> is_str q o = true -> p = q.
Proof. destruct o as [[]|]; cbn; try done. intros. bools. congruence. Qed.
(** One step back along two chains that end in the same hash. *)
Lemma chain_back l1 x l2 y t : chain_from GENESIS (l1 ++ [x])%list = Some t -> chain_from GENESIS (l2 ++ [y])%list = Some t ->
  collision \/ (x = y /\ exists p, chain_from GENESIS l1 = Some p /\ chain_from GENESIS l2 = Some p).
Proof.
  intros (p1 & d & E1 & Hx & I1 & ->)%chain_snoc (p2 & e & E2 & Hy & I2 & Hh)%chain_snoc.
  destruct (String.eqb_spec x y) as [->|Hne]; [right|left; by exists x, y].
  assert (d = e) as -> by congruence. rewrite (is_str_det _ _ _ I1 I2) in E1. eauto.
Qed.
Lemma chain_binds l1 : forall l2 t,
  chain_from GENESIS l1 = Some t -> chain_from GENESIS l2 = Some t ->
  l1 = l2 \/ collision \/ (length l1 <> length l2 /\ genesis_preimage).
Proof.
  induction l1 as [|x l1 IH] using rev_ind; intros l2 t H1 H2; destruct l2 as [|y l2 _] using rev_ind; [by left| | |];
    rewrite ?length_app; cbn [length].
  - injection H1 as <-. apply chain_snoc in H2 as (p & d & _ & _ & _ & E). right. right. split; [lia|by exists y].
  - injection H2 as <-. apply chain_snoc in H1 as (p & d & _ & _ & _ & E). right. right. split; [lia|by exists x].
  - destruct (chain_back _ _ _ _ _ H1 H2) as [?|(-> & p & E1 & E2)]; [auto|].
    destruct (IH l2 p E1 E2) as [->|[?|[? ?]]]; [auto..|]. right. right. split; [lia|done].
Qed.

(** ** Properties *)


(** C37: the log is append-only under every operation, and once it is sealed or
    unhealthy no operation changes a byte of it, however long it goes on. *)
Theorem log_append_only_and_absorbing l ops c :
  l_file l = Some c ->
  (exists more, l_file (foldl (fun l o => run_op o l) l ops) = Some (c ++ more)) /\
  (stopped l -> l_file (foldl (fun l o => run_op o l) l ops) = Some c).
Proof.
  intros Hc. split.
  - revert l c Hc. induction ops as [|o ops IH]; intros l c Hc; cbn.
    + exists "". by rewrite append_nil_r.
    + destruct (run_op_append o l) as (c' & m & H1 & H2); [eauto|].
      rewrite Hc in H1. simp_res. destruct (IH _ _ H2) as [m2 ->].
      exists (m ++ m2). by rewrite append_assoc.
  - revert l Hc. induction ops as [|o ops IH]; intros l Hc Hs; cbn; [done|].
    destruct (run_op_stopped o l Hs) as [Hs' Hf]. apply IH; congruence.
Qed.

(** C36: tamper evidence. Two log files that both verify, and on which a restart
    re-anchors to the same hash, hold the same records, however many lines were
    cut, inserted or edited between them; or they exhibit two byte strings with
    one SHA-256 digest, or a line whose digest is the 64 zeros a log starts
    from. *)
Theorem log_tamper_evident f1 f2 d1 d2 l l1 l2 :
  verify (Some f1) = Ok (true, d1) -> verify (Some f2) = Ok (true, d2) ->
  recover_tail (set_file (Some f1) l) = Ok l1 -> recover_tail (set_file (Some f2) l) = Ok l2 ->
  l_prev l1 = l_prev l2 ->
  rec_lines f1 = rec_lines f2 \/ collision \/ genesis_preimage.
Proof.
  intros (t1 & C1 & _)%verify_spec (t2 & C2 & _)%verify_spec R1 R2 E.
  apply (recover_prev _ _ f1 t1) in R1; [|done..]. apply (recover_prev _ _ f2 t2) in R2; [|done..].
  rewrite E, R2 in R1. subst t1. destruct (chain_binds _ _ _ C1 C2) as [?|[?|[_ ?]]]; auto.
Qed.

(** C38: a successful write appends one line that reads back as the scrubbed
    entry stamped with the run id and the previous hash, and the returned
    digest is the new tail. *)
Theorem write_reads_back io e l l' t :
  wf_entry e -> wf (io_time io) -> write io e l = (l', Ok t) ->
  l_file l' = Some (default "" (l_file l) ++ line_of io e l ++ String newline "") /\
  l_prev l' = t /\ t = sha256 (line_of io e l) /\
  exists d, loads (line_of io e l) = Some (VDict d) /\
    dget "prev" d = Some (VStr (l_prev l)) /\
    dget "run_id" d = Some (VStr (l_run_id l)) /\
    dget "ts" d = Some (canon (io_time io)) /\
    forall k, k ∉ ["prev"; "run_id"; "ts"] ->
      dget k d = (fun v => canon (scrub (l_redact l) v)) <$> dget k e.
Proof.
  intros He Ht Hw. apply write_ok in Hw as (_ & _ & -> & ->). split_and!; [done..|].
  destruct (line_loads io e l He Ht) as (d & Hd & Hk). exists d.
  split; [done|]. rewrite !Hk. unfold stamp.
  split_and!; [by rewrite dget_dset_eq|rewrite dget_dset_ne by done; by rewrite dget_dset_eq| |].
  - rewrite !dget_dset_ne by done. by rewrite dget_dset_eq.
  - intros k Hnk. rewrite Hk. unfold stamp. rewrite !dget_dset_ne by set_solver.
    rewrite (dget_map (scrub (l_redact l))). by destruct (dget k e).
Qed.

(** C39: redaction. The line a successful write appends reads back as a record in
    which no string inside a value the caller supplied (under a key other than
    [prev], [run_id] and [ts], which the log stamps itself) contains a registered
    secret that is clean: not empty, no part of the word in the redaction marker,
    and without the marker's brackets. Keys are not redacted. *)
Theorem write_redacts io e l l' t :
  wf_entry e -> wf (io_time io) -> write io e l = (l', Ok t) ->
  l_file l' = Some (default "" (l_file l) ++ line_of io e l ++ String newline "") /\
  exists d, loads (line_of io e l) = Some (VDict d) /\
    forall q k v, q ∈ l_redact l -> clean q -> k ∉ ["prev"; "run_id"; "ts"] -> dget k d = Some v -> leaks q v = false.
Proof.
  intros He Ht Hw. apply write_ok in Hw as (_ & _ & _ & ->). split; [done|].
  destruct (line_loads io e l He Ht) as (d & Hd & Hk). exists d. split; [done|].
  intros q k v Hin Hq Hne. rewrite Hk. unfold stamp. rewrite !dget_dset_ne by set_solver.
  rewrite (dget_map (scrub (l_redact l))). destruct (dget k e) as [u|]; [|done].
  cbn. intros [= <-]. rewrite leaks_canon. by apply scrub_clean.
Qed.

(** What the write after a failed close leaves: a chain that breaks. *)
Lemma stale_tail_breaks io e l io2 e2 l2 t :
  wf_entry e -> wf (io_time io) -> wf_entry e2 -> wf (io_time io2) -> log_inv l -> l_healthy l = true ->
  let l' := set_file (Some (default "" (l_file l) ++ line_of io e l ++ String newline "")) l in
  write io2 e2 l' = (l2, Ok t) ->
  sha256 (line_of io e l) = l_prev l \/
  exists k, verify (l_file l2) = Ok (false, ChainBreak k (sha256 (line_of io e l))).
Proof.
  intros He Ht He2 Ht2 (f & p & Hf & Hnl & Hc & Hp) Hh l' Hw. rewrite Hp, append_nil_r in Hf by done.
  apply write_ok in Hw as (_ & _ & _ & ->). destruct (line_loads io2 e2 l' He2 Ht2) as (d & Hd & Hk).
  destruct (String.eqb_spec (sha256 (line_of io e l)) (l_prev l)) as [E|E]; [by left|right].
  pose proof (chain_line io e l f GENESIS He Ht Hnl Hc) as Hc1.
  subst l'. cbn [l_file set_file set_prev default]. rewrite Hf in *. cbn [default] in *. unfold verify.
  unfold line_of at 2. unfold dumps at 1. cbn [canon].
  rewrite file_lines_append by (apply ends_nl_append || apply print_one_line).
  eapply (verify_break _ _ []); [exact Hc1| | |].
  - rewrite strip_print_dict. match goal with |- print (VDict ?r) <> _ => by destruct (print_dict_ends r) as [y ->] end.
  - rewrite strip_print_dict. exact Hd.
  - rewrite Hk, dget_stamp_prev. cbn. by destruct (String.eqb_spec (sha256 (line_of io e l)) (l_prev l)).
Qed.

(** C40: every way a write on a healthy, unsealed log fails. Before the file is
    open (a registered secret that is no text, or a failed [os.open]) nothing
    changes. A failed write or fsync leaves a prefix of the line in the file (all
    of it only if it was the fsync), latches the sink unhealthy, and every later
    write refuses and changes nothing. A failed close leaves the whole line in
    the file with the sink healthy and the tail hash stale, so that the next
    successful write breaks the chain at its line. *)
Theorem write_failures io e l l' x :
  wf_entry e -> wf (io_time io) -> log_inv l -> l_sealed l = false -> l_healthy l = true ->
  write io e l = (l', Raise x) ->
  let line := line_of io e l ++ String newline "" in
  let old := default "" (l_file l) in
  (l' = l /\ (l_mixed l && has_text (VDict e) = true \/ io_open io = false)) \/
  (exists written rest, line = written ++ rest /\ (rest <> "" \/ io_fsync io = false) /\
     l' = set_healthy false (set_file (Some (old ++ written)) l) /\
     forall io2 e2, (write io2 e2 l').1 = l' /\ is_ok (write io2 e2 l').2 = false) \/
  (io_fsync io = true /\ io_close io = false /\ l' = set_file (Some (old ++ line)) l /\
     forall io2 e2 l2 t, wf_entry e2 -> wf (io_time io2) -> write io2 e2 l' = (l2, Ok t) ->
       sha256 (line_of io e l) = l_prev l \/
       exists k, verify (l_file l2) = Ok (false, ChainBreak k (sha256 (line_of io e l)))).
Proof.
  intros He Ht Hinv Hs Hh. unfold write at 1. rewrite Hs, Hh. cbn [negb].
  destruct (l_mixed l && _); [intros [= <- _]; by left; auto|].
  destruct (io_open io); cbn [negb]; [|intros [= <- _]; left; auto].
  destruct (write_all _ _ _) as [f b] eqn:Hw. apply write_all_prefix in Hw as (d1 & d2 & Hd & -> & Hb).
  destruct (b && io_fsync io) eqn:Hok; cbn [negb].
  - bools. rewrite (proj1 Hb H0), append_nil_r in Hd. subst d1. destruct (io_close io); [done|]. intros [= <- _].
    right. right. split_and!; [done..|]. intros. by eapply stale_tail_breaks; [exact He|exact Ht|..].
  - intros [= <- _]. right. left. exists d1, d2. split_and!; [done| |done|].
    + destruct b; [right; by destruct (io_fsync io)|left]. intros E. by apply Hb in E.
    + intros. apply write_stopped. by right.
Qed.

(** Sealing. [seal_with] accepts only a RUN_CLOSED entry, appends it once,
    and from then on every write and every second seal raises. *)
Theorem seal_final io e l :
  (is_str "RUN_CLOSED" (dget "decision" e) = false ->
     seal_with io e l = (l, Raise (ValueError "AUDIT_SEAL_REQUIRES_RUN_CLOSED"))) /\
  (forall l' t, seal_with io e l = (l', Ok t) ->
     l_sealed l' = true /\ l_prev l' = t /\
     l_file l' = Some (default "" (l_file l) ++ line_of io e l ++ String newline "") /\
     forall io2 e2, is_ok (write io2 e2 l').2 = false /\ is_ok (seal_with io2 e2 l').2 = false).
Proof.
  unfold seal_with at 1 2. split; [by intros ->|]. intros l' t.
  destruct (negb _); [done|]. destruct (l_sealed l); [done|].
  destruct (write io e l) as [l1 [t1|x]] eqn:E; [|done]. intros [= <- <-].
  apply write_ok in E as (_ & _ & Ht & ->). cbn. split_and!; [done..|].
  intros io2 e2. split; [done|]. unfold seal_with. by destruct (negb _).
Qed.

End Props.

(** ** Witnesses *)

Definition io0 : wio := WIO (VFloat (FFin 17576000005 0)) true [] true true.
Definition l_empty : alog := ALog (Some "") [] false "run-1" true false GENESIS (Some true) CreatedDurably true.
Definition e_allow : dict := [("decision", VStr "ALLOW"); ("url", VStr "https://a/?k=s3cr3t")].

Lemma wf_io0 : wf (io_time io0).
Proof. constructor. Qed.
Lemma wf_e_allow : wf_entry e_allow.
Proof. repeat constructor; set_solver. Qed.

(** A toy digest for witnesses: 64 zeros but for the length of the message. *)
Definition toy_hex (m : string) : string :=
  let d := String (hex_char (N.land (N.of_nat (String.length m)) 15)) "" in
  d ++ "000000000000000000000000000000000000000000000000000000000000000".
Lemma toy_hex_hex m : is_hex64 (toy_hex m) = true.
Proof.
  unfold toy_hex, is_hex64. cbn [String.append String.length Nat.eqb str_all].
  by rewrite Sha256.hex_char_lhex.
Qed.
Definition toy : Digest := {|
  sha256 := toy_hex; hmac_sha256 k m := toy_hex (k ++ m);
  sha256_hex := toy_hex_hex; hmac_hex k m := toy_hex_hex (k ++ m) |}.

Definition ops0 : list log_op := [OpWrite io0 e_allow; OpSecret "s3cr3t"; OpWrite io0 e_allow].
Definition run_toy (ops : list log_op) (l : alog) : alog :=
  foldl (fun l o => run_op (H := toy) o l) l ops.
Definition l_one : alog := (write (H := toy) io0 e_allow l_empty).1.
Definition e_closed : dict := [("decision", VStr "RUN_CLOSED")].

Lemma op_ok_write : op_ok (OpWrite io0 e_allow).
Proof. split; [apply wf_e_allow | split; [apply wf_io0 | reflexivity]]. Qed.


Lemma log_append_only_and_absorbing_witness :
  l_file (run_toy ops0 (set_sealed true l_empty)) = Some "".
Proof.
  apply (log_append_only_and_absorbing (H := toy) (set_sealed true l_empty) ops0 "" eq_refl).
  left. reflexivity.
Defined.

Definition reopened (f : string) : alog :=
  set_prev (toy_hex (line_of io0 e_allow l_empty)) (set_file (Some f) l_empty).
Lemma log_tamper_evident_witness :
  let f := default "" (l_file l_one) in let g := f ++ String newline "" in
  f <> g /\ (rec_lines f = rec_lines g \/ collision (H := toy) \/ genesis_preimage (H := toy)).
Proof.
  intros f g. split; [vm_compute; discriminate|].
  apply (log_tamper_evident (H := toy) f g (Intact 1) (Intact 1) l_empty (reopened f) (reopened g));
    vm_compute; reflexivity.
Defined.

Lemma write_reads_back_witness :
  exists d, loads (line_of io0 e_allow l_empty) = Some (VDict d) /\
    dget "decision" d = Some (VStr "ALLOW").
Proof.
  pose proof (write_reads_back (H := toy) io0 e_allow l_empty l_one
    (toy_hex (line_of io0 e_allow l_empty)) wf_e_allow wf_io0) as W.
  destruct W as (_ & _ & _ & d & Hd & _ & _ & _ & Hk); [vm_compute; reflexivity|].
  exists d. split; [exact Hd|]. rewrite Hk; [vm_compute; reflexivity|not_in].
Defined.

(** The secret of [e_allow], registered. *)
Definition l_secret : alog := add_secret "s3cr3t" l_empty.
Lemma write_redacts_witness : exists d, loads (line_of io0 e_allow l_secret) = Some (VDict d) /\
  leaks "s3cr3t" (VDict e_allow) = true /\ forall v, dget "url" d = Some v -> leaks "s3cr3t" v = false.
Proof.
  destruct (write_redacts (H := toy) io0 e_allow l_secret (write (H := toy) io0 e_allow l_secret).1
    (toy_hex (line_of io0 e_allow l_secret)) wf_e_allow wf_io0) as (_ & d & Hd & Hk); [vm_compute; reflexivity|].
  exists d. split; [exact Hd|]. split; [vm_compute; reflexivity|]. intros v. apply Hk.
  - left.
  - split; [discriminate|]. split; reflexivity.
  - not_in.
Defined.

(** A short write and a failed close on the empty log. *)
Definition io_torn : wio := WIO (VInt 1) true [WN 5; WErr] true true.
Definition io_unclosed : wio := WIO (VInt 1) true [] true false.
Lemma l_empty_inv : log_inv (H := toy) l_empty.
Proof. exists "", "". split_and!; try reflexivity. by left. Qed.
Lemma write_failures_witness :
  (exists written rest, l_file (write (H := toy) io_torn e_allow l_empty).1 = Some written /\
     line_of io_torn e_allow l_empty ++ String newline "" = written ++ rest /\ rest <> "") /\
  exists k, verify (H := toy) (l_file (write (H := toy) io0 e_allow (write (H := toy) io_unclosed e_allow l_empty).1).1)
    = Ok (false, ChainBreak k (toy_hex (line_of io_unclosed e_allow l_empty))).
Proof.
  split.
  - destruct (write (H := toy) io_torn e_allow l_empty) as [l' [t|x]] eqn:E; [vm_compute in E; discriminate E|].
    pose proof (write_failures (H := toy) io_torn e_allow l_empty l' x wf_e_allow (wf_int 1) l_empty_inv eq_refl eq_refl E)
      as [[_ [F|F]]|[(w & r & Hl & [Hr|Hr] & -> & _)|(_ & F & _)]]; [discriminate F..| |discriminate Hr|discriminate F].
    exists w, r. split; [reflexivity|]. split; [exact Hl|exact Hr].
  - destruct (write (H := toy) io_unclosed e_allow l_empty) as [l' [t|x]] eqn:E; [vm_compute in E; discriminate E|].
    pose proof (write_failures (H := toy) io_unclosed e_allow l_empty l' x wf_e_allow (wf_int 1) l_empty_inv eq_refl eq_refl E)
      as [[_ [F|F]]|[(w & r & _ & _ & -> & _)|(_ & _ & -> & W)]]; [discriminate F..| |].
    + exfalso. apply (f_equal (fun p => l_healthy p.1)) in E. vm_compute in E. discriminate E.
    + cbn [fst]. destruct (write (H := toy) io0 e_allow _) as [l2 [t|y]] eqn:E2; [|vm_compute in E2; discriminate E2].
      destruct (W io0 e_allow l2 t wf_e_allow wf_io0 E2) as [F|G]; [vm_compute in F; discriminate F|exact G].
Defined.

Lemma seal_final_witness :
  let r := seal_with (H := toy) io0 e_closed l_empty in
  is_ok r.2 = true /\ l_sealed r.1 = true /\
  is_ok (write (H := toy) io0 e_allow r.1).2 = false.
Proof.
  assert (E : seal_with (H := toy) io0 e_closed l_empty =
    ((seal_with (H := toy) io0 e_closed l_empty).1, Ok (toy_hex (line_of io0 e_closed l_empty)))).
  { vm_compute. reflexivity. }
  pose proof (proj2 (seal_final (H := toy) io0 e_closed l_empty) _ _ E) as (W1 & _ & _ & W2).
  split; [vm_compute; reflexivity|]. split; [exact W1|]. apply (W2 io0 e_allow).
Defined.

(** ** An accepted log that the next write breaks

    A chain-intact log whose last record has no final newline is accepted at
    start-up and re-anchored; the next record is then appended to that line. *)
Definition unterminated : string := line_of io0 e_allow l_empty.
Definition adopted : res alog := init (H := toy) (Some unterminated) [] (Some "run-2") true true Created true.

(** A log accepted at start-up can be made unverifiable by the next
    successful write: an intact log without a final newline is accepted,
    re-anchored and healthy, the write succeeds, and the log no longer parses. *)
Theorem unterminated_log_adopted_then_broken :
  exists l, adopted = Ok l /\ l_healthy l = true /\ l_detail l = Intact 1 /\
    is_ok (write (H := toy) io0 e_allow l).2 = true /\
    verify (H := toy) (l_file (write (H := toy) io0 e_allow l).1) = Ok (false, Unparseable 1).
Proof.
  eexists. split; [vm_compute; reflexivity|]. split_and!; vm_compute; reflexivity.
Qed.
