(* ===== verification/Lifecycle.v ===== *)
(** * The permit and cancellation authority ([src/pep/lifecycle.py])

    Every public method of [RunContext] runs under one condition lock and every
    method of [ConnectionLifecycle] under another, so each is one atomic
    function on the object's state; a concurrent execution is a sequence of
    them.  [World.v] composes them with the audit log into the effect gate. *)

From S2P Require Import Prelude PyStr Json JsonFacts Hash AuditLog.
Open Scope Z_scope.

(** ** Data *)

(** What [issue_permit] fixes for the life of an [EffectPermit]. *)
Record grant := Grant {
  g_attempt : string; g_epoch : Z; g_seq : Z; g_generation : string; g_budget : string }.
Record release_tr := ReleaseTransition {
  rt_attempt : string; rt_epoch : Z; rt_permit_seq : Z; rt_seq : Z }.
Record cancel_tr := CancellationTransition {
  ct_cancelled_epoch : Z; ct_new_epoch : Z; ct_seq : Z; ct_inflight : Z;
  ct_time : Z; ct_newly : bool }.

Record run := RunContext {
  r_epoch : Z;
  r_cancelled : bool;
  r_sequence : Z;
  r_inflight : gmap string grant;
  r_authorizations : gmap string (Z * Z);
  r_permitted : gset string;
  r_cancellation : option cancel_tr }.
Definition run0 : run := RunContext 0 false 0 ∅ ∅ ∅ None.

#[export] Instance grant_eq_dec : EqDecision grant.
Proof. solve_decision. Defined.
#[export] Instance release_tr_eq_dec : EqDecision release_tr.
Proof. solve_decision. Defined.
#[export] Instance cancel_tr_eq_dec : EqDecision cancel_tr.
Proof. solve_decision. Defined.

(** ** [RunContext] *)

Definition live (epoch : Z) (r : run) : bool := negb (r_cancelled r) && (epoch =? r_epoch r).

Definition authorize (attempt : string) (epoch : Z) (r : run) : run * option Z :=
  if r_cancelled r || negb (epoch =? r_epoch r) || bool_decide (is_Some (r_authorizations r !! attempt))
  then (r, None) else
  let s := r_sequence r + 1 in
  (RunContext (r_epoch r) (r_cancelled r) s (r_inflight r)
     (<[attempt := (epoch, s)]> (r_authorizations r)) (r_permitted r) (r_cancellation r), Some s).

(** [terminal] is [conn.is_terminal()], read while the run lock is held. *)
Definition issue_permit (attempt : string) (epoch : Z) (terminal : bool)
    (generation budget : string) (r : run) : run * option grant :=
  if r_cancelled r || negb (epoch =? r_epoch r) then (r, None) else
  if terminal then (r, None) else
  match r_authorizations r !! attempt with
  | None => (r, None)
  | Some (auth_epoch, _) =>
      if negb (auth_epoch =? epoch) || bool_decide (attempt ∈ r_permitted r) then (r, None) else
      let s := r_sequence r + 1 in
      let g := Grant attempt epoch s generation budget in
      (RunContext (r_epoch r) (r_cancelled r) s (<[attempt := g]> (r_inflight r))
         (r_authorizations r) ({[attempt]} ∪ r_permitted r) (r_cancellation r), Some g)
  end.

Definition release (attempt : string) (r : run) : run * option release_tr :=
  match r_inflight r !! attempt with
  | None => (r, None)
  | Some g =>
      let s := r_sequence r + 1 in
      (RunContext (r_epoch r) (r_cancelled r) s (base.delete attempt (r_inflight r))
         (r_authorizations r) (r_permitted r) (r_cancellation r),
       Some (ReleaseTransition attempt (g_epoch g) (g_seq g) s))
  end.

Definition inflight_count (r : run) : Z := Z.of_nat (size (r_inflight r)).

(** [now] is [time.monotonic()]. *)
Definition cancel (now : Z) (r : run) : run * cancel_tr :=
  match r_cancellation r with
  | Some t =>
      (r, CancellationTransition (ct_cancelled_epoch t) (ct_new_epoch t) (ct_seq t)
            (ct_inflight t) (ct_time t) false)
  | None =>
      let s := r_sequence r + 1 in
      let t := CancellationTransition (r_epoch r) (r_epoch r + 1) s (inflight_count r) now true in
      (RunContext (r_epoch r + 1) true s (r_inflight r) (r_authorizations r) (r_permitted r)
         (Some t), t)
  end.

(** The value [wait_for_drain] returns when it looks at the run: [Some true]
    once drained, [Some false] when the deadline has passed, [None] to wait on. *)
Definition drain_poll (expired : bool) (r : run) : option bool :=
  if bool_decide (r_inflight r = ∅) then Some true else if expired then Some false else None.

(** ** [ConnectionLifecycle]

    A socket is a handle number; [c_closed] are the handles [_shutdown_close]
    was called on, most recent first. *)
Record conn := ConnectionLifecycle {
  c_id : string; c_terminal : bool; c_sockets : list nat; c_closed : list nat }.
Definition conn0 (id : string) : conn := ConnectionLifecycle id false [] [].

Definition track_or_reject (s : nat) (c : conn) : conn * bool :=
  if negb (c_terminal c)
  then (ConnectionLifecycle (c_id c) false (c_sockets c ++ [s])%list (c_closed c), true)
  else (ConnectionLifecycle (c_id c) (c_terminal c) (c_sockets c) (s :: c_closed c), false).
Definition transfer (old new : nat) (c : conn) : conn * bool :=
  if negb (c_terminal c)
  then let socks := if bool_decide (old ∈ c_sockets c) then c_sockets c
                    else (c_sockets c ++ [old])%list in
       (ConnectionLifecycle (c_id c) false (socks ++ [new])%list (c_closed c), true)
  else (ConnectionLifecycle (c_id c) (c_terminal c) (c_sockets c) (new :: c_closed c), false).
Definition begin_termination (c : conn) : conn * list nat :=
  (ConnectionLifecycle (c_id c) true (c_sockets c) (c_closed c), c_sockets c).
(** [shutdown_retained], given which handles [shutdown] still finds live. *)
Definition shutdown_retained (alive : nat -> bool) (socks : list nat) (c : conn) : conn * bool :=
  (ConnectionLifecycle (c_id c) (c_terminal c) (c_sockets c) (rev socks ++ c_closed c)%list,
   existsb alive socks).
Definition terminate (alive : nat -> bool) (c : conn) : conn * bool :=
  let '(c', socks) := begin_termination c in shutdown_retained alive socks c'.

(** ** The sanitized intent *)

Definition AUTH : string := "AUTH_COMMITTED".
Definition PERMIT : string := "PERMIT_GRANTED".
Definition PERMIT_RELEASED : string := "PERMIT_RELEASED".
Definition ATTEMPTED : string := "EFFECT_ATTEMPTED".
Definition COMPLETED : string := "EFFECT_COMPLETED".
Definition FAILED : string := "EFFECT_FAILED".
Definition UNKNOWN : string := "EFFECT_OUTCOME_UNKNOWN".
Definition CANCELLED : string := "EFFECT_CANCELLED".
Definition CANCEL_REQUESTED : string := "CANCELLATION_REQUESTED".
Definition CANCEL_LINEARIZED : string := "CANCELLATION_LINEARIZED".
Definition CANCEL_ACK : string := "CANCELLATION_ACK".
Definition CANCEL_DRAIN_TIMEOUT : string := "CANCELLATION_DRAIN_TIMEOUT".
Definition RUN_CLOSED : string := "RUN_CLOSED".

Definition nl : string := String newline "".
(** The f-string [request_intent_digest] hashes. *)
Definition intent_canon (method authority path : string) (body_len : Z) : string :=
  "v2" ++ nl ++ str_upper method ++ nl ++ authority ++ nl ++ path ++ nl ++
  "body_len=" ++ show_Z body_len.
Definition request_intent_digest `{Digest} (method authority path : string) (body_len : Z) : string :=
  "sha256:" ++ sha256 (utf8 (intent_canon method authority path body_len)).

(** The attributes [sanitized_intent] reads off the pin; an absent pin gives
    [None] for each. *)
Record pin := Pin { pin_family : string; pin_ip : string; pin_port : Z }.
#[export] Instance pin_eq_dec : EqDecision pin.
Proof. solve_decision. Defined.
Definition opt_val {A} (f : A -> val) (o : option A) : val :=
  match o with Some a => f a | None => VNull end.
Definition or_none (s : string) : string := if String.eqb s "" then "none" else s.

Record intent_args := IntentArgs {
  ia_run_id : string; ia_conn_id : string; ia_attempt : string; ia_epoch : Z;
  ia_program : string; ia_generation : string; ia_method : string; ia_host : string;
  ia_path : string; ia_pin : option pin; ia_credential : string; ia_budget : string;
  ia_body_len : Z }.
Definition sanitized_intent `{Digest} (a : intent_args) : dict :=
  [ ("decision", VStr AUTH);
    ("lifecycle_version", VStr "E10-v2");
    ("run_id", VStr (ia_run_id a));
    ("attempt_id", VStr (ia_attempt a));
    ("conn_id", VStr (ia_conn_id a));
    ("epoch", VInt (ia_epoch a));
    ("program_id", VStr (ia_program a));
    ("policy_generation", VStr (ia_generation a));
    ("budget_binding", VStr (ia_budget a));
    ("method", VStr (str_upper (ia_method a)));
    ("canonical_host", VStr (ia_host a));
    ("pin_family", opt_val (fun p => VStr (pin_family p)) (ia_pin a));
    ("pin_ip", opt_val (fun p => VStr (pin_ip p)) (ia_pin a));
    ("pin_port", opt_val (fun p => VInt (pin_port p)) (ia_pin a));
    ("credential_ref", VStr (or_none (ia_credential a)));
    ("request_intent_digest",
       VStr (request_intent_digest (ia_method a) (ia_host a) (ia_path a) (ia_body_len a))) ].
