(* ===== verification/LifecycleFacts.v ===== *)
(** * Facts about the permit and cancellation authority

    Histories of atomic [RunContext] calls, their invariant, and the
    linearization of permits against cancellation. *)

From S2P Require Import Prelude PyStr Json JsonFacts Hash AuditLog Lifecycle.
Open Scope Z_scope.

(** ** Histories *)

Inductive run_op :=
| OpAuthorize (attempt : string) (epoch : Z)
| OpIssue (attempt : string) (epoch : Z) (terminal : bool) (generation budget : string)
| OpRelease (attempt : string)
| OpCancel (now : Z).
Inductive run_ans :=
| AnsSeq (s : option Z)
| AnsGrant (g : option grant)
| AnsRelease (t : option release_tr)
| AnsCancel (t : cancel_tr).

Definition run_step (o : run_op) (r : run) : run * run_ans :=
  match o with
  | OpAuthorize a e => let '(r', s) := authorize a e r in (r', AnsSeq s)
  | OpIssue a e term gen b => let '(r', g) := issue_permit a e term gen b r in (r', AnsGrant g)
  | OpRelease a => let '(r', t) := release a r in (r', AnsRelease t)
  | OpCancel now => let '(r', t) := cancel now r in (r', AnsCancel t)
  end.
Fixpoint run_hist (ops : list run_op) (r : run) : run * list run_ans :=
  match ops with
  | [] => (r, [])
  | o :: ops' => let '(r1, a) := run_step o r in
                 let '(r2, l) := run_hist ops' r1 in (r2, a :: l)
  end.

(** The sequence number an answer allocates. *)
Definition ans_seq (a : run_ans) : option Z :=
  match a with
  | AnsSeq s => s
  | AnsGrant g => g_seq <$> g
  | AnsRelease t => rt_seq <$> t
  | AnsCancel t => if ct_newly t then Some (ct_seq t) else None
  end.
Definition ans_seqs : list run_ans -> list Z := omap ans_seq.
Definition ans_grants : list run_ans -> list grant :=
  omap (fun a => match a with AnsGrant g => g | _ => None end).
Definition ans_releases : list run_ans -> list release_tr :=
  omap (fun a => match a with AnsRelease t => t | _ => None end).
Definition ans_cancels : list run_ans -> list cancel_tr :=
  omap (fun a => match a with AnsCancel t => Some t | _ => None end).

Lemma run_hist_app o1 o2 r :
  run_hist (o1 ++ o2) r =
    let '(r1, l1) := run_hist o1 r in
    let '(r2, l2) := run_hist o2 r1 in (r2, l1 ++ l2)%list.
Proof.
  revert r. induction o1 as [|o o1 IH]; intros r; cbn.
  - by destruct (run_hist o2 r).
  - destruct (run_step o r) as [r1 a]. rewrite IH.
    destruct (run_hist o1 r1) as [r2 l1]. by destruct (run_hist o2 r2).
Qed.

(** ** The invariant *)

Record run_inv (r : run) : Prop := {
  ri_seq : 0 <= r_sequence r;
  ri_cancel : r_cancelled r = match r_cancellation r with Some _ => true | None => false end;
  ri_epoch : r_epoch r = if r_cancelled r then 1 else 0;
  ri_auth : forall a e s, r_authorizations r !! a = Some (e, s) -> e = 0 /\ 0 < s <= r_sequence r;
  ri_permitted : forall a, a ∈ r_permitted r -> is_Some (r_authorizations r !! a);
  ri_inflight : forall a g, r_inflight r !! a = Some g ->
    a ∈ r_permitted r /\ g_attempt g = a /\ g_epoch g = 0 /\
    exists s, r_authorizations r !! a = Some (0, s) /\ s < g_seq g <= r_sequence r;
  ri_cancelled_at : forall t, r_cancellation r = Some t ->
    ct_cancelled_epoch t = 0 /\ ct_new_epoch t = 1 /\ 0 < ct_seq t <= r_sequence r /\
    ct_newly t = true /\ inflight_count r <= ct_inflight t;
}.

Lemma run_inv0 : run_inv run0.
Proof.
  by split.
Qed.

Ltac run_tac :=
  repeat match goal with
  | H : context [if ?b then _ else _] |- _ => destruct b eqn:?; simp_res
  | H : context [match ?b with Some _ => _ | None => _ end] |- _ => destruct b eqn:?; simp_res
  | H : context [match ?b with (_, _) => _ end] |- _ => destruct b eqn:?; simp_res
  end; simp_res.

Lemma authorize_inv a e r : run_inv r -> run_inv (authorize a e r).1.
Proof.
  intros Hinv. pose proof Hinv as [Hs Hc He Ha Hp Hi Ht]. unfold authorize.
  destruct (r_cancelled r) eqn:Ec; cbn; [done|].
  destruct (e =? r_epoch r) eqn:Ee; cbn; [|done].
  case_bool_decide as Hau; cbn; [done|]. bools. subst e.
  assert (Hn : r_authorizations r !! a = None) by (by apply eq_None_not_Some).
  split; cbn; rewrite ?Ec; try done; [lia|..].
  - intros a' e' s'. rewrite lookup_insert_Some. intros [[_ [= <- <-]]|[_ H]]; [lia|].
    apply Ha in H. lia.
  - intros a' H%Hp. destruct (decide (a = a')) as [->|];
      [by rewrite lookup_insert_eq | by rewrite lookup_insert_ne].
  - intros a' g H. destruct (Hi _ _ H) as (? & ? & ? & s & Hs' & ?). split_and!; [done..|].
    exists s. rewrite lookup_insert_ne by congruence. split; [done|lia].
  - intros t H. specialize (Ht t H) as (? & ? & ? & ? & Hif). split_and!; try lia; [done|exact Hif].
Qed.

Lemma issue_inv a e term gen b r : run_inv r -> run_inv (issue_permit a e term gen b r).1.
Proof.
  intros Hinv. pose proof Hinv as [Hs Hc He Ha Hp Hi Ht]. unfold issue_permit.
  destruct (r_cancelled r) eqn:Ec; cbn; [done|].
  destruct (e =? r_epoch r) eqn:Ee; cbn; [|done].
  destruct term; [done|]. destruct (_ !! a) as [[ae s]|] eqn:Eau; [|done].
  destruct (ae =? e) eqn:Eae; cbn; [|done]. case_bool_decide as Hpe; cbn; [done|]. bools. subst.
  split; cbn; rewrite ?Ec; try done; [lia|..].
  - intros a' e' s' H. apply Ha in H. lia.
  - intros a' [->%elem_of_singleton|H]%elem_of_union; [eauto|by apply Hp].
  - intros a' g. rewrite lookup_insert_Some. intros [[<- <-]|[Hne H]].
    + split_and!; [set_solver|done|done|]. exists s. rewrite Eau, He. apply Ha in Eau.
      split; [done|cbn; lia].
    + destruct (Hi _ _ H) as (? & ? & ? & s' & ? & ?). split_and!; [set_solver|done|done|].
      exists s'. split; [done|lia].
  - intros t H. by rewrite H in Hc.
Qed.

Lemma inflight_count_delete a g r r' :
  r_inflight r !! a = Some g -> r_inflight r' = base.delete a (r_inflight r) ->
  inflight_count r' = inflight_count r - 1.
Proof.
  intros Hg Hr. unfold inflight_count. rewrite Hr, map_size_delete, Hg.
  assert (size (r_inflight r) <> 0%nat); [|lia].
  intros E%map_size_empty_inv. by rewrite E in Hg.
Qed.

Lemma release_inv a r : run_inv r -> run_inv (release a r).1.
Proof.
  intros Hinv. pose proof Hinv as [Hs Hc He Ha Hp Hi Ht]. unfold release.
  destruct (_ !! a) as [g|] eqn:Eg; [|done]. cbn.
  split; cbn; try done; [lia|..].
  - intros a' e' s' H. apply Ha in H. lia.
  - intros a' g'. rewrite lookup_delete_Some. intros [_ H].
    destruct (Hi _ _ H) as (? & ? & ? & s' & ? & ?). split_and!; try done. exists s'. split; [done|lia].
  - intros t H. specialize (Ht t H) as (? & ? & ? & ? & Hif). split_and!; try lia; [done|].
    erewrite inflight_count_delete; [|exact Eg|done]. lia.
Qed.

Lemma cancel_inv now r : run_inv r -> run_inv (cancel now r).1.
Proof.
  intros Hinv. pose proof Hinv as [Hs Hc He Ha Hp Hi Ht]. unfold cancel.
  destruct (r_cancellation r) as [t|] eqn:Et; [done|].
  rewrite Hc in He. split; cbn; try done; [lia|lia|..].
  - intros a' e' s' H. apply Ha in H. lia.
  - intros a' g' H. destruct (Hi _ _ H) as (? & ? & ? & s' & ? & ?). split_and!; try done.
    exists s'. split; [done|lia].
  - intros t [= <-]. cbn. split_and!; try done; [lia..|]. unfold inflight_count. cbn. lia.
Qed.

Lemma run_step_inv o r : run_inv r -> run_inv (run_step o r).1.
Proof.
  intros H. destruct o as [a e|a e term gen b|a|now]; cbn.
  - pose proof (authorize_inv a e r H). by destruct (authorize a e r).
  - pose proof (issue_inv a e term gen b r H). by destruct (issue_permit a e term gen b r).
  - pose proof (release_inv a r H). by destruct (release a r).
  - pose proof (cancel_inv now r H). by destruct (cancel now r).
Qed.
Lemma run_hist_inv ops : forall r, run_inv r -> run_inv (run_hist ops r).1.
Proof.
  induction ops as [|o ops IH]; intros r H; cbn; [done|].
  pose proof (run_step_inv o r H) as H1. destruct (run_step o r) as [r1 a]. cbn in H1.
  specialize (IH r1 H1). by destruct (run_hist ops r1).
Qed.

(** ** Sequence numbers *)

Lemma run_step_seq o r r' a : run_step o r = (r', a) ->
  (ans_seq a = Some (r_sequence r + 1) /\ r_sequence r' = r_sequence r + 1) \/
  (ans_seq a = None /\ r_sequence r' = r_sequence r).
Proof.
  destruct o as [at' e|at' e term gen b|at'|now]; cbn;
    unfold authorize, issue_permit, release, cancel; intros H; run_tac; cbn; auto.
Qed.
Lemma run_hist_seq ops : forall r r' l, run_hist ops r = (r', l) ->
  r_sequence r <= r_sequence r' /\
  ans_seqs l = seqZ (r_sequence r + 1) (r_sequence r' - r_sequence r).
Proof.
  induction ops as [|o ops IH]; intros r r' l; cbn.
  - intros [= <- <-]. by rewrite Z.sub_diag.
  - destruct (run_step o r) as [r1 a] eqn:E1. destruct (run_hist ops r1) as [r2 l2] eqn:E2.
    intros [= <- <-]. destruct (IH _ _ _ E2) as [Hle Hs].
    change (ans_seqs (a :: l2)) with (match ans_seq a with Some s => s :: ans_seqs l2 | None => ans_seqs l2 end).
    destruct (run_step_seq _ _ _ _ E1) as [[Ha Hr]|[Ha Hr]]; rewrite Ha, Hs, Hr.
    + split; [lia|]. rewrite (seqZ_cons (r_sequence r + 1)) by lia. f_equal. f_equal; lia.
    + split; [lia|done].
Qed.
Lemma run_hist_cancelled ops : forall r, r_cancelled r = true ->
  r_cancelled (run_hist ops r).1 = true.
Proof.
  induction ops as [|o ops IH]; intros r H; cbn; [done|].
  assert (H1 : r_cancelled (run_step o r).1 = true).
  { destruct o; cbn; unfold authorize, issue_permit, release, cancel; rewrite ?H; cbn; [done..| |].
    - by destruct (r_inflight r !! attempt).
    - by destruct (r_cancellation r). }
  destruct (run_step o r) as [r1 a]. specialize (IH r1 H1). by destruct (run_hist ops r1).
Qed.

(** ** Grants and releases *)

Record hist_ok (l : list run_ans) (r : run) : Prop := {
  ho_inv : run_inv r;
  ho_once : NoDup (map g_attempt (ans_grants l));
  ho_permitted : forall g, g ∈ ans_grants l -> g_attempt g ∈ r_permitted r;
  ho_auth : forall g, g ∈ ans_grants l -> exists s,
    r_authorizations r !! g_attempt g = Some (g_epoch g, s) /\ s < g_seq g;
  ho_inflight : forall a g, r_inflight r !! a = Some g <->
    g ∈ ans_grants l /\ g_attempt g = a /\ a ∉ map rt_attempt (ans_releases l);
  ho_released : NoDup (map rt_attempt (ans_releases l));
  ho_release : forall t, t ∈ ans_releases l -> exists g, g ∈ ans_grants l /\
    rt_attempt t = g_attempt g /\ rt_epoch t = g_epoch g /\ rt_permit_seq t = g_seq g /\
    g_seq g < rt_seq t;
  ho_count : inflight_count r = Z.of_nat (length (ans_grants l)) - Z.of_nat (length (ans_releases l)) }.

Lemma ans_grants_app l1 l2 : ans_grants (l1 ++ l2) = (ans_grants l1 ++ ans_grants l2)%list.
Proof. apply omap_app. Qed.
Lemma ans_releases_app l1 l2 : ans_releases (l1 ++ l2) = (ans_releases l1 ++ ans_releases l2)%list.
Proof. apply omap_app. Qed.

(** A step that neither grants nor releases, and keeps what [hist_ok] reads. *)
Lemma hist_ok_quiet l r a r' :
  hist_ok l r -> run_inv r' -> ans_grants [a] = [] -> ans_releases [a] = [] ->
  r_inflight r' = r_inflight r -> r_permitted r' = r_permitted r ->
  r_authorizations r ⊆ r_authorizations r' -> hist_ok (l ++ [a]) r'.
Proof.
  intros [Hinv Honce Hp Ha Hi Hrd Hr Hc] Hinv' Hg Ht Ei Ep Ea.
  split; rewrite ?ans_grants_app, ?ans_releases_app, ?Hg, ?Ht, ?app_nil_r, ?Ei, ?Ep; try done.
  - intros g Hgr. destruct (Ha g Hgr) as (s & Hs & ?). exists s.
    split; [by eapply lookup_weaken|done].
  - unfold inflight_count. by rewrite Ei.
Qed.

Lemma hist_ok_authorize l r at' e r' s : hist_ok l r ->
  authorize at' e r = (r', s) -> hist_ok (l ++ [AnsSeq s]) r'.
Proof.
  intros Hok Hs. pose proof (authorize_inv at' e r (ho_inv _ _ Hok)) as Hinv'.
  rewrite Hs in Hinv'. unfold authorize in Hs. run_tac; eapply hist_ok_quiet; try done.
  cbn. apply insert_subseteq. repeat match goal with H : _ || _ = false |- _ =>
    apply orb_false_iff in H as [? ?] end. bools. by apply eq_None_not_Some.
Qed.
Lemma hist_ok_cancel l r now r' t : hist_ok l r ->
  cancel now r = (r', t) -> hist_ok (l ++ [AnsCancel t]) r'.
Proof.
  intros Hok Ht. pose proof (cancel_inv now r (ho_inv _ _ Hok)) as Hinv'.
  rewrite Ht in Hinv'. unfold cancel in Ht. run_tac; by eapply hist_ok_quiet.
Qed.
Lemma hist_ok_issue l r at' e term gen b r' g : hist_ok l r ->
  issue_permit at' e term gen b r = (r', g) -> hist_ok (l ++ [AnsGrant g]) r'.
Proof.
  intros Hok Hs. pose proof (issue_inv at' e term gen b r (ho_inv _ _ Hok)) as Hinv'.
  rewrite Hs in Hinv'. unfold issue_permit in Hs. run_tac; try by eapply hist_ok_quiet.
  bools. destruct Hok as [Hinv Honce Hp Ha Hi Hrd Hr Hc].
  assert (Hfresh : at' ∉ map g_attempt (ans_grants l)).
  { intros (g & -> & Hg)%list_elem_of_fmap. by apply Hp in Hg. }
  assert (Hnr : at' ∉ map rt_attempt (ans_releases l)).
  { intros (t & -> & (g & Hg & Hga & _)%Hr)%list_elem_of_fmap. apply Hfresh.
    rewrite Hga. by apply list_elem_of_fmap_2. }
  assert (Hni : r_inflight r !! at' = None).
  { apply eq_None_not_Some. intros [g (Hg & <- & _)%Hi]. by apply Hp in Hg. }
  match goal with |- hist_ok (_ ++ [AnsGrant (Some ?g)]) _ => set (g0 := g) end.
  split; rewrite ?ans_grants_app, ?ans_releases_app, ?app_nil_r; try done; cbn [r_inflight r_permitted r_authorizations].
  - rewrite map_app. apply NoDup_app. split_and!; [done| |apply NoDup_singleton].
    intros x Hx ->%list_elem_of_singleton. by apply Hfresh.
  - intros g [Hg| ->%list_elem_of_singleton]%elem_of_app; [|cbn]; [apply Hp in Hg|]; set_solver.
  - intros g [Hg| ->%list_elem_of_singleton]%elem_of_app; [by apply Ha|].
    exists z0. cbn. subst. split; [done|]. destruct Hinv as [_ _ _ Hau _ _ _]. apply Hau in Heqo. lia.
  - intros a g. rewrite lookup_insert_Some, Hi, elem_of_app, ?app_nil_r. split.
    + intros [[<- <-]|(? & ? & ? & ?)]; [|by auto]. split_and!; try done. right. by left.
    + intros ([Hx| ->%list_elem_of_singleton] & <- & ?); [right|by left]. split_and!; try done.
      intros Heq. apply Hfresh. rewrite Heq. by apply list_elem_of_fmap_2.
  - intros t Ht. rewrite ?app_nil_r in Ht. destruct (Hr t Ht) as (g & ? & ?).
    exists g. split; [apply elem_of_app; by left|done].
  - unfold inflight_count in *. cbn [r_inflight]. rewrite map_size_insert_None by done.
    rewrite length_app. cbn. rewrite ?app_nil_r. lia.
Qed.
Lemma hist_ok_release l r at' r' t : hist_ok l r ->
  release at' r = (r', t) -> hist_ok (l ++ [AnsRelease t]) r'.
Proof.
  intros Hok Hs. pose proof (release_inv at' r (ho_inv _ _ Hok)) as Hinv'.
  rewrite Hs in Hinv'. unfold release in Hs. run_tac; [|by eapply hist_ok_quiet].
  destruct Hok as [Hinv Honce Hp Ha Hi Hrd Hr Hc]. pose proof Heqo as Hg.
  apply Hi in Hg as (Hg & Hga & Hnr).
  split; rewrite ?ans_grants_app, ?ans_releases_app, ?app_nil_r; try done.
  - intros a g'. cbn [r_inflight]. rewrite lookup_delete_Some, Hi, map_app, elem_of_app. cbn.
    rewrite list_elem_of_singleton. naive_solver.
  - rewrite map_app. apply NoDup_app. split_and!; [done| |apply NoDup_singleton].
    intros x Hx ->%list_elem_of_singleton. by apply Hnr.
  - intros t [Ht| ->%list_elem_of_singleton]%elem_of_app; [by apply Hr|].
    exists g. split_and!; try done. cbn. destruct Hinv as [_ _ _ _ _ Hin _].
    destruct (Hin _ _ Heqo) as (_ & _ & _ & s & _ & ?). lia.
  - erewrite inflight_count_delete; [|exact Heqo|done]. rewrite Hc, length_app. cbn. lia.
Qed.
Lemma run_hist_ok_from ops : forall l r, hist_ok l r ->
  hist_ok (l ++ (run_hist ops r).2) (run_hist ops r).1.
Proof.
  induction ops as [|o ops IH]; intros l r Hok; cbn; [by rewrite app_nil_r|].
  destruct (run_step o r) as [r1 a] eqn:E1. assert (Hok1 : hist_ok (l ++ [a]) r1).
  { destruct o; cbn in E1.
    - destruct (authorize attempt epoch r) eqn:E; simp_res. by eapply hist_ok_authorize.
    - destruct (issue_permit attempt epoch terminal generation budget r) eqn:E; simp_res.
      by eapply hist_ok_issue.
    - destruct (release attempt r) eqn:E; simp_res. by eapply hist_ok_release.
    - destruct (cancel now r) eqn:E; simp_res. by eapply hist_ok_cancel. }
  specialize (IH _ _ Hok1). destruct (run_hist ops r1) as [r2 l2]. cbn in *.
  by rewrite <- app_assoc in IH.
Qed.
Lemma hist_ok0 : hist_ok [] run0.
Proof.
  split; cbn; try apply run_inv0; try constructor; try (intros * H; by apply not_elem_of_nil in H);
    try done. intros (H & _). by apply not_elem_of_nil in H.
Qed.
Lemma run_hist_ok ops : hist_ok (run_hist ops run0).2 (run_hist ops run0).1.
Proof. apply (run_hist_ok_from ops [] run0 hist_ok0). Qed.
