(* ===== verification/LifecycleProps.v ===== *)
(** * Properties of the permit and cancellation authority

    The total order of permits and cancellation, exactly-once permits, drain,
    socket ownership and what the sanitized intent digest commits to. *)

From S2P Require Import Prelude PyStr Json JsonFacts Hash AuditLog AuditFacts Lifecycle.
From S2P Require Import LifecycleFacts.
Open Scope Z_scope.

(** ** After cancellation *)

Definition seen_again (t : cancel_tr) : cancel_tr :=
  CancellationTransition (ct_cancelled_epoch t) (ct_new_epoch t) (ct_seq t) (ct_inflight t)
    (ct_time t) false.

Record closed_hist (r : run) (t : cancel_tr) (l : list run_ans) : Prop := {
  ch_grants : ans_grants l = [];
  ch_auth : forall s, AnsSeq (Some s) ∉ l;
  ch_cancels : forall t', t' ∈ ans_cancels l -> t' = seen_again t;
  ch_releases : forall x, x ∈ ans_releases l -> r_sequence r < rt_seq x }.

Lemma run_hist_closed ops : forall r t, r_cancelled r = true -> r_cancellation r = Some t ->
  closed_hist r t (run_hist ops r).2.
Proof.
  induction ops as [|o ops IH]; intros r t Hc Ht; cbn.
  { split; try done; intros * H; by apply not_elem_of_nil in H. }
  destruct (run_step o r) as [r1 a] eqn:E.
  assert (Hs : r_cancelled r1 = true /\ r_cancellation r1 = Some t /\ r_sequence r <= r_sequence r1 /\
    closed_hist r t [a]).
  { destruct o; cbn in E; revert E; unfold authorize, issue_permit, release, cancel;
      rewrite ?Hc, ?Ht; cbn; intros E; run_tac; cbn; split_and!; try done; try lia;
      (split; cbn; [done|..]); intros x Hx;
      first [by apply not_elem_of_nil in Hx
            | apply list_elem_of_singleton in Hx; try done; subst; cbn; try done; lia]. }
  destruct Hs as (Hc1 & Ht1 & Hle & [G1 A1 C1 R1]). destruct (IH r1 t Hc1 Ht1) as [G2 A2 C2 R2].
  destruct (run_hist ops r1) as [r2 l2]. cbn [fst snd] in *.
  change (a :: l2) with ([a] ++ l2)%list.
  split; rewrite ?ans_grants_app, ?ans_releases_app; rewrite ?G1, ?G2; unfold ans_cancels; rewrite ?omap_app; try done.
  - intros s [H|H]%elem_of_app; [by eapply A1|by eapply A2].
  - intros t' [H|H]%elem_of_app; [by apply C1|by apply C2].
  - intros x [H|H]%elem_of_app; [by apply R1|]. apply R2 in H. lia.
Qed.

(** ** Socket ownership *)

Inductive conn_op :=
| CTrack (s : nat) | CTransfer (old new : nat) | CBegin.
(** The handle an operation presents, and the answer it gets. *)
Definition presented (o : conn_op) : option nat :=
  match o with CTrack s => Some s | CTransfer _ new => Some new | CBegin => None end.
Definition conn_step (o : conn_op) (c : conn) : conn * bool :=
  match o with
  | CTrack s => track_or_reject s c
  | CTransfer old new => transfer old new c
  | CBegin => ((begin_termination c).1, true)
  end.
Fixpoint conn_hist (ops : list conn_op) (c : conn) : conn * list bool :=
  match ops with
  | [] => (c, [])
  | o :: ops' => let '(c1, b) := conn_step o c in
                 let '(c2, l) := conn_hist ops' c1 in (c2, b :: l)
  end.

Lemma conn_step_sockets o c : c_sockets c ⊆ c_sockets (conn_step o c).1.
Proof.
  destruct o; cbn; unfold track_or_reject, transfer; destruct (c_terminal c); cbn;
    repeat case_bool_decide; set_solver.
Qed.
Lemma conn_hist_sockets ops : forall c, c_sockets c ⊆ c_sockets (conn_hist ops c).1.
Proof.
  induction ops as [|o ops IH]; intros c; cbn; [done|].
  pose proof (conn_step_sockets o c) as H. destruct (conn_step o c) as [c1 b].
  specialize (IH c1). destruct (conn_hist ops c1). cbn in *. set_solver.
Qed.
Lemma conn_hist_owned ops : forall c, c_terminal c = false -> CBegin ∉ ops ->
  let c' := (conn_hist ops c).1 in
  c_terminal c' = false /\ Forall (fun b => b = true) (conn_hist ops c).2 /\
  forall s, Some s ∈ map presented ops -> s ∈ c_sockets c'.
Proof.
  induction ops as [|o ops IH]; intros c Hc Hn; cbn.
  { split_and!; [done|constructor|]. intros s H. by apply not_elem_of_nil in H. }
  apply not_elem_of_cons in Hn as [Ho Hn].
  assert (H1 : c_terminal (conn_step o c).1 = false /\ (conn_step o c).2 = true /\
               forall s, presented o = Some s -> s ∈ c_sockets (conn_step o c).1).
  { destruct o; cbn; unfold track_or_reject, transfer; rewrite ?Hc; cbn; [..|done];
      (split_and!; [done|done|]); intros s' [= <-]; set_solver. }
  destruct (conn_step o c) as [c1 b] eqn:E. cbn in H1. destruct H1 as (T1 & -> & P1).
  pose proof (IH c1 T1 Hn) as (T2 & F2 & P2). pose proof (conn_hist_sockets ops c1) as Hsub.
  destruct (conn_hist ops c1) as [c2 l]. cbn in *. split_and!; [done|by constructor|].
  intros s [H|H]%elem_of_cons; [|by apply P2]. apply Hsub. by apply P1.
Qed.
Lemma conn_hist_terminal ops : forall c, c_terminal c = true ->
  let c' := (conn_hist ops c).1 in
  c_terminal c' = true /\ c_sockets c' = c_sockets c /\ (forall s, s ∈ c_closed c -> s ∈ c_closed c') /\
  forall i o s, ops !! i = Some o -> presented o = Some s ->
    (conn_hist ops c).2 !! i = Some false /\ s ∈ c_closed c'.
Proof.
  induction ops as [|o ops IH]; intros c Hc; cbn; [done|].
  assert (H1 : c_terminal (conn_step o c).1 = true /\ c_sockets (conn_step o c).1 = c_sockets c /\
    (forall s, s ∈ c_closed c -> s ∈ c_closed (conn_step o c).1) /\
    forall s, presented o = Some s -> (conn_step o c).2 = false /\ s ∈ c_closed (conn_step o c).1).
  { destruct o; cbn; unfold track_or_reject, transfer; rewrite ?Hc; cbn; split_and!; try done;
      try set_solver. }
  destruct (conn_step o c) as [c1 b]. cbn in H1. destruct H1 as (T1 & S1 & K1 & P1).
  pose proof (IH c1 T1) as (T2 & S2 & K2 & P2). destruct (conn_hist ops c1) as [c2 l]. cbn in *.
  split_and!; [done|congruence|auto|]. intros [|i] o' s; cbn.
  - intros [= <-] Hp. destruct (P1 _ Hp) as [-> ?]. auto.
  - intros Hi Hp. eapply P2; eauto.
Qed.

(** ** Injectivity of the intent's canonical string *)

Lemma utf8_inj a : forall b, utf8 a = utf8 b -> a = b.
Proof.
  induction a as [|c a IH]; intros [|d b]; cbn; try done.
  - by destruct (is_ascii d).
  - by destruct (is_ascii c).
  - unfold is_ascii. pose proof (code_lt c) as Hc. pose proof (code_lt d) as Hd.
    destruct (N.ltb_spec (code c) 128), (N.ltb_spec (code d) 128).
    + intros [= -> H1]. f_equal. auto.
    + intros [= E H1]. apply (f_equal code) in E.
      assert (code d / 64 < 4)%N by (apply N.Div0.div_lt_upper_bound; lia).
      rewrite code_chr in E by lia. generalize dependent (code d / 64)%N. lia.
    + intros [= E H1]. apply (f_equal code) in E.
      assert (code c / 64 < 4)%N by (apply N.Div0.div_lt_upper_bound; lia).
      rewrite code_chr in E by lia. generalize dependent (code c / 64)%N. lia.
    + intros [= E1 E2 H1]. f_equal; [|auto].
      assert (code c / 64 < 4)%N by (apply N.Div0.div_lt_upper_bound; lia).
      assert (code d / 64 < 4)%N by (apply N.Div0.div_lt_upper_bound; lia).
      pose proof (N.mod_lt (code c) 64 ltac:(lia)). pose proof (N.mod_lt (code d) 64 ltac:(lia)).
      apply (f_equal code) in E1, E2. rewrite !code_chr in E1, E2 by lia.
      rewrite <- (chr_code c), <- (chr_code d). f_equal.
      rewrite (N.div_mod' (code c) 64), (N.div_mod' (code d) 64). lia.
Qed.
Lemma field_inj a : forall b x y, one_line a -> one_line b ->
  a ++ nl ++ x = b ++ nl ++ y -> a = b /\ x = y.
Proof.
  unfold nl. induction a as [|c a IH]; intros [|d b] x y Ha Hb; cbn in *.
  - by intros [= ->].
  - by intros [= <- _].
  - by intros [= -> _].
  - intros [= <- E]. unfold one_line in *. cbn [str_all] in Ha, Hb. bools.
    destruct (IH b x y) as [-> ->]; auto.
Qed.
Lemma one_line_upper s : one_line s -> one_line (str_upper s).
Proof.
  unfold one_line. induction s as [|c s IH]; cbn [str_all str_upper]; [done|].
  intros [Hn Hs]%andb_true_iff. rewrite str_all_append, IH by done. rewrite andb_true_r. revert Hn.
  assert (Hcode : forall e, code e <> 10%N -> negb (Ascii.eqb newline e) = true).
  { intros e He. apply negb_true_iff, Ascii.eqb_neq. intros <-. by apply He. }
  unfold c_upper, in_range. pose proof (code_lt c). intros Hn.
  destruct (_ || _) eqn:E; cbn [str_all].
  - rewrite Hcode; [done|]. apply orb_true_iff in E as [E|E]; bools; rewrite code_chr; lia.
  - destruct (code c =? 223)%N; [done|]. cbn [str_all]. by rewrite Hn.
Qed.
Lemma show_Z_inj a b : show_Z a = show_Z b -> a = b.
Proof.
  intros E. pose proof (parse_show_Z a) as [_ Ha]. pose proof (parse_show_Z b) as [_ Hb].
  rewrite E in Ha. congruence.
Qed.

(** ** Properties *)

(** The sequence authority. Over any history of concurrent calls, the numbers
    given to authorizations, permits, releases and the first cancellation are
    exactly 1, 2, ..., n in the order of their linearization, n being the
    counter. *)
Theorem sequence_contiguous ops :
  let '(r, l) := run_hist ops run0 in ans_seqs l = seqZ 1 (r_sequence r).
Proof.
  destruct (run_hist ops run0) as [r l] eqn:E. destruct (run_hist_seq _ _ _ _ E) as [_ ->].
  cbn. f_equal; lia.
Qed.

(** C18: cancellation linearizes against permits. The first [cancel] reports the
    permits granted and not yet released before it; after it, whatever the
    history, no authorization and no permit is ever given, every release is
    numbered after it, and each further [cancel] reports the same transition
    as not new. *)
Theorem cancel_linearizes before now after :
  r_cancelled (run_hist before run0).1 = false ->
  let '(r1, l1) := run_hist before run0 in
  let '(r2, t) := cancel now r1 in
  let '(r3, l3) := run_hist after r2 in
  ct_newly t = true /\ ct_seq t = r_sequence r1 + 1 /\
  ct_inflight t = Z.of_nat (length (ans_grants l1)) - Z.of_nat (length (ans_releases l1)) /\
  r_cancelled r3 = true /\
  ans_grants l3 = [] /\ (forall s, AnsSeq (Some s) ∉ l3) /\
  (forall t', t' ∈ ans_cancels l3 -> t' = seen_again t) /\
  (forall x, x ∈ ans_releases l3 -> ct_seq t < rt_seq x).
Proof.
  pose proof (run_hist_ok before) as Hok. destruct (run_hist before run0) as [r1 l1]. cbn in *.
  intros Hc. pose proof (ho_inv _ _ Hok) as Hinv. pose proof (ri_cancel _ Hinv) as Hcc.
  rewrite Hc in Hcc. unfold cancel. destruct (r_cancellation r1) eqn:Et; [done|].
  set (r2 := RunContext _ _ _ _ _ _ (Some ?[t])). set (t := CancellationTransition _ _ _ _ _ _).
  pose proof (run_hist_closed after r2 t eq_refl eq_refl) as [G A C R].
  pose proof (run_hist_cancelled after r2 eq_refl) as Hc3.
  destruct (run_hist after r2) as [r3 l3]. cbn in *.
  split_and!; try done. apply (ho_count _ _ Hok).
Qed.

(** Permits are exactly-once. In any history each attempt is granted at most
    one permit, only after its own authorization in the same epoch, and
    released at most once, with strictly increasing sequence numbers. *)
Theorem permits_once ops :
  let '(r, l) := run_hist ops run0 in
  NoDup (map g_attempt (ans_grants l)) /\
  NoDup (map rt_attempt (ans_releases l)) /\
  (forall g, g ∈ ans_grants l -> exists s,
     r_authorizations r !! g_attempt g = Some (g_epoch g, s) /\ 0 < s < g_seq g) /\
  (forall t, t ∈ ans_releases l -> exists g, g ∈ ans_grants l /\
     rt_attempt t = g_attempt g /\ rt_epoch t = g_epoch g /\ rt_permit_seq t = g_seq g /\
     g_seq g < rt_seq t).
Proof.
  pose proof (run_hist_ok ops) as Hok. destruct (run_hist ops run0) as [r l].
  split_and!; [apply Hok..| |apply Hok].
  intros g Hg. destruct (ho_auth _ _ Hok g Hg) as (s & Hs & ?). exists s. split; [done|].
  apply (ri_auth _ (ho_inv _ _ Hok)) in Hs. lia.
Qed.

(** Drain is exact and, once cancelled, final. [wait_for_drain] finds the run
    drained exactly when every granted permit has been released, and a
    cancelled drained run stays drained whatever follows. *)
Theorem drain_exact ops more :
  let '(r, l) := run_hist ops run0 in
  (drain_poll true r = Some true <->
     forall g, g ∈ ans_grants l -> g_attempt g ∈ map rt_attempt (ans_releases l)) /\
  (r_cancelled r = true -> drain_poll true r = Some true ->
     drain_poll true (run_hist more r).1 = Some true).
Proof.
  pose proof (run_hist_ok ops) as Hok. destruct (run_hist ops run0) as [r l]. cbn in Hok.
  assert (Hd : forall r' l', hist_ok l' r' -> drain_poll true r' = Some true <->
    forall g, g ∈ ans_grants l' -> g_attempt g ∈ map rt_attempt (ans_releases l')).
  { intros r' l' Hok'. unfold drain_poll. case_bool_decide as He; split; try done.
    - intros _ g Hg. destruct (decide (g_attempt g ∈ map rt_attempt (ans_releases l'))); [done|].
      assert (Hi : r_inflight r' !! g_attempt g = Some g) by (by apply (ho_inflight _ _ Hok')).
      by rewrite He in Hi.
    - intros Hall. destruct He. apply map_empty. intros a. apply eq_None_not_Some.
      intros [g (Hg & <- & Hn)%(ho_inflight _ _ Hok')]. by apply Hn, Hall. }
  split; [by apply Hd|]. intros Hc Hdr.
  pose proof (run_hist_ok_from more l r Hok) as Hok2.
  pose proof (ri_cancel _ (ho_inv _ _ Hok)) as Hcc. rewrite Hc in Hcc.
  destruct (r_cancellation r) as [t|] eqn:Et; [|done].
  pose proof (ch_grants _ _ _ (run_hist_closed more r t Hc Et)) as Hg.
  apply (Hd _ _ Hok2). intros g. rewrite ans_grants_app, Hg, app_nil_r. intros Hin.
  rewrite ans_releases_app, map_app. apply elem_of_app. left. by apply (Hd _ _ Hok).
Qed.

(** No socket escapes a termination. Of the handles presented before the
    connection becomes terminal every one is accepted and is in the list the
    termination returns; of those presented after it every one is refused and
    closed, and terminality never reverts. *)
Theorem no_socket_escapes id before after :
  CBegin ∉ before ->
  let '(c1, ans1) := conn_hist before (conn0 id) in
  let '(c2, socks) := begin_termination c1 in
  let '(c3, ans3) := conn_hist after c2 in
  Forall (fun b => b = true) ans1 /\
  (forall s, Some s ∈ map presented before -> s ∈ socks) /\
  c_terminal c3 = true /\ c_sockets c3 = socks /\
  (forall i o s, after !! i = Some o -> presented o = Some s ->
     ans3 !! i = Some false /\ s ∈ c_closed c3).
Proof.
  intros Hb. pose proof (conn_hist_owned before (conn0 id) eq_refl Hb) as (T1 & F1 & O1).
  destruct (conn_hist before (conn0 id)) as [c1 ans1]. cbn in *.
  set (c2 := ConnectionLifecycle _ _ _ _).
  pose proof (conn_hist_terminal after c2 eq_refl) as (T3 & S3 & _ & P3).
  destruct (conn_hist after c2) as [c3 ans3]. cbn in *. auto.
Qed.

(** The intent digest commits to the request. Two requests whose fields
    have no newline and that have one digest have the same upper-cased method,
    authority, path and body length, or exhibit a SHA-256 collision. *)
Theorem intent_digest_binds `{Digest} m1 a1 p1 n1 m2 a2 p2 n2 :
  one_line m1 -> one_line a1 -> one_line p1 -> one_line m2 -> one_line a2 -> one_line p2 ->
  request_intent_digest m1 a1 p1 n1 = request_intent_digest m2 a2 p2 n2 ->
  (str_upper m1 = str_upper m2 /\ a1 = a2 /\ p1 = p2 /\ n1 = n2) \/ collision.
Proof.
  intros Hm1 Ha1 Hp1 Hm2 Ha2 Hp2. unfold request_intent_digest. intros [= E].
  destruct (String.eqb_spec (utf8 (intent_canon m1 a1 p1 n1)) (utf8 (intent_canon m2 a2 p2 n2)))
    as [Eq|Hne]; [left|right; by do 2 eexists].
  apply utf8_inj in Eq. unfold intent_canon in Eq.
  apply (field_inj "v2" "v2") in Eq as [_ Eq]; [|done..].
  apply field_inj in Eq as [? Eq]; [|by apply one_line_upper..].
  apply field_inj in Eq as [? Eq]; [|done..].
  apply field_inj in Eq as [? Eq]; [|done..].
  injection Eq as Eq. by apply show_Z_inj in Eq.
Qed.

(** ** Witnesses *)

Definition hist1 : list run_op :=
  [OpAuthorize "a" 0; OpIssue "a" 0 false "g" "b"; OpAuthorize "b" 0].
Definition hist2 : list run_op :=
  [OpIssue "b" 0 false "g" "b"; OpRelease "a"; OpAuthorize "c" 1; OpCancel 9].

Lemma cancel_linearizes_witness :
  r_cancelled (run_hist hist1 run0).1 = false /\
  let '(r1, l1) := run_hist hist1 run0 in
  let '(r2, t) := cancel 5 r1 in
  let '(r3, l3) := run_hist hist2 r2 in ans_grants l3 = [].
Proof.
  assert (E : r_cancelled (run_hist hist1 run0).1 = false) by (vm_compute; reflexivity).
  split; [exact E|]. pose proof (cancel_linearizes hist1 5 hist2 E) as W. revert W.
  destruct (run_hist hist1 run0) as [r1 l1], (cancel 5 r1) as [r2 t], (run_hist hist2 r2).
  intros (_ & _ & _ & _ & G & _). exact G.
Defined.

Lemma no_socket_escapes_witness :
  let before := [CTrack 1; CTransfer 1 2] in
  (conn_hist [CTrack 3] (begin_termination (conn_hist before (conn0 "c")).1).1).2
    !! 0%nat = Some false.
Proof.
  assert (Hb : CBegin ∉ [CTrack 1; CTransfer 1 2]) by not_in.
  pose proof (no_socket_escapes "c" [CTrack 1; CTransfer 1 2] [CTrack 3] Hb) as (_ & _ & _ & _ & P).
  destruct (P 0%nat (CTrack 3) 3%nat eq_refl eq_refl) as [P1 _]. exact P1.
Defined.

Lemma intent_digest_binds_witness :
  (str_upper "get" = str_upper "GET" /\ "h" = "h" /\ "/p" = "/p" /\ 3 = 3) \/
  collision (H := hashlib).
Proof.
  apply (intent_digest_binds (H := hashlib) "get" "h" "/p" 3 "GET" "h" "/p" 3); reflexivity.
Defined.
