(* ===== verification/PyDyn.v ===== *)
(** * Dynamically typed operations

    What Python does with a JSON value used as a mapping, a container, an
    iterable or a number, the exceptions included. *)

From S2P Require Import Prelude PyStr Json.

Definition TypeError (m : string) : exn := PyExn "TypeError" m.
Definition AttrError (m : string) : exn := PyExn "AttributeError" m.
Definition KeyError (m : string) : exn := PyExn "KeyError" m.
Definition OverflowError (m : string) : exn := PyExn "OverflowError" m.
Definition ValErr (m : string) : exn := PyExn "ValueError" m.

(** [v.get(k)] and [v.get(k, dflt)]. *)
Definition v_get_or (k : string) (dflt v : val) : res val :=
  match v with VDict d => Ok (dget_or k dflt d) | _ => Raise (AttrError "get") end.
Definition v_get (k : string) (v : val) : res val := v_get_or k VNull v.
(** [a or b]. *)
Definition v_or (a b : val) : val := if truthy a then a else b.
(** [v.items()]. *)
Definition v_items (v : val) : res dict :=
  match v with VDict d => Ok d | _ => Raise (AttrError "items") end.
(** [v[k]] with a string key. *)
Definition v_index (k : string) (v : val) : res val :=
  match v with VDict d => dindex d k | _ => Raise (TypeError "indices") end.

Definition hashable (v : val) : bool := match v with VList _ | VDict _ => false | _ => true end.
(** [x in v]. *)
Definition v_in (x v : val) : res bool :=
  match v with
  | VList l => Ok (existsb (py_eqb x) l)
  | VDict d =>
      if hashable x then Ok match x with VStr s => dmem s d | _ => false end
      else Raise (TypeError "unhashable")
  | VStr s => match x with VStr p => Ok (contains p s) | _ => Raise (TypeError "in") end
  | _ => Raise (TypeError "not iterable")
  end.
(** [list(v)]. *)
Definition v_iter (v : val) : res (list val) :=
  match v with
  | VList l => Ok l
  | VDict d => Ok (map VStr (dkeys d))
  | VStr s => Ok (map (fun c => VStr (String c "")) (String.list_ascii_of_string s))
  | _ => Raise (TypeError "not iterable")
  end.
(** [set(v)], kept as the list of its elements. *)
Definition v_set (v : val) : res (list val) :=
  l <- v_iter v;; if forallb hashable l then Ok l else Raise (TypeError "unhashable").

(** ** [str] and [repr] *)

Definition hex2 (c : ascii) : string :=
  String (hex_char (code c / 16)) (String (hex_char (code c mod 16)) "").
(** U+00A0 and U+00AD are the code points of 161-255 that are not printable. *)
Definition repr_char (q c : ascii) : string :=
  if Ascii.eqb c bslash || Ascii.eqb c q then String bslash (String c "")
  else if (code c =? 10)%N then String bslash "n"
  else if (code c =? 13)%N then String bslash "r"
  else if (code c =? 9)%N then String bslash "t"
  else if in_range 32 126 c || (in_range 161 255 c && negb (code c =? 173)%N) then String c ""
  else String bslash ("x" ++ hex2 c).
Definition squote : ascii := "'".
Definition repr_str (s : string) : string :=
  let has c := str_any (Ascii.eqb c) s in
  let q := if has squote && negb (has dquote) then dquote else squote in
  String q ((fix go (t : string) : string :=
    match t with EmptyString => "" | String c t' => repr_char q c ++ go t' end) s ++ String q "").
Fixpoint py_repr (v : val) : string :=
  match v with
  | VNull => "None"
  | VBool true => "True"
  | VBool false => "False"
  | VInt z => show_Z z
  | VFloat FNan => "nan"
  | VFloat (FInf false) => "inf"
  | VFloat (FInf true) => "-inf"
  | VFloat f => print_float f
  | VStr s => repr_str s
  | VList [] => "[]"
  | VList (x :: l) =>
      "[" ++ py_repr x ++ (fix go (l : list val) : string :=
        match l with [] => "]" | y :: l' => ", " ++ py_repr y ++ go l' end) l
  | VDict [] => "{}"
  | VDict ((k, x) :: d) =>
      "{" ++ repr_str k ++ ": " ++ py_repr x ++ (fix go (d : dict) : string :=
        match d with
        | [] => "}"
        | (k', y) :: d' => ", " ++ repr_str k' ++ ": " ++ py_repr y ++ go d'
        end) d
  end.
Definition py_str (v : val) : string := match v with VStr s => s | _ => py_repr v end.

(** ** Numbers

    [py_le a b] is [a <= b]; comparisons with NaN are false and an infinity
    compares by its sign; other pairs raise [TypeError] unless both are
    strings or both lists, which the callers never compare. *)
Inductive num := NFin (f : Z * nat) | NInf (neg : bool) | NNan.
Definition as_num (v : val) : option num :=
  match v with
  | VFloat (FInf n) => Some (NInf n)
  | VFloat FNan => Some NNan
  | _ => NFin <$> num_of v
  end.
Definition num_le (a b : num) : bool :=
  match a, b with
  | NNan, _ | _, NNan => false
  | NInf true, _ => true
  | _, NInf false => true
  | NFin x, NFin y => num_leb x y
  | _, _ => false
  end.
Definition py_le (a b : val) : res bool :=
  match as_num a, as_num b with
  | Some x, Some y => Ok (num_le x y)
  | _, _ => Raise (TypeError "<=")
  end.

(** The text of a [float] literal: digits with single underscores between
    them, an optional fraction and exponent, or a name of infinity or NaN. *)
Fixpoint strip_underscores (prev_digit : bool) (s : string) : option string :=
  match s with
  | EmptyString => Some ""
  | String c s' =>
      if Ascii.eqb c "_" then
        match s' with
        | String d _ => if prev_digit && is_dec d then strip_underscores false s' else None
        | EmptyString => None
        end
      else String c <$> strip_underscores (is_dec c) s'
  end.
Definition float_digits (neg : bool) (s : string) : option pyfloat :=
  let '(mant, has_e, ex) :=
    let '(a, f, b) := partition "e" (str_lower s) in (a, f, b) in
  let '(ip, has_dot, fp) := partition "." mant in
  let digits := ip ++ fp in
  if String.eqb digits "" || negb (str_all is_dec digits) then None else
  let m := Z.of_N (read_N digits) in
  let m := if neg then (- m)%Z else m in
  let frac := String.length fp in
  if negb has_e then Some (mk_float m frac 0) else
  mk_float m frac <$> exp_lit ex.
Definition float_of_str (s : string) : option pyfloat :=
  match strip_underscores false (str_strip s) with
  | None => None
  | Some t =>
      let '(neg, u) := match t with
                       | String "-" u => (true, u) | String "+" u => (false, u) | _ => (false, t) end in
      let lo := str_lower u in
      if String.eqb lo "inf" || String.eqb lo "infinity" then Some (FInf neg)
      else if String.eqb lo "nan" then Some FNan
      else float_digits neg u
  end.
(** The integers [float] overflows on: 2^1024 - 2^970 rounds up to 2^1024. *)
Definition float_limit : Z := (2 ^ 1024 - 2 ^ 970)%Z.
(** [float(v)]. *)
Definition v_float (v : val) : res val :=
  match v with
  | VFloat f => Ok (VFloat f)
  | VBool b => Ok (VFloat (FFin (if b then 10 else 0) 0))
  | VInt z => if (Z.abs z >=? float_limit)%Z then Raise (OverflowError "int too large")
              else Ok (VFloat (FFin (z * 10) 0))
  | VStr s => match float_of_str s with Some f => Ok (VFloat f) | None => Raise (ValErr "float") end
  | _ => Raise (TypeError "float")
  end.
(** [isinstance(v, ...)]. *)
Definition is_none (v : val) : bool := match v with VNull => true | _ => false end.
Definition is_strv (v : val) : bool := match v with VStr _ => true | _ => false end.
Definition is_int (v : val) : bool := match v with VInt _ | VBool _ => true | _ => false end.
Definition is_bool (v : val) : bool := match v with VBool _ => true | _ => false end.
Definition is_list (v : val) : bool := match v with VList _ => true | _ => false end.
Definition is_dict (v : val) : bool := match v with VDict _ => true | _ => false end.

Example float_a : float_of_str " 1_0.5e-1 " = Some (FFin 105 1).
Proof. reflexivity. Qed.
Example float_b : float_of_str "12" = Some (FFin 120 0) /\ float_of_str "1__0" = None.
Proof. split; reflexivity. Qed.

(** ** Exceptions of the operating system

    The classes an [except OSError] catches. *)
Definition os_error (e : exn) : bool :=
  mem_str (exn_cls e)
    ["OSError"; "SSLError"; "SSLZeroReturnError"; "SSLWantReadError"; "SSLWantWriteError"; "SSLSyscallError"; "SSLEOFError";
     "SSLCertVerificationError"; "ConnectionError"; "BrokenPipeError"; "ConnectionAbortedError"; "ConnectionRefusedError";
     "ConnectionResetError"; "TimeoutError"; "BlockingIOError"; "InterruptedError"; "ChildProcessError"; "ProcessLookupError";
     "PermissionError"; "FileNotFoundError"; "FileExistsError"; "IsADirectoryError"; "NotADirectoryError"; "gaierror"; "herror"].
