(* ===== verification/IpAddr.v ===== *)
(** * IP addresses: Python's [ipaddress]

    Parsing, printing and the class predicates of the standard library as of
    CPython 3.12.4, on the integers the objects hold. *)

From S2P Require Import Prelude PyStr.
Open Scope Z_scope.

(** An IPv6 address keeps its scope id, which takes part in [str] only. *)
Inductive ipaddr := IPv4 (n : Z) | IPv6 (n : Z) (scope : option string).

#[export] Instance ipaddr_eq_dec : EqDecision ipaddr.
Proof. solve_decision. Defined.

Definition ip_int (a : ipaddr) : Z := match a with IPv4 n | IPv6 n _ => n end.
Definition is_v6 (a : ipaddr) : bool := match a with IPv4 _ => false | IPv6 _ _ => true end.

(** ** Parsing *)

Definition parse_octet (s : string) : option Z :=
  if String.eqb s "" || negb (str_all is_dec s) then None
  else if Nat.ltb 3 (String.length s) then None
  else if negb (String.eqb s "0") && startswith "0" s then None
  else let n := Z.of_N (read_N s) in if n >? 255 then None else Some n.
Fixpoint mapM_opt {A B} (f : A -> option B) (l : list A) : option (list B) :=
  match l with
  | [] => Some []
  | x :: l' => match f x, mapM_opt f l' with Some y, Some ys => Some (y :: ys) | _, _ => None end
  end.
(** Base-[2^w] digits, most significant first. *)
Definition from_digits (w : Z) (l : list Z) : Z :=
  foldl (fun acc d => Z.lor (Z.shiftl acc w) d) 0 l.
Definition v4_int (s : string) : option Z :=
  let octets := split "." s in
  if negb (Nat.eqb (length octets) 4) then None
  else from_digits 8 <$> mapM_opt parse_octet octets.

Definition is_hex (c : ascii) : bool := is_dec c || in_range 97 102 c || in_range 65 70 c.
Definition hex_val (c : ascii) : Z :=
  Z.of_N (if is_dec c then code c - 48 else if in_range 97 102 c then code c - 87 else code c - 55)%N.
Fixpoint read_hex (acc : Z) (s : string) : Z :=
  match s with EmptyString => acc | String c s' => read_hex (16 * acc + hex_val c) s' end.
Definition parse_hextet (s : string) : option Z :=
  if negb (str_all is_hex s) then None
  else if Nat.ltb 4 (String.length s) then None
  else if String.eqb s "" then None else Some (read_hex 0 s).

(** [%x] of a hextet. *)
Definition hex_digit (d : Z) : ascii := chr (Z.to_N (if d <? 10 then 48 + d else 87 + d)).
Definition show_hex (n : Z) : string :=
  let d i := String (hex_digit (Z.land (Z.shiftr n (4 * i)) 15)) "" in
  if n <? 16 then d 0 else if n <? 256 then d 1 ++ d 0
  else if n <? 4096 then d 2 ++ d 1 ++ d 0 else d 3 ++ d 2 ++ d 1 ++ d 0.

(** The parts of an IPv6 text, an IPv4 suffix made two hextets. *)
Definition v6_parts (s : string) : option (list string) :=
  let parts := split ":" s in
  if Nat.ltb (length parts) 3 then None else
  let last := List.last parts "" in
  let parts' :=
    if contains "." last then
      match v4_int last with
      | None => None
      | Some n => Some (removelast parts ++
          [show_hex (Z.land (Z.shiftr n 16) 65535); show_hex (Z.land n 65535)])%list
      end
    else Some parts in
  match parts' with
  | Some ps => if Nat.ltb 9 (length ps) then None else Some ps
  | None => None
  end.
(** The interior indices of empty parts. *)
Definition empty_inside (ps : list string) : list nat :=
  List.filter (fun i => String.eqb (nth i ps "") "") (seq 1 (length ps - 2)).
Definition v6_int (s : string) : option Z :=
  if String.eqb s "" then None else
  match v6_parts s with
  | None => None
  | Some ps =>
      let len := length ps in
      let first_empty := String.eqb (nth 0 ps "") "" in
      let last_empty := String.eqb (nth (len - 1) ps "") "" in
      match empty_inside ps with
      | _ :: _ :: _ => None
      | [k] =>
          let hi := if first_empty then (k - 1)%nat else k in
          let lo := if last_empty then (len - k - 2)%nat else (len - k - 1)%nat in
          if first_empty && negb (Nat.eqb hi 0) then None
          else if last_empty && negb (Nat.eqb lo 0) then None
          else let skipped := 8 - Z.of_nat (hi + lo) in
               if skipped <? 1 then None
               else match mapM_opt parse_hextet (firstn hi ps),
                          mapM_opt parse_hextet (skipn (len - lo) ps) with
                    | Some h, Some l =>
                        Some (Z.lor (Z.shiftl (from_digits 16 h) (16 * (skipped + Z.of_nat lo)))
                                    (from_digits 16 l))
                    | _, _ => None
                    end
      | [] =>
          if negb (Nat.eqb len 8) || first_empty || last_empty then None
          else from_digits 16 <$> mapM_opt parse_hextet ps
      end
  end.

Definition ipv4_address (s : string) : option ipaddr :=
  if contains "/" s then None else IPv4 <$> v4_int s.
Definition ipv6_address (s : string) : option ipaddr :=
  if contains "/" s then None else
  let '(addr, sep, scope) := partition "%" s in
  if negb sep then (fun n => IPv6 n None) <$> v6_int addr
  else if String.eqb scope "" || contains "%" scope then None
  else (fun n => IPv6 n (Some scope)) <$> v6_int addr.
(** [ipaddress.ip_address(s)]; [None] is its [ValueError]. *)
Definition ip_address (s : string) : option ipaddr :=
  match ipv4_address s with Some a => Some a | None => ipv6_address s end.

(** ** Printing *)

Definition show_v4 (n : Z) : string :=
  let o i := show_Z (Z.land (Z.shiftr n (8 * i)) 255) in
  o 3 ++ "." ++ o 2 ++ "." ++ o 1 ++ "." ++ o 0.

Fixpoint join (sep : string) (l : list string) : string :=
  match l with [] => "" | [w] => w | w :: l' => w ++ sep ++ join sep l' end.

(** The longest run of zero hextets, the first one on a tie: start and length. *)
Fixpoint best_run (i start len bstart blen : nat) (l : list Z) : nat * nat :=
  match l with
  | [] => (bstart, blen)
  | h :: l' =>
      if h =? 0 then
        let start' := if Nat.eqb len 0 then i else start in
        let len' := S len in
        if Nat.ltb blen len' then best_run (S i) start' len' start' len' l'
        else best_run (S i) start' len' bstart blen l'
      else best_run (S i) 0 0 bstart blen l'
  end.
Definition hextets (n : Z) : list Z :=
  map (fun i => Z.land (Z.shiftr n (16 * i)) 65535) [7; 6; 5; 4; 3; 2; 1; 0].
Definition show_v6 (n : Z) : string :=
  let hs := hextets n in
  let ws := map show_hex hs in
  let '(start, len) := best_run 0 0 0 0 0 hs in
  if Nat.ltb 1 len then
    let tl := (skipn (start + len) ws ++ (if Nat.eqb (start + len) 8 then [""] else []))%list in
    let mid := (firstn start ws ++ "" :: tl)%list in
    join ":" (if Nat.eqb start 0 then "" :: mid else mid)
  else join ":" ws.
(** [str(a)]. *)
Definition show_ip (a : ipaddr) : string :=
  match a with
  | IPv4 n => show_v4 n
  | IPv6 n None => show_v6 n
  | IPv6 n (Some sc) => show_v6 n ++ "%" ++ sc
  end.

(** ** Networks *)

Inductive ipnet := Net (v6 : bool) (addr : Z) (prefixlen : Z).
Definition width (v6 : bool) : Z := if v6 then 128 else 32.
Definition netmask (v6 : bool) (p : Z) : Z :=
  Z.shiftl (Z.ones p) (width v6 - p).
(** [a in net]. *)
Definition in_net (a : ipaddr) (n : ipnet) : bool :=
  let '(Net v6 addr p) := n in
  Bool.eqb (is_v6 a) v6 && (Z.land (ip_int a) (netmask v6 p) =? addr).

Definition prefix_of_string (v6 : bool) (s : string) : option Z :=
  if String.eqb s "" || negb (str_all is_dec s) then None
  else let n := Z.of_N (read_N s) in if n <=? width v6 then Some n else None.
(** A netmask or a host mask in dotted form. *)
Definition prefix_of_mask (s : string) : option Z :=
  match v4_int s with
  | None => None
  | Some n =>
      match find (fun p => netmask false p =? n) (map Z.of_nat (seq 0 33)) with
      | Some p => Some p
      | None => find (fun p => netmask false p =? Z.lxor n (Z.ones 32)) (map Z.of_nat (seq 0 33))
      end
  end.
(** [ipaddress.ip_network(s)], strict about host bits; [None] is its [ValueError]. *)
Definition ip_network (s : string) : option ipnet :=
  let '(a, p) := match split "/" s with [a] => (Some a, None) | [a; p] => (Some a, Some p) | _ => (None, None) end in
  match a with
  | None => None
  | Some a =>
      let strict v6 n len := if Z.land n (netmask v6 len) =? n then Some (Net v6 n len) else None in
      let len4 := match p with
                  | None => Some 32
                  | Some p => match prefix_of_string false p with Some l => Some l | None => prefix_of_mask p end
                  end in
      match v4_int a, len4 with
      | Some n, Some len => strict false n len
      | _, _ =>
          match ipv6_address a, match p with None => Some 128 | Some p => prefix_of_string true p end with
          | Some ip, Some len => strict true (ip_int ip) len
          | _, _ => None
          end
      end
  end.

(** ** Classes *)

Definition in_any (a : ipaddr) (l : list ipnet) : bool := existsb (in_net a) l.
Definition n4 (a b c d : Z) (p : Z) : ipnet := Net false (from_digits 8 [a; b; c; d]) p.
(** The network of the given leading hextets. *)
Definition n6 (hs : list Z) (p : Z) : ipnet :=
  Net true (Z.shiftl (from_digits 16 hs) (16 * (8 - Z.of_nat (length hs)))) p.

Definition private4 : list ipnet :=
  [ n4 0 0 0 0 8; n4 10 0 0 0 8; n4 127 0 0 0 8; n4 169 254 0 0 16; n4 172 16 0 0 12;
    n4 192 0 0 0 24; n4 192 0 0 170 31; n4 192 0 2 0 24; n4 192 168 0 0 16; n4 198 18 0 0 15;
    n4 198 51 100 0 24; n4 203 0 113 0 24; n4 240 0 0 0 4; n4 255 255 255 255 32 ].
Definition private4_exceptions : list ipnet := [ n4 192 0 0 9 32; n4 192 0 0 10 32 ].
Definition private6 : list ipnet :=
  [ n6 [0; 0; 0; 0; 0; 0; 0; 1] 128; n6 [0] 128; n6 [0; 0; 0; 0; 0; 0xffff] 96;
    n6 [0x64; 0xff9b; 1] 48; n6 [0x100] 64; n6 [0x2001] 23; n6 [0x2001; 0xdb8] 32;
    n6 [0x2002] 16; n6 [0xfc00] 7; n6 [0xfe80] 10 ].
Definition private6_exceptions : list ipnet :=
  [ n6 [0x2001; 1; 0; 0; 0; 0; 0; 1] 128; n6 [0x2001; 1; 0; 0; 0; 0; 0; 2] 128;
    n6 [0x2001; 3] 32; n6 [0x2001; 4; 0x112] 48; n6 [0x2001; 0x20] 28; n6 [0x2001; 0x30] 28 ].
Definition reserved6 : list ipnet :=
  [ n6 [0] 8; n6 [0x100] 8; n6 [0x200] 7; n6 [0x400] 6; n6 [0x800] 5; n6 [0x1000] 4;
    n6 [0x4000] 3; n6 [0x6000] 3; n6 [0x8000] 3; n6 [0xa000] 3; n6 [0xc000] 3; n6 [0xe000] 4;
    n6 [0xf000] 5; n6 [0xf800] 6; n6 [0xfe00] 9 ].

Definition is_loopback (a : ipaddr) : bool :=
  match a with IPv4 _ => in_net a (n4 127 0 0 0 8) | IPv6 n _ => n =? 1 end.
Definition is_link_local (a : ipaddr) : bool :=
  match a with IPv4 _ => in_net a (n4 169 254 0 0 16) | IPv6 _ _ => in_net a (n6 [0xfe80] 10) end.
Definition is_unspecified (a : ipaddr) : bool := ip_int a =? 0.
Definition is_multicast (a : ipaddr) : bool :=
  match a with IPv4 _ => in_net a (n4 224 0 0 0 4) | IPv6 _ _ => in_net a (n6 [0xff00] 8) end.
Definition is_reserved (a : ipaddr) : bool :=
  match a with IPv4 _ => in_net a (n4 240 0 0 0 4) | IPv6 _ _ => in_any a reserved6 end.
Definition is_site_local (a : ipaddr) : bool :=
  match a with IPv4 _ => false | IPv6 _ _ => in_net a (n6 [0xfec0] 10) end.
Definition is_private (a : ipaddr) : bool :=
  match a with
  | IPv4 _ => in_any a private4 && negb (in_any a private4_exceptions)
  | IPv6 _ _ => in_any a private6 && negb (in_any a private6_exceptions)
  end.

(** ** IPv4 inside IPv6 *)

Definition low32 (n : Z) : Z := Z.land n 0xffffffff.
Definition ipv4_mapped (n : Z) : option ipaddr :=
  if Z.shiftr n 32 =? 0xffff then Some (IPv4 (low32 n)) else None.
Definition sixtofour (n : Z) : option ipaddr :=
  if Z.shiftr n 112 =? 0x2002 then Some (IPv4 (low32 (Z.shiftr n 80))) else None.
(** The client of [teredo]. *)
Definition teredo_client (n : Z) : option ipaddr :=
  if Z.shiftr n 96 =? 0x20010000 then Some (IPv4 (low32 (Z.lnot n))) else None.
