(* ===== verification/IpFacts.v ===== *)
(** * Facts about IP addresses

    Networks as intervals, ranges of parsed addresses, and the round trip of
    printing and parsing. *)

From S2P Require Import Prelude PyStr Json JsonFacts AuditFacts IpAddr.
Open Scope Z_scope.

(** ** Networks are intervals *)

Definition addr_ok (a : ipaddr) : Prop := 0 <= ip_int a < 2 ^ width (is_v6 a).
Definition net_lo (n : ipnet) : Z := let '(Net _ a _) := n in a.
Definition net_hi (n : ipnet) : Z := let '(Net v6 a p) := n in a + 2 ^ (width v6 - p) - 1.
Definition between (lo hi n : Z) : bool := (lo <=? n) && (n <=? hi).
Definition net_ok (n : ipnet) : bool :=
  let '(Net v6 a p) := n in (0 <=? p) && (p <=? width v6) && (a mod 2 ^ (width v6 - p) =? 0).

Lemma width_cases v6 : width v6 = 32 \/ width v6 = 128.
Proof. destruct v6; auto. Qed.

Lemma land_netmask w p n : 0 <= p <= w -> 0 <= n < 2 ^ w ->
  Z.land n (Z.shiftl (Z.ones p) (w - p)) = n / 2 ^ (w - p) * 2 ^ (w - p).
Proof.
  intros Hp Hn. rewrite <- Z.shiftr_div_pow2, <- Z.shiftl_mul_pow2 by lia.
  apply Z.bits_inj'. intros i Hi. rewrite Z.land_spec, !Z.shiftl_spec by lia.
  destruct (Z.ltb_spec i (w - p)).
  - rewrite !(Z.testbit_neg_r _ (i - (w - p))) by lia. apply andb_false_r.
  - rewrite Z.shiftr_spec by lia.
    replace (i - (w - p) + (w - p)) with i by lia.
    destruct (Z.ltb_spec i w).
    + rewrite Z.ones_spec_low by lia. apply andb_true_r.
    + destruct (Z.eq_dec n 0) as [->|]; [by rewrite Z.testbit_0_l|].
      rewrite (Z.bits_above_log2 n i); [done|lia|]. apply Z.log2_lt_pow2; [lia|].
      apply Z.lt_le_trans with (2 ^ w); [lia|]. apply Z.pow_le_mono_r; lia.
Qed.
Lemma in_net_between a net : addr_ok a -> net_ok net = true ->
  in_net a net = Bool.eqb (is_v6 a) (let '(Net v6 _ _) := net in v6) && between (net_lo net) (net_hi net) (ip_int a).
Proof.
  destruct net as [v6 b p]. cbn. unfold addr_ok, netmask, between. intros Ha Hok. bools.
  destruct (Bool.eqb (is_v6 a) v6) eqn:E; [|done]. apply eqb_prop in E. rewrite E in Ha. cbn.
  rewrite land_netmask by lia. set (s := 2 ^ (width v6 - p)) in *.
  assert (0 < s) by (apply Z.pow_pos_nonneg; lia).
  pose proof (Z.div_mod b s ltac:(lia)). pose proof (Z.div_mod (ip_int a) s ltac:(lia)).
  pose proof (Z.mod_pos_bound (ip_int a) s ltac:(lia)).
  destruct (Z.eqb_spec (ip_int a / s * s) b); symmetry.
  - apply andb_true_iff. split; apply Z.leb_le; nia.
  - apply andb_false_iff. destruct (Z.leb_spec b (ip_int a)); [right|by left].
    apply Z.leb_gt. set (qb := b / s) in *. set (qi := ip_int a / s) in *.
    assert (qb <= qi) by nia. assert (qb <> qi) by nia. nia.
Qed.

(** ** Digits *)

Definition digits_ok (w : Z) (l : list Z) : Prop := Forall (fun d => 0 <= d < 2 ^ w) l.
Lemma from_digits_snoc w l d : from_digits w (l ++ [d]) = Z.lor (Z.shiftl (from_digits w l) w) d.
Proof. unfold from_digits. by rewrite foldl_app. Qed.
Lemma lor_shiftl_add w a d : 0 <= w -> 0 <= d < 2 ^ w -> Z.lor (Z.shiftl a w) d = a * 2 ^ w + d.
Proof.
  intros Hw Hd. rewrite <- Z.shiftl_mul_pow2, <- Z.add_lor_land by lia.
  assert (Z.land (Z.shiftl a w) d = 0) as ->; [|lia].
  apply Z.bits_inj'. intros i Hi. rewrite Z.land_spec, Z.shiftl_spec, Z.bits_0 by lia.
  destruct (Z.ltb_spec i w); [by rewrite (Z.testbit_neg_r a) by lia|].
  destruct (Z.eq_dec d 0) as [->|]; [by rewrite Z.testbit_0_l, andb_false_r|].
  rewrite (Z.bits_above_log2 d i), andb_false_r; [done|lia|].
  apply Z.log2_lt_pow2; [lia|]. apply Z.lt_le_trans with (2 ^ w); [lia|]. apply Z.pow_le_mono_r; lia.
Qed.
Lemma digits_snoc w l d : digits_ok w (l ++ [d]) -> digits_ok w l /\ 0 <= d < 2 ^ w.
Proof. intros [H1 H2]%Forall_app. split; [done|]. by inversion H2. Qed.
Lemma from_digits_range w l : 0 <= w -> digits_ok w l ->
  0 <= from_digits w l < 2 ^ (w * Z.of_nat (length l)).
Proof.
  intros Hw. induction l as [|d l IH] using rev_ind; intros Hl; [cbn; rewrite Z.mul_0_r; cbn; lia|].
  apply digits_snoc in Hl as [Hl Hd]. rewrite from_digits_snoc, lor_shiftl_add by done.
  specialize (IH Hl). rewrite length_app. cbn [length].
  replace (w * Z.of_nat (length l + 1)) with (w * Z.of_nat (length l) + w) by lia.
  rewrite Z.pow_add_r by lia. nia.
Qed.
Lemma from_digits_app w l1 l2 : 0 <= w -> digits_ok w l2 ->
  from_digits w (l1 ++ l2) =
    Z.lor (Z.shiftl (from_digits w l1) (w * Z.of_nat (length l2))) (from_digits w l2).
Proof.
  intros Hw. induction l2 as [|d l IH] using rev_ind; intros Hl.
  - cbn. by rewrite app_nil_r, Z.mul_0_r, Z.shiftl_0_r, Z.lor_0_r.
  - apply digits_snoc in Hl as [Hl Hd]. rewrite app_assoc, !from_digits_snoc.
    rewrite IH, length_app by done. cbn [length].
    rewrite Z.shiftl_lor, Z.shiftl_shiftl, Z.lor_assoc by lia. do 3 f_equal. lia.
Qed.
Lemma from_digits_zeros w k l : from_digits w (replicate k 0 ++ l) = from_digits w l.
Proof. induction k; cbn; [done|]. unfold from_digits in *. cbn. by rewrite Z.shiftl_0_l. Qed.

(** The digits of a number, most significant first, make it up again. *)
Fixpoint to_digits (w : Z) (k : nat) (n : Z) : list Z :=
  match k with O => [] | S k' => Z.land (Z.shiftr n (w * Z.of_nat k')) (Z.ones w) :: to_digits w k' n end.
Lemma to_digits_ok w k n : 0 <= w -> digits_ok w (to_digits w k n).
Proof.
  intros Hw. induction k as [|k IH]; constructor; [|done].
  rewrite Z.land_ones by done. apply Z.mod_pos_bound, Z.pow_pos_nonneg; lia.
Qed.
Lemma length_to_digits w k n : length (to_digits w k n) = k.
Proof. induction k; cbn; congruence. Qed.
Lemma to_digits_mod w k j n : 0 <= w -> (k <= j)%nat ->
  to_digits w k (n mod 2 ^ (w * Z.of_nat j)) = to_digits w k n.
Proof.
  intros Hw. induction k as [|k IH]; intros Hk; [done|]. cbn [to_digits]. f_equal; [|apply IH; lia].
  apply Z.bits_inj'. intros i Hi. rewrite !Z.land_spec, !Z.shiftr_spec by lia.
  destruct (Z.ltb_spec i w).
  - rewrite Z.mod_pow2_bits_low; [done|]. nia.
  - by rewrite !Z.ones_spec_high, !andb_false_r by lia.
Qed.
Lemma from_to_digits w k n : 0 <= w -> 0 <= n < 2 ^ (w * Z.of_nat k) -> from_digits w (to_digits w k n) = n.
Proof.
  intros Hw. revert n. induction k as [|k IH]; intros n Hn.
  { rewrite Z.mul_0_r in Hn. cbn in *. lia. }
  cbn [to_digits].
  change (?d :: ?l) with ([d] ++ l)%list. rewrite from_digits_app by (try done; by apply to_digits_ok).
  rewrite length_to_digits. set (s := w * Z.of_nat k).
  assert (Hlow : to_digits w k n = to_digits w k (n mod 2 ^ s)) by (symmetry; by apply to_digits_mod).
  assert (0 < 2 ^ s) by (apply Z.pow_pos_nonneg; lia).
  rewrite Hlow, IH by (apply Z.mod_pos_bound; lia). cbn [from_digits foldl].
  unfold from_digits. cbn [foldl]. rewrite Z.shiftl_0_l, Z.lor_0_l.
  rewrite lor_shiftl_add by (try lia; apply Z.mod_pos_bound; lia).
  rewrite Z.land_ones, Z.shiftr_div_pow2 by lia. rewrite (Z.mod_small (n / 2 ^ s)).
  - rewrite Z.mul_comm. symmetry. apply Z.div_mod. lia.
  - split; [apply Z.div_pos; lia|]. apply Z.div_lt_upper_bound; [lia|].
    rewrite <- Z.pow_add_r by lia. replace (s + w) with (w * Z.of_nat (S k)) by lia. lia.
Qed.

(** ** Texts without a separator *)

Definition free (c : ascii) (s : string) : bool := str_all (fun d => negb (Ascii.eqb c d)) s.
Lemma contains_free c s : free c s = true -> contains (String c "") s = false.
Proof.
  unfold free. induction s as [|d s IH]; cbn [str_all contains]; [done|].
  intros [Hd Hs]%andb_true_iff. apply negb_true_iff in Hd.
  rewrite prefix_head_ne by (by rewrite Ascii.eqb_sym). by apply IH.
Qed.
Lemma partition_free c s : free c s = true -> partition c s = (s, false, "").
Proof.
  unfold free. induction s as [|d s IH]; cbn [str_all partition]; [done|].
  intros [Hd%negb_true_iff Hs]%andb_true_iff. by rewrite Hd, IH.
Qed.
Lemma partition_at c a b : free c a = true -> partition c (a ++ String c b) = (a, true, b).
Proof.
  unfold free. induction a as [|d a IH]; cbn [str_all String.append partition].
  - by rewrite Ascii.eqb_refl.
  - intros [Hd%negb_true_iff Hs]%andb_true_iff. by rewrite Hd, IH.
Qed.
Lemma free_impl p c s : str_all p s = true -> p c = false -> free c s = true.
Proof.
  intros Hs Hc. eapply str_all_impl; [|exact Hs]. intros d Hd. apply negb_true_iff.
  destruct (Ascii.eqb_spec c d); [congruence|done].
Qed.
Lemma split_join c l : l <> [] -> Forall (fun s => free c s = true) l ->
  split c (join (String c "") l) = l.
Proof.
  intros Hne Hl. induction Hl as [|s l Hs Hl IH]; [done|]. destruct l as [|t l].
  - by apply split_none.
  - change (join (String c "") (s :: t :: l)) with (s ++ String c "" ++ join (String c "") (t :: l)).
    cbn [String.append]. rewrite split_app, split_none, IH by done. done.
Qed.
Lemma str_all_join p c l : p c = true -> Forall (fun s => str_all p s = true) l ->
  str_all p (join (String c "") l) = true.
Proof.
  intros Hc Hl. induction Hl as [|s l Hs Hl IH]; [done|]. destruct l as [|t l]; [done|].
  change (join (String c "") (s :: t :: l)) with (s ++ String c (join (String c "") (t :: l))).
  rewrite str_all_append, Hs. cbn [str_all andb]. rewrite Hc. exact IH.
Qed.

(** ** IPv4 round trip *)

Lemma octet_show_table : forallb (fun k => let s := show_Z (Z.of_nat k) in
    match parse_octet s with Some n => n =? Z.of_nat k | None => false end && str_all is_dec s)
  (seq 0 256) = true.
Proof. vm_compute. reflexivity. Qed.
Lemma octet_show d : 0 <= d < 2 ^ 8 -> parse_octet (show_Z d) = Some d /\ str_all is_dec (show_Z d) = true.
Proof.
  intros Hd. pose proof octet_show_table as H. rewrite forallb_forall in H.
  specialize (H (Z.to_nat d)). cbn zeta in H. rewrite Z2Nat.id in H by lia.
  apply andb_true_iff in H; [|apply in_seq; lia]. destruct H as [H ?]. split; [|done].
  destruct (parse_octet _) as [n|]; [|done]. by apply Z.eqb_eq in H as ->.
Qed.
Definition v4_octets (n : Z) : list Z := to_digits 8 4 n.
Lemma show_v4_join n : show_v4 n = join "." (map show_Z (v4_octets n)).
Proof. reflexivity. Qed.
Lemma show_v4_chars n : str_all (fun c => is_dec c || Ascii.eqb c ".") (show_v4 n) = true.
Proof.
  rewrite show_v4_join. apply str_all_join; [done|].
  assert (Hl : digits_ok 8 (v4_octets n)) by (by apply to_digits_ok).
  induction Hl as [|d l Hd Hl IH]; constructor; [|done].
  eapply str_all_impl; [|apply (octet_show d Hd)]. intros c ->. done.
Qed.
Lemma parse_show_octets l : digits_ok 8 l -> mapM_opt parse_octet (map show_Z l) = Some l.
Proof.
  induction 1 as [|d l Hd Hl IH]; cbn [map mapM_opt]; [done|].
  destruct (octet_show d Hd) as [-> _]. by rewrite IH.
Qed.
Lemma v4_int_show n : 0 <= n < 2 ^ 32 -> v4_int (show_v4 n) = Some n.
Proof.
  intros Hn. unfold v4_int. assert (Hl : digits_ok 8 (v4_octets n)) by (by apply to_digits_ok).
  rewrite show_v4_join, split_join; [..|done|].
  - rewrite length_map. unfold v4_octets at 1. rewrite length_to_digits. cbn [Nat.eqb negb].
    rewrite parse_show_octets by done. cbn [fmap option_fmap option_map]. f_equal.
    apply (from_to_digits 8 4); done.
  - induction Hl as [|d l Hd Hl IH]; constructor; [|done].
    eapply free_impl; [apply (octet_show d Hd)|done].
Qed.
Lemma ip_address_show_v4 n : 0 <= n < 2 ^ 32 -> ip_address (show_v4 n) = Some (IPv4 n).
Proof.
  intros Hn. unfold ip_address, ipv4_address. rewrite contains_free.
  - by rewrite v4_int_show.
  - eapply free_impl; [apply show_v4_chars|done].
Qed.

(** ** IPv6 round trip *)

Definition hexts (n : Z) : list Z := to_digits 16 8 n.
Lemma hextets_to_digits n : hextets n = hexts n.
Proof. reflexivity. Qed.

Lemma hex_digit_table : forallb (fun k => let c := hex_digit (Z.of_nat k) in
    is_hex c && (hex_val c =? Z.of_nat k)) (seq 0 16) = true.
Proof. vm_compute. reflexivity. Qed.
Lemma hex_digit_ok d : 0 <= d < 16 -> is_hex (hex_digit d) = true /\ hex_val (hex_digit d) = d.
Proof.
  intros Hd. pose proof hex_digit_table as H. rewrite forallb_forall in H.
  specialize (H (Z.to_nat d)). cbn zeta in H. rewrite Z2Nat.id in H by lia.
  apply andb_true_iff in H; [|apply in_seq; lia]. destruct H as [H ?]. bools. done.
Qed.
Lemma land15 n : 0 <= Z.land n 15 < 16.
Proof. change 15 with (Z.ones 4). rewrite Z.land_ones by lia. apply Z.mod_pos_bound. lia. Qed.
Lemma show_hex_ok h : 0 <= h < 2 ^ 16 ->
  parse_hextet (show_hex h) = Some h /\ str_all is_hex (show_hex h) = true /\ show_hex h <> "".
Proof.
  intros Hh. unfold show_hex. cbn zeta.
  pose proof (fun i => hex_digit_ok _ (land15 (Z.shiftr h (4 * i)))) as Hd.
  assert (E : forall i, 0 <= i -> Z.land (Z.shiftr h (4 * i)) 15 = h / 2 ^ (4 * i) mod 16).
  { intros i Hi. change 15 with (Z.ones 4). by rewrite Z.land_ones, Z.shiftr_div_pow2 by lia. }
  unfold parse_hextet.
  destruct (Z.ltb_spec h 16); [|destruct (Z.ltb_spec h 256); [|destruct (Z.ltb_spec h 4096)]];
    cbn [String.append str_all String.length Nat.ltb Nat.leb String.eqb read_hex negb andb];
    rewrite ?(proj1 (Hd 0)), ?(proj1 (Hd 1)), ?(proj1 (Hd 2)), ?(proj1 (Hd 3)); cbn [andb negb];
    (split_and!; [|done|done]);
    rewrite ?(proj2 (Hd 0)), ?(proj2 (Hd 1)), ?(proj2 (Hd 2)), ?(proj2 (Hd 3)), ?E by lia;
    f_equal; change (2 ^ (4 * 0)) with 1; change (2 ^ (4 * 1)) with 16;
    change (2 ^ (4 * 2)) with 256; change (2 ^ (4 * 3)) with 4096; Z.div_mod_to_equations; lia.
Qed.

Definition zeros (l : list Z) (s k : nat) : Prop := forall i, (s <= i < s + k)%nat -> nth i l 1 = 0.
Lemma best_run_spec l : forall pre start len bstart blen s k,
  (len = 0%nat \/ ((start + len)%nat = length pre /\ zeros pre start len)) ->
  (bstart + blen <= length pre)%nat -> zeros pre bstart blen ->
  best_run (length pre) start len bstart blen l = (s, k) ->
  (s + k <= length (pre ++ l))%nat /\ zeros (pre ++ l) s k.
Proof.
  assert (Hsnoc : forall pre h s k, zeros pre s k -> (s + k <= length pre)%nat -> zeros (pre ++ [h]) s k).
  { intros pre h s k Hz Hle i Hi. rewrite app_nth1 by lia. by apply Hz. }
  induction l as [|h l IH]; intros pre start len bstart blen s k Hrun Hle Hb; cbn [best_run].
  - intros [= <- <-]. by rewrite app_nil_r.
  - replace (S (length pre)) with (length (pre ++ [h])) by (rewrite length_app; cbn; lia).
    assert (Hlen : length (pre ++ [h]) = S (length pre)) by (rewrite length_app; cbn; lia).
    replace (pre ++ h :: l)%list with ((pre ++ [h]) ++ l)%list by (by rewrite <- app_assoc).
    destruct (Z.eqb_spec h 0) as [->|]; [|intros; eapply IH; [| | |eassumption]; auto; lia].
    set (start' := if Nat.eqb len 0 then length pre else start).
    assert (Hz : (start' + S len)%nat = length (pre ++ [0]) /\ zeros (pre ++ [0]) start' (S len)).
    { subst start'. destruct (Nat.eqb_spec len 0) as [->|Hn].
      - split; [lia|]. intros i Hi. rewrite app_nth2 by lia. by replace (i - length pre)%nat with 0%nat by lia.
      - destruct Hrun as [?|[Hl Hz]]; [done|]. split; [lia|]. intros i Hi.
        destruct (decide (i = length pre)) as [->|]; [rewrite app_nth2 by lia; by rewrite Nat.sub_diag|].
        rewrite app_nth1 by lia. apply Hz. lia. }
    destruct (Nat.ltb blen (S len)).
    + intros; eapply IH; [| | |eassumption]; [by right|lia|by destruct Hz].
    + intros; eapply IH; [| | |eassumption]; [by right|lia|auto].
Qed.

Definition compressed (hi lo : list string) : list string :=
  ((if Nat.eqb (length hi) 0 then [""] else []) ++ hi ++ "" :: lo ++
   (if Nat.eqb (length lo) 0 then [""] else []))%list.

Lemma hex_parts hs : digits_ok 16 hs ->
  Forall (fun s => str_all is_hex s = true /\ String.eqb s "" = false) (map show_hex hs) /\
  mapM_opt parse_hextet (map show_hex hs) = Some hs.
Proof.
  induction 1 as [|h hs Hh Hhs [IH1 IH2]]; cbn [map mapM_opt]; [by split; [constructor|]|].
  destruct (show_hex_ok h Hh) as (-> & Hx & Hne). rewrite IH2. split; [|done].
  constructor; [|done]. split; [done|]. by apply String.eqb_neq.
Qed.

Lemma split_hex_parts ps : ps <> [] -> Forall (fun s => str_all is_hex s = true) ps ->
  split ":" (join ":" ps) = ps.
Proof.
  intros Hne Hps. apply split_join; [done|]. eapply Forall_impl; [exact Hps|].
  intros s Hs. eapply free_impl; [exact Hs|done].
Qed.
Lemma hex_no_dot s : str_all is_hex s = true -> contains "." s = false.
Proof. intros Hs. apply contains_free. eapply free_impl; [exact Hs|done]. Qed.
Lemma last_forall {A} (P : A -> Prop) l d : Forall P l -> P d -> P (List.last l d).
Proof. intros Hl Hd. induction Hl as [|x l Hx Hl IH]; [done|]. by destruct l. Qed.
Lemma v6_parts_hex ps : (3 <= length ps <= 9)%nat -> Forall (fun s => str_all is_hex s = true) ps ->
  v6_parts (join ":" ps) = Some ps.
Proof.
  intros Hlen Hps. unfold v6_parts. rewrite split_hex_parts; [|intros ->; cbn in Hlen; lia|done].
  destruct (Nat.ltb_spec (length ps) 3); [lia|].
  rewrite hex_no_dot by (by apply last_forall). destruct (Nat.ltb_spec 9 (length ps)); [lia|done].
Qed.

Lemma v6_int_parts s his los hi lo :
  v6_parts s = Some (compressed his los) ->
  Forall (fun w => String.eqb w "" = false) his -> Forall (fun w => String.eqb w "" = false) los ->
  mapM_opt parse_hextet his = Some hi -> mapM_opt parse_hextet los = Some lo ->
  (length his + length los <= 6)%nat ->
  v6_int s = Some (Z.lor (Z.shiftl (from_digits 16 hi)
    (16 * (8 - Z.of_nat (length his + length los) + Z.of_nat (length los)))) (from_digits 16 lo)).
Proof.
  intros Hs Fh Fl Mh Ml Hlen. unfold v6_int. destruct (String.eqb_spec s "") as [->|_]; [done|]. rewrite Hs.
  destruct his as [|h1 [|h2 [|h3 [|h4 [|h5 [|h6 [|h7 his]]]]]]];
    try (exfalso; cbn in Hlen; lia);
    destruct los as [|l1 [|l2 [|l3 [|l4 [|l5 [|l6 [|l7 los]]]]]]];
    try (exfalso; cbn in Hlen; lia); clear Hlen;
    repeat match goal with F : Forall _ (_ :: _) |- _ => apply Forall_cons in F as [? F] end; clear Fh Fl;
    unfold compressed, empty_inside;
    cbn [length Nat.eqb app seq List.filter nth Nat.sub String.eqb];
    repeat match goal with F : String.eqb _ "" = false |- _ => rewrite !F; clear F end;
    cbn [List.filter length Nat.eqb Nat.sub Nat.add nth String.eqb andb negb firstn skipn];
    try match type of Mh with mapM_opt _ [] = _ => injection Mh as <- end;
    try match type of Ml with mapM_opt _ [] = _ => injection Ml as <- end;
    rewrite ?Mh, ?Ml; reflexivity.
Qed.
(** The parsed value of a compressed text. *)
Lemma v6_int_compressed hi lo : digits_ok 16 hi -> digits_ok 16 lo ->
  (length hi + length lo <= 6)%nat ->
  v6_int (join ":" (compressed (map show_hex hi) (map show_hex lo))) =
    Some (from_digits 16 (hi ++ replicate (8 - length hi - length lo) 0 ++ lo)).
Proof.
  intros Hhi Hlo Hlen.
  destruct (hex_parts hi Hhi) as [Fhi Mhi], (hex_parts lo Hlo) as [Flo Mlo].
  assert (Hpos : 16 * (8 - Z.of_nat (length hi + length lo) + Z.of_nat (length lo)) =
    16 * Z.of_nat (length (replicate (8 - length hi - length lo) 0 ++ lo))).
  { rewrite length_app, length_replicate. lia. }
  assert (Hval : from_digits 16 (hi ++ replicate (8 - length hi - length lo) 0 ++ lo) =
    Z.lor (Z.shiftl (from_digits 16 hi)
      (16 * (8 - Z.of_nat (length hi + length lo) + Z.of_nat (length lo)))) (from_digits 16 lo)).
  { rewrite from_digits_app, from_digits_zeros, Hpos; [done..|].
    apply Forall_app. split; [|done]. apply Forall_replicate. lia. }
  rewrite Hval. clear Hval Hpos.
  assert (Hps : v6_parts (join ":" (compressed (map show_hex hi) (map show_hex lo))) =
    Some (compressed (map show_hex hi) (map show_hex lo))).
  { apply v6_parts_hex.
    - unfold compressed. rewrite !length_app, !length_map. cbn. rewrite length_app, !length_map.
      destruct (length hi), (length lo); cbn; lia.
    - assert (Hx : forall l, Forall (fun s => str_all is_hex s = true /\ String.eqb s "" = false) l ->
        Forall (fun s => str_all is_hex s = true) l).
      { intros l Hl. eapply Forall_impl; [exact Hl|]. by intros ? [? ?]. }
      assert (He : forall b : bool, Forall (fun s => str_all is_hex s = true) (if b then [""] else [])).
      { intros []; [by apply Forall_singleton|constructor]. }
      unfold compressed. apply Forall_app. split; [apply He|]. apply Forall_app. split; [by apply Hx|].
      apply Forall_cons. split; [done|]. apply Forall_app. split; [by apply Hx|apply He]. }
  assert (Hy : forall l, Forall (fun s => str_all is_hex s = true /\ String.eqb s "" = false) l ->
    Forall (fun s => String.eqb s "" = false) l).
  { intros l Hl. eapply Forall_impl; [exact Hl|]. by intros ? [? ?]. }
  erewrite v6_int_parts; [|exact Hps|by apply Hy|by apply Hy|exact Mhi|exact Mlo|].
  - by rewrite !length_map.
  - by rewrite !length_map.
Qed.

Lemma v6_int_full hs : digits_ok 16 hs -> length hs = 8%nat ->
  v6_int (join ":" (map show_hex hs)) = Some (from_digits 16 hs).
Proof.
  intros Hhs Hlen. destruct (hex_parts hs Hhs) as [F M].
  assert (Hps : v6_parts (join ":" (map show_hex hs)) = Some (map show_hex hs)).
  { apply v6_parts_hex; [rewrite length_map; lia|].
    eapply Forall_impl; [exact F|]. by intros ? [? ?]. }
  unfold v6_int. destruct (String.eqb_spec (join ":" (map show_hex hs)) "") as [E|_]; [by rewrite E in Hps|].
  rewrite Hps, length_map, Hlen.
  assert (Hl : length (map show_hex hs) = 8%nat) by (by rewrite length_map).
  revert F M Hl. generalize (map show_hex hs) as ws. clear Hps. intros ws F M Hl.
  destruct ws as [|w1 [|w2 [|w3 [|w4 [|w5 [|w6 [|w7 [|w8 [|]]]]]]]]]; try done. clear Hl.
  repeat match goal with F : Forall _ (_ :: _) |- _ => apply Forall_cons in F as [[? ?] F] end.
  unfold empty_inside. cbn [length seq List.filter nth Nat.sub].
  repeat match goal with F : String.eqb _ "" = false |- _ => rewrite !F; clear F end.
  cbn [Nat.eqb negb orb]. by rewrite M.
Qed.

Lemma zeros_split l s k : zeros l s k -> (s + k <= length l)%nat ->
  l = (firstn s l ++ replicate k 0 ++ skipn (s + k) l)%list.
Proof.
  intros Hz Hle. rewrite <- (firstn_skipn s l) at 1. f_equal.
  rewrite <- (firstn_skipn k (skipn s l)) at 1. rewrite skipn_skipn. replace (k + s)%nat with (s + k)%nat by lia.
  f_equal. apply nth_ext with (d := 1) (d' := 1).
  - rewrite length_replicate, length_firstn, length_skipn. lia.
  - intros i Hi. rewrite length_firstn, length_skipn in Hi.
    rewrite nth_firstn. destruct (Nat.ltb_spec i k); [|lia]. rewrite nth_skipn, Hz by lia.
    rewrite (nth_indep _ 1 0) by (rewrite length_replicate; lia). 
    clear. revert i. induction k as [|k IH]; intros [|i]; cbn; auto.
Qed.
Lemma v6_int_show n : 0 <= n < 2 ^ 128 -> v6_int (show_v6 n) = Some n.
Proof.
  intros Hn. unfold show_v6. rewrite hextets_to_digits. cbn zeta.
  assert (Hok : digits_ok 16 (hexts n)) by (by apply to_digits_ok).
  assert (Hlen : length (hexts n) = 8%nat) by apply length_to_digits.
  destruct (best_run 0 0 0 0 0 (hexts n)) as [s k] eqn:E.
  apply (best_run_spec (hexts n) [] 0 0 0 0) in E as [Hle Hz]; [|by left|done|intros i Hi; lia].
  cbn [app] in Hle, Hz. rewrite Hlen in Hle.
  destruct (Nat.ltb_spec 1 k) as [Hk|_].
  - assert (Hsplit := zeros_split _ _ _ Hz ltac:(rewrite Hlen; lia)).
    assert (Hl1 : length (firstn s (hexts n)) = s) by (rewrite length_firstn; lia).
    assert (Hl2 : length (skipn (s + k) (hexts n)) = (8 - (s + k))%nat) by (rewrite length_skipn; lia).
    assert (Hc : (if Nat.eqb s 0 then "" :: firstn s (map show_hex (hexts n)) ++ "" ::
          skipn (s + k) (map show_hex (hexts n)) ++ (if Nat.eqb (s + k) 8 then [""] else [])
        else firstn s (map show_hex (hexts n)) ++ "" ::
          skipn (s + k) (map show_hex (hexts n)) ++ (if Nat.eqb (s + k) 8 then [""] else []))%list =
      compressed (map show_hex (firstn s (hexts n))) (map show_hex (skipn (s + k) (hexts n)))).
    { unfold compressed. rewrite <- firstn_map, <- skipn_map, !length_firstn, !length_skipn, !length_map, Hlen.
      replace (Nat.min s 8) with s by lia. replace (Nat.eqb (8 - (s + k)) 0) with (Nat.eqb (s + k) 8).
      - by destruct (Nat.eqb s 0).
      - destruct (Nat.eqb_spec (s + k) 8), (Nat.eqb_spec (8 - (s + k)) 0); lia || done. }
    rewrite Hc. rewrite v6_int_compressed.
    + rewrite Hl1, Hl2. replace (8 - s - (8 - (s + k)))%nat with k by lia. rewrite <- Hsplit.
      f_equal. apply (from_to_digits 16 8); done.
    + rewrite Hsplit in Hok. by apply Forall_app in Hok as [? _].
    + rewrite Hsplit in Hok. apply Forall_app in Hok as [_ Hok]. by apply Forall_app in Hok as [_ ?].
    + lia.
  - rewrite v6_int_full by done. f_equal. apply (from_to_digits 16 8); done.
Qed.

Definition is_v6_char (c : ascii) : bool := is_hex c || Ascii.eqb c ":".
Lemma show_v6_chars n : str_all is_v6_char (show_v6 n) = true.
Proof.
  unfold show_v6. cbn zeta. rewrite hextets_to_digits.
  assert (Hall : Forall (fun s => str_all is_v6_char s = true) (map show_hex (hexts n))).
  { destruct (hex_parts (hexts n)) as [F _]; [by apply to_digits_ok|].
    eapply Forall_impl; [exact F|]. intros s [Hs _]. eapply str_all_impl; [|exact Hs].
    intros c Hc. unfold is_v6_char. by rewrite Hc. }
  assert (He : forall b : bool, Forall (fun s => str_all is_v6_char s = true) (if b then [""] else [])).
  { intros []; [by apply Forall_singleton|constructor]. }
  destruct (best_run 0 0 0 0 0 (hexts n)) as [s k]. destruct (Nat.ltb 1 k); apply str_all_join; try done.
  assert (Hmid : Forall (fun s => str_all is_v6_char s = true)
    (firstn s (map show_hex (hexts n)) ++ "" :: skipn (s + k) (map show_hex (hexts n)) ++
       (if Nat.eqb (s + k) 8 then [""] else []))%list).
  { apply Forall_app. split; [by apply Forall_take|]. apply Forall_cons. split; [done|].
    apply Forall_app. split; [by apply Forall_drop|apply He]. }
  destruct (Nat.eqb s 0); [by apply Forall_cons|done].
Qed.
Lemma show_v6_free c n : is_v6_char c = false -> free c (show_v6 n) = true.
Proof. intros Hc. eapply free_impl; [apply show_v6_chars|done]. Qed.

Definition scope_ok (sc : option string) : Prop :=
  match sc with
  | None => True
  | Some t => t <> "" /\ free "%" t = true /\ free "/" t = true
  end.
Definition ip_ok (a : ipaddr) : Prop :=
  addr_ok a /\ match a with IPv4 _ => True | IPv6 _ sc => scope_ok sc end.

Lemma free_append c a b : free c (a ++ b) = free c a && free c b.
Proof. apply str_all_append. Qed.
Lemma v4_int_no_dot s : free "." s = true -> v4_int s = None.
Proof. intros Hs. unfold v4_int. by rewrite split_none. Qed.
Lemma v4_int_colon s c t : is_dec c = false -> Ascii.eqb "." c = false -> v4_int (s ++ String c t) = None.
Proof.
  intros Hc Hd. unfold v4_int. destruct (negb _); [done|].
  assert (E : exists w, w ∈ split "." (s ++ String c t) /\ parse_octet w = None).
  { assert (Hw : exists a b, (a ++ String c b) ∈ split "." (s ++ String c t)).
    { induction s as [|d s IH]; cbn [String.append split].
      - rewrite Hd. destruct (split "." t) as [|w ws].
        + exists "", "". by left.
        + exists "", w. by left.
      - destruct (Ascii.eqb "." d).
        + destruct IH as (a & b & IH). exists a, b. by right.
        + destruct IH as (a & b & IH). destruct (split "." (s ++ String c t)) as [|w ws].
          * by apply not_elem_of_nil in IH.
          * apply elem_of_cons in IH as [<-|IH].
            -- exists (String d a), b. by left.
            -- exists a, b. by right. }
    destruct Hw as (a & b & Hw). exists (a ++ String c b). split; [done|]. unfold parse_octet.
    destruct (String.eqb (a ++ String c b) "") eqn:E0; [done|].
    assert (str_all is_dec (a ++ String c b) = false) as ->; [|done].
    rewrite str_all_append. cbn [str_all]. rewrite Hc. cbn. apply andb_false_r. }
  destruct E as (w & Hw & Hp). assert (mapM_opt parse_octet (split "." (s ++ String c t)) = None) as ->; [|done].
  induction (split "." (s ++ String c t)) as [|x l IH]; [by apply not_elem_of_nil in Hw|].
  cbn. apply elem_of_cons in Hw as [->|Hw]; [by rewrite Hp|].
  rewrite IH by done. by destruct (parse_octet x).
Qed.
Lemma show_v6_colon n : exists a b, show_v6 n = a ++ String ":" b.
Proof.
  assert (Hj : forall x y l, exists a b, join ":" (x :: y :: l) = a ++ String ":" b).
  { intros x y l. exists x, (join ":" (y :: l)). done. }
  unfold show_v6. cbn zeta. destruct (best_run 0 0 0 0 0 (hextets n)) as [s k].
  assert (Hl : length (map show_hex (hextets n)) = 8%nat) by done.
  destruct (map show_hex (hextets n)) as [|x [|y l]] eqn:E; try done.
  destruct (Nat.ltb_spec 1 k); [|apply Hj].
  destruct (Nat.eqb_spec s 0) as [->|]; [apply Hj|].
  destruct s as [|[|s]]; [done|apply Hj|].
  cbn [firstn app]. apply Hj.
Qed.

(** Printing then parsing an address gives it back. *)
Lemma ip_address_show a : ip_ok a -> ip_address (show_ip a) = Some a.
Proof.
  intros [Ha Hs]. unfold addr_ok in Ha. destruct a as [n|n sc]; cbn in Ha; [by apply ip_address_show_v4|].
  assert (H4 : ipv4_address (show_ip (IPv6 n sc)) = None).
  { unfold ipv4_address. destruct (contains "/" _); [done|].
    destruct (show_v6_colon n) as (a & b & E). destruct sc as [t|]; cbn [show_ip]; rewrite E.
    - rewrite append_assoc. cbn [String.append]. by rewrite v4_int_colon.
    - by rewrite v4_int_colon. }
  unfold ip_address. rewrite H4. unfold ipv6_address.
  pose proof (show_v6_free "/" n eq_refl) as Hsl. pose proof (show_v6_free "%" n eq_refl) as Hpc.
  destruct sc as [t|]; cbn [show_ip].
  - destruct Hs as (Hne & Ht & Hts). rewrite contains_free by (by rewrite free_append, Hsl).
    cbn [String.append]. rewrite partition_at by done. cbn [negb].
    apply String.eqb_neq in Hne as ->. rewrite contains_free by done. cbn [orb].
    by rewrite v6_int_show.
  - rewrite contains_free, partition_free by done. cbn [negb]. by rewrite v6_int_show.
Qed.

(** ** A parsed address is in range *)

Lemma mapM_opt_Forall {A B} (f : A -> option B) (P : B -> Prop) l ys :
  (forall x y, f x = Some y -> P y) -> mapM_opt f l = Some ys -> Forall P ys /\ length ys = length l.
Proof.
  intros Hf. revert ys. induction l as [|x l IH]; cbn; intros ys E; [by simp_res|].
  destruct (f x) eqn:Ex; [|done]. destruct (mapM_opt f l); [|done]. simp_res.
  destruct (IH _ eq_refl). cbn. split; [constructor; eauto|lia].
Qed.
Lemma parse_octet_range s n : parse_octet s = Some n -> 0 <= n < 2 ^ 8.
Proof.
  unfold parse_octet. destruct (_ || _); [done|]. destruct (Nat.ltb 3 _); [done|].
  destruct (_ && _); [done|]. destruct (Z.of_N (read_N s) >? 255) eqn:E; [done|]. intros [= <-]. lia.
Qed.
Lemma v4_int_range s n : v4_int s = Some n -> 0 <= n < 2 ^ 32.
Proof.
  unfold v4_int. destruct (Nat.eqb_spec (length (split "." s)) 4) as [E|]; [|done]. cbn [negb].
  destruct (mapM_opt parse_octet (split "." s)) as [l|] eqn:M; [|done]. cbn. intros [= <-].
  apply (mapM_opt_Forall _ (fun d => 0 <= d < 2 ^ 8)) in M as [F L]; [|apply parse_octet_range].
  pose proof (from_digits_range 8 l ltac:(lia) F) as R. by rewrite L, E in R.
Qed.
Lemma read_hex_range s : forall acc, str_all is_hex s = true -> 0 <= acc ->
  0 <= read_hex acc s < (acc + 1) * 16 ^ Z.of_nat (String.length s).
Proof.
  induction s as [|c s IH]; intros acc Hs Ha; cbn [read_hex String.length]; [cbn; lia|].
  cbn [str_all] in Hs. apply andb_true_iff in Hs as [Hc Hs].
  assert (0 <= hex_val c < 16).
  { unfold is_hex, is_dec, in_range in Hc. unfold hex_val, is_dec, in_range.
    destruct ((48 <=? code c)%N && (code c <=? 57)%N) eqn:E1; [bools; lia|].
    destruct ((97 <=? code c)%N && (code c <=? 102)%N) eqn:E2; cbn in Hc; bools; lia. }
  specialize (IH (16 * acc + hex_val c) Hs ltac:(lia)).
  replace (Z.of_nat (S (String.length s))) with (1 + Z.of_nat (String.length s)) by lia.
  rewrite Z.pow_add_r by lia. change (16 ^ 1) with 16. nia.
Qed.
Lemma parse_hextet_range s n : parse_hextet s = Some n -> 0 <= n < 2 ^ 16.
Proof.
  unfold parse_hextet. destruct (str_all is_hex s) eqn:Hs; [|done]. cbn [negb].
  destruct (Nat.ltb_spec 4 (String.length s)); [done|]. destruct (String.eqb s ""); [done|]. intros [= <-].
  pose proof (read_hex_range s 0 Hs ltac:(lia)) as R.
  assert (16 ^ Z.of_nat (String.length s) <= 16 ^ 4) by (apply Z.pow_le_mono_r; lia).
  change (16 ^ 4) with (2 ^ 16) in *. lia.
Qed.
Lemma hextets_range ps l : mapM_opt parse_hextet ps = Some l ->
  digits_ok 16 l /\ 0 <= from_digits 16 l < 2 ^ (16 * Z.of_nat (length ps)).
Proof.
  intros M. apply (mapM_opt_Forall _ (fun d => 0 <= d < 2 ^ 16)) in M as [F L]; [|apply parse_hextet_range].
  rewrite <- L. split; [done|]. apply from_digits_range; [lia|done].
Qed.
Lemma v6_int_range s n : v6_int s = Some n -> 0 <= n < 2 ^ 128.
Proof.
  unfold v6_int. destruct (String.eqb s ""); [done|]. destruct (v6_parts s) as [ps|]; [|done].
  destruct (empty_inside ps) as [|k [|]]; [| |done].
  - destruct (Nat.eqb_spec (length ps) 8) as [E|]; [|done]. cbn [negb orb]. destruct (_ || _); [done|].
    destruct (mapM_opt parse_hextet ps) as [l|] eqn:M; [|done]. cbn. intros [= <-].
    apply hextets_range in M as [_ R]. by rewrite E in R.
  - set (len := length ps).
    set (hi := if String.eqb (nth 0 ps "") "" then (k - 1)%nat else k).
    set (lo := if String.eqb (nth (len - 1) ps "") "" then (len - k - 2)%nat else (len - k - 1)%nat).
    assert (Hlo : (lo <= len)%nat) by (unfold lo; clear; destruct (String.eqb (nth (len - 1) ps "") ""); lia).
    cbn zeta. destruct (_ && _); [done|]. destruct (_ && _); [done|].
    destruct (Z.ltb_spec (8 - Z.of_nat (hi + lo)) 1); [done|].
    destruct (mapM_opt parse_hextet (firstn hi ps)) as [h|] eqn:Mh; [|done].
    destruct (mapM_opt parse_hextet (skipn (len - lo) ps)) as [l|] eqn:Ml; [|done].
    apply hextets_range in Mh as [_ Rh]. apply hextets_range in Ml as [_ Rl]. intros [= <-].
    rewrite length_firstn in Rh. rewrite length_skipn in Rl. fold len in Rh, Rl.
    replace (len - (len - lo))%nat with lo in Rl by lia.
    set (t := 8 - Z.of_nat (hi + lo) + Z.of_nat lo) in *.
    assert (Hl : 0 <= from_digits 16 l < 2 ^ (16 * t)).
    { split; [lia|]. apply Z.lt_le_trans with (2 ^ (16 * Z.of_nat lo)); [lia|]. apply Z.pow_le_mono_r; lia. }
    assert (Hh : 0 <= from_digits 16 h < 2 ^ (16 * Z.of_nat hi)).
    { split; [lia|]. eapply Z.lt_le_trans; [apply Rh|]. apply Z.pow_le_mono_r; lia. }
    rewrite lor_shiftl_add by lia. replace (2 ^ 128) with (2 ^ (16 * Z.of_nat hi) * 2 ^ (16 * t)); [nia|].
    rewrite <- Z.pow_add_r by lia. f_equal. lia.
Qed.

Lemma partition_none c s a b f : partition c s = (a, f, b) ->
  free c a = true /\ (f = false -> a = s /\ b = "") /\ (f = true -> s = a ++ String c b).
Proof.
  revert a b f. induction s as [|d s IH]; intros a b f; cbn [partition]; [by intros [= <- <- <-]|].
  destruct (Ascii.eqb_spec c d) as [->|Hn]; [by intros [= <- <- <-]|].
  destruct (partition c s) as [[a' f'] b'] eqn:E. intros [= <- <- <-].
  destruct (IH _ _ _ eq_refl) as (Hf & H1 & H2). split_and!.
  - unfold free in *. cbn [str_all]. apply Ascii.eqb_neq in Hn. by rewrite Hn, Hf.
  - intros ->. by destruct (H1 eq_refl) as [-> ->].
  - intros ->. by rewrite (H2 eq_refl).
Qed.
Lemma contains_free_iff c s : contains (String c "") s = false -> free c s = true.
Proof.
  unfold free. induction s as [|d s IH]; cbn [contains str_all]; [done|]. intros [Hp Hs]%orb_false_iff.
  rewrite IH by done. rewrite andb_true_r. apply negb_true_iff, Ascii.eqb_neq. intros ->.
  rewrite (proj2 (prefix_spec (String d "") (String d s))) in Hp; [done|]. by exists s.
Qed.

(** What [ip_address] returns is a proper address. *)
Lemma ip_address_ok s a : ip_address s = Some a -> ip_ok a.
Proof.
  unfold ip_address, ipv4_address, ipv6_address. destruct (contains "/" s) eqn:Hsl; [done|].
  destruct (v4_int s) as [n|] eqn:E4; cbn.
  - intros [= <-]. split; [|done]. by eapply v4_int_range.
  - destruct (partition "%" s) as [[a0 sep] scope] eqn:Ep.
    apply partition_none in Ep as (_ & _ & Hp). destruct sep; cbn.
    + destruct (String.eqb_spec scope ""); [done|]. destruct (contains "%" scope) eqn:Hc; [done|].
      destruct (v6_int a0) as [m|] eqn:E6; [|done]. intros [= <-]. split; [by eapply v6_int_range|].
      split_and!; [done|by apply contains_free_iff|].
      apply contains_free_iff in Hsl. rewrite (Hp eq_refl) in Hsl. rewrite free_append in Hsl.
      apply andb_true_iff in Hsl as [_ Hsl]. unfold free in *. cbn [str_all] in Hsl. by apply andb_true_iff in Hsl as [_ ?].
    + destruct (v6_int a0) as [m|] eqn:E6; [|done]. intros [= <-]. split; [by eapply v6_int_range|done].
Qed.
