(* ===== verification/Addressing.v ===== *)
(** * Address policy and host names ([src/pep/addressing.py])

    The verdict on an address, IPv4-in-IPv6 embeddings judged by the embedded
    address, and the canonical form of an authority. *)

From S2P Require Import Prelude PyStr Json PyDyn IpAddr.
Open Scope Z_scope.

(** [h.encode("idna")] of a host that is not all ASCII. *)
Class Idna := { idna : string -> option string }.

Definition family_of (a : ipaddr) : string := if is_v6 a then "ipv6" else "ipv4".

Record verdict := Verdict {
  v_ok : bool; v_reason : string; v_family : option string; v_effective : option string }.

(** The address to judge and the kind of embedding. *)
Definition unwrap_embedded_v4 (a : ipaddr) : ipaddr * option string :=
  match a with
  | IPv4 _ => (a, None)
  | IPv6 n _ =>
      match ipv4_mapped n with
      | Some m => (m, Some "ipv4_mapped")
      | None =>
          match sixtofour n with
          | Some m => (m, Some "6to4")
          | None =>
              match teredo_client n with
              | Some m => (m, Some "teredo")
              | None => if in_net a (n6 [0x64; 0xff9b] 96) then (IPv4 (low32 n), Some "nat64")
                        else (a, None)
              end
          end
      end
  end.

(** The class of the judged address: denied for good, deniable unless exempted,
    or public. *)
Inductive class := Hard (why : string) | Exemptible (kind : string) | Public.
Definition ULA : ipnet := n6 [0xfc00] 7.
Definition class_of (j : ipaddr) : class :=
  if is_loopback j then Hard "loopback"
  else if is_link_local j then Hard "link_local"
  else if is_unspecified j then Hard "unspecified"
  else if is_multicast j then Hard "multicast"
  else if is_reserved j then Hard "reserved"
  else if is_v6 j && is_site_local j then Exemptible "site_local"
  else if is_v6 j && in_net j ULA then Exemptible "unique_local"
  else if is_private j then Exemptible "private"
  else Public.

Definition via (why : string) (embedding : option string) : string :=
  match embedding with Some e => why ++ "_via_" ++ e | None => why end.
(** [exemptions] is a set of JSON values; an address string is looked up in it. *)
Definition in_set (s : string) (l : list val) : bool := existsb (py_eqb (VStr s)) l.

Definition classify_addr (ip_str : string) (exemptions : list val) (raw : ipaddr) : verdict :=
  let '(judged, embedding) := unwrap_embedded_v4 raw in
  let fam := family_of raw in
  let eff := show_ip judged in
  let deny why := Verdict false (via (why ++ "_denied") embedding) (Some fam) (Some eff) in
  match class_of judged with
  | Hard why => deny why
  | Exemptible kind =>
      if in_set ip_str exemptions || in_set eff exemptions
      then Verdict true (kind ++ "_exempted") (Some fam) (Some eff)
      else deny kind
  | Public => Verdict true (via "public_ok" embedding) (Some fam) (Some eff)
  end.
Definition classify (ip_str : string) (exemptions : list val) : verdict :=
  match ip_address ip_str with
  | None => Verdict false "malformed_ip" None None
  | Some raw => classify_addr ip_str exemptions raw
  end.

Definition is_ip_literal (host : string) : bool :=
  match ip_address host with Some _ => true | None => false end.

(** ** Canonical hosts *)

Definition rstrip_dots : string -> string := rstrip (Ascii.eqb ".").
Definition unbracket (h : string) : string :=
  if startswith "[" h && endswith "]" h then take (String.length h - 2) (drop 1 h) else h.
Definition all_ascii (h : string) : bool := str_all is_ascii h.

(** A host of digits and dots only: a dotted quad without leading zeros, or nothing. *)
Definition canonical_quad (h : string) : option string :=
  let parts := split "." h in
  if Nat.eqb (length parts) 4 && forallb str_isdigit parts then
    if existsb (fun p => Nat.ltb 1 (String.length p) && startswith "0" p) parts then None
    else show_ip <$> ipv4_address h
  else None.
Definition encode_idna `{Idna} (h : string) : option string :=
  if all_ascii h then Some h else idna h.
Definition canonical_host `{Idna} (raw : string) : option string :=
  if String.eqb raw "" then None else
  let h := rstrip_dots (unbracket (str_lower (str_strip raw))) in
  if String.eqb h "" || contains "/" h || contains " " h || contains "\" h then None
  else if contains ":" h then show_ip <$> ip_address h
  else if str_all (fun c => c_isdigit c || Ascii.eqb c ".") h then canonical_quad h
  else encode_idna h.
