(* ===== verification/AddressProps.v ===== *)
(** * Properties of the address policy

    The verdict as intervals of addresses, embedded IPv4 addresses, classes
    that no exemption reaches, the round trip of addresses and the canonical
    form of a host. *)

From S2P Require Import Prelude PyStr Json JsonFacts PyDyn AuditFacts IpAddr IpFacts Addressing.
Open Scope Z_scope.

(** ** The specification: intervals *)

Definition d4 (a b c d : Z) : Z := ((a * 256 + b) * 256 + c) * 256 + d.
(** The IPv4 addresses that are not public, lowest and highest. *)
Definition blocked4 : list (Z * Z) :=
  [ (d4 0 0 0 0, d4 0 255 255 255); (d4 10 0 0 0, d4 10 255 255 255);
    (d4 127 0 0 0, d4 127 255 255 255); (d4 169 254 0 0, d4 169 254 255 255);
    (d4 172 16 0 0, d4 172 31 255 255); (d4 192 0 0 0, d4 192 0 0 8);
    (d4 192 0 0 11, d4 192 0 0 255); (d4 192 0 2 0, d4 192 0 2 255);
    (d4 192 168 0 0, d4 192 168 255 255); (d4 198 18 0 0, d4 198 19 255 255);
    (d4 198 51 100 0, d4 198 51 100 255); (d4 203 0 113 0, d4 203 0 113 255);
    (d4 224 0 0 0, d4 255 255 255 255) ].
(** Never exemptible: loopback, link-local, unspecified, multicast, reserved. *)
Definition hard4 : list (Z * Z) :=
  [ (0, 0); (d4 127 0 0 0, d4 127 255 255 255); (d4 169 254 0 0, d4 169 254 255 255);
    (d4 224 0 0 0, d4 255 255 255 255) ].
(** The address whose first hextets are given, the rest zero or all ones. *)
Definition lo6 (hs : list Z) : Z := foldl (fun a h => a * 65536 + h) 0 hs * 65536 ^ (8 - Z.of_nat (length hs)).
Definition hi6 (hs : list Z) : Z := lo6 hs + 65536 ^ (8 - Z.of_nat (length hs)) - 1.
(** Public IPv6: global unicast (2000::/3) outside the special-purpose blocks. *)
Definition blocked6 : list (Z * Z) :=
  [ (lo6 [0x2001; 0], lo6 [0x2001; 1; 0; 0; 0; 0; 0; 0]); (lo6 [0x2001; 1; 0; 0; 0; 0; 0; 3], hi6 [0x2001; 2]);
    (lo6 [0x2001; 4], hi6 [0x2001; 4; 0x111]); (lo6 [0x2001; 4; 0x113], hi6 [0x2001; 0x1f]);
    (lo6 [0x2001; 0x40], hi6 [0x2001; 0x1ff]); (lo6 [0x2001; 0xdb8], hi6 [0x2001; 0xdb8]);
    (lo6 [0x2002], hi6 [0x2002]) ].
Definition in_ranges (l : list (Z * Z)) (n : Z) : bool := existsb (fun r => between r.1 r.2 n) l.
Definition public (a : ipaddr) : bool :=
  match a with
  | IPv4 n => negb (in_ranges blocked4 n)
  | IPv6 n _ => between (lo6 [0x2000]) (hi6 [0x3fff]) n && negb (in_ranges blocked6 n)
  end.
Definition hard (a : ipaddr) : bool :=
  match a with
  | IPv4 n => in_ranges hard4 n
  | IPv6 n _ => (n <? lo6 [0x2000]) || between (lo6 [0x4000]) (hi6 [0xfbff]) n ||
                between (lo6 [0xfe00]) (hi6 [0xfebf]) n || (lo6 [0xff00] <=? n)
  end.

(** ** The class predicates are these intervals *)

Ltac nets :=
  repeat match goal with
  | |- context [in_net ?a ?n] => rewrite (in_net_between a n) by (try done; vm_compute; reflexivity)
  end.
Ltac intervals :=
  repeat match goal with
  | |- context [net_lo ?n] => let x := eval vm_compute in (net_lo n) in change (net_lo n) with x
  | |- context [net_hi ?n] => let x := eval vm_compute in (net_hi n) in change (net_hi n) with x
  end.

Definition is_public_class (c : class) : bool := match c with Public => true | _ => false end.
Definition is_hard_class (c : class) : bool := match c with Hard _ => true | _ => false end.

Lemma public_hard (b : bool) w c : is_public_class (if b then Hard w else c) = negb b && is_public_class c.
Proof. by destruct b. Qed.
Lemma public_exempt (b : bool) w c : is_public_class (if b then Exemptible w else c) = negb b && is_public_class c.
Proof. by destruct b. Qed.
Lemma hard_hard (b : bool) w c : is_hard_class (if b then Hard w else c) = b || is_hard_class c.
Proof. by destruct b. Qed.
Lemma hard_exempt (b : bool) w c : is_hard_class (if b then Exemptible w else c) = negb b && is_hard_class c.
Proof. by destruct b. Qed.

Lemma class_v4 n : 0 <= n < 2 ^ 32 ->
  is_public_class (class_of (IPv4 n)) = public (IPv4 n) /\ is_hard_class (class_of (IPv4 n)) = hard (IPv4 n).
Proof.
  intros Hn. assert (Ha : addr_ok (IPv4 n)) by done.
  unfold class_of, is_loopback, is_link_local, is_unspecified, is_multicast, is_reserved, is_private,
    in_any, private4, private4_exceptions. cbn [existsb is_v6 andb].
  nets. intervals. cbn [is_v6 n4 n6 Bool.eqb andb ip_int].
  unfold public, hard, in_ranges, blocked4, hard4. cbn [existsb fst snd].
  rewrite !public_hard, !public_exempt, !hard_hard, !hard_exempt. cbn [is_public_class is_hard_class].
  unfold between, d4. split; lia.
Qed.
Lemma class_v6 n sc : 0 <= n < 2 ^ 128 ->
  is_public_class (class_of (IPv6 n sc)) = public (IPv6 n sc) /\
  is_hard_class (class_of (IPv6 n sc)) = hard (IPv6 n sc).
Proof.
  intros Hn. assert (Ha : addr_ok (IPv6 n sc)) by done.
  unfold class_of, is_loopback, is_link_local, is_unspecified, is_multicast, is_reserved, is_private,
    is_site_local, ULA, in_any, private6, private6_exceptions, reserved6. cbn [existsb is_v6 andb].
  nets. intervals. cbn [is_v6 n4 n6 Bool.eqb andb ip_int].
  unfold public, hard, in_ranges, blocked6. cbn [existsb fst snd].
  rewrite !public_hard, !public_exempt, !hard_hard, !hard_exempt. cbn [is_public_class is_hard_class].
  unfold between.
  repeat match goal with
  | |- context [lo6 ?l] => let x := eval vm_compute in (lo6 l) in change (lo6 l) with x
  | |- context [hi6 ?l] => let x := eval vm_compute in (hi6 l) in change (hi6 l) with x
  end.
  split; lia.
Qed.

(** ** Embedded IPv4 *)

Lemma low32_mod n : low32 n = n mod 2 ^ 32.
Proof. unfold low32. change 0xffffffff with (Z.ones 32). by rewrite Z.land_ones. Qed.
Lemma low32_range n : 0 <= low32 n < 2 ^ 32.
Proof. rewrite low32_mod. by apply Z.mod_pos_bound. Qed.
Lemma unwrap_ok raw : addr_ok raw -> addr_ok (unwrap_embedded_v4 raw).1.
Proof.
  unfold addr_ok. destruct raw as [n|n sc]; [done|]. cbn [unwrap_embedded_v4].
  pose proof low32_range as R. unfold ipv4_mapped, sixtofour, teredo_client. intros Hn.
  destruct (_ =? _); [apply R|]. destruct (_ =? _); [apply R|]. destruct (_ =? _); [apply R|].
  destruct (in_net _ _); [apply R|done].
Qed.
Lemma class_exact j : addr_ok j ->
  is_public_class (class_of j) = public j /\ is_hard_class (class_of j) = hard j.
Proof. destruct j as [n|n sc]; [apply class_v4|apply class_v6]. Qed.

Lemma public_not_hard j : addr_ok j -> public j = true -> hard j = false.
Proof. intros Hj. destruct (class_exact j Hj) as [<- <-]. by destruct (class_of j). Qed.

(** The four encodings of an IPv4 address [m] inside an IPv6 address, with any
    filler in the bits that carry something else. *)
Inductive embeds (m : Z) : Z -> Prop :=
| EMapped : embeds m (0xffff * 2 ^ 32 + m)
| ESixToFour x : 0 <= x < 2 ^ 80 -> embeds m (0x2002 * 2 ^ 112 + m * 2 ^ 80 + x)
| ETeredo x : 0 <= x < 2 ^ 64 -> embeds m (0x20010000 * 2 ^ 96 + x * 2 ^ 32 + (2 ^ 32 - 1 - m))
| ENat64 : embeds m (0x64ff9b * 2 ^ 96 + m).

Lemma shiftr_at n k q r : 0 <= k -> n = q * 2 ^ k + r -> 0 <= r < 2 ^ k -> Z.shiftr n k = q.
Proof.
  intros Hk -> Hr. rewrite Z.shiftr_div_pow2 by done.
  rewrite Z.div_add_l by lia. rewrite Z.div_small by lia. lia.
Qed.
Lemma low32_at n q r : n = q * 2 ^ 32 + r -> 0 <= r < 2 ^ 32 -> low32 n = r.
Proof. intros -> Hr. rewrite low32_mod, Z.add_comm, Z.mod_add by done. by apply Z.mod_small. Qed.
Lemma unwrap_embeds m n sc : 0 <= m < 2 ^ 32 -> embeds m n ->
  (unwrap_embedded_v4 (IPv6 n sc)).1 = IPv4 m.
Proof.
  intros Hm He. cbn [unwrap_embedded_v4]. unfold ipv4_mapped, sixtofour, teredo_client.
  destruct He as [|x Hx|x Hx|].
  - rewrite (shiftr_at _ 32 0xffff m) by lia. cbn. f_equal. by apply (low32_at _ 0xffff).
  - rewrite (shiftr_at _ 32 (0x2002 * 2 ^ 80 + m * 2 ^ 48 + x / 2 ^ 32) (x mod 2 ^ 32)).
    + destruct (Z.eqb_spec (0x2002 * 2 ^ 80 + m * 2 ^ 48 + x / 2 ^ 32) 0xffff) as [E|_].
      { assert (0 <= x / 2 ^ 32) by (apply Z.div_pos; lia). lia. }
      rewrite (shiftr_at _ 112 0x2002 (m * 2 ^ 80 + x)) by lia. cbn [Z.eqb Pos.eqb fst]. f_equal.
      apply (low32_at _ 0x2002); [|lia]. apply (shiftr_at _ 80 _ x); lia.
    + done.
    + rewrite (Z.div_mod x (2 ^ 32)) at 1 by lia. lia.
    + apply Z.mod_pos_bound. lia.
  - rewrite (shiftr_at _ 32 (0x20010000 * 2 ^ 64 + x) (2 ^ 32 - 1 - m)) by lia.
    destruct (Z.eqb_spec (0x20010000 * 2 ^ 64 + x) 0xffff); [lia|].
    rewrite (shiftr_at _ 112 0x2001 (x * 2 ^ 32 + (2 ^ 32 - 1 - m))) by lia.
    rewrite (shiftr_at _ 96 0x20010000 (x * 2 ^ 32 + (2 ^ 32 - 1 - m))) by lia.
    cbn [Z.eqb Pos.eqb fst]. f_equal.
    apply (low32_at _ (- 0x20010000 * 2 ^ 64 - x - 1)); [|lia].
    pose proof (Z.add_lnot_diag (0x20010000 * 2 ^ 96 + x * 2 ^ 32 + (2 ^ 32 - 1 - m))). lia.
  - rewrite (shiftr_at _ 32 (0x64ff9b * 2 ^ 64) m) by lia.
    rewrite (shiftr_at _ 112 0x64 (0xff9b * 2 ^ 96 + m)) by lia.
    rewrite (shiftr_at _ 96 0x64ff9b m) by lia.
    change (0x64ff9b * 2 ^ 64 =? 0xffff) with false. change (0x64 =? 0x2002) with false.
    change (0x64ff9b =? 0x20010000) with false. cbn match.
    rewrite in_net_between; [|split; cbn; lia|reflexivity]. cbn [is_v6 n6 Bool.eqb andb].
    intervals. unfold between. cbn [ip_int].
    match goal with |- context [if ?b then _ else _] => assert (b = true) as -> by lia end.
    cbn [fst]. f_equal. apply (low32_at _ (0x64ff9b * 2 ^ 64)); lia.
Qed.

(** ** Canonical hosts *)

(** A canonical host that a second pass does not touch at its ends. *)
Definition plain (h : string) : bool :=
  str_all (fun c => negb (c_isspace c)) h && negb (startswith "[" h).

Lemma lstrip_id p s : str_all (fun c => negb (p c)) s = true -> lstrip p s = s.
Proof. destruct s as [|c s]; cbn; [done|]. by intros [->%negb_true_iff _]%andb_true_iff. Qed.
Lemma rstrip_id p s : str_all (fun c => negb (p c)) s = true -> rstrip p s = s.
Proof.
  induction s as [|c s IH]; cbn [str_all rstrip]; [done|].
  intros [Hc%negb_true_iff Hs]%andb_true_iff. rewrite IH by done. destruct s; [by rewrite Hc|done].
Qed.
Lemma rstrip_idem p s : rstrip p (rstrip p s) = rstrip p s.
Proof.
  induction s as [|c s IH]; cbn [rstrip]; [done|].
  destruct (rstrip p s) as [|d t] eqn:E; [|cbn [rstrip] in *; by rewrite IH].
  destruct (p c) eqn:Hc; [done|]. cbn. by rewrite Hc.
Qed.
Lemma c_lower_idem c : c_lower (c_lower c) = c_lower c.
Proof.
  by destruct c as [[] [] [] [] [] [] [] []].
Qed.
Definition lowered (s : string) : bool := str_all (fun c => Ascii.eqb (c_lower c) c) s.
Lemma lower_lowered s : lowered (str_lower s) = true.
Proof. induction s as [|c s IH]; cbn; [done|]. unfold lowered in *. by rewrite c_lower_idem, Ascii.eqb_refl, IH. Qed.
Lemma lowered_id s : lowered s = true -> str_lower s = s.
Proof.
  unfold lowered. induction s as [|c s IH]; cbn [str_all str_lower]; [done|].
  intros [Hc%Ascii.eqb_eq Hs]%andb_true_iff. by rewrite Hc, IH.
Qed.
(** Predicates on all characters survive the operations that drop some. *)
Lemma str_all_rstrip q p s : str_all q s = true -> str_all q (rstrip p s) = true.
Proof.
  induction s as [|c s IH]; cbn [str_all rstrip]; [done|]. intros [Hc Hs]%andb_true_iff.
  specialize (IH Hs). destruct (rstrip p s) as [|d t]; [|cbn [str_all] in *; by rewrite Hc, IH].
  destruct (p c); cbn; [done|]. by rewrite Hc.
Qed.
Lemma str_all_lstrip q p s : str_all q s = true -> str_all q (lstrip p s) = true.
Proof.
  induction s as [|c s IH]; cbn [str_all lstrip]; [done|]. intros [Hc Hs]%andb_true_iff.
  destruct (p c); [by apply IH|cbn; by rewrite Hc, Hs].
Qed.
Lemma str_all_take q n s : str_all q s = true -> str_all q (take n s) = true.
Proof.
  revert s. induction n as [|n IH]; intros [|c s]; cbn; try done. intros [-> Hs]%andb_true_iff. by rewrite IH.
Qed.
Lemma str_all_drop q n s : str_all q s = true -> str_all q (drop n s) = true.
Proof.
  revert s. induction n as [|n IH]; intros [|c s]; cbn [drop]; try done. intros [_ Hs]%andb_true_iff. by apply IH.
Qed.
Lemma str_all_unbracket q s : str_all q s = true -> str_all q (unbracket s) = true.
Proof. intros Hs. unfold unbracket. destruct (_ && _); [|done]. by apply str_all_take, str_all_drop. Qed.
Lemma str_all_lower q s : (forall c, q c = true -> q (c_lower c) = true) ->
  str_all q s = true -> str_all q (str_lower s) = true.
Proof.
  intros Hq. induction s as [|c s IH]; cbn; [done|]. intros [Hc Hs]%andb_true_iff. by rewrite Hq, IH.
Qed.
Lemma str_all_strip q p s : str_all q s = true -> str_all q (strip p s) = true.
Proof. intros. by apply str_all_lstrip, str_all_rstrip. Qed.

Definition folded (raw : string) : string := rstrip_dots (unbracket (str_lower (str_strip raw))).
Lemma folded_lowered raw : lowered (folded raw) = true.
Proof. apply str_all_rstrip, str_all_unbracket, lower_lowered. Qed.
Lemma folded_ascii raw : all_ascii raw = true -> all_ascii (folded raw) = true.
Proof.
  intros Hr. apply str_all_rstrip, str_all_unbracket, str_all_lower, str_all_strip, Hr.
  by intros [[] [] [] [] [] [] [] []].
Qed.
Lemma folded_plain h : lowered h = true -> rstrip_dots h = h -> plain h = true -> folded h = h.
Proof.
  unfold plain. intros Hl Hd [Hs Hb%negb_true_iff]%andb_true_iff. unfold folded, str_strip, strip.
  rewrite (rstrip_id _ h Hs), (lstrip_id _ h Hs), (lowered_id h Hl). unfold unbracket. by rewrite Hb.
Qed.

Lemma rstrip_append p x t : rstrip p t <> "" -> rstrip p (x ++ t) = x ++ rstrip p t.
Proof.
  intros Ht. induction x as [|c x IH]; cbn [String.append rstrip]; [done|]. rewrite IH.
  by destruct x as [|d x]; cbn [String.append]; [destruct (rstrip p t)|].
Qed.
Lemma append_inj_l (x a b : string) : x ++ a = x ++ b -> a = b.
Proof. induction x as [|c x IH]; cbn; [done|]. intros [= E]. by apply IH. Qed.
Lemma rstrip_after p x c t : p c = false -> rstrip p (x ++ String c t) = x ++ String c (rstrip p t).
Proof.
  intros Hc. assert (E : rstrip p (String c t) = String c (rstrip p t)).
  { cbn [rstrip]. rewrite Hc. by destruct (rstrip p t). }
  rewrite rstrip_append; by rewrite E.
Qed.
Lemma v6_char_lower c : is_v6_char c = true -> (in_range 65 70 c) = false -> Ascii.eqb (c_lower c) c = true.
Proof. by destruct c as [[] [] [] [] [] [] [] []]. Qed.
Lemma show_hex_lowered h : lowered (show_hex h) = true.
Proof.
  assert (H : forall n, Ascii.eqb (c_lower (hex_digit (Z.land n 15))) (hex_digit (Z.land n 15)) = true).
  { intros n. pose proof (land15 n) as R. generalize dependent (Z.land n 15). intros d R.
    assert (Ht : forallb (fun k => Ascii.eqb (c_lower (hex_digit (Z.of_nat k))) (hex_digit (Z.of_nat k))) (seq 0 16) = true)
      by reflexivity.
    rewrite forallb_forall in Ht. specialize (Ht (Z.to_nat d)). rewrite Z2Nat.id in Ht by lia.
    apply Ht, in_seq. lia. }
  unfold show_hex, lowered. cbn zeta.
  destruct (h <? 16); [|destruct (h <? 256); [|destruct (h <? 4096)]];
    cbn [String.append str_all]; by rewrite !H.
Qed.
Lemma lowered_join l : Forall (fun s => lowered s = true) l -> lowered (join ":" l) = true.
Proof. by apply str_all_join. Qed.
Lemma show_v6_lowered n : lowered (show_v6 n) = true.
Proof.
  unfold show_v6. cbn zeta. rewrite hextets_to_digits.
  assert (Hall : Forall (fun s => lowered s = true) (map show_hex (hexts n))).
  { induction (hexts n); constructor; [apply show_hex_lowered|done]. }
  assert (He : forall b : bool, Forall (fun s => lowered s = true) (if b then [""] else [])).
  { intros []; [by apply Forall_singleton|constructor]. }
  destruct (best_run 0 0 0 0 0 (hexts n)) as [s k]. destruct (Nat.ltb 1 k); apply lowered_join; try done.
  assert (Hmid : Forall (fun s => lowered s = true)
    (firstn s (map show_hex (hexts n)) ++ "" :: skipn (s + k) (map show_hex (hexts n)) ++
       (if Nat.eqb (s + k) 8 then [""] else []))%list).
  { apply Forall_app. split; [by apply Forall_take|]. apply Forall_cons. split; [done|].
    apply Forall_app. split; [by apply Forall_drop|apply He]. }
  destruct (Nat.eqb s 0); [by apply Forall_cons|done].
Qed.

(** The dotted quad of an IPv4 address is accepted as it is. *)
Lemma octet_quad_table : forallb (fun k => let s := show_Z (Z.of_nat k) in
    str_isdigit s && negb (Nat.ltb 1 (String.length s) && startswith "0" s)) (seq 0 256) = true.
Proof. vm_compute. reflexivity. Qed.
Lemma octet_quad d : 0 <= d < 2 ^ 8 ->
  str_isdigit (show_Z d) = true /\ Nat.ltb 1 (String.length (show_Z d)) && startswith "0" (show_Z d) = false.
Proof.
  intros Hd. pose proof octet_quad_table as H. rewrite forallb_forall in H.
  specialize (H (Z.to_nat d)). cbn zeta in H. rewrite Z2Nat.id in H by lia.
  apply andb_true_iff in H as [? ?%negb_true_iff]; [done|]. apply in_seq. lia.
Qed.
Lemma canonical_quad_show n : 0 <= n < 2 ^ 32 -> canonical_quad (show_v4 n) = Some (show_v4 n).
Proof.
  intros Hn. unfold canonical_quad. assert (Hl : digits_ok 8 (v4_octets n)) by (by apply to_digits_ok).
  assert (Hs : split "." (show_v4 n) = map show_Z (v4_octets n)).
  { rewrite show_v4_join. apply split_join; [done|].
    induction Hl as [|d l Hd Hl IH]; constructor; [|done].
    eapply free_impl; [apply (octet_show d Hd)|done]. }
  rewrite Hs, length_map. unfold v4_octets at 1. rewrite length_to_digits. cbn [Nat.eqb andb].
  assert (Hq : forallb str_isdigit (map show_Z (v4_octets n)) = true /\
    existsb (fun p => Nat.ltb 1 (String.length p) && startswith "0" p) (map show_Z (v4_octets n)) = false).
  { clear Hs. induction Hl as [|d l Hd Hl [IH1 IH2]]; cbn [map forallb existsb]; [done|].
    destruct (octet_quad d Hd) as [-> ->]. done. }
  destruct Hq as [-> ->]. unfold ipv4_address. rewrite contains_free.
  - by rewrite v4_int_show.
  - eapply free_impl; [apply show_v4_chars|done].
Qed.
Lemma show_v4_folded n : 0 <= n < 2 ^ 32 -> lowered (show_v4 n) = true /\ rstrip_dots (show_v4 n) = show_v4 n.
Proof.
  intros Hn. split.
  - eapply str_all_impl; [|apply show_v4_chars]. by intros [[] [] [] [] [] [] [] []].
  - set (d := Z.land (Z.shiftr n (8 * 0)) 255). assert (Hd : 0 <= d < 2 ^ 8).
    { subst d. change 255 with (Z.ones 8). rewrite Z.land_ones by lia. by apply Z.mod_pos_bound. }
    destruct (octet_show d Hd) as [_ Hdec]. destruct (octet_quad d Hd) as [Hnz _].
    assert (Hr : rstrip_dots (show_Z d) = show_Z d).
    { apply rstrip_id. eapply str_all_impl; [|exact Hdec]. by intros [[] [] [] [] [] [] [] []]. }
    unfold show_v4. fold d. unfold rstrip_dots in *.
    rewrite <- !append_assoc. rewrite rstrip_append by (rewrite Hr; by intros E; rewrite E in Hnz).
    by rewrite Hr.
Qed.

Section Hosts.
Context `{Idna}.

(** [canonical_host] on the folded text. *)
Definition canonical_folded (f : string) : option string :=
  if String.eqb f "" || contains "/" f || contains " " f || contains "\" f then None
  else if contains ":" f then show_ip <$> ip_address f
  else if str_all (fun c => c_isdigit c || Ascii.eqb c ".") f then canonical_quad f
  else encode_idna f.
Lemma canonical_host_folded raw : raw <> "" -> canonical_host raw = canonical_folded (folded raw).
Proof. intros Hr. unfold canonical_host. by apply String.eqb_neq in Hr as ->. Qed.
Lemma canonical_fixed h : h <> "" -> folded h = h -> canonical_host h = canonical_folded h.
Proof. intros Hne Hf. rewrite canonical_host_folded, Hf by done. done. Qed.

(** The canonical text of an IPv6 literal is one. *)
Lemma v6_text_folded f n sc :
  lowered f = true -> rstrip_dots f = f -> ip_address f = Some (IPv6 n sc) ->
  lowered (show_ip (IPv6 n sc)) = true /\
  rstrip_dots (show_ip (IPv6 n sc)) = show_ip (IPv6 n sc) /\
  (contains "\" f = false -> contains "\" (show_ip (IPv6 n sc)) = false).
Proof.
  intros Hl Hd Hip. unfold ip_address, ipv6_address in Hip.
  destruct (ipv4_address f) as [[m|m s]|] eqn:E4.
  { done. } { unfold ipv4_address in E4. destruct (contains "/" f); [done|]. by destruct (v4_int f). }
  destruct (contains "/" f); [done|]. destruct (partition "%" f) as [[a sep] scope] eqn:Ep.
  apply partition_none in Ep as (_ & _ & Hp).
  pose proof (rstrip_id (Ascii.eqb ".") (show_v6 n)
    ltac:(change (free "." (show_v6 n) = true); by apply show_v6_free)) as Hr.
  pose proof (show_v6_free "\" n eq_refl) as Hb.
  destruct sep; cbn [negb] in Hip.
  - destruct (_ || _); [done|]. destruct (v6_int a) as [k|]; [|done]. injection Hip as -> <-.
    rewrite (Hp eq_refl) in Hl, Hd |- *. cbn [show_ip]. change ("%" ++ scope) with (String "%" scope).
    assert (Hsc : lowered scope = true /\ rstrip_dots scope = scope).
    { unfold lowered in *. rewrite str_all_append in Hl. apply andb_true_iff in Hl as [_ Hl].
      cbn [str_all] in Hl. apply andb_true_iff in Hl as [_ Hl]. split; [done|].
      unfold rstrip_dots in Hd. rewrite rstrip_after in Hd by done. apply append_inj_l in Hd. by injection Hd. }
    destruct Hsc as [Hs1 Hs2]. unfold lowered in *. rewrite str_all_append. cbn [str_all].
    split_and!.
    + apply andb_true_iff. split; [apply show_v6_lowered|exact Hs1].
    + unfold rstrip_dots in *. rewrite rstrip_after by done. by rewrite Hs2.
    + intros Hc. apply contains_free_iff in Hc. apply contains_free. rewrite free_append in Hc |- *.
      apply andb_true_iff in Hc as [_ ->]. by rewrite Hb.
  - destruct (v6_int a) as [k|]; [|done]. injection Hip as -> <-. cbn [show_ip].
    split_and!; [apply show_v6_lowered|exact Hr|]. intros _. by apply contains_free.
Qed.

Lemma contains_colon x y : contains ":" (x ++ String ":" y) = true.
Proof. induction x as [|c x IH]; [by destruct y|]. cbn [String.append contains]. rewrite IH. apply orb_true_r. Qed.
Lemma colon_split f : contains ":" f = true -> exists x y, f = x ++ String ":" y.
Proof.
  induction f as [|c f IH]; [done|]. cbn [contains]. intros [E|E]%orb_true_iff.
  - apply prefix_spec in E as [t E]. by exists "", t.
  - destruct (IH E) as (x & y & ->). by exists (String c x), y.
Qed.
Lemma colon_is_v6 f a : contains ":" f = true -> ip_address f = Some a -> exists n sc, a = IPv6 n sc.
Proof.
  intros (x & y & ->)%colon_split. unfold ip_address, ipv4_address, ipv6_address.
  destruct (contains "/" _); [done|]. rewrite v4_int_colon by done. cbn [fmap option_fmap option_map].
  destruct (partition "%" _) as [[z sep] sc]. destruct sep; cbn [negb]; [destruct (_ || _); [done|]|];
    destruct (v6_int z); try done; intros [= <-]; eauto.
Qed.
Lemma canonical_v6 f n sc :
  lowered f = true -> rstrip_dots f = f -> ip_address f = Some (IPv6 n sc) -> contains "\" f = false ->
  plain (show_ip (IPv6 n sc)) = true -> canonical_host (show_ip (IPv6 n sc)) = Some (show_ip (IPv6 n sc)).
Proof.
  intros Hl Hd Eip Eb Hpl. pose proof (ip_address_ok _ _ Eip) as Hok.
  destruct (v6_text_folded f n sc Hl Hd Eip) as (L1 & L2 & L3). destruct (show_v6_colon n) as (x & y & Exy).
  assert (Hcol : contains ":" (show_ip (IPv6 n sc)) = true).
  { destruct sc; cbn [show_ip]; rewrite Exy; [rewrite append_assoc; cbn [String.append]|]; apply contains_colon. }
  rewrite canonical_fixed; [|by intros E; rewrite E in Hcol|by apply folded_plain].
  unfold canonical_folded. rewrite Hcol, ip_address_show by done.
  unfold plain in Hpl. apply andb_true_iff in Hpl as [Hsp _].
  assert (Hsl : contains "/" (show_ip (IPv6 n sc)) = false).
  { apply contains_free. destruct Hok as [_ Hsc]. destruct sc as [t|]; cbn [show_ip]; [|by apply show_v6_free].
    destruct Hsc as (_ & _ & Ht). by rewrite free_append, show_v6_free. }
  rewrite Hsl, (L3 Eb), contains_free.
  - destruct (String.eqb_spec (show_ip (IPv6 n sc)) "") as [E|]; [by rewrite E in Hcol|done].
  - eapply str_all_impl; [|exact Hsp]. by intros [[] [] [] [] [] [] [] []].
Qed.
Lemma show_v4_ne n : show_v4 n <> "".
Proof. unfold show_v4. by destruct (show_Z _). Qed.
Lemma canonical_v4 n : 0 <= n < 2 ^ 32 -> plain (show_v4 n) = true ->
  canonical_host (show_v4 n) = Some (show_v4 n).
Proof.
  intros Hn Hpl. destruct (show_v4_folded n Hn) as [L1 L2]. pose proof (show_v4_chars n) as Hch.
  assert (Hf : forall c, is_dec c || Ascii.eqb c "." = false -> contains (String c "") (show_v4 n) = false).
  { intros c Hcc. apply contains_free. by eapply free_impl. }
  rewrite canonical_fixed; [|apply show_v4_ne|by apply folded_plain].
  unfold canonical_folded. rewrite !Hf by done. rewrite (proj2 (String.eqb_neq _ _) (show_v4_ne n)). cbn [orb].
  assert (str_all (fun c => c_isdigit c || Ascii.eqb c ".") (show_v4 n) = true) as ->; [|by apply canonical_quad_show].
  eapply str_all_impl; [|exact Hch]. unfold c_isdigit. intros c [->|Hcc]%orb_true_iff; [done|].
  rewrite Hcc. apply orb_true_r.
Qed.

(** ** Properties *)

(** A canonical host is its own canonical form. For an ASCII authority whose
    canonical host has no white space and no leading bracket, canonicalizing
    again changes nothing, so the host of the CONNECT line and the host the
    tunnelled request is decided on are one name. *)
Theorem canonical_host_idempotent raw h :
  all_ascii raw = true -> canonical_host raw = Some h -> plain h = true -> canonical_host h = Some h.
Proof.
  intros Ha Hc Hpl. assert (Hraw : raw <> "") by (by intros ->).
  rewrite canonical_host_folded in Hc by done.
  pose proof (folded_lowered raw) as Hl. pose proof (folded_ascii raw Ha) as Hasc.
  assert (Hd : rstrip_dots (folded raw) = folded raw) by apply rstrip_idem.
  revert Hc Hl Hasc Hd. generalize (folded raw). clear raw Ha Hraw. intros f Hc Hl Hasc Hd.
  unfold canonical_folded in Hc. destruct (_ || _) eqn:Ebad; [done|].
  apply orb_false_iff in Ebad as [[[Ene Esl]%orb_false_iff Esp]%orb_false_iff Eb].
  destruct (contains ":" f) eqn:Ecol.
  - destruct (ip_address f) as [a|] eqn:Eip; [|done]. injection Hc as <-.
    destruct (colon_is_v6 f a Ecol Eip) as (n & sc & ->). by eapply canonical_v6.
  - destruct (str_all _ f) eqn:Edig.
    + unfold canonical_quad in Hc. destruct (_ && _); [|done]. destruct (existsb _ _); [done|].
      unfold ipv4_address in Hc. rewrite Esl in Hc. destruct (v4_int f) as [n|] eqn:E4; [|done].
      injection Hc as <-. apply v4_int_range in E4. by apply canonical_v4.
    + unfold encode_idna in Hc. rewrite Hasc in Hc. injection Hc as <-.
      rewrite canonical_fixed; [|by intros ->|by apply folded_plain].
      unfold canonical_folded. rewrite Ene, Esl, Esp, Eb, Ecol, Edig. cbn [orb].
      unfold encode_idna. by rewrite Hasc.
Qed.

End Hosts.

(** C28: the verdict as intervals. An address text is accepted exactly when it
    parses and the address judged (the embedded IPv4 of an IPv6 that carries
    one) is public, or is exempted by its text or its canonical text and is
    not loopback, link-local, unspecified, multicast or reserved, which no
    exemption reaches. *)
Theorem classify_exact s ex :
  v_ok (classify s ex) =
    match ip_address s with
    | None => false
    | Some raw => let j := (unwrap_embedded_v4 raw).1 in
                  public j || negb (hard j) && (in_set s ex || in_set (show_ip j) ex)
    end.
Proof.
  unfold classify. destruct (ip_address s) as [raw|] eqn:E; [|done]. unfold classify_addr.
  pose proof (unwrap_ok raw (proj1 (ip_address_ok _ _ E))) as Hj.
  destruct (unwrap_embedded_v4 raw) as [j emb]. cbn [fst] in *.
  destruct (class_exact j Hj) as [Hp Hh]. rewrite <- Hp, <- Hh.
  destruct (class_of j); cbn; [done| |done]. by destruct (_ || _).
Qed.

(** No IPv4 is smuggled through IPv6. An IPv6 text that embeds an IPv4 address
    in any of the four encodings is judged as that address: with no exemptions
    it is accepted exactly when the IPv4 address is public. *)
Theorem embedded_judged_as_v4 s n sc m :
  ip_address s = Some (IPv6 n sc) -> 0 <= m < 2 ^ 32 -> embeds m n ->
  v_ok (classify s []) = public (IPv4 m) /\ v_ok (classify (show_v4 m) []) = public (IPv4 m).
Proof.
  intros Hs Hm He. rewrite !classify_exact, Hs, ip_address_show_v4 by done. cbn zeta.
  rewrite (unwrap_embeds m n sc Hm He). cbn [unwrap_embedded_v4 fst in_set existsb orb].
  by rewrite andb_false_r, orb_false_r.
Qed.

(** Printing a parsed address and parsing it again gives the same address, for
    IPv4, IPv6 and scoped IPv6 texts. *)
Theorem address_round_trip s a : ip_address s = Some a -> ip_address (show_ip a) = Some a.
Proof. intros Hs. by apply ip_address_show, (ip_address_ok s). Qed.

(** The shared address space 100.64.0.0/10, neither private nor globally
    reachable, is accepted as public. *)
Theorem shared_space_accepted n : d4 100 64 0 0 <= n <= d4 100 127 255 255 ->
  classify (show_v4 n) [] = Verdict true "public_ok" (Some "ipv4") (Some (show_v4 n)).
Proof.
  unfold d4. intros Hn. assert (Hr : 0 <= n < 2 ^ 32) by lia.
  unfold classify, classify_addr. rewrite ip_address_show_v4 by done. cbn [unwrap_embedded_v4].
  destruct (class_v4 n Hr) as [Hp _].
  assert (Hpub : public (IPv4 n) = true).
  { unfold public, in_ranges, blocked4, between, d4. cbn [existsb fst snd]. lia. }
  rewrite Hpub in Hp. by destruct (class_of (IPv4 n)).
Qed.

(** ** Witnesses *)

#[local] Instance no_idna : Idna := {| idna _ := None |}.

Lemma canonical_host_idempotent_witness :
  canonical_host "[2001:DB8::1]" = Some "2001:db8::1" /\ canonical_host "2001:db8::1" = Some "2001:db8::1".
Proof.
  assert (E : canonical_host "[2001:DB8::1]" = Some "2001:db8::1") by (vm_compute; reflexivity).
  split; [exact E|]. exact (canonical_host_idempotent "[2001:DB8::1]" "2001:db8::1" eq_refl E eq_refl).
Defined.
Lemma embedded_judged_as_v4_witness : v_ok (classify "::ffff:10.0.0.1" []) = public (IPv4 (d4 10 0 0 1)).
Proof.
  refine (proj1 (embedded_judged_as_v4 "::ffff:10.0.0.1" (0xffff * 2 ^ 32 + d4 10 0 0 1) None (d4 10 0 0 1) _ _ (EMapped _))).
  - vm_compute. reflexivity.
  - unfold d4. lia.
Defined.
Lemma address_round_trip_witness : ip_address (show_ip (IPv6 1 None)) = Some (IPv6 1 None).
Proof. exact (address_round_trip "0:0::1" (IPv6 1 None) eq_refl). Defined.
Lemma shared_space_accepted_witness :
  v_ok (classify (show_v4 (d4 100 64 0 1)) []) = true.
Proof. rewrite (shared_space_accepted (d4 100 64 0 1)); [reflexivity|unfold d4; lia]. Defined.
