(* ===== verification/Resolver.v ===== *)
(** * Name resolution ([src/pep/resolver.py])

    The answer of a resolver, the system resolver over the answer of
    [socket.getaddrinfo], and the deterministic zone. *)

From S2P Require Import Prelude PyStr Json PyDyn.

Record resolution := Resolution {
  rs_host : string; rs_v4 : list string; rs_v6 : list string;
  rs_source : string; rs_error : option string }.
Definition rs_empty (r : resolution) : bool :=
  bool_decide (rs_v4 r = []) && bool_decide (rs_v6 r = []).
Definition all_answers (r : resolution) : list string := (rs_v6 r ++ rs_v4 r)%list.

(** ** The system resolver *)

Inductive af := AF_INET | AF_INET6 | AF_OTHER.
Inductive gai := Infos (l : list (af * string)) | GaiError (errno : Z) | GaiRaise (e : exn).

Definition add_once (a : string) (l : list string) : list string :=
  if mem_str a l then l else (l ++ [a])%list.
Fixpoint collect (infos : list (af * string)) (r : resolution) : resolution :=
  match infos with
  | [] => r
  | (AF_INET6, a) :: rest =>
      collect rest (Resolution (rs_host r) (rs_v4 r) (add_once a (rs_v6 r)) (rs_source r) (rs_error r))
  | (AF_INET, a) :: rest =>
      collect rest (Resolution (rs_host r) (add_once a (rs_v4 r)) (rs_v6 r) (rs_source r) (rs_error r))
  | (AF_OTHER, _) :: rest => collect rest r
  end.
(** [Resolver.resolve], given what [getaddrinfo] answers. *)
Definition system_resolve (answer : gai) (host : string) : res resolution :=
  match answer with
  | Infos infos => Ok (collect infos (Resolution host [] [] "system" None))
  | GaiError errno => Ok (Resolution host [] [] "system" (Some ("dns_error:" ++ show_Z errno)))
  | GaiRaise e => Raise e
  end.

(** ** The static zone *)

Record static_resolver := StaticResolver { sr_zone : dict; sr_calls : gmap string nat }.

Fixpoint strings_of (l : list val) : res (list string) :=
  match l with
  | [] => Ok []
  | VStr s :: l' => t <- strings_of l';; Ok (s :: t)
  | _ :: _ => Raise (TypeError "answers are strings")
  end.
(** [list(entry.get(k, []))], an answer being a string. *)
Definition answers (k : string) (entry : val) : res (list string) :=
  v <- v_get_or k (VList []) entry;; l <- v_iter v;; strings_of l.
(** [seq[min(n, len(seq) - 1)]]. *)
Definition nth_or_last (n : nat) (seq : val) : res val :=
  match seq with
  | VList l => match nth_error l (Nat.min n (length l - 1)) with
               | Some v => Ok v | None => Raise (PyExn "IndexError" "list index out of range") end
  | _ => Raise (TypeError "sequence")
  end.
Definition zone_resolve (host : string) (r : static_resolver)
    : static_resolver * res resolution :=
  match dget_or host VNull (sr_zone r) with
  | VNull => (r, Ok (Resolution host [] [] "zone" (Some "nxdomain")))
  | entry =>
      match v_in (VStr "sequence") entry with
      | Raise e => (r, Raise e)
      | Ok is_seq =>
          let n := default 0 (sr_calls r !! host) in
          let r' := if is_seq then StaticResolver (sr_zone r) (<[host := S n]> (sr_calls r)) else r in
          (r', chosen <- (if is_seq then seq <- v_index "sequence" entry;; nth_or_last n seq
                          else Ok entry);;
               v4 <- answers "v4" chosen;; v6 <- answers "v6" chosen;;
               Ok (Resolution host v4 v6 "zone" None))
      end
  end.
