(* ===== verification/Pdp.v ===== *)
(** * The policy decision point ([src/pep/pdp.py])

    [decide] in the order of the code, each group of checks a definition that
    either finishes with a decision or hands on.  The policy is the JSON value
    the provider returns on this call; an ill-typed policy raises as in Python. *)

From S2P Require Import Prelude PyStr Json PyDyn IpAddr Addressing Resolver Lifecycle.
Open Scope Z_scope.

Record decision := Decision {
  d_allow : bool;
  d_reason : string;
  d_pin : option pin;
  d_secret : val;                       (** [None] is [VNull] *)
  d_program : option string;
  d_resolution : option resolution;
  d_detail : dict }.
Definition deny (reason : string) (program : option string) (rs : option resolution) : decision :=
  Decision false reason None VNull program rs [].

(** ** Budgets *)

Abbreviation budgets := (gmap string Z).
Definition used (k : string) (b : budgets) : Z := default 0 (b !! k).
Definition charge (k : string) (b : budgets) : budgets := <[k := used k b + 1]> b.

(** The first key whose cap is reached; a cap that is no number raises. *)
Fixpoint exceeded (specs : list (string * val)) (b : budgets) : res (option string) :=
  match specs with
  | [] => Ok None
  | (k, cap) :: rest =>
      match cap with
      | VNull => exceeded rest b
      | _ => over <- py_le cap (VInt (used k b));;
             if over : bool then Ok (Some k) else exceeded rest b
      end
  end.
(** [Budgets.reserve]: one step under its lock. *)
Definition reserve (specs : list (string * val)) (b : budgets) : budgets * res (option string) :=
  match exceeded specs b with
  | Ok None => (foldl (fun b ks => charge ks.1 b) b specs, Ok None)
  | r => (b, r)
  end.

(** ** Early return *)

Inductive flow (A : Type) := Done (d : decision) | Go (a : A).
Arguments Done {A} d.
Arguments Go {A} a.
Notation "x <~ m ;; k" := (rbind m (fun f => match f with Done d => Ok (Done d) | Go x => k end))
  (at level 20, m at level 99, k at level 200) : py_scope.
(** [if cond: return d]. *)
Definition stop_if (cond : bool) (d : decision) : flow unit := if cond then Done d else Go tt.

(** ** The program of a source address *)

(** An IPv4 peer of a dual-stack listener is IPv4-mapped. *)
Definition source_addr (src_ip : string) : option ipaddr :=
  match ip_address src_ip with
  | Some (IPv6 n sc) => match ipv4_mapped n with Some m => Some m | None => Some (IPv6 n sc) end
  | a => a
  end.
Fixpoint match_network (src : ipaddr) (policy : val) (networks : dict) : res (val * val) :=
  match networks with
  | [] => Ok (VNull, VNull)
  | (cidr, pid) :: rest =>
      match ip_network cidr with
      | None => match_network src policy rest
      | Some net =>
          if in_net src net then
            ps <- v_get "programs" policy;;
            program <- match v_or ps (VDict []), pid with
                       | VDict d, VStr k => Ok (dget_or k VNull d)
                       | VDict d, _ => if hashable pid then Ok VNull else Raise (TypeError "unhashable")
                       | _, _ => Raise (AttrError "get")
                       end;;
            Ok (pid, program)
          else match_network src policy rest
      end
  end.
Definition program_for_source (src_ip : string) (policy : val) : res (val * val) :=
  match source_addr src_ip with
  | None => Ok (VNull, VNull)
  | Some src =>
      nets <- v_get "networks" policy;;
      d <- v_items (v_or nets (VDict []));;
      match_network src policy d
  end.

(** ** Scope *)

Definition scope_match (host pat : string) : bool :=
  let p := rstrip_dots (str_lower (str_strip pat)) in
  if startswith "*." p
  then endswith (drop 1 p) host && Nat.leb (str_count "." p) (str_count "." host)
  else String.eqb host p.
(** [any(match(p) for p in pats)]: it stops at the first match. *)
Fixpoint any_match (host : string) (pats : list val) : res bool :=
  match pats with
  | [] => Ok false
  | VStr p :: rest => if scope_match host p then Ok true else any_match host rest
  | _ :: _ => Raise (AttrError "strip")
  end.
Definition in_scope (host : string) (allow deny : val) : res bool :=
  dl <- v_iter deny;;
  denied <- any_match host dl;;
  if denied : bool then Ok false
  else if negb (truthy allow) then Ok false
  else al <- v_iter allow;; any_match host al.

(** ** The request and the authorization record *)

Record request := Request {
  q_src_ip : string; q_authority : string; q_port : Z; q_method : string;
  q_session : string; q_asset : string; q_cred : string; q_pin : option pin }.

Definition auth_keys : list string :=
  ["program_id"; "verified_by"; "verified_at"; "expires_at"; "status"].
Fixpoint has_keys (ks : list string) (rec : val) : res bool :=
  match ks with
  | [] => Ok true
  | k :: ks' => b <- v_in (VStr k) rec;; if b : bool then has_keys ks' rec else Ok false
  end.
Definition decide_authorization (pid : string) (rec now : val) : res (flow unit) :=
  complete <- has_keys auth_keys rec;;
  if negb complete then Ok (Done (deny "AUTHORIZATION_INCOMPLETE" (Some pid) None)) else
  status <- v_get "status" rec;;
  if negb (py_eqb status (VStr "active")) then
    st <- v_index "status" rec;;
    Ok (Done (deny ("AUTHORIZATION_STATUS_" ++ py_str st) (Some pid) None))
  else
  exp <- v_index "expires_at" rec;;
  match (f <- v_float exp;; py_le f now) with
  | Ok expired => Ok (stop_if expired (deny "AUTHORIZATION_EXPIRED" (Some pid) None))
  | Raise e =>
      if mem_str (exn_cls e) ["TypeError"; "ValueError"]
      then Ok (Done (deny "AUTHORIZATION_MALFORMED" (Some pid) None)) else Raise e
  end.

Section Decide.
Context `{Idna}.

(** Host, literal, scope, port and method: the canonical host and the exemptions. *)
Definition decide_destination (pid : string) (program : val) (q : request)
    : res (flow (string * list val)) :=
  match canonical_host (q_authority q) with
  | None => Ok (Done (deny "HOST_NOT_CANONICALIZABLE" (Some pid) None))
  | Some host =>
      ex <- v_get "private_ip_exemptions" program;;
      exemptions <- v_set (v_or ex (VList []));;
      lits <- (if is_ip_literal host
               then al <- v_get "explicit_ip_allowlist" program;; l <- v_set (v_or al (VList []));;
                    Ok (negb (in_set host l))
               else Ok false);;
      if lits : bool then Ok (Done (deny "IP_LITERAL_DENIED" (Some pid) None)) else
      allow <- v_get "scope_allow" program;;
      dny <- v_get "scope_deny" program;;
      scoped <- in_scope host (v_or allow (VList [])) (v_or dny (VList []));;
      if negb scoped then Ok (Done (deny "OUT_OF_SCOPE" (Some pid) None)) else
      ports <- v_get "allowed_ports" program;;
      port_ok <- v_in (VInt (q_port q)) (v_or ports (VList []));;
      if negb port_ok then Ok (Done (deny "PORT_DENIED" (Some pid) None)) else
      if String.eqb (str_upper (q_method q)) "CONNECT" then
        c <- v_get_or "allow_connect" (VBool false) program;;
        if negb (truthy c) then Ok (Done (deny "CONNECT_DENIED_BY_POLICY" (Some pid) None))
        else Ok (Go (host, exemptions))
      else
        ms <- v_get "allowed_methods" program;;
        m_ok <- v_in (VStr (str_upper (q_method q))) (v_or ms (VList []));;
        if negb m_ok then Ok (Done (deny "METHOD_DENIED" (Some pid) None))
        else Ok (Go (host, exemptions))
  end.

(** The bound of the connection, reused: no resolution. *)
Definition decide_pinned (pid : string) (program : val) (families exemptions : list val) (p : pin)
    : res (flow (pin * option resolution)) :=
  if negb (in_set (pin_family p) families)
  then Ok (Done (deny ("FAMILY_NOT_ALLOWED:" ++ pin_family p) (Some pid) None)) else
  let v := classify (pin_ip p) exemptions in
  if negb (v_ok v) then Ok (Done (deny ("PIN_REJECTED:" ++ v_reason v) (Some pid) None)) else
  ips <- v_get "authorized_ips" program;;
  l <- v_set (v_or ips (VList []));;
  if negb (in_set (pin_ip p) l)
  then Ok (Done (deny ("IP_NOT_AUTHORIZED:" ++ pin_ip p) (Some pid) None))
  else Ok (Go (p, None)).

(** Every answer of both families is classified, IPv6 first. *)
Fixpoint reject_answer (fam : string) (answers : list string) (exemptions : list val) : option string :=
  match answers with
  | [] => None
  | a :: rest =>
      let v := classify a exemptions in
      if v_ok v then reject_answer fam rest exemptions
      else Some ("DNS_ANSWER_REJECTED:" ++ fam ++ ":" ++ v_reason v ++ ":" ++ a)
  end.
(** The family and the address to pin, or the reason there is none. *)
Definition choose (rs : resolution) (families : list val) : (string * string) + string :=
  match rs_v6 rs, rs_v4 rs with
  | a :: _, _ => if in_set "ipv6" families then inl ("ipv6", a)
                 else inr "FAMILY_NOT_ALLOWED:ipv6_present_but_disabled"
  | [], a :: _ => if in_set "ipv4" families then inl ("ipv4", a) else inr "FAMILY_NOT_ALLOWED:ipv4"
  | [], [] => inr "DNS_NO_USABLE_ANSWER"
  end.
Definition decide_resolved (pid : string) (program : val) (families exemptions : list val)
    (port : Z) (answer : res resolution) : res (flow (pin * option resolution)) :=
  match answer with
  | Raise e => Ok (Done (deny ("DNS_FAILURE:" ++ exn_cls e) (Some pid) None))
  | Ok rs =>
      let err := default "" (rs_error rs) in
      if negb (String.eqb err "") || rs_empty rs
      then Ok (Done (deny ("DNS_NO_ANSWER:" ++ if String.eqb err "" then "empty" else err)
                          (Some pid) (Some rs))) else
      match reject_answer "ipv6" (rs_v6 rs) exemptions, reject_answer "ipv4" (rs_v4 rs) exemptions with
      | Some r, _ | None, Some r => Ok (Done (deny r (Some pid) (Some rs)))
      | None, None =>
          match choose rs families with
          | inr r => Ok (Done (deny r (Some pid) (Some rs)))
          | inl (fam, ip) =>
              ips <- v_get "authorized_ips" program;;
              l <- v_set (v_or ips (VList []));;
              if negb (in_set ip l)
              then Ok (Done (deny ("IP_NOT_AUTHORIZED:" ++ ip) (Some pid) (Some rs)))
              else Ok (Go (Pin fam ip port, Some rs))
          end
      end
  end.

Definition decide_credential (pid : string) (policy : val) (host : string) (q : request)
    : res (flow val) :=
  if String.eqb (q_cred q) "" then Ok (Go VNull) else
  creds <- v_get "credentials" policy;;
  cred <- v_get (q_cred q) (v_or creds (VDict []));;
  if negb (truthy cred) then Ok (Done (deny "UNKNOWN_CREDENTIAL" (Some pid) None)) else
  owner <- v_get "program_id" cred;;
  if negb (py_eqb owner (VStr pid)) then Ok (Done (deny "CREDENTIAL_WRONG_PROGRAM" (Some pid) None)) else
  asset <- v_get "asset_id" cred;;
  if negb (py_eqb asset (VStr (q_asset q)) || py_eqb asset (VStr "*"))
  then Ok (Done (deny "CREDENTIAL_WRONG_ASSET" (Some pid) None)) else
  dests <- v_get "destinations" cred;;
  to <- v_in (VStr host) (v_or dests (VList []));;
  if negb to then Ok (Done (deny "CREDENTIAL_WRONG_DESTINATION" (Some pid) None)) else
  secret <- v_get "secret" cred;;
  Ok (Go secret).

(** The caps a new connection is charged against. *)
Definition asset_key (pid asset : string) : option string :=
  if String.eqb asset "" then None else Some (pid ++ "/" ++ asset).
Definition budget_specs (pid : string) (program : val) (asset : string) : res (list (string * val)) :=
  cap <- v_get "max_requests" program;;
  match asset_key pid asset with
  | None => Ok [(pid, cap)]
  | Some akey =>
      m <- v_get "asset_max_requests" program;;
      acap <- v_get asset (v_or m (VDict []));;
      Ok [(pid, cap); (akey, acap)]
  end.
Definition decide_budget (pid : string) (program : val) (q : request) (b : budgets)
    : budgets * res (flow unit) :=
  match q_pin q with
  | Some _ => (b, Ok (Go tt))
  | None =>
      match budget_specs pid program (q_asset q) with
      | Raise e => (b, Raise e)
      | Ok specs =>
          let '(b', r) := reserve specs b in
          (b', over <- r;;
               match over with
               | None => Ok (Go tt)
               | Some k =>
                   Ok (Done (deny (if bool_decide (Some k = asset_key pid (q_asset q))
                                   then "BUDGET_EXHAUSTED_ASSET" else "BUDGET_EXHAUSTED_PROGRAM")
                                  (Some pid) None))
               end)
      end
  end.

(** The generation and the budget binding of an allowing decision. *)
Definition generation_of (policy rec : val) : res string :=
  g <- v_get "policy_generation" policy;;
  if py_eqb g VNull || py_eqb g (VStr "")
  then v <- v_get_or "verified_at" (VStr "") rec;; Ok ("authorization-verified-at:" ++ py_str v)
  else Ok (py_str g).
Definition budget_binding (pid asset : string) : string :=
  "program:" ++ pid ++ "|asset:" ++ or_none asset ++ "|reservation:connect".

(** Everything up to the budget, which reads no mutable state. *)
Record approval := Approval {
  ap_program : string; ap_policy : val; ap_record : val; ap_prog : val;
  ap_host : string; ap_pin : pin; ap_resolution : option resolution; ap_secret : val }.
(** Past the authorization record. *)
Definition decide_checked (pid : string) (policy program rec : val)
    (resolve : string -> res resolution) (q : request) : res (flow approval) :=
  dest <~ decide_destination pid program q;;
  let '(host, exemptions) := dest in
  fams <- v_get "allowed_families" program;;
  families <- v_set (v_or fams (VList [VStr "ipv4"; VStr "ipv6"]));;
  chosen <~ match q_pin q with
            | Some p => decide_pinned pid program families exemptions p
            | None => decide_resolved pid program families exemptions (q_port q) (resolve host)
            end;;
  secret <~ decide_credential pid policy host q;;
  Ok (Go (Approval pid policy rec program host chosen.1 chosen.2 secret)).
Definition decide_program (pid : string) (policy program now : val)
    (resolve : string -> res resolution) (q : request) : res (flow approval) :=
  au <- v_get "authorization" program;;
  let rec := v_or au (VDict []) in
  _ <~ decide_authorization pid rec now;;
  decide_checked pid policy program rec resolve q.
(** A program that is not [None] was looked up under a string. *)
Definition decide_static (policy now : val) (resolve : string -> res resolution) (q : request)
    : res (flow approval) :=
  '(pid, program) <- program_for_source (q_src_ip q) policy;;
  if is_none program then Ok (Done (deny "NO_PROGRAM_FOR_SOURCE" None None)) else
  match pid with
  | VStr pid => decide_program pid policy program now resolve q
  | _ => Raise (TypeError "unreachable")
  end.

End Decide.

Module PDP.
Section PDP.
Context `{Idna}.
(** The end of [decide]: the budget of an approved request, and its decision. *)
Definition conclude (approved : res (flow approval)) (q : request) (b : budgets) : budgets * res decision :=
  match approved with
  | Raise e => (b, Raise e)
  | Ok (Done d) => (b, Ok d)
  | Ok (Go ap) =>
      let '(b', r) := decide_budget (ap_program ap) (ap_prog ap) q b in
      (b', f <- r;;
           match f with
           | Done d => Ok d
           | Go _ =>
               generation <- generation_of (ap_policy ap) (ap_record ap);;
               Ok (Decision true "ALLOW" (Some (ap_pin ap)) (ap_secret ap)
                     (Some (ap_program ap)) (ap_resolution ap)
                     [("canonical_host", VStr (ap_host ap));
                      ("policy_generation", VStr generation);
                      ("budget_binding", VStr (budget_binding (ap_program ap) (q_asset q)))])
           end)
  end.
(** [PDP.decide]. *)
Definition decide (policy : res val) (killed : bool) (now : val)
    (resolve : string -> res resolution) (q : request) (b : budgets) : budgets * res decision :=
  match policy with
  | Raise e => (b, Ok (deny ("POLICY_UNAVAILABLE:" ++ exn_cls e) None None))
  | Ok policy =>
      if killed then (b, Ok (deny "KILL_SWITCH_ACTIVE" None None)) else
      conclude (decide_static policy now resolve q) q b
  end.
End PDP.
End PDP.
