(* ===== verification/PdpProps.v ===== *)
(** * Properties of the policy decision point

    Atomic budgets, what an allowing decision implies, pin stability, the
    absence of family fallback and the denials that charge nothing. *)

From S2P Require Import Prelude PyStr Json PyDyn IpAddr Addressing Resolver Lifecycle Pdp.
Open Scope Z_scope.

(** ** Inverting early returns *)

Lemma flow_Go {A B} (m : res (flow A)) (k : A -> res (flow B)) y :
  (x <~ m;; k x) = Ok (Go y) <-> exists x, m = Ok (Go x) /\ k x = Ok (Go y).
Proof.
  split.
  - destruct m as [[d|x]|e]; cbn; try done. eauto.
  - by intros (x & -> & ?).
Qed.
Lemma flow_Done {A B} (m : res (flow A)) (k : A -> res (flow B)) d :
  (x <~ m;; k x) = Ok (Done d) <->
    m = Ok (Done d) \/ exists x, m = Ok (Go x) /\ k x = Ok (Done d).
Proof.
  split.
  - destruct m as [[d'|x]|e]; cbn; try done; [|eauto]. intros [= ->]. by left.
  - by intros [->|(x & -> & ?)].
Qed.

(** [inv_go] breaks an equation between an early-return computation and its
    result into the facts of its path. *)
Ltac inv_go :=
  repeat match goal with
  | H : rbind _ (fun f => match f with Done _ => _ | Go _ => _ end) = Ok (Go _) |- _ =>
      apply flow_Go in H as (? & ? & H)
  | H : rbind _ _ = Ok _ |- _ => apply res_bind_Ok in H as (? & ? & H)
  | H : Ok (Done _) = Ok (Go _) |- _ => discriminate H
  | H : Raise _ = Ok _ |- _ => discriminate H
  | H : Ok (Go _) = Ok (Go _) |- _ => injection H as H; try subst
  | H : Ok _ = Ok _ |- _ => injection H as H; try subst
  | H : (if ?b then _ else _) = Ok _ |- _ => destruct b eqn:?
  | H : context [let '(_, _) := ?p in _] |- _ => destruct p eqn:?
  | H : match ?m with _ => _ end = Ok _ |- _ => destruct m eqn:?
  end.

(** ** Budgets *)

(** The cap a key has in a list of specifications never lets it past [c]. *)
Definition capped (k : string) (c : Z) (specs : list (string * val)) : Prop :=
  NoDup specs.*1 /\ forall cap, (k, cap) ∈ specs -> cap = VInt c.
Definition times (k : string) (specs : list (string * val)) : Z :=
  if mem_str k specs.*1 then 1 else 0.

Lemma charge_used k k' b : used k (charge k' b) = used k b + if String.eqb k k' then 1 else 0.
Proof.
  unfold used, charge. destruct (String.eqb_spec k k') as [->|].
  - by rewrite lookup_insert_eq.
  - rewrite lookup_insert_ne by done. unfold used. lia.
Qed.
Lemma charges_used k specs : forall b, NoDup specs.*1 ->
  used k (foldl (fun b ks => charge ks.1 b) b specs) = used k b + times k specs.
Proof.
  unfold times. induction specs as [|[k' cap] specs IH]; intros b Hnd; cbn [foldl]; [cbn; lia|].
  apply NoDup_cons in Hnd as [Hn Hnd]. rewrite IH, charge_used by done. cbn [fst].
  change (mem_str k ((k', cap) :: specs).*1) with (String.eqb k k' || mem_str k specs.*1).
  destruct (String.eqb_spec k k') as [->|]; cbn [orb]; [|lia].
  destruct (mem_str k' specs.*1) eqn:E; [|lia]. by apply mem_str_spec in E.
Qed.
Lemma exceeded_None specs b k c :
  exceeded specs b = Ok None -> (k, VInt c) ∈ specs -> used k b < c.
Proof.
  induction specs as [|[k' cap] specs IH]; cbn; intros He; [by intros ?%not_elem_of_nil|].
  assert (Hc : cap = VNull \/ (cap <> VNull /\
    rbind (py_le cap (VInt (used k' b))) (fun over => if over : bool then Ok (Some k') else exceeded specs b) = Ok None)).
  { destruct cap; auto. }
  intros [Hin|Hin]%elem_of_cons.
  - simplify_eq. destruct Hc as [?|[_ Hr]]; [done|]. cbn in Hr.
    destruct (num_leb (c, 0%nat) (used k' b, 0%nat)) eqn:E; [done|].
    unfold num_leb in E. cbn in E. bools. lia.
  - destruct Hc as [->|[_ Hr]]; [by apply IH|].
    apply res_bind_Ok in Hr as ([] & _ & Hr); [done|]. by apply IH.
Qed.

Lemma reserve_cases specs b b' r : reserve specs b = (b', r) ->
  (r = Ok None /\ exceeded specs b = Ok None /\ b' = foldl (fun b ks => charge ks.1 b) b specs) \/
  (r <> Ok None /\ b' = b).
Proof.
  unfold reserve. destruct (exceeded specs b) as [[k|]|e] eqn:E; intros [= <- <-]; auto.
Qed.

(** Any interleaving of reservations: the requests that succeeded. *)
Fixpoint reserve_all (reqs : list (list (string * val))) (b : budgets)
    : budgets * list bool :=
  match reqs with
  | [] => (b, [])
  | specs :: rest =>
      let '(b1, r) := reserve specs b in
      let '(b2, l) := reserve_all rest b1 in
      (b2, match r with Ok None => true | _ => false end :: l)
  end.
(** How many of the successful requests name the key. *)
Fixpoint granted (k : string) (reqs : list (list (string * val))) (l : list bool) : Z :=
  match reqs, l with
  | specs :: reqs', ok :: l' => (if ok : bool then times k specs else 0) + granted k reqs' l'
  | _, _ => 0
  end.

Lemma times_bounds k specs : 0 <= times k specs <= 1.
Proof. unfold times. destruct (mem_str _ _); lia. Qed.

Lemma exceeded_Some specs b k :
  exceeded specs b = Ok (Some k) -> exists cap, (k, cap) ∈ specs /\ py_le cap (VInt (used k b)) = Ok true.
Proof.
  induction specs as [|[k' cap] specs IH]; cbn; intros He; [done|].
  assert (Hc : (cap = VNull /\ exceeded specs b = Ok (Some k)) \/
    rbind (py_le cap (VInt (used k' b))) (fun over => if over : bool then Ok (Some k') else exceeded specs b) = Ok (Some k)).
  { destruct cap; auto. }
  assert (Hrec : exceeded specs b = Ok (Some k) ->
    exists c, (k, c) ∈ (k', cap) :: specs /\ py_le c (VInt (used k b)) = Ok true).
  { intros (c & ? & ?)%IH. exists c. split; [by right|done]. }
  destruct Hc as [[_ Hr]|Hr]; [by apply Hrec|]. apply res_bind_Ok in Hr as ([] & Hle & Hr); [|by apply Hrec].
  injection Hr as <-. exists cap. split; [by left|done].
Qed.
Lemma reserve_all_capped k c reqs b : Forall (capped k c) reqs ->
  let '(b', l) := reserve_all reqs b in
  used k b' = used k b + granted k reqs l /\ (used k b <= c -> used k b' <= c).
Proof.
  intros Hc. revert b. induction Hc as [|specs reqs [Hnd Hcap] Hc IH]; intros b; cbn; [lia|].
  destruct (reserve specs b) as [b1 r] eqn:E. specialize (IH b1).
  destruct (reserve_all reqs b1) as [b2 l]. destruct IH as [-> Hle].
  apply reserve_cases in E as [(-> & He & ->)|[Hn ->]].
  - cbn. rewrite charges_used by done. split; [lia|]. intros Hb.
    rewrite charges_used in Hle by done. apply Hle.
    unfold times in *. destruct (mem_str k specs.*1) eqn:Em; [|lia].
    apply mem_str_spec, list_elem_of_fmap in Em as ([k' cap] & -> & Hin).
    pose proof (Hcap _ Hin) as ->. pose proof (exceeded_None _ _ _ _ He Hin). cbn in *. lia.
  - destruct r as [[k'|]|e]; cbn; [|done|]; split; try lia; auto.
Qed.

(** ** Paths through the static checks *)

Section Decide.
Context `{Idna}.

(** What an approval of the static checks implies. *)
Record checked (policy now : val) (resolve : string -> res resolution) (q : request)
    (ap : approval) : Prop := {
  ck_source : program_for_source (q_src_ip q) policy = Ok (VStr (ap_program ap), ap_prog ap);
  ck_status : exists st, v_get "status" (ap_record ap) = Ok st /\ py_eqb st (VStr "active") = true;
  ck_fresh : exists exp f, v_index "expires_at" (ap_record ap) = Ok exp /\ v_float exp = Ok f /\
    py_le f now = Ok false;
  ck_host : canonical_host (q_authority q) = Some (ap_host ap);
  ck_scope : exists allow dny, v_get "scope_allow" (ap_prog ap) = Ok allow /\
    v_get "scope_deny" (ap_prog ap) = Ok dny /\
    in_scope (ap_host ap) (v_or allow (VList [])) (v_or dny (VList [])) = Ok true;
  ck_port : exists ports, v_get "allowed_ports" (ap_prog ap) = Ok ports /\
    v_in (VInt (q_port q)) (v_or ports (VList [])) = Ok true;
  ck_method : (str_upper (q_method q) = "CONNECT" /\ exists c,
      v_get_or "allow_connect" (VBool false) (ap_prog ap) = Ok c /\ truthy c = true) \/
    exists ms, v_get "allowed_methods" (ap_prog ap) = Ok ms /\
    v_in (VStr (str_upper (q_method q))) (v_or ms (VList [])) = Ok true;
  ck_address : exists ex exemptions, v_get "private_ip_exemptions" (ap_prog ap) = Ok ex /\
    v_set (v_or ex (VList [])) = Ok exemptions /\
    v_ok (classify (pin_ip (ap_pin ap)) exemptions) = true;
  ck_authorized : exists ips l, v_get "authorized_ips" (ap_prog ap) = Ok ips /\
    v_set (v_or ips (VList [])) = Ok l /\ in_set (pin_ip (ap_pin ap)) l = true;
  ck_family : exists fams families, v_get "allowed_families" (ap_prog ap) = Ok fams /\
    v_set (v_or fams (VList [VStr "ipv4"; VStr "ipv6"])) = Ok families /\
    in_set (pin_family (ap_pin ap)) families = true;
  ck_credential : decide_credential (ap_program ap) policy (ap_host ap) q = Ok (Go (ap_secret ap));
  ck_policy : ap_policy ap = policy;
  ck_bound : forall p, q_pin q = Some p -> ap_pin ap = p }.

Lemma decide_authorization_Go pid rec now u :
  decide_authorization pid rec now = Ok (Go u) ->
  (exists st, v_get "status" rec = Ok st /\ py_eqb st (VStr "active") = true) /\
  (exists exp f, v_index "expires_at" rec = Ok exp /\ v_float exp = Ok f /\ py_le f now = Ok false).
Proof.
  unfold decide_authorization. intros Hd. inv_go. bools. split; [eauto|].
  unfold stop_if in *. destruct a; [done|]. eauto.
Qed.

Lemma decide_destination_Go pid program q host exemptions :
  decide_destination pid program q = Ok (Go (host, exemptions)) ->
  canonical_host (q_authority q) = Some host /\
  (exists ex, v_get "private_ip_exemptions" program = Ok ex /\ v_set (v_or ex (VList [])) = Ok exemptions) /\
  (exists allow dny, v_get "scope_allow" program = Ok allow /\ v_get "scope_deny" program = Ok dny /\
    in_scope host (v_or allow (VList [])) (v_or dny (VList [])) = Ok true) /\
  (exists ports, v_get "allowed_ports" program = Ok ports /\
    v_in (VInt (q_port q)) (v_or ports (VList [])) = Ok true) /\
  ((str_upper (q_method q) = "CONNECT" /\ exists c,
      v_get_or "allow_connect" (VBool false) program = Ok c /\ truthy c = true) \/
   exists ms, v_get "allowed_methods" program = Ok ms /\
    v_in (VStr (str_upper (q_method q))) (v_or ms (VList [])) = Ok true).
Proof.
  unfold decide_destination. intros Hd. inv_go; bools; subst; split_and!; eauto 10.
Qed.

Lemma decide_pinned_Go pid program families exemptions p x :
  decide_pinned pid program families exemptions p = Ok (Go x) ->
  x = (p, None) /\ in_set (pin_family p) families = true /\
  v_ok (classify (pin_ip p) exemptions) = true /\
  exists ips l, v_get "authorized_ips" program = Ok ips /\ v_set (v_or ips (VList [])) = Ok l /\
    in_set (pin_ip p) l = true.
Proof. unfold decide_pinned. intros Hd. inv_go; bools; split_and!; eauto 10. Qed.

Lemma reject_answer_None fam l exemptions :
  reject_answer fam l exemptions = None ->
  forall a, a ∈ l -> v_ok (classify a exemptions) = true.
Proof.
  induction l as [|a l IH]; cbn; [by intros _ ? ?%not_elem_of_nil|].
  destruct (v_ok (classify a exemptions)) eqn:E; [|done].
  intros Hl b [->|Hb]%elem_of_cons; auto.
Qed.
(** The address chosen is the first of the IPv6 answers if there is one, and
    otherwise the first of the IPv4 answers. *)
Lemma choose_inl rs families fam ip : choose rs families = inl (fam, ip) ->
  in_set fam families = true /\
  ((fam = "ipv6" /\ exists l, rs_v6 rs = ip :: l) \/
   (fam = "ipv4" /\ rs_v6 rs = [] /\ exists l, rs_v4 rs = ip :: l)).
Proof.
  unfold choose. destruct (rs_v6 rs) as [|a l], (rs_v4 rs) as [|b m]; try done;
    destruct (in_set _ _) eqn:E; try done; intros [= <- <-]; eauto 10.
Qed.
Lemma decide_resolved_Go pid program families exemptions port answer x :
  decide_resolved pid program families exemptions port answer = Ok (Go x) ->
  exists rs ip fam, answer = Ok rs /\ x = (Pin fam ip port, Some rs) /\
    choose rs families = inl (fam, ip) /\
    (forall a, a ∈ all_answers rs -> v_ok (classify a exemptions) = true) /\
    exists ips l, v_get "authorized_ips" program = Ok ips /\ v_set (v_or ips (VList [])) = Ok l /\
      in_set ip l = true.
Proof.
  unfold decide_resolved. intros Hd. inv_go. bools. subst.
  do 3 eexists. split; [reflexivity|]. split; [reflexivity|]. split; [eassumption|].
  split; [|do 2 eexists; split_and!; eassumption].
  unfold all_answers. intros b [Hb|Hb]%elem_of_app;
    [exact (reject_answer_None _ _ _ Heqo b Hb) | exact (reject_answer_None _ _ _ Heqo0 b Hb)].
Qed.

Lemma program_for_source_str src policy pid program :
  program_for_source src policy = Ok (pid, program) -> program <> VNull -> exists p, pid = VStr p.
Proof.
  unfold program_for_source. destruct (source_addr src) as [a|]; [|by intros [= <- <-]].
  intros Hp. apply res_bind_Ok in Hp as (ns & _ & Hp). apply res_bind_Ok in Hp as (d & _ & Hm). revert Hm.
  induction d as [|[cidr w] nets IH]; cbn; [by intros [= <- <-]|].
  destruct (ip_network cidr); [|done]. destruct (in_net a i); [|done]. intros Hm Hn. inv_go; eauto; done.
Qed.

(** The destination part of an approval: the bound reused, or the answers of
    one resolution. *)
Definition bound_or_resolved (resolve : string -> res resolution) (q : request) (ap : approval) : Prop :=
  match q_pin q with
  | Some p => ap_pin ap = p /\ ap_resolution ap = None
  | None => exists rs families exemptions ip fam,
      resolve (ap_host ap) = Ok rs /\ ap_resolution ap = Some rs /\
      choose rs families = inl (fam, ip) /\ ap_pin ap = Pin fam ip (q_port q) /\
      (forall a, a ∈ all_answers rs -> v_ok (classify a exemptions) = true)
  end.

Lemma decide_static_Go policy now resolve q ap :
  decide_static policy now resolve q = Ok (Go ap) ->
  checked policy now resolve q ap /\ bound_or_resolved resolve q ap.
Proof.
  unfold decide_static. intros Hd. apply res_bind_Ok in Hd as ([pid program] & Hsrc & Hd).
  destruct (is_none program) eqn:Hn; [done|].
  destruct (program_for_source_str _ _ _ _ Hsrc) as [pid' ->]; [by intros ->|].
  unfold decide_program, decide_checked in Hd.
  apply res_bind_Ok in Hd as (au & Hau & Hd). apply flow_Go in Hd as ([] & Hauth & Hd).
  apply flow_Go in Hd as ([host exemptions] & Hdest & Hd).
  apply res_bind_Ok in Hd as (fams & Hf & Hd). apply res_bind_Ok in Hd as (families & Hfs & Hd).
  apply flow_Go in Hd as ([p rs] & Hch & Hd). apply flow_Go in Hd as (secret & Hs & Hd).
  injection Hd as <-. apply decide_authorization_Go in Hauth as [Hst Hex].
  apply decide_destination_Go in Hdest as (Hh & (ex & Hex1 & Hex2) & Hsc & Hpo & Hm).
  unfold bound_or_resolved. destruct (q_pin q) as [p'|] eqn:Hq.
  - apply decide_pinned_Go in Hch as (E & Hfam & Hok & Hips). injection E as -> ->.
    split; [|done]. split; cbn; try eassumption; try (intros; congruence);
      do 2 eexists; split_and!; eassumption.
  - apply decide_resolved_Go in Hch as (rs' & ip & fam & Hr & E & Hc & Hall & Hips).
    injection E as -> ->. split; [|do 5 eexists; split_and!; eauto].
    destruct (choose_inl _ _ _ _ Hc) as [Hfam Hin].
    split; cbn; try eassumption; try (intros; congruence);
      try (do 2 eexists; split_and!; eassumption). exists ex, exemptions. split_and!; try done. apply Hall.
    unfold all_answers. apply elem_of_app.
    destruct Hin as [(_ & l & ->)|(_ & -> & l & ->)]; [left|right]; by left.
Qed.

(** Every early return of the checks is a refusal. *)
Definition refusing {A} (m : res (flow A)) : Prop := forall d, m = Ok (Done d) -> d_allow d = false.
Lemma refusing_bind {A B} (m : res (flow A)) (k : A -> res (flow B)) :
  refusing m -> (forall x, refusing (k x)) -> refusing (x <~ m;; k x).
Proof. intros Hm Hk d [H0|(x & _ & H0)]%flow_Done; [by apply Hm|by apply (Hk x)]. Qed.
Lemma refusing_res {A B} (m : res A) (k : A -> res (flow B)) :
  (forall x, refusing (k x)) -> refusing (x <- m;; k x).
Proof. intros Hk d (x & _ & H0)%res_bind_Ok. by apply (Hk x). Qed.
Lemma refusing_deny {A} r p rs : refusing (Ok (Done (deny r p rs)) : res (flow A)).
Proof. by intros d [= <-]. Qed.
Lemma refusing_go {A} (x : A) : refusing (Ok (Go x)).
Proof. by intros d. Qed.
Lemma refusing_raise {A} e : refusing (Raise e : res (flow A)).
Proof. by intros d. Qed.
Lemma refusing_stop b r p rs : refusing (Ok (stop_if b (deny r p rs))).
Proof. unfold stop_if. destruct b; [apply refusing_deny|apply refusing_go]. Qed.
#[local] Hint Resolve refusing_deny refusing_go refusing_raise refusing_stop : py.
Ltac refusing :=
  repeat (first
    [ progress auto with py
    | apply refusing_bind; [|intros]
    | apply refusing_res; intros
    | match goal with |- refusing (if ?b then _ else _) => destruct b end
    | match goal with |- refusing (match ?m with _ => _ end) => destruct m end
    | match goal with |- refusing (let '(_, _) := ?m in _) => destruct m end ]).

Lemma decide_static_refuses policy now resolve q : refusing (decide_static policy now resolve q).
Proof.
  unfold decide_static, decide_program, decide_checked, decide_authorization, decide_destination, decide_pinned,
    decide_resolved, decide_credential. refusing.
Qed.

Lemma decide_budget_refuses pid program q b b' d :
  decide_budget pid program q b = (b', Ok (Done d)) -> d_allow d = false /\ b' = b.
Proof.
  unfold decide_budget. destruct (q_pin q); [done|].
  destruct (budget_specs _ _ _) as [specs|e]; [|done].
  destruct (reserve specs b) as [b1 r] eqn:E. intros [= <- Hr].
  apply reserve_cases in E as [(-> & _ & _)|[Hn ->]]; [done|].
  destruct r as [[k|]|e]; [|done..]. cbn in Hr. by injection Hr as <-.
Qed.
Lemma decide_budget_raises pid program q b b' e :
  decide_budget pid program q b = (b', Raise e) -> b' = b.
Proof.
  unfold decide_budget. destruct (q_pin q); [done|].
  destruct (budget_specs _ _ _) as [specs|e']; [|by intros [= <- _]].
  destruct (reserve specs b) as [b1 r] eqn:E. intros [= <- Hr].
  by apply reserve_cases in E as [(-> & _ & _)|[Hn ->]].
Qed.
Lemma decide_budget_Go pid program q b b' u :
  decide_budget pid program q b = (b', Ok (Go u)) ->
  (q_pin q <> None /\ b' = b) \/
  (q_pin q = None /\ exists specs, budget_specs pid program (q_asset q) = Ok specs /\
     reserve specs b = (b', Ok None)).
Proof.
  unfold decide_budget. destruct (q_pin q); [intros [= <- _]; by left|].
  destruct (budget_specs _ _ _) as [specs|e']; [|done].
  destruct (reserve specs b) as [b1 r] eqn:E. intros [= <- Hr]. right. split; [done|].
  exists specs. split; [done|]. by destruct r as [[k|]|e].
Qed.

(** The generation of an approved policy is defined. *)
Lemma generation_ok policy now resolve q ap :
  checked policy now resolve q ap -> exists g, generation_of (ap_policy ap) (ap_record ap) = Ok g.
Proof.
  intros Hc. destruct (ck_status _ _ _ _ _ Hc) as (st & Hst & _). unfold generation_of.
  rewrite (ck_policy _ _ _ _ _ Hc). pose proof (ck_source _ _ _ _ _ Hc) as Hs.
  destruct policy as [| | | | | |d]; unfold program_for_source in Hs;
    (destruct (source_addr _); [|done]); try done.
  destruct (ap_record ap); try done. cbn. destruct (_ || _); eauto.
Qed.

(** Where a decision comes from: a refusal or an exception that leaves the
    budgets alone, or an approval whose budget was reserved. *)
Definition allowing (ap : approval) (q : request) (g : string) : decision :=
  Decision true "ALLOW" (Some (ap_pin ap)) (ap_secret ap) (Some (ap_program ap)) (ap_resolution ap)
    [("canonical_host", VStr (ap_host ap)); ("policy_generation", VStr g);
     ("budget_binding", VStr (budget_binding (ap_program ap) (q_asset q)))].
Lemma decide_cases policy killed now resolve q b b' r :
  PDP.decide policy killed now resolve q b = (b', r) ->
  (b' = b /\ forall d, r = Ok d -> d_allow d = false) \/
  exists pol ap g, policy = Ok pol /\ killed = false /\
    decide_static pol now resolve q = Ok (Go ap) /\
    decide_budget (ap_program ap) (ap_prog ap) q b = (b', Ok (Go tt)) /\
    generation_of (ap_policy ap) (ap_record ap) = Ok g /\ r = Ok (allowing ap q g).
Proof.
  unfold PDP.decide, PDP.conclude. destruct policy as [pol|e].
  2:{ intros [= <- <-]. left. split; [done|]. by intros d [= <-]. }
  destruct killed. { intros [= <- <-]. left. split; [done|]. by intros d [= <-]. }
  destruct (decide_static pol now resolve q) as [[d|ap]|e] eqn:Es.
  - intros [= <- <-]. left. split; [done|]. intros d' [= <-].
    by eapply decide_static_refuses.
  - destruct (decide_budget _ _ _ _) as [b1 [[d|[]]|e]] eqn:Eb; intros [= <- <-].
    + left. apply decide_budget_refuses in Eb as [Hd ->]. split; [done|]. by intros d' [= <-].
    + right. destruct (generation_ok pol now resolve q ap) as [g Hg].
      { by apply decide_static_Go in Es as [? _]. }
      exists pol, ap, g. split_and!; try done. cbn. by rewrite Hg.
    + left. apply decide_budget_raises in Eb as ->. by split.
  - intros [= <- <-]. left. by split.
Qed.

(** ** Properties *)


(** Only an allowing decision on a new connection charges a budget: a
    refusal, an exception and a decision with a pin leave every counter as it
    was. *)
Theorem only_allow_charges policy killed now resolve q b b' r :
  PDP.decide policy killed now resolve q b = (b', r) ->
  b' <> b -> q_pin q = None /\ exists d, r = Ok d /\ d_allow d = true.
Proof.
  intros [[-> _]|(pol & ap & g & _ & _ & _ & Hb & _ & ->)]%decide_cases Hne; [done|].
  apply decide_budget_Go in Hb as [[_ ->]|[Hq _]]; [done|]. split; [done|]. by eexists.
Qed.

(** One resolution per connection. With a pin the decision does not depend on
    the resolver at all, and if it allows it keeps exactly that pin. *)
Theorem pinned_never_re_resolves policy killed now resolve resolve' q b p :
  q_pin q = Some p ->
  PDP.decide policy killed now resolve q b = PDP.decide policy killed now resolve' q b /\
  forall b' d, PDP.decide policy killed now resolve q b = (b', Ok d) -> d_allow d = true ->
    d_pin d = Some p /\ b' = b.
Proof.
  intros Hq. split.
  - unfold PDP.decide, PDP.conclude, decide_static, decide_program, decide_checked. by rewrite Hq.
  - intros b' d [[_ Hd]|(pol & ap & g & _ & _ & Hs & Hb & _ & Hr)]%decide_cases Ha.
    + by rewrite (Hd d eq_refl) in Ha.
    + injection Hr as ->. apply decide_static_Go in Hs as [Hc _].
      cbn. rewrite (ck_bound _ _ _ _ _ Hc p Hq). split; [done|].
      apply decide_budget_Go in Hb as [[_ ?]|[? _]]; [done|congruence].
Qed.

(** No silent fallback from IPv6 to IPv4. When the resolution has IPv6 answers,
    an allowing decision pins the first of them. *)
Theorem no_family_fallback policy killed now resolve q b b' d rs a l host :
  PDP.decide policy killed now resolve q b = (b', Ok d) -> d_allow d = true -> q_pin q = None ->
  canonical_host (q_authority q) = Some host -> resolve host = Ok rs -> rs_v6 rs = a :: l ->
  d_pin d = Some (Pin "ipv6" a (q_port q)).
Proof.
  intros [[_ Hd]|(pol & ap & g & _ & _ & Hs & _ & _ & Hr)]%decide_cases Ha Hq Hh Hrs Hv6.
  - by rewrite (Hd d eq_refl) in Ha.
  - injection Hr as ->. apply decide_static_Go in Hs as [Hc Hb]. unfold bound_or_resolved in Hb.
    rewrite Hq in Hb. destruct Hb as (rs' & fams & ex & ip & fam & Hr & _ & Hch & Hp & _).
    rewrite (ck_host _ _ _ _ _ Hc) in Hh. injection Hh as <-. rewrite Hr in Hrs. injection Hrs as ->.
    cbn. rewrite Hp. apply choose_inl in Hch as [_ [(-> & m & E)|(_ & E & _)]]; congruence.
Qed.

End Decide.

(** A source is identified by its own address. A peer whose IPv6 address is not
    IPv4-mapped is only ever matched against IPv6 networks, so a 6to4, Teredo
    or NAT64 source cannot pose as a program's IPv4 range. *)
Theorem source_not_unwrapped src n sc policy pid program :
  ip_address src = Some (IPv6 n sc) -> ipv4_mapped n = None ->
  program_for_source src policy = Ok (pid, program) -> program <> VNull ->
  exists nets cidr addr len, v_get "networks" policy = Ok (VDict nets) /\ (cidr, pid) ∈ nets /\
    ip_network cidr = Some (Net true addr len) /\ in_net (IPv6 n sc) (Net true addr len) = true.
Proof.
  intros Hip Hm. unfold program_for_source, source_addr. rewrite Hip, Hm.
  intros (ns & Hns & Hp)%res_bind_Ok Hn. apply res_bind_Ok in Hp as (d & Hd & Hp).
  assert (Hnet : exists cidr addr len, (cidr, pid) ∈ d /\ ip_network cidr = Some (Net true addr len) /\
    in_net (IPv6 n sc) (Net true addr len) = true).
  { clear Hd. induction d as [|[cidr w] d IH]; cbn in Hp; [by simp_res|].
    assert (Hrec : match_network (IPv6 n sc) policy d = Ok (pid, program) ->
      exists cidr0 addr len, (cidr0, pid) ∈ (cidr, w) :: d /\ ip_network cidr0 = Some (Net true addr len) /\
        in_net (IPv6 n sc) (Net true addr len) = true).
    { intros (c & addr & len & Hin & ?)%IH. exists c, addr, len. split; [by right|done]. }
    destruct (ip_network cidr) as [net|] eqn:En; [|by apply Hrec].
    destruct (in_net (IPv6 n sc) net) eqn:Ei; [|by apply Hrec].
    destruct net as [v6 addr len]. cbn in Ei. destruct v6; [|done].
    exists cidr, addr, len. apply res_bind_Ok in Hp as (ps & _ & Hp).
    apply res_bind_Ok in Hp as (pr & _ & Hp). injection Hp as -> ->. split_and!; [by left|done|].
    exact Ei. }
  destruct Hnet as (cidr & addr & len & Hin & ?).
  unfold v_or in Hd. destruct (truthy ns) eqn:Et; [|injection Hd as <-; by apply not_elem_of_nil in Hin].
  destruct ns; try done. injection Hd as ->. by exists d, cidr, addr, len.
Qed.

(** C22: budgets are never exceeded. Whatever the interleaving of reservations, if
    every request that names a key gives it the cap [c], the counter grows by
    exactly the number of granted requests naming it and never passes [c]; a
    refused request changes no counter and names a key that is at its cap. *)
Theorem budget_never_exceeded k c reqs b :
  Forall (capped k c) reqs ->
  let '(b', l) := reserve_all reqs b in
  used k b' = used k b + granted k reqs l /\ (used k b <= c -> used k b' <= c) /\
  forall specs b1 k1, reserve specs b = (b1, Ok (Some k1)) ->
    b1 = b /\ exists cap, (k1, cap) ∈ specs /\ py_le cap (VInt (used k1 b)) = Ok true.
Proof.
  intros Hc. assert (Hgoal : let '(b', l) := reserve_all reqs b in
    used k b' = used k b + granted k reqs l /\ (used k b <= c -> used k b' <= c)).
  { by apply reserve_all_capped. }
  destruct (reserve_all reqs b) as [b' l]. destruct Hgoal. split_and!; [done..|].
  intros specs b1 k1 Hr. pose proof (reserve_cases _ _ _ _ Hr) as [(? & _)|[_ Hb]]; [done|].
  split; [done|]. apply exceeded_Some. unfold reserve in Hr.
  destruct (exceeded specs b) as [[k2|]|e] eqn:E; injection Hr; congruence.
Qed.

(** ** Witnesses *)

#[local] Instance no_idna : Idna := {| idna _ := None |}.
Definition prog_ex : val := VDict
  [ ("authorization", VDict [("program_id", VStr "p"); ("verified_by", VStr "v"); ("verified_at", VStr "t");
       ("expires_at", VInt 200); ("status", VStr "active")]);
    ("scope_allow", VList [VStr "*.example.com"]);
    ("allowed_ports", VList [VInt 443]); ("allow_connect", VBool true);
    ("allowed_methods", VList [VStr "GET"]);
    ("authorized_ips", VList [VStr "2606:4700::1"; VStr "93.184.216.34"]);
    ("max_requests", VInt 2) ].
Definition policy_ex : val := VDict
  [ ("networks", VDict [("10.0.0.0/8", VStr "p"); ("fd00::/8", VStr "p")]);
    ("programs", VDict [("p", prog_ex)]); ("policy_generation", VStr "g1") ].
Definition resolve_ex (host : string) : res resolution :=
  Ok (Resolution host ["93.184.216.34"] ["2606:4700::1"] "zone" None).
Definition q_ex : request := Request "10.1.2.3" "WWW.Example.com." 443 "CONNECT" "" "" "" None.
Definition pin_ex : pin := Pin "ipv6" "2606:4700::1" 443.
Definition ap_ex : approval :=
  Approval "p" policy_ex (VDict [("program_id", VStr "p"); ("verified_by", VStr "v"); ("verified_at", VStr "t");
       ("expires_at", VInt 200); ("status", VStr "active")]) prog_ex "www.example.com" pin_ex
    (Some (Resolution "www.example.com" ["93.184.216.34"] ["2606:4700::1"] "zone" None)) VNull.
Lemma decide_ex : PDP.decide (Ok policy_ex) false (VInt 100) resolve_ex q_ex ∅ =
  (charge "p" ∅, Ok (allowing ap_ex q_ex "g1")).
Proof. vm_compute. reflexivity. Qed.


Lemma only_allow_charges_witness : q_pin q_ex = None.
Proof.
  refine (proj1 (only_allow_charges _ _ _ _ _ _ _ _ decide_ex _)).
  intros E. apply (f_equal (used "p")) in E. discriminate E.
Defined.

Definition q_pinned : request := Request "10.1.2.3" "www.example.com" 443 "get" "" "" "" (Some pin_ex).
Lemma pinned_never_re_resolves_witness :
  PDP.decide (Ok policy_ex) false (VInt 100) resolve_ex q_pinned ∅ =
  PDP.decide (Ok policy_ex) false (VInt 100) (fun _ => Raise (ValErr "no resolver")) q_pinned ∅.
Proof. exact (proj1 (pinned_never_re_resolves _ _ _ _ _ q_pinned ∅ pin_ex eq_refl)). Defined.

Lemma no_family_fallback_witness :
  d_pin (allowing ap_ex q_ex "g1") = Some (Pin "ipv6" "2606:4700::1" 443).
Proof.
  exact (no_family_fallback _ _ _ _ _ _ _ _ (Resolution "www.example.com" ["93.184.216.34"] ["2606:4700::1"] "zone" None)
    "2606:4700::1" [] "www.example.com" decide_ex eq_refl eq_refl eq_refl eq_refl eq_refl).
Defined.

(** The ULA source fd00::a01:203 is matched against fd00::/8 only. *)
Lemma source_not_unwrapped_witness :
  exists nets cidr addr len, v_get "networks" policy_ex = Ok (VDict nets) /\ (cidr, VStr "p") ∈ nets /\
    ip_network cidr = Some (Net true addr len) /\
    in_net (IPv6 336294682933583715844663186250927177731 None) (Net true addr len) = true.
Proof.
  apply (source_not_unwrapped "fd00::3" 336294682933583715844663186250927177731 None policy_ex (VStr "p") prog_ex);
    [vm_compute; reflexivity|vm_compute; reflexivity|vm_compute; reflexivity|discriminate].
Defined.

Lemma budget_never_exceeded_witness :
  let reqs := [[("p", VInt 1)]; [("p", VInt 1); ("p/a", VNull)]] in
  let '(b', l) := reserve_all reqs ∅ in used "p" b' = used "p" ∅ + granted "p" reqs l.
Proof.
  assert (Hc : Forall (capped "p" 1) [[("p", VInt 1)]; [("p", VInt 1); ("p/a", VNull)]]).
  { repeat (apply Forall_cons; split); [split|split|apply Forall_nil; exact I];
      try (apply NoDup_cons; split; [not_in|]); try apply NoDup_singleton; try apply NoDup_nil_2;
      intros cap Hin; repeat (apply elem_of_cons in Hin as [Hin|Hin]; [by injection Hin|]);
      by apply not_elem_of_nil in Hin. }
  pose proof (budget_never_exceeded "p" 1 _ ∅ Hc) as W. cbn zeta. revert W.
  destruct (reserve_all _ _) as [b' l]. intros (W & _). exact W.
Defined.
