(* ===== verification/Conc.v ===== *)
(** * Concurrent programs over a shared world

    A thread is a resumption: each [Atom] is one critical section of the code,
    executed in one step, and [Wait] is a timed wait on a condition variable.
    Threads interleave arbitrarily.  Their properties are proved one thread at
    a time against a rely and a guarantee; the pool theorems combine them. *)

From S2P Require Import Prelude.

Section Prog.
Context {W : Type}.

(** ** Threads *)

Inductive prog (A : Type) : Type :=
| Ret (a : A)
| Throw (e : exn)
| Atom {B : Type} (f : W -> W * B) (k : B -> prog A)
| Wait (c : W -> bool) (k : bool -> prog A).
Arguments Ret {A} a.
Arguments Throw {A} e.
Arguments Atom {A B} f k.
Arguments Wait {A} c k.

Fixpoint pbind {A B} (p : prog A) (g : A -> prog B) : prog B :=
  match p with
  | Ret a => g a
  | Throw e => Throw e
  | Atom f k => Atom f (fun b => pbind (k b) g)
  | Wait c k => Wait c (fun b => pbind (k b) g)
  end.
(** [try: p except ...: h], where [h] re-raises what it does not catch. *)
Fixpoint pcatch {A} (p : prog A) (h : exn -> prog A) : prog A :=
  match p with
  | Ret a => Ret a
  | Throw e => h e
  | Atom f k => Atom f (fun b => pcatch (k b) h)
  | Wait c k => Wait c (fun b => pcatch (k b) h)
  end.
(** [try: p finally: q]; an exception of [q] replaces the outcome of [p]. *)
Fixpoint pfinally {A} (p : prog A) (q : prog unit) : prog A :=
  match p with
  | Ret a => pbind q (fun _ => Ret a)
  | Throw e => pbind q (fun _ => Throw e)
  | Atom f k => Atom f (fun b => pfinally (k b) q)
  | Wait c k => Wait c (fun b => pfinally (k b) q)
  end.
(** One critical section with a result, and one that may raise. *)
Definition atomic {A} (f : W -> W * A) : prog A := Atom f Ret.
Definition of_res {A} (r : res A) : prog A := match r with Ok a => Ret a | Raise e => Throw e end.
Definition atomic_res {A} (f : W -> W * res A) : prog A := Atom f of_res.

(** ** Steps *)

Inductive pstep {A} : prog A -> W -> prog A -> W -> Prop :=
| step_atom {B} (f : W -> W * B) k w : pstep (Atom f k) w (k (f w).2) (f w).1
| step_wait c k w : c w = true -> pstep (Wait c k) w (k true) w
| step_timeout c k w : c w = false -> pstep (Wait c k) w (k false) w.

(** The thread run alone to its end; a wait whose condition fails times out. *)
Fixpoint exec {A} (p : prog A) (w : W) : W * res A :=
  match p with
  | Ret a => (w, Ok a)
  | Throw e => (w, Raise e)
  | Atom f k => exec (k (f w).2) (f w).1
  | Wait c k => exec (k (c w)) w
  end.

Lemma exec_bind {A B} (p : prog A) (g : A -> prog B) w :
  exec (pbind p g) w =
    let '(w1, r) := exec p w in match r with Ok a => exec (g a) w1 | Raise e => (w1, Raise e) end.
Proof. revert w. induction p as [a|e|B' f k IH|c k IH]; intros w; cbn; auto. Qed.
Lemma exec_catch {A} (p : prog A) h w :
  exec (pcatch p h) w =
    let '(w1, r) := exec p w in match r with Ok a => (w1, Ok a) | Raise e => exec (h e) w1 end.
Proof. revert w. induction p as [a|e|B' f k IH|c k IH]; intros w; cbn; auto. Qed.
Lemma exec_finally {A} (p : prog A) q w :
  exec (pfinally p q) w =
    let '(w1, r) := exec p w in
    let '(w2, s) := exec q w1 in
    (w2, match s with Ok _ => r | Raise e => Raise e end).
Proof.
  revert w. induction p as [a|e|B' f k IH|c k IH]; intros w; cbn; auto.
  - rewrite exec_bind. destruct (exec q w) as [w2 [?|?]]; done.
  - rewrite exec_bind. destruct (exec q w) as [w2 [?|?]]; done.
Qed.

(** ** Pools of threads *)

Abbreviation pool := (list (prog unit)).
Inductive pool_step : pool * W -> pool * W -> Prop :=
| pool_at ts i p p' w w' : ts !! i = Some p -> pstep p w p' w' ->
    pool_step (ts, w) (<[i := p']> ts, w').
Definition reach : pool * W -> pool * W -> Prop := rtc pool_step.
Definition finished (p : prog unit) : Prop :=
  match p with Ret _ | Throw _ => True | _ => False end.

(** ** Rely and guarantee *)

Context {I : Type} (rely guar : I -> W -> W -> Prop) (inv : W -> Prop).

(** [ok i Q p w]: from [w], whatever the steps of other threads the rely of [i]
    allows, every step of [p] keeps the invariant and the guarantee, and if
    [p] ends, [Q] holds of its outcome and the world at that point. *)
Fixpoint ok {A} (i : I) (Q : res A -> W -> Prop) (p : prog A) (w : W) : Prop :=
  match p with
  | Ret a => Q (Ok a) w
  | Throw e => Q (Raise e) w
  | Atom f k => forall w1, rely i w w1 -> inv w1 ->
      guar i w1 (f w1).1 /\ inv (f w1).1 /\ ok i Q (k (f w1).2) (f w1).1
  | Wait c k => forall w1, rely i w w1 -> inv w1 -> forall b, (b = true -> c w1 = true) -> ok i Q (k b) w1
  end.

Lemma ok_weaken {A} i (Q Q' : res A -> W -> Prop) p w :
  ok i Q p w -> (forall r w, Q r w -> Q' r w) -> ok i Q' p w.
Proof.
  intros Hok HQ. revert w Hok. induction p as [a|e|B f k IH|c k IH]; intros w Hok; cbn in *; auto.
  intros w1 Hr Hi. destruct (Hok w1 Hr Hi) as (? & ? & ?). auto.
Qed.
Lemma ok_bind {A B} i (Q : res B -> W -> Prop) (p : prog A) (g : A -> prog B) w :
  ok i (fun r w1 => match r with Ok a => ok i Q (g a) w1 | Raise e => Q (Raise e) w1 end) p w ->
  ok i Q (pbind p g) w.
Proof.
  revert w. induction p as [a|e|B' f k IH|c k IH]; intros w Hok; cbn in *; auto.
  intros w1 Hr Hi. destruct (Hok w1 Hr Hi) as (? & ? & ?). auto.
Qed.
Lemma ok_catch {A} i (Q : res A -> W -> Prop) (p : prog A) h w :
  ok i (fun r w1 => match r with Ok a => Q (Ok a) w1 | Raise e => ok i Q (h e) w1 end) p w ->
  ok i Q (pcatch p h) w.
Proof.
  revert w. induction p as [a|e|B' f k IH|c k IH]; intros w Hok; cbn in *; auto.
  intros w1 Hr Hi. destruct (Hok w1 Hr Hi) as (? & ? & ?). auto.
Qed.
Lemma ok_finally {A} i (Q : res A -> W -> Prop) (p : prog A) q w :
  ok i (fun r w1 => ok i (fun s w2 => Q (match s with Ok _ => r | Raise e => Raise e end) w2) q w1) p w ->
  ok i Q (pfinally p q) w.
Proof.
  revert w. induction p as [a|e|B' f k IH|c k IH]; intros w Hok; cbn in *; auto.
  - apply ok_bind. eapply ok_weaken; [exact Hok|]. by intros [?|?] w1.
  - apply ok_bind. eapply ok_weaken; [exact Hok|]. by intros [?|?] w1.
  - intros w1 Hr Hi. destruct (Hok w1 Hr Hi) as (? & ? & ?). auto.
Qed.

(** A thread stays ok under the steps of the others. *)
Hypothesis rely_trans : forall i w1 w2 w3, rely i w1 w2 -> rely i w2 w3 -> rely i w1 w3.
Hypothesis rely_refl : forall i w, rely i w w.

Lemma ok_later {A} i (Q : res A -> W -> Prop) p w w1 :
  ok i Q p w -> rely i w w1 -> (forall r, Q r w -> Q r w1) -> ok i Q p w1.
Proof.
  destruct p as [a|e|B f k|c k]; cbn; auto; intros Hok Hr _ w2 Hr2 Hi; apply Hok; eauto.
Qed.

(** ** Soundness *)

Hypothesis guar_rely : forall i j w w', i <> j -> guar i w w' -> rely j w w'.

(** A pool of threads with distinct identities, each ok for its own stable
    final assertion. *)
Definition stable (i : I) (Q : W -> Prop) : Prop := forall w w1, rely i w w1 -> Q w -> Q w1.
Record pool_ok (ids : list I) (Qs : I -> W -> Prop) (cfg : pool * W) : Prop := {
  po_len : length ids = length cfg.1;
  po_nodup : NoDup ids;
  po_inv : inv cfg.2;
  po_ok : forall j i p, ids !! j = Some i -> cfg.1 !! j = Some p -> ok i (fun _ => Qs i) p cfg.2 }.

Lemma ok_step i (Q : W -> Prop) (p p' : prog unit) w w' :
  inv w -> ok i (fun _ => Q) p w -> pstep p w p' w' ->
  (guar i w w' \/ w' = w) /\ inv w' /\ ok i (fun _ => Q) p' w'.
Proof.
  intros Hi Hok Hs. destruct Hs as [B f k w|c k w Hc|c k w Hc].
  - destruct (Hok w (rely_refl i w) Hi) as (Hg & Hi' & Hok'). auto.
  - split; [by right|]. split; [done|]. by apply (Hok w (rely_refl i w) Hi).
  - split; [by right|]. split; [done|]. by apply (Hok w (rely_refl i w) Hi).
Qed.
Lemma pool_step_ok ids Qs cfg cfg' : (forall i, stable i (Qs i)) ->
  pool_ok ids Qs cfg -> pool_step cfg cfg' ->
  pool_ok ids Qs cfg' /\ (cfg'.2 = cfg.2 \/ exists i, i ∈ ids /\ guar i cfg.2 cfg'.2).
Proof.
  intros Hst Hp Hs. destruct Hs as [ts j p p' w w' Hj Hps]. destruct Hp as [Hlen Hnd Hi Hok]. cbn in *.
  assert (Hjl : j < length ids) by (rewrite Hlen; by eapply lookup_lt_Some).
  destruct (lookup_lt_is_Some_2 ids j Hjl) as [i Hii].
  destruct (ok_step i (Qs i) p p' w w' Hi (Hok _ _ _ Hii Hj) Hps) as (Hg & Hi' & Hok').
  split; [split; cbn|].
  - by rewrite length_insert.
  - done.
  - done.
  - intros j' i' q Hi'' Hq. destruct (decide (j = j')) as [<-|Hne].
    + rewrite list_lookup_insert_eq in Hq by (by eapply lookup_lt_Some). simplify_eq. done.
    + rewrite list_lookup_insert_ne in Hq by done.
      assert (Hii' : i <> i').
      { intros <-. apply Hne. eapply NoDup_lookup; eauto. }
      destruct Hg as [Hg| ->]; [|by eapply Hok].
      eapply ok_later; [by eapply Hok|by apply (guar_rely i)|].
      intros _ HQ. eapply Hst; [by apply (guar_rely i)|done].
  - destruct Hg as [Hg| ->]; [right|by left]. exists i. split; [by eapply list_elem_of_lookup_2|done].
Qed.

(** Everything reachable from an ok pool is ok. *)
Theorem pool_reach_ok ids Qs cfg cfg' : (forall i, stable i (Qs i)) ->
  pool_ok ids Qs cfg -> reach cfg cfg' -> pool_ok ids Qs cfg'.
Proof.
  intros Hst Hp Hr. induction Hr as [|c1 c2 c3 Hs Hr IH]; [done|]. apply IH.
  by destruct (pool_step_ok ids Qs c1 c2 Hst Hp Hs).
Qed.
(** When every thread has ended, every final assertion holds. *)
Lemma pool_done ids Qs ts w i : pool_ok ids Qs (ts, w) -> Forall finished ts -> i ∈ ids -> Qs i w.
Proof.
  intros [Hlen _ _ Hok] Hf Hi. apply list_elem_of_lookup_1 in Hi as [j Hj]. cbn in *.
  assert (Hjl : j < length ts) by (rewrite <- Hlen; by eapply lookup_lt_Some).
  destruct (lookup_lt_is_Some_2 ts j Hjl) as [p Hp].
  specialize (Hok _ _ _ Hj Hp). rewrite Forall_lookup in Hf. specialize (Hf _ _ Hp). by destruct p.
Qed.

(** A thread run alone is one of the interleavings. *)
Lemma exec_ok {A} i (Q : res A -> W -> Prop) p w w' r :
  inv w -> ok i Q p w -> exec p w = (w', r) -> inv w' /\ Q r w'.
Proof.
  revert w. induction p as [a|e|B f k IH|c k IH]; intros w Hi Hok; cbn in *.
  - by intros [= <- <-].
  - by intros [= <- <-].
  - destruct (Hok w (rely_refl i w) Hi) as (_ & Hi' & Hok'). by apply IH.
  - apply IH; [done|]. by apply (Hok w (rely_refl i w) Hi).
Qed.

(** Running the thread at [i] to its end is one of the pool's schedules. *)
Lemma exec_reach (p : prog unit) : forall ts i w, ts !! i = Some p ->
  reach (ts, w) (<[i := of_res (exec p w).2]> ts, (exec p w).1).
Proof.
  induction p as [x|e|B f k IH|c k IH]; intros ts i w Hi; cbn.
  - rewrite list_insert_id by done. apply rtc_refl.
  - rewrite list_insert_id by done. apply rtc_refl.
  - eapply rtc_l; [apply (pool_at ts i _ (k (f w).2) w (f w).1 Hi); constructor|].
    pose proof (IH (f w).2 (<[i := k (f w).2]> ts) i (f w).1
                  (list_lookup_insert_eq _ _ _ (lookup_lt_Some _ _ _ Hi))) as E.
    by rewrite list_insert_insert_eq in E.
  - eapply rtc_l; [apply (pool_at ts i _ (k (c w)) w w Hi); destruct (c w) eqn:E; by constructor|].
    pose proof (IH (c w) (<[i := k (c w)]> ts) i w
                  (list_lookup_insert_eq _ _ _ (lookup_lt_Some _ _ _ Hi))) as E.
    by rewrite list_insert_insert_eq in E.
Qed.

(** At most [n] steps of a thread, alone. *)
Fixpoint exec_n (n : nat) {A} (p : prog A) (w : W) : prog A * W :=
  match n, p with
  | S n', Atom f k => exec_n n' (k (f w).2) (f w).1
  | S n', Wait c k => exec_n n' (k (c w)) w
  | _, _ => (p, w)
  end.
Lemma exec_n_reach n : forall (p : prog unit) ts i w, ts !! i = Some p ->
  reach (ts, w) (<[i := (exec_n n p w).1]> ts, (exec_n n p w).2).
Proof.
  induction n as [|n IH]; intros p ts i w Hi; [rewrite list_insert_id by done; apply rtc_refl|].
  assert (forall q w', pstep p w q w' ->
    reach (ts, w) (<[i := (exec_n n q w').1]> ts, (exec_n n q w').2)) as Hstep.
  { intros q w' Hs. eapply rtc_l; [by apply (pool_at ts i p q w w')|].
    pose proof (IH q (<[i := q]> ts) i w' (list_lookup_insert_eq _ _ _ (lookup_lt_Some _ _ _ Hi))) as E.
    by rewrite list_insert_insert_eq in E. }
  destruct p as [x|e|B f k|c k]; cbn.
  - rewrite list_insert_id by done. apply rtc_refl.
  - rewrite list_insert_id by done. apply rtc_refl.
  - apply Hstep. constructor.
  - apply Hstep. destruct (c w) eqn:E; by constructor.
Qed.

End Prog.
Arguments Ret {W A} a.
Arguments Throw {W A} e.
Arguments Atom {W A B} f k.
Arguments Wait {W A} c k.

(** ** Programs all of whose steps satisfy a relation *)

Section Always.
Context {W : Type} (R : W -> W -> Prop).

Fixpoint always {A} (p : @prog W A) : Prop :=
  match p with
  | Ret _ | Throw _ => True
  | Atom f k => forall w, R w (f w).1 /\ always (k (f w).2)
  | Wait c k => forall b, always (k b)
  end.

Lemma always_ret {A} (a : A) : always (Ret a).
Proof. done. Qed.
Lemma always_throw {A} e : always (A:=A) (Throw e).
Proof. done. Qed.
Lemma always_of_res {A} (r : res A) : always (of_res r).
Proof. by destruct r. Qed.
Lemma always_atomic {A} (f : W -> W * A) : (forall w, R w (f w).1) -> always (atomic f).
Proof. cbn. auto. Qed.
Lemma always_atomic_res {A} (f : W -> W * res A) : (forall w, R w (f w).1) -> always (atomic_res f).
Proof. cbn. intros Hf w. split; [auto|apply always_of_res]. Qed.
Lemma always_bind {A B} (p : @prog W A) (g : A -> @prog W B) :
  always p -> (forall a, always (g a)) -> always (pbind p g).
Proof.
  intros Hp Hg. induction p as [a|e|B' f k IH|c k IH]; cbn in *; auto.
  intros w. destruct (Hp w). auto.
Qed.
Lemma always_catch {A} (p : @prog W A) h : always p -> (forall e, always (h e)) -> always (pcatch p h).
Proof.
  intros Hp Hh. induction p as [a|e|B' f k IH|c k IH]; cbn in *; auto.
  intros w. destruct (Hp w). auto.
Qed.
Lemma always_finally {A} (p : @prog W A) q : always p -> always q -> always (pfinally p q).
Proof.
  intros Hp Hq. induction p as [a|e|B' f k IH|c k IH]; cbn in *; auto.
  - by apply always_bind.
  - by apply always_bind.
  - intros w. destruct (Hp w). auto.
Qed.

(** Running such a program alone composes its steps. *)
Lemma always_exec {A} (p : @prog W A) (R_refl : forall w, R w w)
    (R_trans : forall w1 w2 w3, R w1 w2 -> R w2 w3 -> R w1 w3) :
  always p -> forall w, R w (exec p w).1.
Proof.
  induction p as [a|e|B f k IH|c k IH]; cbn; intros Hp w; auto.
  destruct (Hp w) as [H1 H2]. eapply R_trans; [exact H1|]. by apply IH.
Qed.
End Always.

Notation "x <-- p ;; k" := (pbind p (fun x => k))
  (at level 20, p at level 99, k at level 200) : py_scope.
Notation "p ;;; k" := (pbind p (fun _ => k)) (at level 90, k at level 200, right associativity) : py_scope.
Notation "' pat <-- p ;; k" := (pbind p (fun x => match x with pat => k end))
  (at level 20, pat pattern, p at level 99, k at level 200) : py_scope.
