(* ===== verification/World.v ===== *)
(** * The shared world and the effect gate

    The state the gateway's threads share, its critical sections as [Atom]s, and
    the programs of [EffectPermit] and [EffectGate] ([src/pep/lifecycle.py]).
    [w_trace] is a ghost history: the durable audit records, the policy's decisions
    and the effects on the target, in the order they happened. *)

From S2P Require Import Prelude PyStr Json PyDyn Hash AuditLog Lifecycle Pdp Conc.
Open Scope Z_scope.

(** ** State *)

(** The mutable part of an [EffectPermit]; [po_bound] is the connection id set by
    [bind_durable_release]. *)
Record permit := EffectPermit {
  po_grant : grant; po_released : bool; po_transition : option release_tr;
  po_error : option exn; po_bound : option string }.

Record cancel_result := CancelResult {
  cr_transition : cancel_tr; cr_drained : bool; cr_inflight : Z;
  cr_evidence : bool; cr_stop_started : bool }.

(** [Registry]; the connections are numbers of [w_conns]. *)
Record registry := Registry {
  g_conns : list nat;
  g_slots : Z;
  g_max : Z;
  g_killed : bool;
  g_admission : bool;
  g_producers : Z;
  g_last : option cancel_result }.
Definition registry0 (max_connections : Z) : registry :=
  Registry [] max_connections max_connections false true 0 None.

Inductive event :=
| EvRecord (e : dict)
| EvDecided (attempt : string) (q : request) (d : decision)
| EvConnect (attempt : string) (to : pin)
| EvSend (attempt : string) (request : string)
| EvReply (code : Z) (reason : string)
| EvStopListener.

Record world := World {
  w_log : alog;
  w_ios : nat -> wio;              (** what storage answers to the n-th write *)
  w_nio : nat;
  w_run : run;
  w_permits : gmap string permit;  (** by attempt: an attempt has at most one *)
  w_conns : list conn;
  w_reg : registry;
  w_budgets : budgets;
  w_trace : list event }.

Definition set_run (r : run) (w : world) : world :=
  World (w_log w) (w_ios w) (w_nio w) r (w_permits w) (w_conns w) (w_reg w) (w_budgets w) (w_trace w).
Definition set_permit (a : string) (p : permit) (w : world) : world :=
  World (w_log w) (w_ios w) (w_nio w) (w_run w) (<[a := p]> (w_permits w)) (w_conns w) (w_reg w)
        (w_budgets w) (w_trace w).
Definition set_conns (c : list conn) (w : world) : world :=
  World (w_log w) (w_ios w) (w_nio w) (w_run w) (w_permits w) c (w_reg w) (w_budgets w) (w_trace w).
Definition set_reg (g : registry) (w : world) : world :=
  World (w_log w) (w_ios w) (w_nio w) (w_run w) (w_permits w) (w_conns w) g (w_budgets w) (w_trace w).
Definition set_budgets (b : budgets) (w : world) : world :=
  World (w_log w) (w_ios w) (w_nio w) (w_run w) (w_permits w) (w_conns w) (w_reg w) b (w_trace w).
Definition set_log (l : alog) (w : world) : world :=
  World l (w_ios w) (w_nio w) (w_run w) (w_permits w) (w_conns w) (w_reg w) (w_budgets w) (w_trace w).
Definition tick (w : world) : world :=
  World (w_log w) (w_ios w) (S (w_nio w)) (w_run w) (w_permits w) (w_conns w) (w_reg w)
        (w_budgets w) (w_trace w).
Definition emit (e : event) (w : world) : world :=
  World (w_log w) (w_ios w) (w_nio w) (w_run w) (w_permits w) (w_conns w) (w_reg w) (w_budgets w)
        (w_trace w ++ [e]).

Abbreviation thread := (@prog world).
Definition signal (e : event) : thread unit := atomic (fun w => (emit e w, tt)).

Definition AuditUnhealthy (m : string) : exn := PyExn "AuditUnhealthy" m.
Definition Cancelled (m : string) : exn := PyExn "Cancelled" m.
Definition LifecycleError (m : string) : exn := PyExn "LifecycleError" m.

Section World.
Context `{Digest}.

(** ** The audit log as a shared object *)

Definition do_write (e : dict) (w : world) : world * res string :=
  let '(l, r) := write (w_ios w (w_nio w)) e (w_log w) in
  let w1 := tick (set_log l w) in
  (if is_ok r then emit (EvRecord e) w1 else w1, r).
Definition do_seal (e : dict) (w : world) : world * res string :=
  let '(l, r) := seal_with (w_ios w (w_nio w)) e (w_log w) in
  let w1 := tick (set_log l w) in
  (if is_ok r then emit (EvRecord e) w1 else w1, r).
Definition audit_write (e : dict) : thread string := atomic_res (do_write e).
Definition audit_seal (e : dict) : thread string := atomic_res (do_seal e).
Definition audit_healthy : thread bool := atomic (fun w => (w, l_healthy (w_log w))).
Definition audit_add_secret (s : string) : thread unit :=
  atomic (fun w => (set_log (add_secret s (w_log w)) w, tt)).
(** A hashable value that is no text. *)
Definition audit_add_mixed : thread unit := atomic (fun w => (set_log (set_mixed (w_log w)) w, tt)).

(** ** The run context as a shared object *)

Definition on_run {A} (f : run -> run * A) : thread A :=
  atomic (fun w => let '(r, a) := f (w_run w) in (set_run r w, a)).
Definition run_epoch : thread Z := on_run (fun r => (r, r_epoch r)).
Definition run_inflight_count : thread Z := on_run (fun r => (r, inflight_count r)).

(** ** Connections as shared objects *)

Definition on_conn {A} (c : nat) (dflt : A) (f : conn -> conn * A) : thread A :=
  atomic (fun w => match w_conns w !! c with
                   | Some x => let '(y, a) := f x in (set_conns (<[c := y]> (w_conns w)) w, a)
                   | None => (w, dflt)
                   end).
(** A new connection object and its number. *)
Definition new_conn (id : string) : thread nat :=
  atomic (fun w => (set_conns (w_conns w ++ [conn0 id])%list w, length (w_conns w))).
Definition conn_track (c s : nat) : thread bool := on_conn c false (track_or_reject s).
Definition conn_transfer (c old new : nat) : thread bool := on_conn c false (transfer old new).
Definition conn_terminal (c : nat) : thread bool := on_conn c true (fun x => (x, c_terminal x)).
Definition conn_begin_termination (c : nat) : thread (list nat) := on_conn c [] begin_termination.
Definition conn_shutdown (alive : nat -> bool) (c : nat) (socks : list nat) : thread bool :=
  on_conn c false (shutdown_retained alive socks).

(** ** [EffectPermit] *)

Definition bind_durable_release (a conn_id : string) : thread unit :=
  atomic_res (fun w => match w_permits w !! a with
    | Some p =>
        match po_released p, po_bound p with
        | false, None => (set_permit a (EffectPermit (po_grant p) false (po_transition p) (po_error p)
                                          (Some conn_id)) w, Ok tt)
        | _, _ => (w, Raise (LifecycleError "permit release binding is not mutable"))
        end
    | None => (w, Raise (LifecycleError "no permit"))
    end).
(** [self._released = True; self._run._release(...)]: what the release found. *)
Inductive released := Already (error : option exn) (t : option release_tr)
| Now (p : permit) (t : option release_tr).
Definition do_release (a : string) (w : world) : world * released :=
  match w_permits w !! a with
  | None => (w, Already None None)
  | Some p =>
      if po_released p then (w, Already (po_error p) (po_transition p)) else
      let '(r, t) := release (g_attempt (po_grant p)) (w_run w) in
      let p' := EffectPermit (po_grant p) true t (po_error p) (po_bound p) in
      (set_permit a p' (set_run r w), Now p' t)
  end.
Definition release_record (g : grant) (conn_id : string) (t : release_tr) : dict :=
  [ ("decision", VStr PERMIT_RELEASED);
    ("attempt_id", VStr (g_attempt g));
    ("conn_id", VStr conn_id);
    ("epoch", VInt (g_epoch g));
    ("permit_seq", VInt (g_seq g));
    ("lifecycle_seq", VInt (rt_seq t)) ].
Definition set_release_error (a : string) (e : exn) : thread unit :=
  atomic (fun w => match w_permits w !! a with
    | Some p => (set_permit a (EffectPermit (po_grant p) (po_released p) (po_transition p) (Some e) (po_bound p)) w, tt)
    | None => (w, tt)
    end).
(** [EffectPermit.release]. *)
Definition permit_release (a : string) : thread (option release_tr) :=
  x <-- atomic (do_release a);;
  match x with
  | Already (Some e) _ => Throw e
  | Already None t => Ret t
  | Now p t =>
      match t, po_bound p with
      | Some tr, Some conn_id =>
          pcatch (audit_write (release_record (po_grant p) conn_id tr);;; Ret t)
            (fun e => let err := AuditUnhealthy ("release record failed: " ++ exn_cls e) in
                      set_release_error a err;;; Throw err)
      | _, _ => Ret t
      end
  end.
(** [EffectPermit.abandon_undurable]. *)
Definition abandon_undurable (a : string) : thread unit :=
  atomic (do_release a);;; Ret tt.

(** ** [EffectGate]

    [intents] is the gate's own dictionary; a gate belongs to one handler. *)
Abbreviation intents := (gmap string dict).

Definition commit_intent (gi : intents) (attempt : string) (epoch : Z) (intent : dict) : thread intents :=
  h <-- audit_healthy;;
  if negb h then Throw (AuditUnhealthy "audit sink latched unhealthy before intent") else
  s <-- on_run (authorize attempt epoch);;
  match s with
  | None => Throw (Cancelled "authorization refused by terminal epoch")
  | Some seq =>
      let intent' := dset "lifecycle_seq" (VInt seq) intent in
      pcatch (audit_write intent';;; Ret tt)
        (fun e => Throw (AuditUnhealthy ("intent commit failed: " ++ exn_cls e)));;;
      Ret (<[attempt := intent']> gi)
  end.

(** [issue_permit], which reads [conn.is_terminal()] under the run's lock, and
    creates the [EffectPermit]. *)
Definition do_issue (attempt : string) (epoch : Z) (c : nat) (generation budget : string)
    (w : world) : world * option grant :=
  let terminal := match w_conns w !! c with Some x => c_terminal x | None => true end in
  let '(r, g) := issue_permit attempt epoch terminal generation budget (w_run w) in
  let w1 := set_run r w in
  (match g with
   | Some g => set_permit attempt (EffectPermit g false None None None) w1
   | None => w1
   end, g).
Definition permit_record (attempt conn_id : string) (epoch : Z) (g : grant) (generation budget : string) : dict :=
  [ ("decision", VStr PERMIT);
    ("attempt_id", VStr attempt);
    ("conn_id", VStr conn_id);
    ("epoch", VInt epoch);
    ("lifecycle_seq", VInt (g_seq g));
    ("policy_generation", VStr generation);
    ("budget_binding", VStr budget) ].
Definition intent_matches (intent : dict) (epoch : Z) (conn_id generation budget : string) : bool :=
  negb (String.eqb generation "") && negb (String.eqb budget "") &&
  py_eqb (dget_or "policy_generation" VNull intent) (VStr generation) &&
  py_eqb (dget_or "budget_binding" VNull intent) (VStr budget) &&
  py_eqb (dget_or "epoch" VNull intent) (VInt epoch) &&
  py_eqb (dget_or "conn_id" VNull intent) (VStr conn_id).
Definition acquire_permit (gi : intents) (attempt : string) (epoch : Z) (c : nat) (conn_id : string)
    (generation budget : string) : thread (option grant) :=
  match gi !! attempt with
  | None => Ret None
  | Some intent =>
      if negb (intent_matches intent epoch conn_id generation budget) then Ret None else
      g <-- atomic (do_issue attempt epoch c generation budget);;
      match g with
      | None => Ret None
      | Some g =>
          pcatch (audit_write (permit_record attempt conn_id epoch g generation budget);;; Ret tt)
            (fun e => abandon_undurable attempt;;;
                      Throw (AuditUnhealthy ("permit record failed: " ++ exn_cls e)));;;
          bind_durable_release attempt conn_id;;;
          Ret (Some g)
      end
  end.

Definition attempt_record (g : grant) (conn_id : string) (extra : dict) : dict :=
  dupdate [ ("decision", VStr ATTEMPTED);
            ("attempt_id", VStr (g_attempt g));
            ("conn_id", VStr conn_id);
            ("epoch", VInt (g_epoch g));
            ("permit_seq", VInt (g_seq g)) ] extra.
Definition mark_attempted (g : grant) (conn_id : string) (extra : dict) : thread unit :=
  pcatch (audit_write (attempt_record g conn_id extra);;; Ret tt)
    (fun e => Throw (AuditUnhealthy ("attempt record failed: " ++ exn_cls e))).

(** [settle] is given the permit or only the attempt id. *)
Inductive attempt_ref := OfPermit (g : grant) | OfId (attempt : string).
Definition ref_id (r : attempt_ref) : string :=
  match r with OfPermit g => g_attempt g | OfId a => a end.
Definition settle_record (gi : intents) (r : attempt_ref) (conn_id outcome : string) (extra : dict) : dict :=
  let rec := [ ("decision", VStr outcome); ("attempt_id", VStr (ref_id r)); ("conn_id", VStr conn_id) ] in
  let rec := match r with
             | OfPermit g => dset "epoch" (VInt (g_epoch g)) (dset "permit_seq" (VInt (g_seq g)) rec)
             | OfId a => match gi !! a with
                         | Some intent => dset "epoch" (dget_or "epoch" VNull intent) rec
                         | None => rec
                         end
             end in
  dupdate rec extra.
(** A failed settlement is swallowed. *)
Definition settle (gi : intents) (r : attempt_ref) (conn_id outcome : string) (extra : dict) : thread unit :=
  pcatch (audit_write (settle_record gi r conn_id outcome extra);;; Ret tt) (fun _ => Ret tt).

End World.
