(* ===== verification/Registry.v ===== *)
(** * The live-connection registry and cancellation ([src/pep/gateway.py])

    [Registry], [terminate_all] and [cancel_and_quiesce].  A lock acquisition is
    one step; the two drains are timed waits. *)

From stdpp Require sorting.
From S2P Require Import Prelude PyStr Json PyDyn Hash AuditLog Lifecycle Pdp Conc World.
Open Scope Z_scope.

Definition upd_reg (conns : list nat) (slots : Z) (killed admission : bool) (producers : Z)
    (last : option cancel_result) (g : registry) : registry :=
  Registry conns slots (g_max g) killed admission producers last.

(** ** One critical section each *)

(** [_sem.acquire(blocking=False)]. *)
Definition acquire (g : registry) : registry * bool :=
  if 0 <? g_slots g
  then (upd_reg (g_conns g) (g_slots g - 1) (g_killed g) (g_admission g) (g_producers g) (g_last g) g, true)
  else (g, false).
(** A bounded semaphore refuses to pass its initial value; the error is swallowed. *)
Definition release_slot (g : registry) : registry :=
  if g_slots g <? g_max g
  then upd_reg (g_conns g) (g_slots g + 1) (g_killed g) (g_admission g) (g_producers g) (g_last g) g
  else g.
Definition add (c : nat) (g : registry) : registry * bool :=
  if g_killed g then (g, false)
  else (upd_reg (if bool_decide (c ∈ g_conns g) then g_conns g else (g_conns g ++ [c])%list)
          (g_slots g) (g_killed g) (g_admission g) (g_producers g) (g_last g) g, true).
Definition remove (c : nat) (g : registry) : registry :=
  upd_reg (List.filter (fun d => negb (Nat.eqb c d)) (g_conns g)) (g_slots g) (g_killed g) (g_admission g)
    (g_producers g) (g_last g) g.
Definition begin_producer (g : registry) : registry * bool :=
  if g_killed g || negb (g_admission g) then (g, false)
  else (upd_reg (g_conns g) (g_slots g) (g_killed g) (g_admission g) (g_producers g + 1) (g_last g) g, true).
Definition end_producer (g : registry) : registry * res unit :=
  if g_producers g <=? 0 then (g, Raise (RuntimeError "PRODUCER_ACCOUNTING_UNDERFLOW"))
  else (upd_reg (g_conns g) (g_slots g) (g_killed g) (g_admission g) (g_producers g - 1) (g_last g) g, Ok tt).
(** The kill: the flags, the victims and the emptied set in one acquisition.
    [g_conns] is a set; [list] enumerates it in an order of its own ([listed]). *)
Definition kill (g : registry) : registry * list nat :=
  (upd_reg [] (g_slots g) true false (g_producers g) (g_last g) g, g_conns g).
Definition set_last (r : cancel_result) (g : registry) : registry :=
  upd_reg (g_conns g) (g_slots g) (g_killed g) (g_admission g) (g_producers g) (Some r) g.
(** [rearm] is a deliberate no-op. *)
Definition rearm (g : registry) : registry := g.

Definition on_reg {A} (f : registry -> registry * A) : thread A :=
  atomic (fun w => let '(g, a) := f (w_reg w) in (set_reg g w, a)).
Definition on_reg_ (f : registry -> registry) : thread unit := on_reg (fun g => (f g, tt)).

Fixpoint for_each {A B} (f : A -> thread B) (l : list A) : thread (list B) :=
  match l with
  | [] => Ret []
  | x :: l' => y <-- f x;; ys <-- for_each f l';; Ret (y :: ys)
  end.

Section Registry.
Context `{Digest}.

(** ** [Registry.terminate_all] *)

(** What the outside of the process does to a cancellation: the clock, which
    sockets are still live, whether stopping the listener raises. *)
Record kill_env := KillEnv {
  ke_now : Z;
  ke_alive : nat -> bool;
  ke_stop : option (res unit);        (** [stop_listener], absent or its outcome *)
  ke_listener_closed : bool;          (** [listener_closed.wait] *)
  ke_order : nat -> Z }.              (** the set's iteration order *)
(** [list(self._conns)]: the members in some order, by their keys. *)
Definition earlier (e : kill_env) (c d : nat) : Prop := ke_order e c <= ke_order e d.
#[export] Instance earlier_dec e : RelDecision (earlier e).
Proof. intros c d. unfold earlier. apply _. Defined.
Definition listed (e : kill_env) (l : list nat) : list nat := sorting.merge_sort (earlier e) l.
Lemma listed_perm e l : Permutation (listed e l) l.
Proof. apply sorting.merge_sort_Permutation. Qed.

Definition conn_id_of (c : nat) : thread string := on_conn c "" (fun x => (x, c_id x)).
Definition stop_listener (e : kill_env) : thread bool :=
  match ke_stop e with
  | None => Ret true
  | Some r => signal EvStopListener;;; Ret (is_ok r)
  end.
Definition drain (c : world -> bool) : thread bool := Wait c Ret.
Definition run_drained (w : world) : bool := bool_decide (r_inflight (w_run w) = ∅).
Definition producers_drained (w : world) : bool := g_producers (w_reg w) =? 0.

(** [on_linearized], when given, is the evidence callback. *)
Definition terminate_all (e : kill_env) (on_linearized : option (cancel_tr -> thread unit))
    : thread (list string * list string) :=
  t <-- on_run (cancel (ke_now e));;
  taken <-- on_reg kill;;
  let victims := listed e taken in
  retained <-- for_each (fun c => socks <-- conn_begin_termination c;; Ret (c, socks)) victims;;
  torn <-- for_each (fun cs => live <-- conn_shutdown (ke_alive e) cs.1 cs.2;;
                               id <-- conn_id_of cs.1;; Ret (id, live)) retained;;
  started <-- stop_listener e;;
  durable <-- match on_linearized with
              | None => Ret true
              | Some f => pcatch (f t;;; Ret true) (fun _ => Ret false)
              end;;
  drained <-- drain run_drained;;
  remaining <-- run_inflight_count;;
  on_reg_ (set_last (CancelResult t drained remaining durable started));;;
  ids <-- for_each conn_id_of victims;;
  Ret (map fst (List.filter (fun p => snd p) torn), ids).

(** ** [cancel_and_quiesce] *)

Definition requested_record (t : cancel_tr) : dict :=
  [ ("decision", VStr CANCEL_REQUESTED); ("reason", VStr "STOP_ALL_PRESENT");
    ("cancellation_epoch", VInt (ct_new_epoch t)); ("lifecycle_seq", VInt (ct_seq t)) ].
Definition linearized_record (t : cancel_tr) : dict :=
  [ ("decision", VStr CANCEL_LINEARIZED);
    ("cancelled_epoch", VInt (ct_cancelled_epoch t));
    ("new_epoch", VInt (ct_new_epoch t));
    ("lifecycle_seq", VInt (ct_seq t));
    ("inflight_at_linearization", VInt (ct_inflight t)) ].
Definition record_linearization (t : cancel_tr) : thread unit :=
  audit_write (requested_record t);;; audit_write (linearized_record t);;; Ret tt.

(** The counts [cancel_and_quiesce] finds after the two drains. *)
Record drained_state := DrainedState {
  dr_effects : Z; dr_producers : Z; dr_listener : bool; dr_started : bool;
  dr_epoch : Z; dr_transition : option cancel_tr }.
Definition blockers (s : drained_state) : list string :=
  ((if dr_effects s =? 0 then [] else ["EFFECT_PERMITS_REMAIN"]) ++
   (if dr_producers s =? 0 then [] else ["AUDIT_PRODUCERS_REMAIN"]) ++
   (if dr_listener s && dr_started s then [] else ["LISTENER_NOT_STOPPED"]))%list.
Definition quiescent (s : drained_state) : bool := bool_decide (blockers s = []).
Definition common (s : drained_state) : dict :=
  [ ("cancellation_epoch", VInt (dr_epoch s));
    ("lifecycle_seq", opt_val (fun t => VInt (ct_seq t)) (dr_transition s));
    ("local_drain_complete", VBool (quiescent s));
    ("inflight_remaining", VInt (dr_effects s + dr_producers s));
    ("effect_permits_remaining", VInt (dr_effects s));
    ("audit_producers_remaining", VInt (dr_producers s));
    ("listener_state", VStr (if dr_listener s && dr_started s then "STOPPED" else "NOT_STOPPED"));
    ("external_enforcement", VStr "NOT_RUN_PHASE1") ].
Definition str_list (l : list string) : val := VList (map VStr l).
Definition kill_record (torn snapshot : list string) (s : drained_state) : dict :=
  dupdate [ ("decision", VStr "KILL_SWITCH");
            ("reason", VStr "STOP_ALL_TORE_DOWN_LIVE_CONNECTIONS");
            ("connections_terminated", VInt (Z.of_nat (length torn)));
            ("terminated_conn_ids", str_list torn);
            ("registered_at_kill", str_list snapshot) ] (common s).
Definition timeout_record (s : drained_state) : dict :=
  dupdate [ ("decision", VStr CANCEL_DRAIN_TIMEOUT); ("ack_scope", VStr "NO_ACK_DRAIN_INCOMPLETE");
            ("closure_blockers", str_list (blockers s)) ] (common s).
Definition ack_record (s : drained_state) : dict :=
  dupdate [ ("decision", VStr CANCEL_ACK); ("ack_scope", VStr "LOCAL_IN_PROCESS_DRAIN_ONLY") ] (common s).
Definition closed_record (t : cancel_tr) : dict :=
  [ ("decision", VStr RUN_CLOSED);
    ("closure_schema", VStr "E10-run-close-v1");
    ("closure_sequence", VInt (ct_seq t));
    ("closure_state", VStr "CLOSED");
    ("admission_state", VStr "TERMINAL");
    ("inflight_remaining", VInt 0);
    ("effect_permits_remaining", VInt 0);
    ("audit_producers_remaining", VInt 0);
    ("listener_state", VStr "STOPPED");
    ("seal_action", VStr "FINAL_FSYNC_THEN_ATOMIC_SEAL");
    ("cancellation_disposition", VStr CANCEL_ACK) ].

Record outcome := Outcome {
  oc_state : drained_state; oc_evidence : bool; oc_sealed : bool; oc_failure : option string }.

(** The evidence and the seal, once the counts are in. *)
Definition certify (torn snapshot : list string) (s : drained_state) (durable : bool) : thread bool :=
  if negb durable then Throw (RuntimeError "CANCELLATION_EVIDENCE_NOT_DURABLE") else
  h <-- audit_healthy;;
  if negb h then Throw (RuntimeError "AUDIT_SINK_UNHEALTHY_BEFORE_KILL_EVIDENCE") else
  audit_write (kill_record torn snapshot s);;;
  if negb (quiescent s) then audit_write (timeout_record s);;; Ret false else
  audit_write (ack_record s);;;
  match dr_transition s with
  | Some t => audit_seal (closed_record t);;; Ret true
  | None => Throw (AttrError "lifecycle_seq")
  end.
Definition cancel_and_quiesce (e : kill_env) : thread outcome :=
  '(torn, snapshot) <-- terminate_all e (Some record_linearization);;
  last <-- on_reg (fun g => (g, g_last g));;
  drain producers_drained;;;
  effects <-- run_inflight_count;;
  producers <-- on_reg (fun g => (g, g_producers g));;
  epoch <-- run_epoch;;
  let durable := match last with Some r => cr_evidence r | None => false end in
  let started := match last with Some r => cr_stop_started r | None => false end in
  let s := DrainedState effects producers (ke_listener_closed e) started epoch (cr_transition <$> last) in
  pcatch (sealed <-- certify torn snapshot s durable;; Ret (Outcome s durable sealed None))
    (fun x => Ret (Outcome s durable false (Some (exn_cls x)))).

End Registry.
