(* ===== verification/Gateway.v ===== *)
(** * The execution gateway's handler ([src/pep/gateway.py])

    [do_CONNECT], the tunnel and the relay as a thread of the shared world.  What
    the network, TLS, the certificate authority and the policy answer to one
    connection is the record [client]; the theorems quantify over it. *)

From S2P Require Import Prelude PyStr Json PyDyn Hash AuditLog IpAddr Addressing Resolver Lifecycle.
From S2P Require Import Pdp Conc World Registry.
Open Scope Z_scope.

(** ** The environment of one connection *)

Record pdp_env := PdpEnv {
  pe_policy : res val; pe_killed : bool; pe_now : val; pe_resolve : string -> res resolution }.
(** One turn of the relay: the deadline, [up.recv], [tls.sendall]. *)
Record relay_turn := RelayTurn { rt_late : bool; rt_recv : res string; rt_client : res unit }.

Record client := Client {
  cl_ip : string;
  cl_target : string;                       (** the target of the CONNECT line *)
  cl_header : string -> option string;      (** its headers *)
  cl_conn_id : string; cl_attempt : string; (** the two uuids drawn *)
  cl_pdp_connect : pdp_env; cl_pdp_request : pdp_env; cl_pdp_recheck : pdp_env;
  cl_leaf : res unit;                       (** [ca.leaf_for] *)
  cl_established : res unit;                (** sending the 200 *)
  cl_load_chain : res unit; cl_settimeout : res unit; cl_handshake : res unit;
  cl_sni : option string;
  cl_chunks : list (res string);            (** [recv] inside the tunnel, then end of file *)
  cl_up_context : res unit;                 (** [ssl.create_default_context] *)
  cl_socket : res unit;
  cl_connect : res unit; cl_up_handshake : res unit;
  cl_up_send : res unit;
  cl_relay : list relay_turn;
  cl_raw : nat; cl_tls : nat; cl_plain : nat; cl_up : nat;  (** socket handles *)
  cl_alive : nat -> bool }.
Definition header (c : client) (k : string) : string := default "" (cl_header c k).

(** The connection's own state; [cs_obj] is its [ConnectionLifecycle]. *)
Record conn_state := ConnState {
  cs_obj : nat; cs_row : string; cs_nonce : string; cs_pin : option pin; cs_canonical : string;
  cs_program : string; cs_generation : string; cs_budget : string }.

Section Gateway.
Context `{Digest} `{Idna}.

(** ** Denials *)

Definition ids (c : client) (s : conn_state) : dict :=
  [ ("conn_id", VStr (cl_conn_id c)); ("row_id", VStr (cs_row s)); ("test_nonce", VStr (cs_nonce s)) ].
Definition blocked (reason url method : string) : dict :=
  [ ("decision", VStr "BLOCKED_BY_POLICY"); ("reason", VStr reason); ("url", VStr url); ("method", VStr method) ].
(** [_deny]: failures of the reply are swallowed, those of the audit are not. *)
Definition deny_record (reason url method src : string) (who : option (client * conn_state)) : dict :=
  (blocked reason url method ++ ("src", VStr src) ::
   match who with
   | Some (c, s) => if String.eqb (cl_conn_id c) "" then [] else ids c s
   | None => []
   end)%list.
Definition deny_plain (reason url method src : string) (code : Z) (who : option (client * conn_state)) : thread unit :=
  signal (EvReply code reason);;; audit_write (deny_record reason url method src who);;; Ret tt.
(** [_deny_tls]. *)
Definition deny_tls_record (reason url method : string) (c : client) (s : conn_state) : dict :=
  (blocked reason url method ++ ("tls", VBool true) :: ids c s)%list.
Definition deny_tls (reason url method : string) (c : client) (s : conn_state) : thread unit :=
  signal (EvReply 403 reason);;; audit_write (deny_tls_record reason url method c s);;; Ret tt.

(** ** Reading the request head *)

Definition crlf : string := String "013" (String newline "").
Definition is_in_buf (buf : string) : bool := contains (crlf ++ crlf) buf.
Definition head_limit : nat := Z.to_nat 262144.
Fixpoint fill (buf : string) (chunks : list (res string)) : res (option string) :=
  if is_in_buf buf then Ok (Some buf) else
  match chunks with
  | [] => Ok None
  | Raise e :: _ => Raise e
  | Ok "" :: _ => Ok None
  | Ok chunk :: rest =>
      let buf' := buf ++ chunk in
      if (262144 <? Z.of_nat (String.length buf')) then Ok None else fill buf' rest
  end.
Definition parse_headers (lines : list string) : gmap string string :=
  foldl (fun hs ln => match split1 ":" ln with
                      | [k; v] => <[str_lower (str_strip k) := str_strip v]> hs
                      | _ => hs
                      end) ∅ lines.
(** [lines[0].split(" ", 2)] with three parts. *)
Definition request_line (l : string) : option (string * string) :=
  match split1 " " l with
  | [m; rest] => match split1 " " rest with [p; _] => Some (m, p) | _ => None end
  | _ => None
  end.
Record head := Head { h_method : string; h_path : string; h_headers : gmap string string; h_rest : string }.
Definition parse_head (buf : string) : option head :=
  let '(hd, _, rest) := partition_str (crlf ++ crlf) buf in
  match split_str crlf hd with
  | [] => None
  | first :: lines =>
      match request_line first with
      | Some (m, p) => Some (Head m p (parse_headers lines) rest)
      | None => None
      end
  end.
Definition read_head (chunks : list (res string)) : res (option head) :=
  buf <- fill "" chunks;;
  match buf with Some b => Ok (parse_head b) | None => Ok None end.

(** The host of the Host header. *)
Definition host_of_header (h : string) : string :=
  if startswith "[" h then hd "" (split "]" h) ++ "]" else hd "" (split ":" h).
Definition show_opt (o : option string) : string := default "None" o.

(** ** The decision *)

Definition ask (attempt : string) (e : pdp_env) (q : request) : thread decision :=
  atomic_res (fun w =>
    let '(b, r) := PDP.decide (pe_policy e) (pe_killed e) (pe_now e) (pe_resolve e) q (w_budgets w) in
    let w1 := set_budgets b w in
    (match r with Ok d => emit (EvDecided attempt q d) w1 | Raise _ => w1 end, r)).
(** [str((d.detail or {}).get(k, ""))]. *)
Definition detail (k : string) (d : decision) : string := py_str (dget_or k (VStr "") (d_detail d)).
Definition connect_request (c : client) (host : string) (port : Z) : request :=
  Request (cl_ip c) host port "CONNECT" (header c "X-Strix-Session") (header c "X-Strix-Asset")
    (header c "X-Strix-Cred") None.
Definition tunnel_request (c : client) (s : conn_state) (port : Z) (method : string) : request :=
  Request (cl_ip c) (cs_canonical s) port method (header c "X-Strix-Session") (header c "X-Strix-Asset")
    (header c "X-Strix-Cred") (cs_pin s).

(** ** The relay *)

Definition strip_sign (s : string) : bool * string :=
  match s with String "-" t => (true, t) | String "+" t => (false, t) | _ => (false, s) end.
(** [int(chunk.split(b" ", 2)[1])], 0 on any failure. *)
Definition status_of (chunk : string) : Z :=
  match split " " chunk with
  | _ :: w :: _ =>
      match strip_underscores false (snd (strip_sign (b_strip w))) with
      | Some t => match int_of_digits t with
                  | Some n => if Nat.ltb 4300 (String.length t) then 0
                            else if fst (strip_sign (b_strip w)) then - n else n
                  | None => 0
                  end
      | None => 0
      end
  | _ => 0
  end.
Record relayed := Relayed { rl_status : Z; rl_body : string; rl_failed : option exn }.
Fixpoint relay (turns : list relay_turn) (first : bool) (status : Z) (body : string) : relayed :=
  match turns with
  | [] => Relayed status body None
  | t :: rest =>
      if rt_late t then Relayed status body (Some (PyExn "TimeoutError" "total_timeout")) else
      match rt_recv t with
      | Raise e => Relayed status body (Some e)
      | Ok "" => Relayed status body None
      | Ok chunk =>
          let status' := if first then status_of chunk else status in
          match rt_client t with
          | Raise e => Relayed status' (body ++ chunk) (Some e)
          | Ok _ => relay rest false status' (body ++ chunk)
          end
      end
  end.
Definition total (r : relayed) : Z := Z.of_nat (String.length (rl_body r)).

(** The bytes of the upstream request. *)
Definition request_lines (hd : head) (canon secret : string) : list string :=
  [h_method hd ++ " " ++ h_path hd ++ " HTTP/1.1"; "Host: " ++ canon; "Connection: close"; "Accept: */*"].
Definition secret_lines (secret : string) : list string :=
  if String.eqb secret "" then [] else ["Authorization: Bearer " ++ secret].
Definition length_lines (body : string) : list string :=
  if String.eqb body "" then [] else ["Content-Length: " ++ show_nat (String.length body)].
Definition raw_request (hd : head) (canon secret : string) : string :=
  utf8 (join crlf (app (request_lines hd canon secret)
                       (app (secret_lines secret) (length_lines (h_rest hd)))) ++ crlf ++ crlf) ++ h_rest hd.

(** ** After the permit *)

(** What the tunnel has established when the permit is asked for. *)
Record tunnel := Tunnel {
  t_client : client; t_state : conn_state; t_head : head; t_label : string; t_pin : pin;
  t_secret : val; t_epoch : Z; t_intents : gmap string dict; t_digest : string }.
Definition t_url (t : tunnel) : string := t_label t ++ h_path (t_head t).
Definition refuse (t : tunnel) (reason : string) : thread unit :=
  deny_tls reason (t_url t) (h_method (t_head t)) (t_client t) (t_state t).
Definition settle_t (t : tunnel) (r : attempt_ref) (outcome : string) (extra : dict) : thread unit :=
  settle (t_intents t) r (cl_conn_id (t_client t)) outcome extra.
Definition pin_val (p : pin) : val := VList [VStr (pin_family p); VStr (pin_ip p); VInt (pin_port p)].

Definition terminated_record (t : tunnel) (e : exn) (bytes : Z) : dict :=
  [ ("decision", VStr "CONNECTION_TERMINATED"); ("reason", VStr (exn_cls e)); ("url", VStr (t_url t));
    ("method", VStr (h_method (t_head t))); ("bytes_streamed", VInt bytes);
    ("conn_id", VStr (cl_conn_id (t_client t))); ("attempt_id", VStr (cl_attempt (t_client t)));
    ("test_nonce", VStr (cs_nonce (t_state t))); ("row_id", VStr (cs_row (t_state t)));
    ("pin", pin_val (t_pin t)) ].
Definition allow_record (t : tunnel) (r : relayed) : dict :=
  [ ("decision", VStr "ALLOW"); ("reason", VStr "ALLOW"); ("url", VStr (t_url t));
    ("method", VStr (h_method (t_head t))); ("src", VStr (cl_ip (t_client t)));
    ("program_id", VStr (cs_program (t_state t)));
    ("conn_id", VStr (cl_conn_id (t_client t))); ("attempt_id", VStr (cl_attempt (t_client t)));
    ("test_nonce", VStr (cs_nonce (t_state t))); ("row_id", VStr (cs_row (t_state t)));
    ("tls_intercepted", VBool true); ("canonical_host", VStr (cs_canonical (t_state t)));
    ("sni", opt_val VStr (cl_sni (t_client t)));
    ("pin_family", VStr (pin_family (t_pin t))); ("pin_ip", VStr (pin_ip (t_pin t)));
    ("pin_port", VInt (pin_port (t_pin t))); ("upstream_status", VInt (rl_status r));
    ("redirect_followed", VBool false); ("credential_injected", VBool (truthy (t_secret t)));
    ("streamed_bytes", VInt (total r)); ("request_hash", VStr (t_digest t));
    ("request_hash_semantics", VStr "sanitized-intent-v2");
    ("response_hash", VStr (sha256 (rl_body r))) ].
Definition inside_relay (t : tunnel) (g : grant) : thread unit :=
  let r := relay (cl_relay (t_client t)) true 0 "" in
  match rl_failed r with
  | Some e =>
      settle_t t (OfPermit g) UNKNOWN [("reason", VStr (exn_cls e)); ("bytes_streamed", VInt (total r))];;;
      audit_write (terminated_record t e (total r));;; Ret tt
  | None =>
      settle_t t (OfPermit g) COMPLETED
        [("upstream_status", VInt (rl_status r)); ("response_hash", VStr (sha256 (rl_body r)));
         ("streamed_bytes", VInt (total r))];;;
      audit_write (allow_record t r);;; Ret tt
  end.

Definition inside_send (t : tunnel) (g : grant) : thread unit :=
  let secret := if truthy (t_secret t) then py_str (t_secret t) else "" in
  signal (EvSend (cl_attempt (t_client t)) (raw_request (t_head t) (cs_canonical (t_state t)) secret));;;
  match cl_up_send (t_client t) with
  | Raise e =>
      settle_t t (OfPermit g) UNKNOWN [("reason", VStr ("UPSTREAM_WRITE:" ++ exn_cls e))];;;
      refuse t ("UPSTREAM_WRITE:" ++ exn_cls e)
  | Ok _ => inside_relay t g
  end.

Definition cert_record (t : tunnel) (e : exn) : dict :=
  [ ("decision", VStr "BLOCKED_BY_POLICY"); ("reason", VStr "UPSTREAM_CERT_INVALID");
    ("detail", VStr (take 160 (exn_msg e))); ("url", VStr (t_url t)); ("pin", pin_val (t_pin t));
    ("conn_id", VStr (cl_conn_id (t_client t))); ("row_id", VStr (cs_row (t_state t)));
    ("test_nonce", VStr (cs_nonce (t_state t))) ].
(** The three handlers of a failed connect or upstream handshake. *)
Definition connect_failed (t : tunnel) (g : grant) (e : exn) : thread unit :=
  if String.eqb (exn_cls e) "SSLCertVerificationError" then
    settle_t t (OfPermit g) UNKNOWN [("reason", VStr "UPSTREAM_CERT_INVALID")];;;
    audit_write (cert_record t e);;; refuse t "UPSTREAM_CERT_INVALID"
  else if String.eqb (exn_cls e) "TimeoutError" then
    settle_t t (OfPermit g) UNKNOWN [("reason", VStr "CONNECT_TIMEOUT")];;;
    refuse t "UPSTREAM_ERROR:TimeoutError"
  else
    settle_t t (OfPermit g) UNKNOWN [("reason", VStr ("UPSTREAM_ERROR:" ++ exn_cls e))];;;
    refuse t ("UPSTREAM_ERROR:" ++ exn_cls e).
(** [Some tt] once the upstream is connected and owned; [None] when the denial is
    already made. An exception of the two calls, or of the denial of a lost
    transfer, is what the three handlers see. *)
Definition inside_connect (t : tunnel) (g : grant) : thread unit :=
  let c := t_client t in
  signal (EvConnect (cl_attempt c) (t_pin t));;;
  connected <-- pcatch
    (of_res (cl_connect c);;; of_res (cl_up_handshake c);;;
     owned <-- conn_transfer (cs_obj (t_state t)) (cl_plain c) (cl_up c);;
     if negb owned then
       settle_t t (OfPermit g) UNKNOWN [("reason", VStr "TERMINAL_DURING_TLS")];;;
       refuse t "CANCELLED_DURING_TLS";;; Ret false
     else Ret true)
    (fun e => connect_failed t g e;;; Ret false);;
  if connected : bool then inside_send t g else Ret tt.

(** From the permit to the first effect. *)
Definition inside_permitted (t : tunnel) (g : grant) : thread unit :=
  let c := t_client t in
  terminal <-- conn_terminal (cs_obj (t_state t));;
  if terminal : bool then
    settle_t t (OfPermit g) CANCELLED [("reason", VStr "TERMINAL_BEFORE_ATTEMPT")];;;
    refuse t "CANCELLED_BEFORE_ATTEMPT"
  else
    marked <-- pcatch
      (mark_attempted g (cl_conn_id c)
         [("pin_ip", VStr (pin_ip (t_pin t))); ("pin_port", VInt (pin_port (t_pin t)))];;; Ret None)
      (fun e => if String.eqb (exn_cls e) "AuditUnhealthy" then Ret (Some e) else Throw e);;
    match marked with
    | Some e => refuse t ("AUDIT_UNHEALTHY:" ++ exn_cls e)
    | None => inside_connect t g
    end.

(** The upstream socket and the permit, which the [finally] releases. *)
Definition inside_effect (t : tunnel) (generation budget : string) : thread unit :=
  let c := t_client t in let obj := cs_obj (t_state t) in let a := cl_attempt c in
  match cl_socket c with
  | Raise e =>
      settle_t t (OfId a) FAILED [("reason", VStr ("SOCKET_CREATE:" ++ exn_cls e))];;;
      refuse t ("UPSTREAM_ERROR:" ++ exn_cls e)
  | Ok _ =>
      tracked <-- conn_track obj (cl_plain c);;
      if negb tracked then
        settle_t t (OfId a) CANCELLED [("reason", VStr "TERMINAL_BEFORE_CONNECT")];;;
        refuse t "KILL_SWITCH_ACTIVE"
      else
        got <-- pcatch
          (g <-- acquire_permit (t_intents t) a (t_epoch t) obj (cl_conn_id c) generation budget;; Ret (inl g))
          (fun e => if String.eqb (exn_cls e) "AuditUnhealthy" then Ret (inr e) else Throw e);;
        match got with
        | inr e => refuse t ("AUDIT_UNHEALTHY:" ++ exn_cls e)
        | inl None =>
            settle_t t (OfId a) CANCELLED [("reason", VStr "EPOCH_TERMINAL_OR_BINDING_AT_PERMIT")];;;
            refuse t "CANCELLED_AT_PERMIT"
        | inl (Some g) => pfinally (inside_permitted t g) (permit_release a;;; Ret tt)
        end
  end.

(** ** Intent and recheck *)

Definition intent_of (c : client) (s : conn_state) (run_id : string) (epoch : Z) (hd : head)
    (generation budget : string) : intent_args :=
  IntentArgs run_id (cl_conn_id c) (cl_attempt c) epoch (cs_program s) generation (h_method hd)
    (cs_canonical s) (h_path hd) (cs_pin s) (or_none (header c "X-Strix-Cred")) budget
    (Z.of_nat (String.length (h_rest hd))).
Definition audit_run_id : thread string := atomic (fun w => (w, l_run_id (w_log w))).

(** The re-read decision differs from what the intent committed to. *)
Definition recheck_fails (s : conn_state) (generation budget : string) (d : decision) : bool :=
  negb (d_allow d) || negb (bool_decide (d_program d = Some (cs_program s))) ||
  negb (bool_decide (d_pin d = cs_pin s)) ||
  negb (String.eqb (detail "policy_generation" d) generation) ||
  negb (String.eqb (detail "budget_binding" d) budget).

Definition inside_recheck (t : tunnel) (port : Z) (generation budget : string) : thread unit :=
  let c := t_client t in let a := cl_attempt c in
  got <-- pcatch (d <-- ask a (cl_pdp_recheck c) (tunnel_request c (t_state t) port (h_method (t_head t)));;
                  Ret (inl d)) (fun e => Ret (inr e));;
  match got with
  | inr e =>
      settle_t t (OfId a) FAILED [("reason", VStr ("PDP_RECHECK:" ++ exn_cls e))];;;
      refuse t ("PDP_FAILURE:" ++ exn_cls e)
  | inl d =>
      if recheck_fails (t_state t) generation budget d then
        settle_t t (OfId a) FAILED [("reason", VStr "AUTHORIZATION_RECHECK_FAILED")];;;
        refuse t "AUTHORIZATION_RECHECK_FAILED"
      else
        of_res (cl_up_context c);;;
        inside_effect t (detail "policy_generation" d) (detail "budget_binding" d)
  end.

Definition inside_commit (c : client) (s : conn_state) (port : Z) (hd : head) (label : string) (p : pin)
    (d : decision) : thread unit :=
  epoch <-- run_epoch;;
  let generation := detail "policy_generation" d in
  let budget := detail "budget_binding" d in
  let deny r := deny_tls r (label ++ h_path hd) (h_method hd) c s in
  if negb (String.eqb generation (cs_generation s)) || negb (String.eqb budget (cs_budget s))
  then deny "AUTHORIZATION_BINDING_CHANGED" else
  run_id <-- audit_run_id;;
  let args := intent_of c s run_id epoch hd generation budget in
  let digest := request_intent_digest (h_method hd) (cs_canonical s) (h_path hd)
                  (Z.of_nat (String.length (h_rest hd))) in
  got <-- pcatch (gi <-- commit_intent ∅ (cl_attempt c) epoch (sanitized_intent args);; Ret (inl gi))
    (fun e => if mem_str (exn_cls e) ["AuditUnhealthy"; "Cancelled"] then Ret (inr e) else Throw e);;
  match got with
  | inr e => deny ("AUDIT_UNHEALTHY:" ++ exn_cls e)
  | inl gi =>
      inside_recheck (Tunnel c s hd label p (d_secret d) epoch gi (drop 7 digest)) port generation budget
  end.

(** ** The tunnel *)

(** [if d.secret: self.audit.add_secret(d.secret)]. The set takes any hashable
    value; one that is no text makes every later write raise. *)
Definition add_secret_of (d : decision) : thread unit :=
  if negb (truthy (d_secret d)) then Ret tt else
  match d_secret d with
  | VStr s => audit_add_secret s
  | VList _ | VDict _ => Throw (TypeError "unhashable type")
  | _ => audit_add_mixed
  end.
Definition malformed_record (label : string) (c : client) (s : conn_state) : dict :=
  ([ ("decision", VStr "BLOCKED_BY_POLICY"); ("reason", VStr "MALFORMED_HTTP_IN_TUNNEL"); ("url", VStr label) ]
   ++ ids c s)%list.
Definition inside_request (c : client) (s : conn_state) (port : Z) (label : string) (p : pin) (hd : head)
    : thread unit :=
  let url := label ++ h_path hd in
  let host := canonical_host (host_of_header (default "" (h_headers hd !! "host"))) in
  if negb (bool_decide (host = Some (cs_canonical s)))
  then deny_tls ("HOST_HEADER_MISMATCH:" ++ show_opt host ++ "!=" ++ cs_canonical s) url (h_method hd) c s else
  got <-- pcatch (d <-- ask (cl_attempt c) (cl_pdp_request c) (tunnel_request c s port (h_method hd));; Ret (inl d))
                 (fun e => Ret (inr e));;
  match got with
  | inr e => deny_tls ("PDP_FAILURE:" ++ exn_cls e) url (h_method hd) c s
  | inl d =>
      if negb (d_allow d) then deny_tls (d_reason d) url (h_method hd) c s else
      add_secret_of d;;; inside_commit c s port hd label p d
  end.
Definition inside (c : client) (s : conn_state) (port : Z) (p : pin) : thread unit :=
  let label := "https://" ++ cs_canonical s ++ ":" ++ show_Z port in
  if match cl_sni c with
     | Some sni => negb (bool_decide (canonical_host sni = Some (cs_canonical s)))
     | None => false
     end
  then deny_tls ("SNI_MISMATCH:" ++ show_opt (cl_sni c) ++ "!=" ++ cs_canonical s) label "CONNECT" c s else
  hd <-- of_res (read_head (cl_chunks c));;
  match hd with
  | None => audit_write (malformed_record label c s);;; Ret tt
  | Some hd => inside_request c s port label p hd
  end.

(** ** CONNECT *)

Definition connect_url (c : client) : string := "CONNECT " ++ cl_target c.
Definition hello_record (c : client) (s : conn_state) (e : exn) : dict :=
  ([ ("decision", VStr "BLOCKED_BY_POLICY"); ("reason", VStr "MALFORMED_TLS_CLIENT_HELLO");
     ("detail", VStr (exn_cls e)); ("url", VStr (connect_url c)); ("method", VStr "CONNECT") ] ++ ids c s)%list.
(** The TLS server side: certificate, handshake, ownership. *)
Definition connect_tls (c : client) (s : conn_state) (port : Z) (p : pin) : thread unit :=
  let deny r := deny_plain r (connect_url c) "CONNECT" (cl_ip c) 403 (Some (c, s)) in
  match cl_leaf c with
  | Raise e => if String.eqb (exn_cls e) "CAError" then deny ("CERT_MINT_FAILED:" ++ exn_msg e) else Throw e
  | Ok _ =>
      of_res (cl_established c);;;
      match cl_load_chain c with
      | Raise e => deny ("CERT_LOAD_FAILED:" ++ exn_cls e)
      | Ok _ =>
          conn_track (cs_obj s) (cl_raw c);;;
          of_res (cl_settimeout c);;;
          match cl_handshake c with
          | Raise e =>
              if os_error e
              then audit_write (hello_record c s e);;; Ret tt else Throw e
          | Ok _ =>
              owned <-- conn_transfer (cs_obj s) (cl_raw c) (cl_tls c);;
              if negb owned then Ret tt else inside c s port p
          end
      end
  end.
Definition connect_flow (c : client) (s : conn_state) (host : string) (port : Z) : thread unit :=
  let deny r := deny_plain r (connect_url c) "CONNECT" (cl_ip c) 403 (Some (c, s)) in
  got <-- pcatch (d <-- ask (cl_attempt c) (cl_pdp_connect c) (connect_request c host port);; Ret (inl d))
                 (fun e => Ret (inr e));;
  match got with
  | inr e => deny ("PDP_FAILURE:" ++ exn_cls e)
  | inl d =>
      if negb (d_allow d) then deny (d_reason d) else
      match d_pin d, canonical_host host with
      | Some p, Some canon =>
          connect_tls c (ConnState (cs_obj s) (cs_row s) (cs_nonce s) (Some p) canon
                           (default "" (d_program d)) (detail "policy_generation" d)
                           (detail "budget_binding" d)) port p
      | _, _ => Throw (TypeError "allow without pin or host")
      end
  end.

(** [int(p)] of digits, which refuses superscripts and more than 4300 digits. *)
Definition py_int (s : string) : res Z :=
  if Nat.ltb 4300 (String.length s) then Raise (ValErr "int") else
  match int_of_digits s with Some n => Ok n | None => Raise (ValErr "int") end.
Definition refusal_record (reason : string) (c : client) (s : conn_state) : dict :=
  (blocked reason (connect_url c) "CONNECT" ++ ids c s ++ [("src", VStr (cl_ip c))])%list.
Definition state0 (c : client) (obj : nat) : conn_state :=
  ConnState obj (header c "X-Strix-Row") (header c "X-Strix-Nonce") None "" "" "" "".
(** The [finally] of [do_CONNECT]. *)
Definition close_connection (c : client) (obj : nat) : thread unit :=
  on_conn obj false (terminate (cl_alive c));;; on_reg_ (remove obj);;; on_reg_ release_slot.
(** Whether the connection is closed: the two early denials leave it open. *)
Definition do_CONNECT (c : client) : thread bool :=
  let '(host, sep, p) := rpartition ":" (cl_target c) in
  if negb sep || negb (str_isdigit p)
  then deny_plain "MALFORMED_CONNECT_TARGET" (connect_url c) "CONNECT" (cl_ip c) 403 None;;; Ret false else
  port <-- of_res (py_int p);;
  slot <-- on_reg acquire;;
  if negb slot
  then deny_plain "CONCURRENCY_LIMIT_REACHED" (connect_url c) "CONNECT" (cl_ip c) 503 None;;; Ret false else
  obj <-- new_conn (cl_conn_id c);;
  let s := state0 c obj in
  pfinally
    (pcatch
      (admitted <-- on_reg (add obj);;
       if negb admitted then audit_write (refusal_record "KILL_SWITCH_ACTIVE" c s);;; Ret tt
       else connect_flow c s host port)
      (fun e => audit_write (refusal_record ("INTERNAL_FAILURE:" ++ exn_cls e) c s);;; Ret tt))
    (close_connection c obj);;;
  Ret true.

(** [__getattr__] and [do_GET]: any other command is denied. *)
Definition do_other (method path src : string) : thread unit :=
  if String.eqb method "GET" then deny_plain "PLAINTEXT_HTTP_DISABLED" path "GET" src 403 None
  else deny_plain "UNSUPPORTED_PROTOCOL_OR_METHOD" path method src 403 None.

(** [handle]: the commands [http.server] reads on one connection, dispatched
    until one closes it. *)
Inductive command := Connect (c : client) | Other (method path src : string).
Fixpoint dispatch (cmds : list command) : thread unit :=
  match cmds with
  | [] => Ret tt
  | Connect c :: rest => closed <-- do_CONNECT c;; if closed : bool then Ret tt else dispatch rest
  | Other m p s :: rest => do_other m p s;;; dispatch rest
  end.
Definition end_producing : thread unit :=
  atomic_res (fun w => let '(g, r) := end_producer (w_reg w) in (set_reg g w, r)).
Definition handle (cmds : list command) : thread unit :=
  admitted <-- on_reg begin_producer;;
  if negb admitted then Ret tt else pfinally (dispatch cmds) end_producing.

End Gateway.
