(* ===== verification/System.v ===== *)
(** * The running gateway: its threads, and what must hold of their interleavings

    A system is one thread per handled connection ([Gateway.handle]) and the
    kill watcher ([cancel_and_quiesce]), over the shared world.  The promises are
    stated on the ghost trace of the world. *)

From S2P Require Import Prelude PyStr Json JsonFacts PyDyn Hash AuditLog AuditFacts IpAddr.
From S2P Require Import Addressing Resolver Lifecycle LifecycleFacts Pdp Conc World Registry.
From S2P Require Import Gateway.
Open Scope Z_scope.

(** ** Threads and systems *)

Inductive role := Handler (cmds : list command) | Watcher (e : kill_env).
(** The threads, each under the attempt id it draws. *)
Abbreviation system := (list (string * role)).

Section System.
Context `{Digest} `{Idna}.

Definition role_thread (r : role) : thread unit :=
  match r with
  | Handler cmds => handle cmds
  | Watcher e => cancel_and_quiesce e;;; Ret tt
  end.
(** The attempt ids of the commands a thread can run. *)
Definition attempts (r : role) : list string :=
  match r with
  | Handler cmds => omap (fun c => match c with Connect c => Some (cl_attempt c) | Other _ _ _ => None end) cmds
  | Watcher _ => []
  end.
(** The ids are fresh. *)
Definition named (s : system) : Prop :=
  NoDup s.*1 /\ forall a r, (a, r) ∈ s -> forall b, b ∈ attempts r -> b = a.
Definition threads (s : system) : list (thread unit) := (fun ar => role_thread ar.2) <$> s.

(** ** The promises on a trace *)

Definition effect_of (e : event) : option string :=
  match e with EvConnect a _ | EvSend a _ => Some a | _ => None end.
Definition is_effect (e : event) : bool := match effect_of e with Some _ => true | None => false end.
Definition effects (tr : list event) : list event := List.filter is_effect tr.
Definition effects_of (a : string) (tr : list event) : list event :=
  List.filter (fun e => bool_decide (effect_of e = Some a)) tr.
Definition is_record (e : event) : bool := match e with EvRecord _ => true | _ => false end.
Definition records (tr : list event) : list event := List.filter is_record tr.

(** A record of the given decision and attempt. *)
Definition says (decision a : string) (d : dict) : Prop :=
  dget "decision" d = Some (VStr decision) /\ dget "attempt_id" d = Some (VStr a).
Definition pinned_at (p : pin) (d : dict) : Prop :=
  dget "pin_ip" d = Some (VStr (pin_ip p)) /\ dget "pin_port" d = Some (VInt (pin_port p)).

(** What must stand in the history, in this order, before attempt [a] connects
    to [p]: the decision that chose the pin, the decision on the request, the
    intent, the recheck, the permit and the attempt record. *)
Record story := Story {
  st_open_q : request; st_open : decision;
  st_req_q : request; st_req : decision;
  st_auth : dict;
  st_check_q : request; st_check : decision;
  st_permit : dict; st_attempted : dict }.
Definition story_events (a : string) (s : story) : list event :=
  [ EvDecided a (st_open_q s) (st_open s); EvDecided a (st_req_q s) (st_req s); EvRecord (st_auth s);
    EvDecided a (st_check_q s) (st_check s); EvRecord (st_permit s); EvRecord (st_attempted s) ].
Record mediated (a : string) (p : pin) (s : story) : Prop := {
  md_open : d_allow (st_open s) = true /\ q_pin (st_open_q s) = None /\ d_pin (st_open s) = Some p;
  md_req : d_allow (st_req s) = true /\ q_pin (st_req_q s) = Some p;
  md_check : d_allow (st_check s) = true /\ q_pin (st_check_q s) = Some p /\ d_pin (st_check s) = Some p;
  md_same : st_req_q s = st_check_q s /\ q_src_ip (st_req_q s) = q_src_ip (st_open_q s) /\
            q_port (st_req_q s) = q_port (st_open_q s);
  md_auth : says AUTH a (st_auth s) /\ pinned_at p (st_auth s);
  md_permit : says PERMIT a (st_permit s);
  md_attempted : says ATTEMPTED a (st_attempted s) /\ pinned_at p (st_attempted s) }.

(** The request bytes of an attempt are those its intent committed to. *)
Definition committed (req : string) (auth : dict) : Prop :=
  exists hd canon secret, req = raw_request hd canon secret /\
    dget "request_intent_digest" auth =
      Some (VStr (request_intent_digest (h_method hd) canon (h_path hd) (Z.of_nat (String.length (h_rest hd))))).
Definition justified (tr : list event) (e : event) : Prop :=
  match e with
  | EvConnect a p => exists s, mediated a p s /\ sublist (story_events a s) tr
  | EvSend a req => exists p s, mediated a p s /\ committed req (st_auth s) /\
                                sublist (story_events a s ++ [EvConnect a p])%list tr
  | _ => True
  end.
Definition gated (tr : list event) : Prop :=
  forall before e after, tr = (before ++ e :: after)%list -> justified before e.

(** ** The promises on a state *)

Definition closed_in (tr : list event) : Prop :=
  exists d, EvRecord d ∈ tr /\ dget "decision" d = Some (VStr RUN_CLOSED).
Record closed_state (w : world) : Prop := {
  cs_sealed : l_sealed (w_log w) = true;
  cs_cancelled : r_cancelled (w_run w) = true;
  cs_inflight : r_inflight (w_run w) = ∅;
  cs_killed : g_killed (w_reg w) = true;
  cs_producers : g_producers (w_reg w) = 0 }.
Record registry_inv (g : registry) : Prop := {
  rg_slots : 0 <= g_slots g <= g_max g;
  rg_producers : 0 <= g_producers g;
  rg_nodup : NoDup (g_conns g);
  rg_killed : g_killed g = true -> g_admission g = false /\ g_conns g = [] }.
(** No write so far met a failing [os.close]. *)
Definition closes_ok (w : world) : Prop := forall i, (i < w_nio w)%nat -> io_close (w_ios w i) = true.
Record world_inv (w : world) : Prop := {
  wi_ios : forall n, wf (io_time (w_ios w n));
  wi_whole : whole_log (w_log w);
  wi_log : closes_ok w -> log_inv (w_log w);
  wi_run : run_inv (w_run w);
  wi_reg : registry_inv (w_reg w);
  wi_gated : gated (w_trace w);
  wi_closed : closed_in (w_trace w) -> closed_state w }.

(** The state a process starts in, over a verified log. *)
Definition world0 (l : alog) (ios : nat -> wio) (max_connections : Z) : world :=
  World l ios 0 run0 ∅ [] (registry0 max_connections) ∅ [].

(** ** What one thread may assume of the others, and must guarantee them *)

Record evolves (w w' : world) : Prop := {
  ev_trace : exists more, w_trace w' = (w_trace w ++ more)%list;
  ev_cancelled : r_cancelled (w_run w) = true -> r_cancelled (w_run w') = true /\
    forall a, r_inflight (w_run w) !! a = None -> r_inflight (w_run w') !! a = None;
  ev_killed : g_killed (w_reg w) = true -> g_killed (w_reg w') = true /\
    g_producers (w_reg w') <= g_producers (w_reg w);
  ev_sealed : l_sealed (w_log w) = true -> l_sealed (w_log w') = true /\
    records (w_trace w') = records (w_trace w) }.
Record keeps (a : string) (w w' : world) : Prop := {
  kp_inflight : r_inflight (w_run w') !! a = r_inflight (w_run w) !! a;
  kp_permit : w_permits w' !! a = w_permits w !! a;
  kp_effects : effects_of a (w_trace w') = effects_of a (w_trace w) }.
Definition rely (a : string) (w w' : world) : Prop := evolves w w' /\ keeps a w w'.
Definition guar (a : string) (w w' : world) : Prop :=
  evolves w w' /\ (forall b, b <> a -> keeps b w w') /\
  (effects_of a (w_trace w') = effects_of a (w_trace w) \/ is_Some (r_inflight (w_run w) !! a)).

(** A step that keeps the invariant and disturbs nobody. *)
Definition calm (w w' : world) : Prop :=
  world_inv w -> world_inv w' /\ evolves w w' /\ forall a, keeps a w w'.

End System.
