(* ===== verification/SystemFacts.v ===== *)
(** * The steps of the running gateway

    Which steps disturb nobody, and what a thread learns from its own steps. *)

From S2P Require Import Prelude PyStr Json JsonFacts PyDyn Hash AuditLog AuditFacts IpAddr.
From S2P Require Import Addressing Resolver Lifecycle LifecycleFacts Pdp Conc World Registry.
From S2P Require Import Gateway System.
Open Scope Z_scope.

Create HintDb calm discriminated.
#[export] Hint Constants Opaque : calm.

Section Facts.
Context `{Digest} `{Idna}.

(** ** Orders *)

#[export] Instance evolves_pre : PreOrder evolves.
Proof.
  split.
  - intros w. split; [exists []; by rewrite app_nil_r|auto|intros ?; split; [done|lia]|auto].
  - intros w1 w2 w3 [[m1 T1] C1 K1 S1] [[m2 T2] C2 K2 S2]. split.
    + exists (m1 ++ m2)%list. by rewrite T2, T1, app_assoc.
    + intros Hc. destruct (C1 Hc) as [Hc2 I1]. destruct (C2 Hc2) as [? I2]. auto.
    + intros Hk. destruct (K1 Hk) as [Hk2 P1]. destruct (K2 Hk2). split; [done|lia].
    + intros Hs. destruct (S1 Hs) as [Hs2 R1]. destruct (S2 Hs2). split; [done|congruence].
Qed.
#[export] Instance keeps_pre a : PreOrder (keeps a).
Proof. split; [done|]. intros w1 w2 w3 [] []. split; congruence. Qed.
#[export] Instance calm_pre : PreOrder calm.
Proof.
  split.
  - intros w Hi. split_and!; [done|reflexivity|intros ?; reflexivity].
  - intros w1 w2 w3 H1 H2 Hi. destruct (H1 Hi) as (I2 & E1 & K1). destruct (H2 I2) as (I3 & E2 & K2).
    split_and!; [done|by etrans|]. intros a. etrans; [apply K1|apply K2].
Qed.
Lemma rely_refl a w : rely a w w.
Proof. split; reflexivity. Qed.
Lemma rely_trans a w1 w2 w3 : rely a w1 w2 -> rely a w2 w3 -> rely a w1 w3.
Proof. intros [] []. split; by etrans. Qed.
Lemma guar_rely a b w w' : a <> b -> guar a w w' -> rely b w w'.
Proof. intros Hne (He & Hk & _). split; [done|]. apply Hk. congruence. Qed.
Lemma calm_rely a w w' : calm w w' -> world_inv w -> rely a w w'.
Proof. intros Hc Hi. destruct (Hc Hi) as (_ & He & Hk). split; [done|apply Hk]. Qed.
Lemma calm_guar a w w' : calm w w' -> world_inv w -> guar a w w' /\ world_inv w'.
Proof.
  intros Hc Hi. destruct (Hc Hi) as (? & He & Hk). split; [|done]. split_and!; [done|by intros|].
  left. apply Hk.
Qed.

(** ** Traces *)

Lemma gated_snoc tr e : gated tr -> justified tr e -> gated (tr ++ [e])%list.
Proof.
  intros Hg Hj before x after E.
  destruct (decide (after = [])) as [->|Hne].
  - apply app_inj_tail in E as [-> ->]. done.
  - destruct (exists_last Hne) as (after' & y & ->).
    rewrite app_comm_cons, app_assoc in E. apply app_inj_tail in E as [E _]. by eapply Hg.
Qed.
Lemma gated_nil : gated [].
Proof. intros before e after E. by destruct before. Qed.
Lemma effects_app t1 t2 : effects (t1 ++ t2) = (effects t1 ++ effects t2)%list.
Proof. apply List.filter_app. Qed.
Lemma effects_of_app a t1 t2 : effects_of a (t1 ++ t2) = (effects_of a t1 ++ effects_of a t2)%list.
Proof. apply List.filter_app. Qed.
Lemma effects_of_other a e tr : effect_of e <> Some a -> effects_of a (tr ++ [e]) = effects_of a tr.
Proof. intros He. rewrite effects_of_app. cbn. rewrite bool_decide_false by done. apply app_nil_r. Qed.
Lemma closed_in_app t1 t2 : closed_in t1 -> closed_in (t1 ++ t2).
Proof. intros (d & ? & ?). exists d. rewrite elem_of_app. auto. Qed.
Lemma closed_in_snoc tr e :
  closed_in (tr ++ [e]) -> closed_in tr \/ exists d, e = EvRecord d /\ dget "decision" d = Some (VStr RUN_CLOSED).
Proof.
  intros (d & [Hd|Hd]%elem_of_app & Hk); [left; by exists d|].
  apply list_elem_of_singleton in Hd. right. by exists d.
Qed.

(** ** Calm changes of one component *)

Definition quiet_event (e : event) : Prop :=
  effect_of e = None /\ match e with EvRecord d => dget "decision" d <> Some (VStr RUN_CLOSED) | _ => True end.
Ltac calm_tac := intros []; split_and!;
  [ split; cbn; auto; let Hc := fresh in intros Hc;
    match goal with W : closed_in _ -> closed_state _ |- _ => destruct (W Hc) end; split; cbn; auto
  | split; cbn; [exists []; by rewrite app_nil_r|auto|intros ?; split; [done|lia]|auto]
  | intros ?; by split ].
Lemma records_app t1 t2 : records (t1 ++ t2) = (records t1 ++ records t2)%list.
Proof. apply List.filter_app. Qed.
Lemma records_snoc e tr : is_record e = false -> records (tr ++ [e]) = records tr.
Proof. intros He. rewrite records_app. cbn. rewrite He. apply app_nil_r. Qed.
Lemma calm_emit e w : quiet_event e -> (is_record e = true -> l_sealed (w_log w) = false) -> calm w (emit e w).
Proof.
  intros [He Hq] Hrec [HO HW HL HR HG HT HC]. split_and!.
  - split; cbn; try done.
    + apply gated_snoc; [done|]. by destruct e.
    + intros [Hc|(d & -> & Hd)]%closed_in_snoc; [|done]. destruct (HC Hc). by split.
  - split; cbn; [by eexists|auto|intros ?; split; [done|lia]|].
    intros Hs. split; [done|]. apply records_snoc. destruct (is_record e); [|done].
    by rewrite Hrec in Hs.
  - intros a. split; cbn; try done. apply effects_of_other. by rewrite He.
Qed.
Lemma calm_log l w : (whole_log (w_log w) -> whole_log l) -> (log_inv (w_log w) -> log_inv l) ->
  (l_sealed (w_log w) = true -> l_sealed l = true) -> calm w (set_log l w).
Proof. intros Hw Hl Hs. calm_tac. Qed.
Lemma calm_conns c w : calm w (set_conns c w).
Proof. calm_tac. Qed.
Lemma calm_budgets b w : calm w (set_budgets b w).
Proof. calm_tac. Qed.
Lemma calm_run r w : (run_inv (w_run w) -> run_inv r) -> r_inflight r = r_inflight (w_run w) ->
  (r_cancelled (w_run w) = true -> r_cancelled r = true) -> calm w (set_run r w).
Proof.
  intros Hr Hi Hc [HO HW HL HR HG HT HC]. split_and!.
  - split; cbn; auto. intros Hcl. destruct (HC Hcl). split; cbn; auto. by rewrite Hi.
  - split; cbn; [exists []; by rewrite app_nil_r| |intros ?; split; [done|lia]|auto].
    intros ?. rewrite Hi. auto.
  - intros a. split; cbn; try done. by rewrite Hi.
Qed.
Lemma calm_reg g w : (registry_inv (w_reg w) -> registry_inv g) ->
  (g_killed (w_reg w) = true -> g_killed g = true /\ g_producers g <= g_producers (w_reg w)) ->
  calm w (set_reg g w).
Proof.
  intros Hg Hk [HO HW HL HR HG HT HC]. split_and!.
  - split; cbn; auto. intros Hcl. destruct (HC Hcl) as [? ? ? K P].
    destruct (Hk K). split; cbn; auto. pose proof (rg_producers _ (Hg HG)). lia.
  - split; cbn; [exists []; by rewrite app_nil_r|auto|auto|auto].
  - intros a. by split.
Qed.

(** ** Calm steps *)

Definition plain (d : dict) : Prop := wf_entry d /\ dget "decision" d <> Some (VStr RUN_CLOSED).

Lemma write_sealed io e l : l_sealed l = true -> l_sealed (write io e l).1 = true.
Proof. intros Hs. unfold write. by rewrite Hs. Qed.
(** The two invariants of the log through one write, which uses up one answer of storage. *)
Lemma closes_tick l w : closes_ok (tick (set_log l w)) -> closes_ok w /\ io_close (w_ios w (w_nio w)) = true.
Proof. intros Hc. split; [intros i Hi|]; apply Hc; cbn; lia. Qed.
Lemma write_log d w l r : wf_entry d -> world_inv w -> write (w_ios w (w_nio w)) d (w_log w) = (l, r) ->
  whole_log l /\ (closes_ok (tick (set_log l w)) -> log_inv l).
Proof.
  intros Hd [HO HW HL _ _ _ _] E. split; [by eapply write_whole|].
  intros [Hc Hcl]%closes_tick. eapply write_inv; [exact Hd|apply HO|by apply HL|exact E|by rewrite Hcl].
Qed.
Lemma seal_log d w : wf_entry d -> world_inv w ->
  let l := (seal_with (w_ios w (w_nio w)) d (w_log w)).1 in
  whole_log l /\ (closes_ok (tick (set_log l w)) -> log_inv l).
Proof.
  intros Hd Hi l. destruct (write (w_ios w (w_nio w)) d (w_log w)) as [l1 r] eqn:E.
  destruct (write_log d w l1 r Hd Hi E) as [Hw Hl]. unfold l. destruct Hi as [HO HW HL _ _ _ _].
  destruct (seal_cases (w_ios w (w_nio w)) d (w_log w)) as [->|[->| ->]]; rewrite ?E; cbn [fst].
  - split; [exact HW|]. intros [Hc _]%closes_tick. by apply HL.
  - by split.
  - split; [by eapply whole_log_eq; [..|exact Hw]|]. intros Hc. by eapply log_inv_eq; [..|apply Hl, Hc].
Qed.
Lemma calm_write_log d w l r : wf_entry d -> write (w_ios w (w_nio w)) d (w_log w) = (l, r) -> calm w (tick (set_log l w)).
Proof.
  intros Hd E Hi. destruct (write_log d w l r Hd Hi E) as [Hw Hl].
  assert (l_sealed (w_log w) = true -> l_sealed l = true) as Hs.
  { intros Hs. eapply write_sealed in Hs. by erewrite E in Hs. }
  revert Hi. calm_tac.
Qed.
Lemma calm_do_write d w : plain d -> calm w (do_write d w).1.
Proof.
  intros [Hw Hd]. unfold do_write. destruct (write _ _ _) as [l r] eqn:E.
  assert (calm w (tick (set_log l w))) as Ht by (by eapply calm_write_log).
  destruct r as [x|x]; cbn; [|done]. etrans; [exact Ht|]. apply calm_emit; [done|].
  intros _. apply write_ok in E as (Hs & _ & _ & ->). exact Hs.
Qed.
Lemma calm_on_run {A} (f : run -> run * A) :
  (forall r, run_inv r -> run_inv (f r).1) -> (forall r, r_inflight (f r).1 = r_inflight r) ->
  (forall r, r_cancelled r = true -> r_cancelled (f r).1 = true) -> always calm (on_run f).
Proof.
  intros H1 H2 H3. apply always_atomic. intros w. specialize (H1 (w_run w)). specialize (H2 (w_run w)).
  specialize (H3 (w_run w)). destruct (f (w_run w)) as [r x]. by apply calm_run.
Qed.
Lemma calm_on_conn {A} c (d : A) f : always calm (on_conn c d f).
Proof.
  apply always_atomic. intros w. destruct (w_conns w !! c) as [x|]; [|reflexivity].
  destruct (f x). apply calm_conns.
Qed.
Lemma calm_on_reg {A} (f : registry -> registry * A) :
  (forall g, registry_inv g -> registry_inv (f g).1) ->
  (forall g, g_killed g = true -> g_killed (f g).1 = true /\ g_producers (f g).1 <= g_producers g) ->
  always calm (on_reg f).
Proof.
  intros H1 H2. apply always_atomic. intros w. specialize (H1 (w_reg w)). specialize (H2 (w_reg w)).
  destruct (f (w_reg w)) as [g x]. by apply calm_reg.
Qed.
Lemma calm_signal e : quiet_event e -> is_record e = false -> always calm (signal e).
Proof. intros Hq Hr. apply always_atomic. intros w. apply calm_emit; [done|]. by rewrite Hr. Qed.
Lemma calm_audit_write d : plain d -> always calm (audit_write d).
Proof. intros. apply always_atomic_res. intros w. by apply calm_do_write. Qed.
Lemma calm_audit_healthy : always calm audit_healthy.
Proof. apply always_atomic. reflexivity. Qed.
Lemma calm_audit_add_secret s : always calm (audit_add_secret s).
Proof.
  apply always_atomic. intros w. destruct (add_secret_file s (w_log w)) as (Hf & Hh & Hp & Hs).
  apply calm_log; [..|by rewrite Hs]; intros Hl.
  - eapply whole_log_eq; [done| |done]. by rewrite Hh.
  - eapply log_inv_eq; [done|done| |done]. by rewrite Hh.
Qed.
Lemma calm_audit_add_mixed : always calm audit_add_mixed.
Proof.
  apply always_atomic. intros w. apply calm_log; [..|done]; intros Hl.
  - by eapply whole_log_eq; [..|exact Hl].
  - by eapply log_inv_eq; [..|exact Hl].
Qed.
Lemma calm_new_conn id : always calm (new_conn id).
Proof. apply always_atomic. intros w. apply calm_conns. Qed.
Lemma calm_ask a e q : always calm (ask a e q).
Proof.
  apply always_atomic_res. intros w. destruct (PDP.decide _ _ _ _ _ _) as [b r].
  destruct r as [d|x]; [|apply calm_budgets]. etrans; [apply calm_budgets|]. by apply calm_emit.
Qed.

(** ** The operations of the run and of the registry *)

Lemma authorize_inflight a e r : r_inflight (authorize a e r).1 = r_inflight r /\
  (r_cancelled r = true -> r_cancelled (authorize a e r).1 = true).
Proof. unfold authorize. by destruct (_ || _). Qed.
Lemma cancel_inflight now r : r_inflight (cancel now r).1 = r_inflight r /\ r_cancelled (cancel now r).1 = true \/
  is_Some (r_cancellation r) /\ (cancel now r).1 = r.
Proof. unfold cancel. destruct (r_cancellation r); [right; split; [by eexists|done]|by left]. Qed.
Lemma calm_authorize a e : always calm (on_run (authorize a e)).
Proof.
  apply calm_on_run; intros r; [apply authorize_inv|apply authorize_inflight|].
  apply authorize_inflight.
Qed.
Lemma calm_cancel now : always calm (on_run (cancel now)).
Proof.
  apply calm_on_run; intros r.
  - apply cancel_inv.
  - by destruct (cancel_inflight now r) as [[-> _]|[_ ->]].
  - by destruct (cancel_inflight now r) as [[_ ->]|[_ ->]].
Qed.
Lemma calm_read {A} (f : run -> A) : always calm (on_run (fun r => (r, f r))).
Proof. by apply calm_on_run. Qed.
Lemma calm_read_reg {A} (f : registry -> A) : always calm (on_reg (fun g => (g, f g))).
Proof. apply calm_on_reg; [done|]. intros g ?. split; [done|]. cbn. lia. Qed.

Lemma registry_inv0 n : 0 <= n -> registry_inv (registry0 n).
Proof. intros. split; cbn; [lia|lia|constructor|done]. Qed.
Lemma calm_acquire : always calm (on_reg acquire).
Proof.
  apply calm_on_reg; intros g; unfold acquire; destruct (0 <? g_slots g) eqn:E; cbn; auto;
    [|intros; split; [done|lia]..].
  intros []. bools. split; cbn; auto. lia.
Qed.
Lemma calm_release_slot : always calm (on_reg_ release_slot).
Proof.
  apply calm_on_reg; intros g; cbn; unfold release_slot; destruct (g_slots g <? g_max g) eqn:E; cbn; auto;
    [|intros; split; [done|lia]..].
  intros []. bools. split; cbn; auto. lia.
Qed.
Lemma calm_add c : always calm (on_reg (add c)).
Proof.
  apply calm_on_reg; intros g; unfold add; destruct (g_killed g) eqn:E; cbn; auto;
    [|intros; split; [done|lia]|done].
  intros []. split; cbn; auto; [|done].
  case_bool_decide; [done|]. apply NoDup_app. split_and!; [done| |apply NoDup_singleton].
  intros x Hx Hy%list_elem_of_singleton. by subst.
Qed.
Lemma calm_remove c : always calm (on_reg_ (remove c)).
Proof.
  apply calm_on_reg; intros g; cbn; [|intros; split; [done|lia]].
  intros []. split; cbn; auto.
  - by apply NoDup_ListNoDup, List.NoDup_filter, NoDup_ListNoDup.
  - intros Hk. destruct (rg_killed Hk) as [? ->]. by split.
Qed.
Lemma calm_begin_producer : always calm (on_reg begin_producer).
Proof.
  apply calm_on_reg; intros g; unfold begin_producer; destruct (_ || _) eqn:E; cbn; auto; intros.
  - destruct H1. split; cbn; auto; try lia.
  - split; [done|lia].
  - bools. congruence.
Qed.
Lemma calm_end_producing : always calm end_producing.
Proof.
  apply always_atomic_res. intros w. unfold end_producer.
  destruct (g_producers (w_reg w) <=? 0) eqn:E; bools; apply calm_reg; cbn; auto; intros.
  - split; [done|lia].
  - destruct H1. split; cbn; auto; lia.
  - split; [done|lia].
Qed.
Lemma calm_kill : always calm (on_reg kill).
Proof.
  apply calm_on_reg; intros g; cbn; [|intros; split; [done|lia]].
  intros []. split; cbn; auto. constructor.
Qed.
Lemma calm_set_last r : always calm (on_reg_ (set_last r)).
Proof.
  apply calm_on_reg; intros g; cbn; [|intros; split; [done|lia]].
  intros []. by split.
Qed.

End Facts.

#[export] Hint Resolve calm_authorize calm_cancel calm_read calm_read_reg calm_acquire calm_release_slot calm_add
  calm_remove calm_begin_producer calm_end_producing calm_kill calm_set_last calm_on_conn calm_new_conn
  calm_audit_healthy calm_audit_add_secret calm_audit_add_mixed calm_ask : calm.
#[export] Hint Extern 1 (always calm (signal _)) => apply calm_signal; [by split|done] : calm.
#[export] Hint Resolve calm_audit_write : calm.

(** [plain_tac] checks a record of the gateway: its keys, its values and its
    decision; [calm_prog] walks a program all of whose steps are calm. *)
Ltac nodup_tac := repeat (constructor; [not_in|]); constructor.
Ltac wf_tac := unfold pin_val, str_list; first [solve [constructor] | solve [apply wf_list; repeat constructor]].
Ltac wff_tac := repeat (apply Forall_cons; split; [cbn; wf_tac|]); apply Forall_nil; exact I.
Ltac plain_tac :=
  split; [apply wf_dict; [cbn; nodup_tac | wff_tac] | cbn; discriminate].
#[export] Hint Extern 2 (plain _) => plain_tac : calm.
Ltac calm_prog :=
  repeat lazymatch goal with
  | |- forall _, _ => intros
  | |- always _ (Ret _) => apply always_ret
  | |- always _ (Throw _) => apply always_throw
  | |- always _ (of_res _) => apply always_of_res
  | |- always _ (pbind _ _) => apply always_bind
  | |- always _ (pcatch _ _) => apply always_catch
  | |- always _ (pfinally _ _) => apply always_finally
  | |- always _ (match ?x with _ => _ end) => destruct x
  | |- always _ _ => solve [eauto 3 with calm]
  end.

Section Records.
Context `{Digest} `{Idna}.

Lemma plain_deny reason url method src who : plain (deny_record reason url method src who).
Proof.
  unfold deny_record. destruct who as [[c s]|]; [destruct (String.eqb _ _)|]; cbn; plain_tac.
Qed.
Lemma plain_deny_tls reason url method c s : plain (deny_tls_record reason url method c s).
Proof. plain_tac. Qed.
Lemma plain_intent a seq : plain (dset "lifecycle_seq" (VInt seq) (sanitized_intent a)).
Proof. destruct a as [? ? ? ? ? ? ? ? ? [] ? ? ?]; cbn; plain_tac. Qed.
Lemma plain_permit a id e g gen b : plain (permit_record a id e g gen b).
Proof. plain_tac. Qed.
Lemma plain_attempted g id ip port : plain (attempt_record g id [("pin_ip", VStr ip); ("pin_port", VInt port)]).
Proof. plain_tac. Qed.
Lemma plain_release g id t : plain (release_record g id t).
Proof. plain_tac. Qed.

(** An outcome record, given the extra fields the handlers pass. *)
Definition wf_intents (gi : gmap string dict) : Prop := forall a i, gi !! a = Some i -> wf_entry i.
Definition extra_ok (e : dict) : Prop := Forall (fun kv => wf kv.2 /\ kv.1 <> "decision") e.
Lemma wf_dupdate e : forall d, wf (VDict d) -> Forall (fun kv => wf kv.2) e -> wf (VDict (dupdate d e)).
Proof.
  induction e as [|[k v] e IH]; intros d Hd He; [done|]. inversion He; subst.
  apply IH; [by apply wf_dset|done].
Qed.
Lemma dget_dupdate_ne k e : forall d, Forall (fun kv => kv.1 <> k) e -> dget k (dupdate d e) = dget k d.
Proof.
  induction e as [|[k' v] e IH]; intros d He; [done|]. inversion He; subst. cbn in *.
  rewrite IH by done. apply dget_dset_ne. congruence.
Qed.
Lemma plain_dupdate d e : plain d -> extra_ok e -> plain (dupdate d e).
Proof.
  intros [Hw Hd] He. split.
  - apply wf_dupdate; [done|]. eapply Forall_impl; [exact He|]. by intros ? [].
  - rewrite dget_dupdate_ne; [done|]. eapply Forall_impl; [exact He|]. by intros ? [].
Qed.
Lemma wf_dget k v d : wf (VDict d) -> dget k d = Some v -> wf v.
Proof.
  intros Hw. assert (Forall (fun kv => wf kv.2) d) as HF by (by inversion Hw). clear Hw.
  induction HF as [|[k' x] d' Hx HF IH]; cbn; [done|].
  destruct (String.eqb k k'); [intros; simp_res; done|done].
Qed.
Lemma plain_settle gi r id outcome e : wf_intents gi -> extra_ok e -> outcome <> RUN_CLOSED ->
  plain (settle_record gi r id outcome e).
Proof.
  intros Hgi He Ho. unfold settle_record. apply plain_dupdate; [|done].
  assert (forall b, plain [("decision", VStr outcome); ("attempt_id", VStr b); ("conn_id", VStr id)]) as Hp.
  { intros b. split; [|cbn; injection; congruence]. apply wf_dict; [cbn; nodup_tac|].
    wff_tac. }
  destruct r as [g|b].
  - destruct (Hp (g_attempt g)) as [Hw Hd].
    split; [by apply wf_dset; [apply wf_dset|]; [|constructor..]|exact Hd].
  - destruct (gi !! b) as [i|] eqn:E; [|done]. destruct (Hp b) as [Hw Hd]. split; [|exact Hd].
    apply wf_dset; [done|]. unfold dget_or. destruct (dget "epoch" i) eqn:Ei; cbn; [|constructor].
    by eapply wf_dget; [eapply Hgi|].
Qed.
Lemma plain_terminated t e b : plain (terminated_record t e b).
Proof. plain_tac. Qed.
Lemma plain_allow t r : plain (allow_record t r).
Proof. unfold allow_record. destruct (cl_sni _); plain_tac. Qed.
Lemma plain_cert t e : plain (cert_record t e).
Proof. plain_tac. Qed.
Lemma plain_malformed label c s : plain (malformed_record label c s).
Proof. plain_tac. Qed.
Lemma plain_hello c s e : plain (hello_record c s e).
Proof. plain_tac. Qed.
Lemma plain_refusal reason c s : plain (refusal_record reason c s).
Proof. plain_tac. Qed.
Lemma plain_requested t : plain (requested_record t).
Proof. plain_tac. Qed.
Lemma plain_linearized t : plain (linearized_record t).
Proof. plain_tac. Qed.
Lemma wf_str_list l : wf (str_list l).
Proof. constructor. induction l; cbn; by repeat constructor. Qed.
(** The records of [cancel_and_quiesce] share the fields of [common]. *)
Lemma common_ok s : extra_ok (common s).
Proof.
  unfold extra_ok, common.
  repeat (apply Forall_cons; split; [split; [cbn|discriminate]|]); try apply Forall_nil; try exact I; try by constructor.
  destruct (dr_transition s); constructor.
Qed.
Lemma plain_kill torn snap s : plain (kill_record torn snap s).
Proof.
  apply plain_dupdate; [|apply common_ok]. split; [|done]. apply wf_dict; [cbn; nodup_tac|].
  repeat (apply Forall_cons; split; [first [apply wf_str_list|constructor]|]). apply Forall_nil; exact I.
Qed.
Lemma plain_timeout s : plain (timeout_record s).
Proof.
  apply plain_dupdate; [|apply common_ok]. split; [|done]. apply wf_dict; [cbn; nodup_tac|].
  repeat (apply Forall_cons; split; [first [apply wf_str_list|constructor]|]). apply Forall_nil; exact I.
Qed.
Lemma plain_ack s : plain (ack_record s).
Proof. apply plain_dupdate; [|apply common_ok]. split; [|done]. apply wf_dict; [cbn; nodup_tac|wff_tac]. Qed.
End Records.

#[export] Hint Resolve plain_deny plain_deny_tls plain_intent plain_permit plain_attempted plain_release
  plain_terminated plain_allow plain_cert plain_malformed plain_hello plain_refusal plain_requested
  plain_linearized plain_settle plain_kill plain_timeout plain_ack : calm.
#[export] Hint Extern 1 (extra_ok _) =>
  unfold extra_ok; repeat (apply Forall_cons; split; [split; [cbn; wf_tac|discriminate]|]); apply Forall_nil; exact I : calm.
#[export] Hint Extern 1 (_ <> RUN_CLOSED) => discriminate : calm.

(** ** Calm programs *)

Section Calm.
Context `{Digest} `{Idna}.

Lemma calm_deny_plain reason url method src code who : always calm (deny_plain reason url method src code who).
Proof. unfold deny_plain. calm_prog. Qed.
Lemma calm_deny_tls reason url method c s : always calm (deny_tls reason url method c s).
Proof. unfold deny_tls. calm_prog. Qed.
Lemma calm_settle gi r id outcome e : wf_intents gi -> extra_ok e -> outcome <> RUN_CLOSED ->
  always calm (settle gi r id outcome e).
Proof. intros. unfold settle. calm_prog. Qed.
Lemma calm_conn_transfer c o n : always calm (conn_transfer c o n).
Proof. apply calm_on_conn. Qed.
Lemma calm_do_other m p s : always calm (do_other m p s).
Proof. unfold do_other. destruct (String.eqb _ _); apply calm_deny_plain. Qed.
Lemma calm_refuse t reason : always calm (refuse t reason).
Proof. apply calm_deny_tls. Qed.
Lemma calm_settle_t t r outcome e : wf_intents (t_intents t) -> extra_ok e -> outcome <> RUN_CLOSED ->
  always calm (settle_t t r outcome e).
Proof. intros. by apply calm_settle. Qed.
End Calm.
#[export] Hint Resolve calm_deny_plain calm_deny_tls calm_settle calm_conn_transfer calm_do_other calm_refuse
  calm_settle_t : calm.

Section Calm.
Context `{Digest} `{Idna}.
Lemma calm_inside_relay t g : wf_intents (t_intents t) -> always calm (inside_relay t g).
Proof. intros. unfold inside_relay. calm_prog. Qed.
Lemma calm_connect_failed t g e : wf_intents (t_intents t) -> always calm (connect_failed t g e).
Proof. intros. unfold connect_failed. calm_prog. Qed.
Lemma calm_close_connection c obj : always calm (close_connection c obj).
Proof. unfold close_connection. calm_prog. Qed.
Lemma calm_for_each {A B} (f : A -> thread B) l : (forall x, always calm (f x)) -> always calm (for_each f l).
Proof. intros Hf. induction l; cbn [for_each]; [done|]. calm_prog; auto. Qed.
Lemma calm_record_linearization t : always calm (record_linearization t).
Proof. unfold record_linearization. calm_prog. Qed.
Lemma calm_run_epoch : always calm run_epoch.
Proof. apply calm_read. Qed.
Lemma calm_inflight_count : always calm run_inflight_count.
Proof. apply calm_read. Qed.
Lemma calm_conn_id_of c : always calm (conn_id_of c).
Proof. apply calm_on_conn. Qed.
Lemma calm_conn_begin c : always calm (conn_begin_termination c).
Proof. apply calm_on_conn. Qed.
Lemma calm_conn_shutdown f c l : always calm (conn_shutdown f c l).
Proof. apply calm_on_conn. Qed.
Lemma calm_drain c : always calm (drain c).
Proof. cbn. auto. Qed.
Lemma calm_stop_listener e : always calm (stop_listener e).
Proof. unfold stop_listener. calm_prog. Qed.
End Calm.
#[export] Hint Resolve calm_inside_relay calm_connect_failed calm_close_connection calm_record_linearization
  calm_drain calm_stop_listener calm_run_epoch calm_inflight_count calm_conn_id_of calm_conn_begin
  calm_conn_shutdown : calm.
