(* ===== verification/SystemOk.v ===== *)
(** * The threads of the gateway against their rely and guarantee

    What a handler knows at each stage, and that every stage keeps its promises
    whatever the other threads do. *)

From S2P Require Import Prelude PyStr Json JsonFacts PyDyn Hash AuditLog AuditFacts IpAddr.
From S2P Require Import Addressing Resolver Lifecycle LifecycleFacts Pdp Conc World Registry.
From S2P Require Import Gateway System SystemFacts.
Open Scope Z_scope.

Create HintDb stab.

Section Ok.
Context `{Digest} `{Idna} (a : string).

Abbreviation okt := (ok rely guar world_inv a).
Definition stab (P : world -> Prop) : Prop := forall w w', rely a w w' -> P w -> P w'.

(** ** Knowledge *)

(** No permit of the attempt is in flight. *)
Definition gone (w : world) : Prop := r_inflight (w_run w) !! a = None.
(** The attempt holds its permit. *)
Definition holds (g : grant) (w : world) : Prop :=
  g_attempt g = a /\ is_Some (r_inflight (w_run w) !! a) /\
  exists p, w_permits w !! a = Some p /\ po_released p = false /\ po_grant p = g.
(** Its release is not bound to a connection yet. *)
Definition unbound (w : world) : Prop := forall p, w_permits w !! a = Some p -> po_bound p = None.
(** The events [l] happened, in this order. *)
Definition after (l : list event) (w : world) : Prop := sublist l (w_trace w).

Lemma stab_gone : stab gone.
Proof. intros w w' [_ [Hi _ _]]. unfold gone. by rewrite Hi. Qed.
Lemma stab_holds g : stab (holds g).
Proof. intros w w' [_ [Hi Hp _]]. unfold holds. by rewrite Hi, Hp. Qed.
Lemma stab_unbound : stab unbound.
Proof. intros w w' [_ [_ Hp _]]. unfold unbound. by rewrite Hp. Qed.
Lemma stab_after l : stab (after l).
Proof.
  intros w w' [[[more E] _ _] _] Hl. unfold after. rewrite E. by apply sublist_inserts_r.
Qed.
Lemma stab_and P Q : stab P -> stab Q -> stab (fun w => P w /\ Q w).
Proof. intros HP HQ w w' Hr []. split; eauto. Qed.

(** ** Rules *)

Lemma ok_always {A} P (p : thread A) w : always calm p -> stab P -> P w -> okt (fun _ => P) p w.
Proof.
  intros Hp HP. revert w. induction p as [x|e|B f k IH|c k IH]; intros w Hw; cbn in *; auto.
  - intros w1 Hr Hi. destruct (Hp w1) as [H1 H2].
    destruct (calm_guar a _ _ H1 Hi). split_and!; [done|done|].
    apply IH; [done|]. apply (HP w1); [by apply calm_rely|]. by apply (HP w).
  - intros w1 Hr Hi b _. apply IH; [done|]. by apply (HP w).
Qed.
(** A calm stage followed by the rest. *)
Lemma ok_calm_then {A B} P Q (p : thread A) (g : A -> thread B) w :
  always calm p -> stab P -> P w ->
  (forall x w', P w' -> okt Q (g x) w') -> (forall e w', P w' -> Q (Raise e) w') ->
  okt Q (pbind p g) w.
Proof.
  intros Hp HP Hw Hg He. apply ok_bind. eapply ok_weaken; [by apply ok_always|]. intros [x|e] w' Hw'; auto.
Qed.
Lemma ok_then {A B} R Q (p : thread A) (g : A -> thread B) w :
  okt R p w -> (forall x w', R (Ok x) w' -> okt Q (g x) w') -> (forall e w', R (Raise e) w' -> Q (Raise e) w') ->
  okt Q (pbind p g) w.
Proof. intros Hp Hg He. apply ok_bind. eapply ok_weaken; [exact Hp|]. intros [x|e] w' Hw'; auto. Qed.

(** One critical section of the attempt. *)
Lemma ok_atomic {A} P Q (f : world -> world * A) w :
  stab P -> P w ->
  (forall w1, P w1 -> world_inv w1 -> guar a w1 (f w1).1 /\ world_inv (f w1).1 /\ Q (Ok (f w1).2) (f w1).1) ->
  okt Q (atomic f) w.
Proof. intros HP Hw Hf w1 Hr Hi. by apply Hf; [apply (HP w)|]. Qed.
Lemma ok_atomic_res {A} P Q (f : world -> world * res A) w :
  stab P -> P w ->
  (forall w1, P w1 -> world_inv w1 -> guar a w1 (f w1).1 /\ world_inv (f w1).1 /\ Q (f w1).2 (f w1).1) ->
  okt Q (atomic_res f) w.
Proof.
  intros HP Hw Hf w1 Hr Hi. destruct (Hf w1) as (? & ? & HQ); [by apply (HP w)|done|].
  split_and!; [done|done|]. by destruct (f w1).2.
Qed.

Lemma ok_ret {A} (Q : res A -> world -> Prop) x w : Q (Ok x) w -> okt Q (Ret x) w.
Proof. done. Qed.
Lemma ok_throw {A} (Q : res A -> world -> Prop) e w : Q (Raise e) w -> okt Q (Throw e) w.
Proof. done. Qed.

Lemma ok_of_res_then {A B} (r : res A) (Q : res B -> world -> Prop) (g : A -> thread B) w :
  (forall x, r = Ok x -> okt Q (g x) w) -> (forall e, r = Raise e -> Q (Raise e) w) ->
  okt Q (pbind (of_res r) g) w.
Proof. intros Ho He. destruct r as [x|e]; [exact (Ho x eq_refl)|exact (He e eq_refl)]. Qed.
Lemma ok_if {A} (b : bool) (Q : res A -> world -> Prop) p q w :
  (b = true -> okt Q p w) -> (b = false -> okt Q q w) -> okt Q (if b then p else q) w.
Proof. destruct b; auto. Qed.
(** A calm stage that ends the request without a permit. *)
Lemma ok_gone {A} (p : thread A) w : always calm p -> gone w -> okt (fun _ w' => gone w') p w.
Proof. intros. apply ok_always; [done|apply stab_gone|done]. Qed.

#[local] Arguments ok : simpl never.
#[local] Arguments pbind : simpl never.
#[local] Arguments pcatch : simpl never.
#[local] Arguments pfinally : simpl never.

(** A durable write adds its record to the history. *)
Lemma ok_write P l d w : plain d -> stab P -> P w -> after l w ->
  okt (fun r w' => P w' /\ after l w' /\ (is_ok r = true -> after (l ++ [EvRecord d])%list w')) (audit_write d) w.
Proof.
  intros Hd HP Hw Hl. apply (ok_atomic_res (fun w => P w /\ after l w)); [apply stab_and; [done|apply stab_after]|done|].
  intros w1 [HP1 Hl1] Hi. pose proof (calm_do_write d w1 Hd) as Hc.
  destruct (calm_guar a _ _ Hc Hi) as [Hg Hi']. split_and!; [done|done| | |].
  - by apply (HP w1); [apply calm_rely|].
  - by apply (stab_after l w1); [apply calm_rely|].
  - unfold do_write. destruct (write _ _ _) as [lg r]. cbn. intros ->. unfold after. cbn.
    by apply sublist_app.
Qed.
Lemma ok_ask P l e q w : stab P -> P w -> after l w ->
  okt (fun r w' => P w' /\ after l w' /\ match r with Ok d => after (l ++ [EvDecided a q d])%list w' | Raise _ => True end)
    (ask a e q) w.
Proof.
  intros HP Hw Hl. apply (ok_atomic_res (fun w => P w /\ after l w)); [apply stab_and; [done|apply stab_after]|done|].
  intros w1 [HP1 Hl1] Hi. pose proof (calm_ask a e q) as Hc. destruct (Hc w1) as [Hc1 _]. cbn in Hc1.
  destruct (calm_guar a _ _ Hc1 Hi) as [Hg Hi']. split_and!; [done|done| | |].
  - by apply (HP w1); [apply calm_rely|].
  - by apply (stab_after l w1); [apply calm_rely|].
  - destruct (PDP.decide _ _ _ _ _ _) as [b [d|x]]; [|done]. cbn. unfold after. cbn.
    by apply sublist_app.
Qed.
(** The form in which the code asks: an exception becomes a value. *)
Lemma ok_try_ask P l e q w : stab P -> P w -> after l w ->
  okt (fun r w' => P w' /\ after l w' /\ exists got, r = Ok got /\
         match got with inl d => after (l ++ [EvDecided a q d])%list w' | inr _ => True end)
    (pcatch (d <-- ask a e q;; Ret (inl d)) (fun x => Ret (inr x))) w.
Proof.
  intros HP Hw Hl. apply ok_catch. eapply ok_then; [by apply ok_ask|..]; cbn.
  - intros d w' (? & ? & ?). split_and!; [done|done|]. by eexists.
  - intros x w' (? & ? & _). split_and!; [done|done|]. by eexists.
Qed.

(** ** Steps on the attempt's own permit *)

(** A step that changes only the run and the permit table, and those only at [a]. *)
Lemma own_step (r : run) (ps : gmap string permit) w :
  let w' := World (w_log w) (w_ios w) (w_nio w) r ps (w_conns w) (w_reg w) (w_budgets w) (w_trace w) in
  world_inv w -> run_inv r -> r_cancelled r = r_cancelled (w_run w) ->
  (forall b, b <> a -> r_inflight r !! b = r_inflight (w_run w) !! b /\ ps !! b = w_permits w !! b) ->
  (r_cancelled (w_run w) = true -> r_inflight (w_run w) !! a = None -> r_inflight r !! a = None) ->
  guar a w w' /\ world_inv w'.
Proof.
  intros w' [HO HW HL HR HG HT HC] Hr Hc Hb Ha. split; [split_and!|].
  - split; cbn; [exists []; by rewrite app_nil_r| |intros ?; split; [done|lia]|auto].
    intros Hcc. rewrite Hc. split; [done|]. intros b Hbn. destruct (decide (b = a)) as [->|Hne]; [by apply Ha|].
    by destruct (Hb b Hne) as [-> _].
  - intros b Hne. destruct (Hb b Hne). by split.
  - by left.
  - split; cbn; auto. intros Hcl. destruct (HC Hcl) as [C1 C2 C3 C4 C5]. split; cbn; auto.
    + by rewrite Hc.
    + apply map_eq. intros b. rewrite lookup_empty. destruct (decide (b = a)) as [->|Hne].
      * apply Ha; [done|]. by rewrite C3.
      * destruct (Hb b Hne) as [-> _]. by rewrite C3.
Qed.

Lemma issue_permit_cases e t gen b r :
  (issue_permit a e t gen b r = (r, None)) \/
  exists g, (issue_permit a e t gen b r).2 = Some g /\ g_attempt g = a /\ r_cancelled r = false /\
    r_cancelled (issue_permit a e t gen b r).1 = false /\
    r_inflight (issue_permit a e t gen b r).1 = <[a := g]> (r_inflight r).
Proof.
  unfold issue_permit. destruct (r_cancelled r) eqn:Hc; cbn; [by left|].
  destruct (e =? r_epoch r); cbn; [|by left]. destruct t; [by left|].
  destruct (r_authorizations r !! a) as [[e' s]|]; [|by left].
  destruct (_ || _); [by left|]. right. by eexists.
Qed.
Lemma ok_issue l e c gen b w : gone w -> after l w ->
  okt (fun r w' => after l w' /\ match r with Ok (Some g) => holds g w' /\ unbound w' | _ => gone w' end)
    (atomic (do_issue a e c gen b)) w.
Proof.
  intros Hw Hl. apply (ok_atomic (fun w => gone w /\ after l w));
    [apply stab_and; [apply stab_gone|apply stab_after]|done|].
  intros w1 [Hg1 Hl1] Hi. unfold do_issue. set (t := match w_conns w1 !! c with Some x => _ | None => _ end).
  pose proof (issue_inv a e t gen b (w_run w1) (wi_run _ Hi)) as Hri.
  destruct (issue_permit_cases e t gen b (w_run w1)) as [E|(g & Eg & Ga & C1 & C2 & Ei)].
  - rewrite E in *. cbn. destruct (own_step (w_run w1) (w_permits w1) w1 Hi Hri) as [? ?]; auto.
  - destruct (issue_permit a e t gen b (w_run w1)) as [r' o]. cbn in *. subst o. cbn.
    destruct (own_step r' (<[a := EffectPermit g false None None None]> (w_permits w1)) w1 Hi Hri) as [G1 G2].
    + congruence.
    + intros b' Hne. by rewrite Ei, !lookup_insert_ne by done.
    + congruence.
    + split_and!; [exact G1|exact G2|exact Hl1| |]; [split_and!; [exact Ga| |]|].
      * cbn. rewrite Ei, lookup_insert_eq. by eexists.
      * eexists. cbn. rewrite lookup_insert_eq. done.
      * intros p. cbn. rewrite lookup_insert_eq. by intros [= <-].
Qed.

Lemma release_run b r : r_cancelled (release b r).1 = r_cancelled r /\
  r_inflight (release b r).1 = base.delete b (r_inflight r).
Proof.
  unfold release. destruct (r_inflight r !! b) eqn:E; cbn; [done|].
  split; [done|]. by rewrite delete_id.
Qed.
Lemma ok_do_release g w : holds g w ->
  okt (fun r w' => gone w' /\ is_ok r = true) (atomic (do_release a)) w.
Proof.
  intros Hw. apply (ok_atomic (holds g)); [apply stab_holds|done|].
  intros w1 (Hga & Hin & p & Hp & Hr & Hg) Hi. unfold do_release. rewrite Hp, Hr, Hg, Hga.
  pose proof (release_inv a (w_run w1) (wi_run _ Hi)) as Hri. destruct (release_run a (w_run w1)) as [Hc Hd].
  destruct (release a (w_run w1)) as [r' t]. cbn in *.
  destruct (own_step r' (<[a := EffectPermit g true t (po_error p) (po_bound p)]> (w_permits w1)) w1 Hi Hri) as [G1 G2].
  - done.
  - intros b Hne. by rewrite Hd, lookup_delete_ne, lookup_insert_ne by done.
  - intros _ _. by rewrite Hd, lookup_delete_eq.
  - split_and!; [exact G1|exact G2| |done]. unfold gone. cbn. by rewrite Hd, lookup_delete_eq.
Qed.
(** A change of the permit table at the attempt only. *)
Lemma ok_permit_table {A} P (Q : res A -> world -> Prop) f w : stab P -> P w ->
  (forall w1, P w1 -> Q (f w1).2 (f w1).1 /\
     ((f w1).1 = w1 \/ exists p, (f w1).1 = set_permit a p w1)) ->
  okt Q (atomic_res f) w.
Proof.
  intros HP Hw Hf. apply (ok_atomic_res P); [done|done|].
  intros w1 H1 Hi. destruct (Hf w1 H1) as [HQ [E|[p E]]].
  - rewrite E in *. destruct (calm_guar a w1 w1 (PreOrder_Reflexive w1) Hi). by split_and!.
  - rewrite E in *.
    destruct (own_step (w_run w1) (<[a := p]> (w_permits w1)) w1 Hi (wi_run _ Hi)) as [G1 G2]; auto.
    intros b Hne. by rewrite lookup_insert_ne.
Qed.
Lemma ok_bind_durable g l conn_id w : holds g w -> unbound w -> after l w ->
  okt (fun r w' => holds g w' /\ after l w' /\ is_ok r = true) (bind_durable_release a conn_id) w.
Proof.
  intros Hw Hu Hl. apply (ok_permit_table (fun w => holds g w /\ unbound w /\ after l w));
    [apply stab_and; [apply stab_holds|apply stab_and; [apply stab_unbound|apply stab_after]]|done|].
  intros w1 [(Hga & Hin & p & Hp & Hr & Hg) [Hu1 Hl1]]. rewrite Hp, Hr, (Hu1 p Hp).
  split; [|right; by eexists]. split_and!; try done. split_and!; try done.
  eexists. cbn. by rewrite lookup_insert_eq.
Qed.
Lemma ok_set_error e w : gone w -> okt (fun _ w' => gone w') (set_release_error a e) w.
Proof.
  intros Hw. apply (ok_atomic gone); [apply stab_gone|done|].
  intros w1 H1 Hi. destruct (w_permits w1 !! a) as [p|] eqn:E; cbn.
  - destruct (own_step (w_run w1) (<[a := EffectPermit (po_grant p) (po_released p) (po_transition p) (Some e)
      (po_bound p)]> (w_permits w1)) w1 Hi (wi_run _ Hi)) as [G1 G2]; auto.
    intros b Hne. by rewrite lookup_insert_ne.
  - destruct (calm_guar a w1 w1 (PreOrder_Reflexive w1) Hi). by split_and!.
Qed.

(** Whatever happens in [release], the permit is gone. *)
Lemma ok_permit_release g w : holds g w -> okt (fun _ w' => gone w') (permit_release a) w.
Proof.
  intros Hw. unfold permit_release. eapply ok_then; [by eapply ok_do_release|..]; cbn.
  - intros x w1 [Hg _]. destruct x as [[e|] t|p [tr|]]; try done. destruct (po_bound p) as [id|]; try done.
    apply ok_catch. eapply ok_weaken.
    + apply (ok_always gone); [|apply stab_gone|done]. calm_prog.
    + intros [y|e] w2 H2; [done|]. eapply ok_then; [by apply ok_set_error|..]; done.
  - intros e w1 [_ Hf]. done.
Qed.
Lemma ok_abandon g w : holds g w -> okt (fun _ w' => gone w') (abandon_undurable a) w.
Proof.
  intros Hw. unfold abandon_undurable. eapply ok_then; [by eapply ok_do_release|..]; cbn; by intros ? ? [].
Qed.

(** The effects themselves: the attempt holds its permit and the history
    justifies them. *)
Lemma ok_effect e g l w : effect_of e = Some a -> holds g w -> after l w ->
  (forall w1, after l w1 -> justified (w_trace w1) e) ->
  okt (fun r w' => holds g w' /\ after (l ++ [e])%list w' /\ is_ok r = true) (signal e) w.
Proof.
  intros He Hw Hl Hj. apply (ok_atomic (fun w => holds g w /\ after l w));
    [apply stab_and; [apply stab_holds|apply stab_after]|done|].
  intros w1 [H1 Hl1] [HO HW HL HR HG HT HC]. cbn. split_and!; [split_and!|..].
  - split; cbn; [by eexists|auto|intros ?; split; [done|lia]|].
    intros ?. split; [done|]. apply records_snoc. by destruct e.
  - intros b Hne. split; cbn; try done. apply effects_of_other. congruence.
  - right. by destruct H1 as (_ & ? & _).
  - split; cbn; auto.
    + apply gated_snoc; [done|by apply Hj].
    + intros [Hc|(d & -> & _)]%closed_in_snoc; [|done]. destruct (HC Hc). by split.
  - done.
  - unfold after. cbn. by apply sublist_app.
  - done.
Qed.

(** ** The effect gate *)

Lemma ok_acquire_permit l gi e c id gen b w : gone w -> after l w ->
  okt (fun r w' => match r with
                   | Ok (Some g) => holds g w' /\ exists d, says PERMIT a d /\ after (l ++ [EvRecord d])%list w'
                   | _ => gone w'
                   end) (acquire_permit gi a e c id gen b) w.
Proof.
  intros Hw Hl. unfold acquire_permit. destruct (gi !! a) as [i|]; [|by apply ok_ret].
  destruct (intent_matches _ _ _ _ _); cbn [negb]; [|by apply ok_ret].
  eapply ok_then; [by apply (ok_issue l)|..]; [|by intros ? ? []].
  intros [g|] w1 [Hl1 Hg1]; [|by apply ok_ret]. destruct Hg1 as [Hg1 Hu1].
  set (d := permit_record a id e g gen b).
  apply (ok_then (fun r w' => match r with
    | Ok _ => (holds g w' /\ unbound w') /\ after (l ++ [EvRecord d])%list w' | Raise _ => gone w' end)).
  - apply ok_catch. eapply ok_then;
      [apply (ok_write (fun w => holds g w /\ unbound w) l d);
         [apply plain_permit|apply stab_and; [apply stab_holds|apply stab_unbound]|done|done]|..].
    + intros x w2 (? & _ & Hd). apply ok_ret. auto.
    + intros x w2 ([Hh _] & _ & _). eapply ok_then; [by eapply ok_abandon|..]; cbn; [|done].
      intros _ w3 H3. by apply ok_throw.
  - intros _ w2 [[Hh Hu2] Hd]. eapply ok_then; [by apply (ok_bind_durable g _ id w2 Hh Hu2 Hd)|..].
    + intros _ w3 (H3 & Hd3 & _). apply ok_ret. split; [done|]. exists d. split; [|done]. by split.
    + by intros x w3 (H3 & _ & ?).
  - done.
Qed.
Lemma ok_mark_attempted l g id ip port w : holds g w -> after l w ->
  okt (fun r w' => holds g w' /\
         (is_ok r = true -> after (l ++ [EvRecord (attempt_record g id [("pin_ip", VStr ip); ("pin_port", VInt port)])])%list w'))
    (mark_attempted g id [("pin_ip", VStr ip); ("pin_port", VInt port)]) w.
Proof.
  intros Hw Hl. unfold mark_attempted. apply ok_catch.
  eapply ok_then; [apply (ok_write (holds g) l); [apply plain_attempted|apply stab_holds|done|done]|..].
  - intros x w1 (? & _ & Hd). apply ok_ret. auto.
  - intros x w1 (? & _). by apply ok_throw.
Qed.
Lemma ok_commit_intent l gi e i w : gone w -> after l w -> (forall s, plain (dset "lifecycle_seq" (VInt s) i)) ->
  okt (fun r w' => gone w' /\ match r with
                   | Ok gi' => exists s, gi' = <[a := dset "lifecycle_seq" (VInt s) i]> gi /\
                                         after (l ++ [EvRecord (dset "lifecycle_seq" (VInt s) i)])%list w'
                   | Raise _ => True
                   end) (commit_intent gi a e i) w.
Proof.
  intros Hw Hl Hp. unfold commit_intent.
  assert (stab (fun w => gone w /\ after l w)) as HS by (apply stab_and; [apply stab_gone|apply stab_after]).
  eapply (ok_calm_then (fun w => gone w /\ after l w)); [auto with calm|done|done| |by intros ? ? []].
  intros [] w1 [H1 Hl1]; cbn [negb]; [|by apply ok_throw].
  eapply (ok_calm_then (fun w => gone w /\ after l w)); [auto with calm|done|done| |by intros ? ? []].
  intros [s|] w2 [H2 Hl2]; [|by apply ok_throw].
  apply (ok_then (fun r w' => gone w' /\ (is_ok r = true ->
    after (l ++ [EvRecord (dset "lifecycle_seq" (VInt s) i)])%list w'))).
  - apply ok_catch. eapply ok_then; [apply (ok_write gone l); [apply Hp|apply stab_gone|done|done]|..].
    + intros x w3 (? & _ & Hd). apply ok_ret. auto.
    + intros x w3 (? & _). by apply ok_throw.
  - intros u w3 [H3 Hd]. apply ok_ret. split; [done|]. exists s. auto.
  - by intros x w3 [? _].
Qed.

(** ** The stages of a request, from the last to the first *)

(** What the earlier stages know of the tunnel. *)
Record tunnel_ok (t : tunnel) (auth : dict) : Prop := {
  to_attempt : cl_attempt (t_client t) = a;
  to_wf : wf_intents (t_intents t);
  to_pin : cs_pin (t_state t) = Some (t_pin t);
  to_digest : dget "request_intent_digest" auth =
    Some (VStr (request_intent_digest (h_method (t_head t)) (cs_canonical (t_state t)) (h_path (t_head t))
                  (Z.of_nat (String.length (h_rest (t_head t)))))) }.

Lemma ok_inside_send t g s w : tunnel_ok t (st_auth s) -> mediated a (t_pin t) s -> holds g w ->
  after (story_events a s ++ [EvConnect a (t_pin t)])%list w ->
  okt (fun _ w' => holds g w') (inside_send t g) w.
Proof.
  intros [Ha Hwf _ Hd] Hm Hw Hl. unfold inside_send. rewrite Ha. cbv zeta.
  apply (ok_then (fun r w' => holds g w' /\ is_ok r = true)).
  - eapply ok_weaken; [by apply (ok_effect _ g (story_events a s ++ [EvConnect a (t_pin t)])%list); [..|shelve]|].
    by intros r w1 (? & _ & ?).
    Unshelve. intros w1 H1. exists (t_pin t), s. split; [done|]. split; [|exact H1].
    eexists _, _, _. split; [reflexivity|exact Hd].
  - intros _ w1 [H1 _]. apply ok_always; [|apply stab_holds|done].
    destruct (cl_up_send (t_client t)); calm_prog.
  - by intros ? ? [? _].
Qed.
Lemma ok_inside_connect t g s w : tunnel_ok t (st_auth s) -> mediated a (t_pin t) s -> holds g w ->
  after (story_events a s) w -> okt (fun _ w' => holds g w') (inside_connect t g) w.
Proof.
  intros Ht Hm Hw Hl. pose proof Ht as [Ha Hwf _ _]. unfold inside_connect. rewrite Ha. cbv zeta.
  apply (ok_then (fun r w' => holds g w' /\ after (story_events a s ++ [EvConnect a (t_pin t)])%list w' /\ is_ok r = true)).
  - apply ok_effect; [done|done|done|]. intros w1 H1. by exists s.
  - intros _ w1 (H1 & Hl1 & _).
    eapply (ok_calm_then (fun w => holds g w /\ after (story_events a s ++ [EvConnect a (t_pin t)])%list w)).
    + calm_prog.
    + apply stab_and; [apply stab_holds|apply stab_after].
    + done.
    + intros [] w2 [H2 Hl2]; [by eapply ok_inside_send|by apply ok_ret].
    + by intros ? ? [].
  - by intros ? ? [].
Qed.
(** The history up to the permit, and what an attempt record completes. *)
Definition before_attempt q1 d1 q2 d2 auth q3 d3 dp : list event :=
  [EvDecided a q1 d1; EvDecided a q2 d2; EvRecord auth; EvDecided a q3 d3; EvRecord dp].
Lemma ok_inside_permitted t g q1 d1 q2 d2 auth q3 d3 dp w : tunnel_ok t auth ->
  (forall dt, says ATTEMPTED a dt -> pinned_at (t_pin t) dt ->
     mediated a (t_pin t) (Story q1 d1 q2 d2 auth q3 d3 dp dt)) ->
  holds g w -> after (before_attempt q1 d1 q2 d2 auth q3 d3 dp) w ->
  okt (fun _ w' => holds g w') (inside_permitted t g) w.
Proof.
  intros Ht Hm Hw Hl. pose proof Ht as [Ha Hwf _ _]. unfold inside_permitted. cbv zeta.
  pose (K := fun w => holds g w /\ after (before_attempt q1 d1 q2 d2 auth q3 d3 dp) w).
  assert (stab K) as HK by (apply stab_and; [apply stab_holds|apply stab_after]).
  eapply (ok_calm_then K); [apply calm_on_conn|done|done| |by intros ? ? []].
  intros [] w1 [H1 Hl1]; [apply ok_always; [calm_prog|apply stab_holds|done]|].
  set (dt := attempt_record g (cl_conn_id (t_client t))
               [("pin_ip", VStr (pin_ip (t_pin t))); ("pin_port", VInt (pin_port (t_pin t)))]).
  assert (g_attempt g = a) as Hga by apply H1.
  assert (mediated a (t_pin t) (Story q1 d1 q2 d2 auth q3 d3 dp dt)) as Hmd.
  { apply Hm; split; try done. cbn. by rewrite Hga. }
  apply (ok_then (fun r w' => holds g w' /\
    (r = Ok None -> after (story_events a (Story q1 d1 q2 d2 auth q3 d3 dp dt)) w'))).
  - apply ok_catch. eapply ok_then; [by apply (ok_mark_attempted (before_attempt q1 d1 q2 d2 auth q3 d3 dp) g)|..].
    + intros x w2 [H2 Hd]. apply ok_ret. split; [done|]. intros _. by apply Hd.
    + intros e w2 [H2 _]. destruct (String.eqb _ _); [apply ok_ret|apply ok_throw]; by split.
  - intros [e|] w2 [H2 Hd]; [apply ok_always; [calm_prog|apply stab_holds|done]|].
    by apply (ok_inside_connect _ _ (Story q1 d1 q2 d2 auth q3 d3 dp dt)); auto.
  - by intros ? ? [].
Qed.

Lemma ok_inside_effect t gen b q1 d1 q2 d2 auth q3 d3 w : tunnel_ok t auth ->
  (forall dp dt, says PERMIT a dp -> says ATTEMPTED a dt -> pinned_at (t_pin t) dt ->
     mediated a (t_pin t) (Story q1 d1 q2 d2 auth q3 d3 dp dt)) ->
  gone w -> after [EvDecided a q1 d1; EvDecided a q2 d2; EvRecord auth; EvDecided a q3 d3] w ->
  okt (fun _ w' => gone w') (inside_effect t gen b) w.
Proof.
  intros Ht Hm Hw Hl. pose proof Ht as [Ha Hwf _ _]. unfold inside_effect. cbv zeta. rewrite Ha.
  set (l4 := [_; _; _; _]) in *.
  assert (stab (fun w => gone w /\ after l4 w)) as HK by (apply stab_and; [apply stab_gone|apply stab_after]).
  destruct (cl_socket _) as [u|e]; [|apply ok_gone; [calm_prog|done]].
  eapply (ok_calm_then (fun w => gone w /\ after l4 w)); [apply calm_on_conn|done|done| |by intros ? ? []].
  intros [] w1 [H1 Hl1]; cbn [negb]; [|apply ok_gone; [calm_prog|done]].
  apply (ok_then (fun r w' => match r with
    | Ok (inl (Some g)) => holds g w' /\ exists d, says PERMIT a d /\ after (l4 ++ [EvRecord d])%list w'
    | _ => gone w' end)).
  - apply ok_catch. eapply ok_then; [by apply (ok_acquire_permit l4)|..].
    + intros [g|] w2 H2; by apply ok_ret.
    + intros e w2 H2. destruct (String.eqb _ _); [by apply ok_ret|by apply ok_throw].
  - intros [[g|]|e] w2 H2.
    + destruct H2 as [H2 (dp & Hdp & Hl2)]. apply ok_finally.
      eapply ok_weaken; [apply (ok_inside_permitted t g q1 d1 q2 d2 auth q3 d3 dp); auto|].
      intros r w3 H3. cbv beta. eapply ok_then; [exact (ok_permit_release g w3 H3)|..]; cbn; [|done].
      intros _ w4 H4. by apply ok_ret.
    + apply ok_gone; [calm_prog|done].
    + apply ok_gone; [calm_prog|done].
  - done.
Qed.
(** The decision that opened the connection. *)
Definition opened (c : client) (port : Z) (p : pin) (q : request) (d : decision) : Prop :=
  d_allow d = true /\ q_pin q = None /\ d_pin d = Some p /\ q_src_ip q = cl_ip c /\ q_port q = port.

Lemma recheck_passes s gen b d : recheck_fails s gen b d = false -> d_allow d = true /\ d_pin d = cs_pin s.
Proof. unfold recheck_fails. intros. bools. by split. Qed.
Lemma ok_inside_recheck t port gen b q1 d1 d2 auth w : tunnel_ok t auth ->
  opened (t_client t) port (t_pin t) q1 d1 -> d_allow d2 = true ->
  says AUTH a auth -> pinned_at (t_pin t) auth -> gone w ->
  after [EvDecided a q1 d1;
         EvDecided a (tunnel_request (t_client t) (t_state t) port (h_method (t_head t))) d2; EvRecord auth] w ->
  okt (fun _ w' => gone w') (inside_recheck t port gen b) w.
Proof.
  intros Ht Ho Hd2 Hs Hp Hw Hl. pose proof Ht as [Ha Hwf Hpin _]. unfold inside_recheck. cbv zeta. rewrite Ha.
  set (l3 := [_; _; _]) in *. set (q2 := tunnel_request _ _ _ _) in *.
  eapply ok_then; [by apply (ok_try_ask gone l3); [apply stab_gone|..]|..]; [|by intros ? ? [? _]].
  intros got w1 (H1 & _ & got' & [= ->] & Hgot). destruct got' as [d3|x].
  2: { apply ok_gone; [calm_prog|done]. }
  destruct (recheck_fails _ _ _ _) eqn:E; [apply ok_gone; [calm_prog|done]|].
  apply recheck_passes in E as [Hd3 Hp3]. rewrite Hpin in Hp3.
  apply ok_of_res_then; [intros _ _|done].
  eapply (ok_inside_effect t _ _ q1 d1 q2 d2 auth q2 d3); [done| |done|exact Hgot].
  intros dp dt Hdp Hdt Hpt. destruct Ho as (O1 & O2 & O3 & O4 & O5). by split; auto.
Qed.

Lemma wf_intents_one i gi : wf_intents gi -> plain i -> wf_intents (<[a := i]> gi).
Proof.
  intros Hgi [Hi _] b j Hj. apply lookup_insert_Some in Hj as [[_ <-]|[_ Hj]]; [done|]. by eapply Hgi.
Qed.
Lemma ok_inside_commit c s port hd label p q1 d1 d2 w : cl_attempt c = a -> cs_pin s = Some p ->
  opened c port p q1 d1 -> d_allow d2 = true -> gone w ->
  after [EvDecided a q1 d1; EvDecided a (tunnel_request c s port (h_method hd)) d2] w ->
  okt (fun _ w' => gone w') (inside_commit c s port hd label p d2) w.
Proof.
  intros Ha Hpin Ho Hd2 Hw Hl. unfold inside_commit. cbv zeta. set (l2 := [_; _]) in *.
  assert (stab (fun w => gone w /\ after l2 w)) as HK by (apply stab_and; [apply stab_gone|apply stab_after]).
  eapply (ok_calm_then (fun w => gone w /\ after l2 w)); [apply calm_read|done|done| |by intros ? ? []].
  intros epoch w1 [H1 Hl1].
  apply ok_if; intros _; [apply ok_gone; [calm_prog|done]|].
  eapply (ok_calm_then (fun w => gone w /\ after l2 w)); [apply always_atomic; reflexivity|done|done| |by intros ? ? []].
  intros run_id w2 [H2 Hl2]. pose (args := intent_of c s run_id epoch hd (detail "policy_generation" d2) (detail "budget_binding" d2)).
  rewrite Ha.
  apply (ok_then (fun r w' => gone w' /\ match r with
    | Ok (inl gi) => exists sq, gi = <[a := dset "lifecycle_seq" (VInt sq) (sanitized_intent args)]> ∅ /\
                       after (l2 ++ [EvRecord (dset "lifecycle_seq" (VInt sq) (sanitized_intent args))])%list w'
    | _ => True end)).
  - apply ok_catch. eapply ok_then; [apply (ok_commit_intent l2); [done|done|intros; apply plain_intent]|..].
    + intros gi w3 [H3 Hgi]. by apply ok_ret.
    + intros x w3 [H3 _]. destruct (mem_str _ _); [by apply ok_ret|by apply ok_throw].
  - intros [gi|x] w3 [H3 Hgi]; [|apply ok_gone; [calm_prog|done]].
    destruct Hgi as (sq & -> & Hl3). set (auth := dset _ _ _) in *.
    eapply (ok_inside_recheck _ port _ _ q1 d1 d2 auth).
    + split; [done| |done|].
      * apply wf_intents_one; [|apply plain_intent]. intros b j. by rewrite lookup_empty.
      * done.
    + done.
    + done.
    + by split; cbn; rewrite ?Ha.
    + by split; cbn; rewrite Hpin.
    + done.
    + exact Hl3.
  - by intros ? ? [].
Qed.
Lemma ok_inside_request c s port label p hd q1 d1 w : cl_attempt c = a -> cs_pin s = Some p ->
  opened c port p q1 d1 -> gone w -> after [EvDecided a q1 d1] w ->
  okt (fun _ w' => gone w') (inside_request c s port label p hd) w.
Proof.
  intros Ha Hpin Ho Hw Hl. unfold inside_request. cbv zeta. rewrite Ha.
  destruct (negb _); [apply ok_gone; [calm_prog|done]|].
  eapply ok_then; [by apply (ok_try_ask gone [EvDecided a q1 d1]); [apply stab_gone|..]|..]; [|by intros ? ? [? _]].
  intros got w1 (H1 & _ & got' & [= ->] & Hgot). destruct got' as [d2|x].
  2: { apply ok_gone; [calm_prog|done]. }
  destruct (d_allow d2) eqn:Hd2; cbn [negb]; [|apply ok_gone; [calm_prog|done]].
  eapply (ok_calm_then (fun w => gone w /\
    after [EvDecided a q1 d1; EvDecided a (tunnel_request c s port (h_method hd)) d2] w)).
  - unfold add_secret_of. calm_prog.
  - apply stab_and; [apply stab_gone|apply stab_after].
  - split; [done|exact Hgot].
  - intros _ w2 [H2 Hl2]. by eapply ok_inside_commit.
  - by intros ? ? [].
Qed.
(** ** The connection *)

Lemma ok_inside c s port p q1 d1 w : cl_attempt c = a -> cs_pin s = Some p -> opened c port p q1 d1 ->
  gone w -> after [EvDecided a q1 d1] w -> okt (fun _ w' => gone w') (inside c s port p) w.
Proof.
  intros Ha Hpin Ho Hw Hl. unfold inside. cbv zeta.
  apply ok_if; intros _; [apply ok_gone; [calm_prog|done]|].
  apply ok_of_res_then; [|done]. intros [hd|] _; [|apply ok_gone; [calm_prog|done]].
  by eapply ok_inside_request.
Qed.
Lemma ok_connect_tls c s port p q1 d1 w : cl_attempt c = a -> cs_pin s = Some p -> opened c port p q1 d1 ->
  gone w -> after [EvDecided a q1 d1] w -> okt (fun _ w' => gone w') (connect_tls c s port p) w.
Proof.
  intros Ha Hpin Ho Hw Hl. unfold connect_tls. cbv zeta.
  pose (K := fun w => gone w /\ after [EvDecided a q1 d1] w).
  assert (stab K) as HK by (apply stab_and; [apply stab_gone|apply stab_after]).
  destruct (cl_leaf c) as [u|e]; [|apply ok_if; intros _; [apply ok_gone; [calm_prog|done]|by apply ok_throw]].
  apply ok_of_res_then; [intros _ _|done].
  destruct (cl_load_chain c) as [u2|e]; [|apply ok_gone; [calm_prog|done]].
  eapply (ok_calm_then K); [apply calm_on_conn|done|done| |by intros ? ? []].
  intros _ w1 [H1 Hl1]. apply ok_of_res_then; [intros _ _|by intros].
  destruct (cl_handshake c) as [u4|e]; [|apply ok_if; intros _; [apply ok_gone; [calm_prog|done]|by apply ok_throw]].
  eapply (ok_calm_then K); [apply calm_on_conn|done|done| |by intros ? ? []].
  intros [] w2 [H2 Hl2]; cbn [negb]; [by eapply ok_inside|by apply ok_ret].
Qed.
Lemma ok_connect_flow c s host port w : cl_attempt c = a -> gone w ->
  okt (fun _ w' => gone w') (connect_flow c s host port) w.
Proof.
  intros Ha Hw. unfold connect_flow. cbv zeta. rewrite Ha.
  eapply ok_then; [apply (ok_try_ask gone []); [apply stab_gone|done|apply sublist_nil_l]|..]; [|by intros ? ? [? _]].
  intros got w1 (H1 & _ & got' & [= ->] & Hgot). destruct got' as [d|x]; [|apply ok_gone; [calm_prog|done]].
  destruct (d_allow d) eqn:Hd; cbn [negb]; [|apply ok_gone; [calm_prog|done]].
  destruct (d_pin d) as [p|] eqn:Hp; [|by apply ok_throw].
  destruct (canonical_host host) as [canon|]; [|by apply ok_throw].
  eapply ok_connect_tls; [done|done| |done|exact Hgot]. by split_and!.
Qed.
Lemma ok_do_CONNECT c w : cl_attempt c = a -> gone w -> okt (fun _ w' => gone w') (do_CONNECT c) w.
Proof.
  intros Ha Hw. unfold do_CONNECT. destruct (rpartition ":" (cl_target c)) as [[host sep] p].
  apply ok_if; intros _; [apply ok_gone; [calm_prog|done]|].
  apply ok_of_res_then; [intros port _|done].
  eapply (ok_calm_then gone); [auto with calm|apply stab_gone|done| |done].
  intros [] w1 H1; cbn [negb]; [|apply ok_gone; [calm_prog|done]].
  eapply (ok_calm_then gone); [auto with calm|apply stab_gone|done| |done].
  intros obj w2 H2. cbv zeta. eapply (ok_then (fun _ w' => gone w')); [|by intros; apply ok_ret|done]. apply ok_finally.
  apply (ok_weaken _ _ _ _ (fun _ w' => gone w')).
  - apply ok_catch. apply (ok_weaken _ _ _ _ (fun _ w' => gone w')).
    + eapply (ok_calm_then gone); [auto with calm|apply stab_gone|done| |done].
      intros [] w3 H3; cbn [negb]; [by apply ok_connect_flow|apply ok_gone; [calm_prog|done]].
    + intros [x|e] w3 H3; [done|]. apply ok_gone; [calm_prog|done].
  - intros r w3 H3. apply ok_gone; [calm_prog|done].
Qed.

(** ** The handler and the watcher *)

Lemma ok_dispatch cmds w : (forall b, b ∈ attempts (Handler cmds) -> b = a) -> gone w ->
  okt (fun _ w' => gone w') (dispatch cmds) w.
Proof.
  revert w. induction cmds as [|[c|m p s] cmds IH]; intros w Hc Hw; cbn [dispatch].
  - by apply ok_ret.
  - eapply (ok_then (fun _ w' => gone w')); [apply ok_do_CONNECT; [|done]; apply Hc; by left| |done].
    intros [] w1 H1; [by apply ok_ret|]. apply IH; [|done]. intros b Hb. apply Hc. by right.
  - eapply (ok_calm_then gone); [auto with calm|apply stab_gone|done| |done]. intros _ w1 H1. by apply IH.
Qed.
Lemma ok_handle cmds w : (forall b, b ∈ attempts (Handler cmds) -> b = a) -> gone w ->
  okt (fun _ w' => gone w') (handle cmds) w.
Proof.
  intros Hc Hw. unfold handle.
  eapply (ok_calm_then gone); [auto with calm|apply stab_gone|done| |done].
  intros [] w1 H1; cbn [negb]; [|by apply ok_ret]. apply ok_finally.
  eapply ok_weaken; [by apply ok_dispatch|]. intros r w2 H2. apply ok_gone; [calm_prog|done].
Qed.
Definition cancelled (w : world) : Prop := r_cancelled (w_run w) = true.
Definition killed (w : world) : Prop := g_killed (w_reg w) = true.
(** No permit is in flight and no producer is left, for good. *)
Definition no_effects (w : world) : Prop := cancelled w /\ forall b, r_inflight (w_run w) !! b = None.
Definition no_producers (w : world) : Prop := killed w /\ g_producers (w_reg w) <= 0.
Lemma stab_cancelled : stab cancelled.
Proof. intros w w' [[_ Hc _] _] Hw. by apply Hc. Qed.
Lemma stab_killed : stab killed.
Proof. intros w w' [[_ _ Hk] _] Hw. by apply Hk. Qed.
Lemma stab_no_effects : stab no_effects.
Proof. intros w w' [[_ Hc _] _] [H1 H2]. destruct (Hc H1). split; auto. Qed.
Lemma stab_no_producers : stab no_producers.
Proof. intros w w' [[_ _ Hk] _] [H1 H2]. destruct (Hk H1). split; [done|lia]. Qed.

(** A calm critical section, with what it establishes. *)
Lemma ok_calm_step {A} P (Q : res A -> world -> Prop) f w : always calm (atomic f) -> stab P -> P w ->
  (forall w1, P w1 -> world_inv w1 -> rely a w1 (f w1).1 -> Q (Ok (f w1).2) (f w1).1) -> okt Q (atomic f) w.
Proof.
  intros Hc HP Hw Hf. apply (ok_atomic P); [done|done|]. intros w1 H1 Hi.
  destruct (Hc w1) as [Hc1 _]. destruct (calm_guar a _ _ Hc1 Hi). split_and!; [done|done|].
  apply Hf; [done|done|by apply calm_rely].
Qed.
Definition halted (w : world) : Prop := gone w /\ cancelled w /\ killed w.
Lemma stab_halted : stab halted.
Proof. apply stab_and; [apply stab_gone|apply stab_and; [apply stab_cancelled|apply stab_killed]]. Qed.
Lemma ok_terminate_all e w : gone w ->
  okt (fun r w' => gone w' /\ (is_ok r = true -> halted w')) (terminate_all e (Some record_linearization)) w.
Proof.
  intros Hw. unfold terminate_all.
  apply (ok_then (fun r w' => (gone w' /\ cancelled w') /\ is_ok r = true)).
  { apply (ok_calm_step gone); [apply calm_cancel|apply stab_gone|done|].
    intros w1 H1 Hi Hr. split; [|done]. split; [by apply (stab_gone w1)|]. unfold cancelled.
    pose proof (ri_cancel _ (wi_run _ Hi)) as Hc. unfold cancel.
    destruct (r_cancellation (w_run w1)); [exact Hc|done]. }
  2: { by intros ? ? [[? _] ?]. }
  intros t w1 [H1 _].
  assert (stab (fun w => gone w /\ cancelled w)) as HK
    by (apply stab_and; [apply stab_gone|apply stab_cancelled]).
  apply (ok_then (fun r w' => halted w' /\ is_ok r = true)).
  { apply (ok_calm_step (fun w => gone w /\ cancelled w)); [apply calm_kill|done|done|].
    intros w2 H2 Hi Hr. split; [|done]. destruct (HK _ _ Hr H2). by split_and!. }
  2: { by intros ? ? [[? _] ?]. }
  intros victims w2 [H2 _]. eapply ok_weaken; [apply (ok_always halted); [|apply stab_halted|done]|].
  - calm_prog; apply calm_for_each; calm_prog.
  - intros r w3 H3. by split; [apply H3|].
Qed.

(** The one record that closes the run. *)
Lemma ok_seal t w : gone w -> no_effects w -> no_producers w ->
  okt (fun _ w' => gone w') (audit_seal (closed_record t)) w.
Proof.
  intros Hw He Hp. apply (ok_atomic_res (fun w => gone w /\ no_effects w /\ no_producers w)); [|done|].
  { apply stab_and; [apply stab_gone|apply stab_and; [apply stab_no_effects|apply stab_no_producers]]. }
  intros w1 (H1 & [E1 E2] & [P1 P2]) [HO HW HL HR HG HT HC].
  set (d := closed_record t). assert (wf_entry d) as Hwf by (apply wf_dict; [cbn; nodup_tac|wff_tac]).
  pose proof (conj HO (conj HW HL)) as Hlog. pose proof (seal_log d w1 Hwf ltac:(by split)) as [HW' HL']. clear Hlog.
  assert (is_ok (seal_with (w_ios w1 (w_nio w1)) d (w_log w1)).2 = true ->
          l_sealed (seal_with (w_ios w1 (w_nio w1)) d (w_log w1)).1 = true) as Hs.
  { unfold seal_with. destruct (negb _); [done|]. destruct (l_sealed _); [done|].
    destruct (write _ _ _) as [l [x|x]]; done. }
  assert (l_sealed (w_log w1) = true -> l_sealed (seal_with (w_ios w1 (w_nio w1)) d (w_log w1)).1 = true) as Hs'.
  { unfold seal_with. intros Hsl. rewrite Hsl. cbn. by rewrite Hsl. }
  assert (l_sealed (w_log w1) = true -> is_ok (seal_with (w_ios w1 (w_nio w1)) d (w_log w1)).2 = false) as Hso.
  { unfold seal_with. intros Hsl. by rewrite Hsl. }
  unfold do_seal. destruct (seal_with _ _ _) as [l r]. cbn in *.
  assert (0 <= g_producers (w_reg w1)) by apply HG.
  assert (r_inflight (w_run w1) = ∅) by (apply map_eq; intros b; by rewrite lookup_empty, E2).
  destruct r as [x|x]; cbn; split_and!; try done.
  - split_and!; [|intros b _; split; cbn; try done; by apply effects_of_other|left; by apply effects_of_other].
    split; cbn; [by eexists|auto|intros ?; split; [done|lia]|]. intros Hsl. discriminate (Hso Hsl).
  - split; cbn; auto; [by apply gated_snoc|]. intros _. split; cbn; auto. lia.
  - split_and!; [|by intros b _|by left].
    split; cbn; [exists []; by rewrite app_nil_r|auto|intros ?; split; [done|lia]|auto].
  - split; cbn; auto. intros Hcl. destruct (HC Hcl). by split; cbn; auto.
Qed.

Lemma stab_impl (X : Prop) P : stab P -> stab (fun w => X -> P w).
Proof. intros HP w w' Hr Hw Hx. eapply HP; [exact Hr|auto]. Qed.

(** What the two counts say of the world from then on. *)
Definition counted (s : drained_state) (w : world) : Prop :=
  gone w /\ (dr_effects s = 0 -> no_effects w) /\ (dr_producers s = 0 -> no_producers w).
Lemma stab_counted s : stab (counted s).
Proof.
  apply stab_and; [apply stab_gone|apply stab_and; apply stab_impl; [apply stab_no_effects|apply stab_no_producers]].
Qed.
Lemma quiescent_counts s : quiescent s = true -> dr_effects s = 0 /\ dr_producers s = 0.
Proof.
  unfold quiescent, blockers. intros Hb%bool_decide_eq_true.
  apply app_eq_nil in Hb as [Hb1 Hb2]. apply app_eq_nil in Hb2 as [Hb2 _].
  destruct (Z.eqb_spec (dr_effects s) 0); [|done]. by destruct (Z.eqb_spec (dr_producers s) 0).
Qed.
Lemma ok_certify torn snap s durable w : counted s w ->
  okt (fun _ w' => gone w') (certify torn snap s durable) w.
Proof.
  intros Hw. unfold certify.
  assert (forall w, counted s w -> gone w) as Hcg by (by intros ? []).
  apply ok_if; intros _; [apply ok_throw; auto|].
  eapply (ok_calm_then (counted s)); [auto with calm|apply stab_counted|done| |auto].
  intros [] w1 H1; cbn [negb]; [|apply ok_throw; auto].
  eapply (ok_calm_then (counted s)); [auto with calm|apply stab_counted|done| |auto].
  intros _ w2 H2. destruct (quiescent s) eqn:Hq; cbn [negb]; [|apply ok_gone; [calm_prog|auto]].
  eapply (ok_calm_then (counted s)); [auto with calm|apply stab_counted|done| |auto].
  intros _ w3 H3. destruct (quiescent_counts _ Hq) as [He Hp].
  destruct (dr_transition s) as [t|]; [|apply ok_throw; auto].
  destruct H3 as (H3 & Ee & Ep).
  eapply ok_then; [apply ok_seal; auto|..]; cbv beta; [|done]. intros _ w4 H4. by apply ok_ret.
Qed.
Lemma ok_cancel_and_quiesce e w : gone w -> okt (fun _ w' => gone w') (cancel_and_quiesce e) w.
Proof.
  intros Hw. unfold cancel_and_quiesce.
  eapply ok_then; [by apply ok_terminate_all|..]; cbv beta; [|by intros ? ? []].
  intros [torn snap] w1 [_ H1]. specialize (H1 eq_refl).
  assert (forall w, halted w -> gone w) as Hcg by (by intros ? []).
  eapply (ok_calm_then halted); [apply calm_read_reg|apply stab_halted|done| |auto].
  intros last w2 H2.
  eapply (ok_calm_then halted); [apply calm_drain|apply stab_halted|done| |auto].
  intros _ w3 H3.
  apply (ok_then (fun r w' => halted w' /\ match r with Ok n => n = 0 -> no_effects w' | _ => False end)).
  { apply (ok_calm_step halted); [apply calm_read|apply stab_halted|done|].
    intros w4 H4 Hi Hr. cbn. split; [exact H4|]. intros Hn. split; [apply H4|]. intros b. cbn.
    unfold inflight_count in Hn. assert (r_inflight (w_run w4) = ∅) as -> by (apply map_size_empty_inv; lia).
    apply lookup_empty. }
  2: { by intros ? ? []. }
  intros effects w4 [H4 He].
  apply (ok_then (fun r w' => (halted w' /\ (effects = 0 -> no_effects w')) /\
                   match r with Ok n => n = 0 -> no_producers w' | _ => False end)).
  { assert (stab (fun w => halted w /\ (effects = 0 -> no_effects w))) as HK
      by (apply stab_and; [apply stab_halted|apply stab_impl, stab_no_effects]).
    eapply (ok_calm_step _ _ _ w4); [apply calm_read_reg|exact HK|done|].
    intros w5 H5 Hi Hr. cbn. split; [by apply (HK w5)|]. intros Hn. split; [apply H5|cbn; lia]. }
  2: { by intros ? ? [_ ?]. }
  intros producers w5 [[H5 He5] Hp].
  set (K := fun w => gone w /\ (effects = 0 -> no_effects w) /\ (producers = 0 -> no_producers w)).
  assert (stab K) as HK by
    (apply stab_and; [apply stab_gone|apply stab_and; apply stab_impl; [apply stab_no_effects|apply stab_no_producers]]).
  eapply (ok_calm_then K); [auto with calm|done|by split_and!; auto| |by intros ? ? []].
  intros epoch w6 H6. cbv zeta. apply ok_catch.
  eapply ok_then; [apply ok_certify; exact H6|..]; cbv beta.
  - intros sealed w7 H7. by apply ok_ret.
  - intros x w7 H7. by apply ok_ret.
Qed.
End Ok.
