(* ===== verification/SystemProps.v ===== *)
(** * Properties of the running gateway

    What holds of every interleaving of any number of handlers and watchers, for
    every behaviour of clients, network, policy and storage. *)

From S2P Require Import Prelude PyStr Json JsonFacts PyDyn Hash AuditLog AuditFacts AuditProps.
From S2P Require Import IpAddr Addressing Resolver Lifecycle LifecycleFacts Pdp Conc World Registry.
From S2P Require Import Gateway System SystemFacts SystemOk.
Open Scope Z_scope.

Section Props.
Context `{Digest} `{Idna}.

(** A world nothing has run in: its log may hold the records of the start. *)
Record unused (w : world) : Prop := {
  un_run : w_run w = run0;
  un_permits : w_permits w = ∅;
  un_conns : w_conns w = [];
  un_reg : exists n, 0 <= n /\ w_reg w = registry0 n }.
(** What a process hands to its handlers and watchers, which [main] establishes
    ([StartupProps.start_establishes_boot]): a log that is intact, and a history
    without an effect or a RUN_CLOSED. *)
Record boot (s : system) (w : world) : Prop := {
  bt_named : named s;
  bt_unused : unused w;
  bt_log : log_inv (w_log w);
  bt_ios : forall i, wf (io_time (w_ios w i));
  bt_effects : effects (w_trace w) = [];
  bt_open : ~ closed_in (w_trace w) }.
Definition start (s : system) (w : world) : list (thread unit) * world := (threads s, w).

Lemma gated_quiet tr : effects tr = [] -> gated tr.
Proof.
  intros He before e after ->. unfold effects in He. rewrite List.filter_app in He. apply app_eq_nil in He as [_ He].
  destruct e; done.
Qed.
Lemma boot_inv s w : boot s w -> world_inv w.
Proof.
  intros [_ [Hr Hp Hc (n & Hn & Hg)] Hl Hi He Ho]. split; auto.
  - by apply log_inv_whole.
  - rewrite Hr. apply run_inv0.
  - rewrite Hg. by apply registry_inv0.
  - by apply gated_quiet.
  - done.
Qed.
(** The world before anything was written is one. *)
Lemma boot_world0 s l ios n : named s -> log_inv l -> (forall i, wf (io_time (ios i))) -> 0 <= n -> boot s (world0 l ios n).
Proof.
  intros Hs Hl Hi Hn. split; try done; [by split; [..|exists n]|]. by intros (d & Hd%not_elem_of_nil & _).
Qed.
Lemma role_ok a r w : (forall b, b ∈ attempts r -> b = a) -> gone a w ->
  ok rely guar world_inv a (fun _ w' => gone a w') (role_thread r) w.
Proof.
  intros Ha Hw. destruct r as [cmds|e]; cbn [role_thread]; [by apply ok_handle|].
  eapply ok_then; [by apply ok_cancel_and_quiesce|..]; cbv beta; [|done]. intros _ w1 H1. by apply ok_ret.
Qed.
Lemma start_ok s w0 : boot s w0 -> pool_ok rely guar world_inv s.*1 gone (start s w0).
Proof.
  intros Hb. pose proof (boot_inv _ _ Hb). destruct Hb as [[Hnd Hna] [Hr0 _ _ _] _ _ _ _]. split; cbn.
  - unfold threads. by rewrite !length_fmap.
  - done.
  - done.
  - intros j a p Hj Hp. unfold start, threads in Hp. cbn [fst] in Hp.
    apply list_lookup_fmap_Some in Hj as ([a1 r1] & -> & Hj).
    apply list_lookup_fmap_Some in Hp as ([a2 r2] & -> & Hp). simplify_eq. cbn.
    apply role_ok; [eapply Hna; by eapply list_elem_of_lookup_2|]. unfold gone. by rewrite Hr0.
Qed.
Lemma stable_gone a : stable rely a (gone a).
Proof. intros w w1 Hr Hw. by apply (stab_gone a w). Qed.
Lemma reach_ok s w0 cfg : boot s w0 -> reach (start s w0) cfg ->
  pool_ok rely guar world_inv s.*1 gone cfg.
Proof.
  intros Hb Hr. eapply (pool_reach_ok _ _ _ rely_trans rely_refl guar_rely); [apply stable_gone| |done].
  by apply start_ok.
Qed.

(** Every step of the pool is the guarantee of one of its threads, or moves nothing. *)
Lemma step_guar ids cfg cfg' : pool_ok rely guar world_inv ids gone cfg -> pool_step cfg cfg' ->
  pool_ok rely guar world_inv ids gone cfg' /\
  (cfg'.2 = cfg.2 \/ exists i, i ∈ ids /\ guar i cfg.2 cfg'.2).
Proof.
  intros Hp Hs. by apply (pool_step_ok _ _ _ rely_trans rely_refl guar_rely); [apply stable_gone|..].
Qed.
(** A relation every guarantee implies holds along every schedule. *)
Lemma reach_inv ids (R : world -> world -> Prop) cfg cfg' : PreOrder R ->
  (forall i w w', i ∈ ids -> world_inv w -> world_inv w' -> guar i w w' -> R w w') ->
  pool_ok rely guar world_inv ids gone cfg -> reach cfg cfg' -> R cfg.2 cfg'.2.
Proof.
  intros HR Hg Hp Hr. induction Hr as [c|c1 c2 c3 Hs Hr IH]; [reflexivity|].
  destruct (step_guar ids c1 c2 Hp Hs) as [Hp2 [E|(i & Hi & G)]].
  - rewrite <- E. by apply IH.
  - etrans; [|by apply IH]. apply (Hg i); [done|apply Hp|apply Hp2|done].
Qed.

Lemma app_self {A} (l k : list A) : (l ++ k)%list = l -> k = [].
Proof. intros E. apply (app_inv_head l). by rewrite app_nil_r. Qed.
Lemma effects_none t : effects t = [] <-> forall a, effects_of a t = [].
Proof.
  unfold effects, effects_of, is_effect. induction t as [|e t IH]; cbn; [done|].
  destruct (effect_of e) as [a|] eqn:E; cbn.
  - split; [done|]. intros Ha. specialize (Ha a). by rewrite bool_decide_true in Ha.
  - rewrite IH. split; intros Ha a; specialize (Ha a); rewrite bool_decide_false in *; done.
Qed.
(** Once cancelled and drained: no permit, and no effect. *)
Definition spent (w w' : world) : Prop :=
  no_effects w -> no_effects w' /\ effects (w_trace w') = effects (w_trace w).
#[local] Instance spent_pre : PreOrder spent.
Proof.
  split; [by intros w|]. intros w1 w2 w3 H1 H2 Hn. destruct (H1 Hn) as [Hn2 E2]. destruct (H2 Hn2) as [Hn3 E3].
  split; [done|congruence].
Qed.
Lemma guar_spent i w w' : guar i w w' -> spent w w'.
Proof.
  intros ([[more E] Hc _ _] & Hk & Hi) [Hn1 Hn2]. destruct (Hc Hn1) as [Hc' Hf]. split; [split; [done|auto]|].
  rewrite E, effects_app. enough (effects more = []) as -> by apply app_nil_r.
  apply effects_none. intros a. destruct (decide (a = i)) as [->|Hne].
  - destruct Hi as [Hi|[g Hg]]; [|by rewrite Hn2 in Hg].
    rewrite E, effects_of_app in Hi. by apply app_self in Hi.
  - destruct (Hk a Hne) as [_ _ Ha]. rewrite E, effects_of_app in Ha. by apply app_self in Ha.
Qed.
(** A sealed log takes no further record. *)
Definition final_log (w w' : world) : Prop :=
  l_sealed (w_log w) = true -> l_sealed (w_log w') = true /\ records (w_trace w') = records (w_trace w).
#[local] Instance final_pre : PreOrder final_log.
Proof.
  split; [by intros w|]. intros w1 w2 w3 H1 H2 Hn. destruct (H1 Hn) as [Hn2 E2]. destruct (H2 Hn2) as [Hn3 E3].
  split; [done|congruence].
Qed.
(** Only the attempts of the pool ever hold a permit. *)
Definition strangers (ids : list string) (w w' : world) : Prop :=
  forall a, a ∉ ids -> r_inflight (w_run w') !! a = r_inflight (w_run w) !! a.
#[local] Instance strangers_pre ids : PreOrder (strangers ids).
Proof. split; [done|]. intros w1 w2 w3 H1 H2 a Ha. by rewrite H2, H1. Qed.

(** C1: no effect on a target is unmediated. In every interleaving, before a
    handler connects upstream the history holds, in this order: an allowing
    decision that chose the very pin connected to, an allowing decision on the
    request that kept it, the durable intent, the allowing recheck of the same
    request, the durable permit and the durable attempt record, all of the same
    attempt; and the bytes sent are those of the request the intent committed to. *)
Theorem effects_mediated s w0 ts w before e after : boot s w0 ->
  reach (start s w0) (ts, w) -> w_trace w = (before ++ e :: after)%list ->
  match e with
  | EvConnect a p => exists st, mediated a p st /\ sublist (story_events a st) before
  | EvSend a req => exists p st, mediated a p st /\ committed req (st_auth st) /\
                      sublist (story_events a st ++ [EvConnect a p])%list before
  | _ => True
  end.
Proof.
  intros Hb Hr E. destruct (reach_ok _ _ _ Hb Hr) as [_ _ Hi _]. exact (wi_gated _ Hi before e after E).
Qed.

(** C3: the kill switch is final. Once the run is cancelled and no permit is in
    flight, no schedule of the threads that were running brings another connect
    or send: not the handlers already past their policy decision, not those that
    hold a durable intent. *)
Theorem no_effect_after_drain s w0 ts1 w1 ts2 w2 : boot s w0 ->
  reach (start s w0) (ts1, w1) -> reach (ts1, w1) (ts2, w2) ->
  r_cancelled (w_run w1) = true -> r_inflight (w_run w1) = ∅ ->
  effects (w_trace w2) = effects (w_trace w1) /\ r_inflight (w_run w2) = ∅.
Proof.
  intros Hb Hr1 Hr2 Hc Hi. pose proof (reach_ok _ _ _ Hb Hr1) as Hp.
  destruct (reach_inv _ spent _ _ _ ltac:(by intros; eapply guar_spent) Hp Hr2) as [[_ Hn] He].
  - split; [done|]. intros a. cbn. by rewrite Hi.
  - split; [exact He|]. apply map_eq. intros a. by rewrite lookup_empty, Hn.
Qed.

(** C8: a durable RUN_CLOSED record is the truth and the end. When it is in the
    log the run is cancelled, no permit is in flight, no handler is producing
    and none will be admitted; and from then on no schedule adds a record to
    the log or an effect on a target. *)
Theorem run_closed_final s w0 ts1 w1 ts2 w2 d : boot s w0 ->
  reach (start s w0) (ts1, w1) -> reach (ts1, w1) (ts2, w2) ->
  EvRecord d ∈ w_trace w1 -> dget "decision" d = Some (VStr RUN_CLOSED) ->
  (r_cancelled (w_run w1) = true /\ r_inflight (w_run w1) = ∅ /\ g_producers (w_reg w1) = 0 /\
   g_killed (w_reg w1) = true) /\
  records (w_trace w2) = records (w_trace w1) /\ effects (w_trace w2) = effects (w_trace w1).
Proof.
  intros Hb Hr1 Hr2 Hd Hc. pose proof (reach_ok _ _ _ Hb Hr1) as Hp.
  destruct (wi_closed _ (po_inv _ _ _ _ _ _ Hp)) as [S C I K P]; [by exists d|]. cbn in *. split_and!; try done.
  - apply (reach_inv _ final_log _ _ _ ltac:(intros ? ? ? ? ? ? ([] & _); done) Hp Hr2). done.
  - eapply (no_effect_after_drain s w0 ts1 w1); eauto.
Qed.
Lemma closes_dec w : closes_ok w \/ exists i, (i < w_nio w)%nat /\ io_close (w_ios w i) = false.
Proof.
  unfold closes_ok. induction (w_nio w) as [|n [IH|(i & Hi & Hc)]]; [left; intros i; lia| |right; exists i; split; [lia|done]].
  destruct (io_close (w_ios w n)) eqn:E; [left|right; by exists n; split; [lia|]].
  intros i Hi. destruct (decide (i = n)) as [->|]; [done|]. apply IH. lia.
Qed.
Lemma whole_verify l : whole_log l -> l_healthy l = true ->
  (exists m, verify (l_file l) = Ok (true, Intact m)) \/ exists k x, verify (l_file l) = Ok (false, ChainBreak k x).
Proof.
  intros (f & p & Hf & _ & Hr & Hp) Hh. rewrite Hp, append_nil_r in Hf by done. rewrite Hf. by apply verify_records.
Qed.
(** C19: storage and interleavings against the chain. Whatever the schedule and
    whatever storage answers (short writes, refused opens, failed fsyncs, failed
    closes), every line of a log that is still healthy parses as a record, and the
    log verifies unless one of the writes so far met a failing [os.close]: the
    damage of that one failure that does not latch is a chain break. *)
Theorem chain_intact_in_every_schedule s w0 ts w : boot s w0 ->
  reach (start s w0) (ts, w) -> l_healthy (w_log w) = true ->
  (exists f, l_file (w_log w) = Some f /\ Forall is_record_line (rec_lines f)) /\
  ((exists m, verify (l_file (w_log w)) = Ok (true, Intact m)) \/
   (exists k x i, verify (l_file (w_log w)) = Ok (false, ChainBreak k x) /\
                  (i < w_nio w)%nat /\ io_close (w_ios w i) = false)).
Proof.
  intros Hb Hr Hh. destruct (reach_ok _ _ _ Hb Hr) as [_ _ [_ Hw Hl _ _ _ _] _]. cbn in Hw, Hl. split.
  { destruct Hw as (f & p & Hf & _ & Hrec & Hp). exists f. by rewrite Hf, Hp, append_nil_r. }
  destruct (closes_dec w) as [Hc|(i & Hi & Hc)]; [left; by apply log_inv_verify; [apply Hl|]|].
  destruct (whole_verify _ Hw Hh) as [Hv|(k & x & Hv)]; [by left|right]. by exists k, x, i.
Qed.

(** C10: no permit leaks. In every schedule and on every path out of a handler,
    exceptions and storage failures included, once all the threads have ended no
    permit is in flight, so a drain cannot hang on a finished handler. *)
Theorem no_permit_leaks s w0 ts w : boot s w0 ->
  reach (start s w0) (ts, w) -> Forall finished ts -> r_inflight (w_run w) = ∅.
Proof.
  intros Hb Hr Hf. pose proof (reach_ok _ _ _ Hb Hr) as Hp. apply map_eq. intros a. rewrite lookup_empty.
  destruct (decide (a ∈ s.*1)) as [Ha|Ha].
  - exact (pool_done _ _ _ _ _ _ _ _ Hp Hf Ha).
  - assert (strangers s.*1 w0 w) as E; [|by rewrite (E a Ha), (un_run _ (bt_unused _ _ Hb))].
    refine (reach_inv s.*1 (strangers s.*1) _ _ _ _ (start_ok _ _ Hb) Hr).
    intros i w1 w2 Hi _ _ (_ & Hk & _) b Hbi. destruct (Hk b) as [E _ _]; [congruence|exact E].
Qed.

End Props.
