(* ===== verification/HandlerProps.v ===== *)
(** * One handler, run to its end

    Every handler ends, and gives back the slot, the registration and the
    producer it took, on every path. *)

From S2P Require Import Prelude.
From S2P Require Import PyStr.
From S2P Require Import Json.
From S2P Require Import JsonFacts.
From S2P Require Import Hash.
From S2P Require Import AuditLog.
From S2P Require Import AuditFacts.
From S2P Require Import Lifecycle.
From S2P Require Import LifecycleFacts.
From S2P Require Import PyDyn.
From S2P Require Import IpAddr.
From S2P Require Import Addressing.
From S2P Require Import Resolver.
From S2P Require Import Pdp.
From S2P Require Import Conc.
From S2P Require Import World.
From S2P Require Import Registry.
From S2P Require Import Gateway.
From S2P Require Import System.
From S2P Require Import SystemFacts.
From S2P Require Import SystemProps.
Open Scope Z_scope.

Create HintDb noreg discriminated.
#[export] Hint Constants Opaque : noreg.

(** A step that leaves the registry alone, and the connections their ids. *)
Definition conn_ids (w : world) : list string := map c_id (w_conns w).
Definition noreg (w w' : world) : Prop := w_reg w' = w_reg w /\ conn_ids w' = conn_ids w.

Section Noreg.
Context `{Digest} `{Idna}.

Lemma noreg_refl w : noreg w w.
Proof. done. Qed.
Lemma noreg_trans w1 w2 w3 : noreg w1 w2 -> noreg w2 w3 -> noreg w1 w3.
Proof. intros [] []. split; congruence. Qed.
Lemma noreg_signal e : always noreg (signal e).
Proof. by apply always_atomic. Qed.
Lemma noreg_write d : always noreg (audit_write d).
Proof. apply always_atomic_res. intros w. unfold do_write. destruct (write _ _ _) as [l r]. by destruct (is_ok r). Qed.
Lemma noreg_healthy : always noreg audit_healthy.
Proof. by apply always_atomic. Qed.
Lemma noreg_add_secret s : always noreg (audit_add_secret s).
Proof. by apply always_atomic. Qed.
Lemma noreg_add_mixed : always noreg audit_add_mixed.
Proof. by apply always_atomic. Qed.
Lemma noreg_on_run {A} (f : run -> run * A) : always noreg (on_run f).
Proof. apply always_atomic. intros w. by destruct (f (w_run w)). Qed.
Lemma noreg_on_conn {A} c (d : A) f : (forall x, c_id (f x).1 = c_id x) -> always noreg (on_conn c d f).
Proof.
  intros Hf. apply always_atomic. intros w. destruct (w_conns w !! c) as [x|] eqn:E; [|done]. specialize (Hf x). destruct (f x) as [y a].
  split; [done|]. unfold conn_ids. cbn. change (c_id <$> <[c:=y]> (w_conns w) = c_id <$> w_conns w).
  rewrite list_fmap_insert, list_insert_id; [done|]. rewrite list_lookup_fmap, E. cbn in *. by rewrite Hf.
Qed.
Lemma noreg_ask a e q : always noreg (ask a e q).
Proof. apply always_atomic_res. intros w. by destruct (PDP.decide _ _ _ _ _ _) as [b [d|x]]. Qed.
Lemma noreg_issue a e c g b : always noreg (atomic (do_issue a e c g b)).
Proof. apply always_atomic. intros w. unfold do_issue. by destruct (issue_permit _ _ _ _ _ _) as [r [x|]]. Qed.
Lemma noreg_do_release a : always noreg (atomic (do_release a)).
Proof.
  apply always_atomic. intros w. unfold do_release. destruct (w_permits w !! a) as [p|]; [|done].
  destruct (po_released p); [done|]. by destruct (release _ _).
Qed.
Lemma noreg_bind a id : always noreg (bind_durable_release a id).
Proof.
  apply always_atomic_res. intros w. destruct (w_permits w !! a) as [p|]; [|done].
  by destruct (po_released p), (po_bound p).
Qed.
Lemma noreg_set_error a e : always noreg (set_release_error a e).
Proof. apply always_atomic. intros w. by destruct (w_permits w !! a). Qed.
End Noreg.
#[export] Hint Resolve noreg_signal noreg_write noreg_healthy noreg_add_secret noreg_add_mixed noreg_on_run noreg_ask
  noreg_issue noreg_do_release noreg_bind noreg_set_error : noreg.
Ltac noreg_prog :=
  repeat lazymatch goal with
  | |- forall _, _ => intros
  | |- always _ (Ret _) => apply always_ret
  | |- always _ (Throw _) => apply always_throw
  | |- always _ (of_res _) => apply always_of_res
  | |- always _ (pbind _ _) => apply always_bind
  | |- always _ (pcatch _ _) => apply always_catch
  | |- always _ (pfinally _ _) => apply always_finally
  | |- always _ (match ?x with _ => _ end) => destruct x
  | |- always _ _ => solve [auto with noreg]
  end.

Section Handler.
Context `{Digest} `{Idna}.

Lemma noreg_deny_plain reason url method src code who : always noreg (deny_plain reason url method src code who).
Proof. unfold deny_plain. noreg_prog. Qed.
Lemma noreg_deny_tls reason url method c s : always noreg (deny_tls reason url method c s).
Proof. unfold deny_tls. noreg_prog. Qed.
Lemma noreg_settle t r o e : always noreg (settle_t t r o e).
Proof. unfold settle_t, settle. noreg_prog. Qed.
Lemma noreg_refuse t r : always noreg (refuse t r).
Proof. apply noreg_deny_tls. Qed.
Lemma noreg_track c s : always noreg (conn_track c s).
Proof. apply noreg_on_conn. intros x. unfold track_or_reject. by destruct (c_terminal x). Qed.
Lemma noreg_transfer c o n : always noreg (conn_transfer c o n).
Proof. apply noreg_on_conn. intros x. unfold transfer. by destruct (c_terminal x). Qed.
Lemma noreg_terminal c : always noreg (conn_terminal c).
Proof. by apply (noreg_on_conn c true (fun x => (x, c_terminal x))). Qed.
Lemma noreg_terminate f c : always noreg (on_conn c false (terminate f)).
Proof. by apply noreg_on_conn. Qed.
Lemma noreg_abandon a : always noreg (abandon_undurable a).
Proof. unfold abandon_undurable. noreg_prog. Qed.
#[local] Hint Resolve noreg_deny_plain noreg_deny_tls noreg_settle noreg_refuse noreg_track noreg_transfer
  noreg_terminal noreg_abandon : noreg.
Lemma noreg_permit_release a : always noreg (permit_release a).
Proof. unfold permit_release. noreg_prog. Qed.
Lemma noreg_acquire_permit gi a e c id g b : always noreg (acquire_permit gi a e c id g b).
Proof. unfold acquire_permit. noreg_prog. Qed.
Lemma noreg_commit gi a e i : always noreg (commit_intent gi a e i).
Proof. unfold commit_intent. noreg_prog. Qed.
Lemma noreg_mark g id e : always noreg (mark_attempted g id e).
Proof. unfold mark_attempted. noreg_prog. Qed.
Lemma noreg_relay t g : always noreg (inside_relay t g).
Proof. unfold inside_relay. noreg_prog. Qed.
Lemma noreg_failed t g e : always noreg (connect_failed t g e).
Proof. unfold connect_failed. noreg_prog. Qed.
#[local] Hint Resolve noreg_permit_release noreg_acquire_permit noreg_commit noreg_mark noreg_relay noreg_failed : noreg.
Lemma noreg_send t g : always noreg (inside_send t g).
Proof. unfold inside_send. cbv zeta. noreg_prog. Qed.
#[local] Hint Resolve noreg_send : noreg.
Lemma noreg_connect t g : always noreg (inside_connect t g).
Proof. unfold inside_connect. cbv zeta. noreg_prog. Qed.
#[local] Hint Resolve noreg_connect : noreg.
Lemma noreg_permitted t g : always noreg (inside_permitted t g).
Proof. unfold inside_permitted. cbv zeta. noreg_prog. Qed.
#[local] Hint Resolve noreg_permitted : noreg.
Lemma noreg_effect t g b : always noreg (inside_effect t g b).
Proof. unfold inside_effect. cbv zeta. noreg_prog. Qed.
#[local] Hint Resolve noreg_effect : noreg.
Lemma noreg_recheck t p g b : always noreg (inside_recheck t p g b).
Proof. unfold inside_recheck. cbv zeta. noreg_prog. Qed.
#[local] Hint Resolve noreg_recheck : noreg.
Lemma noreg_run_epoch : always noreg run_epoch.
Proof. apply noreg_on_run. Qed.
Lemma noreg_run_id : always noreg audit_run_id.
Proof. by apply always_atomic. Qed.
#[local] Hint Resolve noreg_run_epoch noreg_run_id : noreg.
Lemma noreg_inside_commit c s p hd l pn d : always noreg (inside_commit c s p hd l pn d).
Proof. unfold inside_commit. cbv zeta. noreg_prog. Qed.
#[local] Hint Resolve noreg_inside_commit : noreg.
Lemma noreg_inside c s p pn : always noreg (inside c s p pn).
Proof. unfold inside, inside_request, add_secret_of. cbv zeta. noreg_prog. Qed.
#[local] Hint Resolve noreg_inside : noreg.
Lemma noreg_connect_flow c s h p : always noreg (connect_flow c s h p).
Proof. unfold connect_flow, connect_tls. cbv zeta. noreg_prog. Qed.
#[local] Hint Resolve noreg_connect_flow : noreg.
Lemma noreg_other m p s : always noreg (do_other m p s).
Proof. unfold do_other. noreg_prog. Qed.

(** ** Sequential runs *)

Lemma exec_noreg {A} (p : thread A) w : always noreg p -> w_reg (exec p w).1 = w_reg w.
Proof. intros Hp. exact (proj1 (always_exec noreg p noreg_refl noreg_trans Hp w)). Qed.
Lemma exec_on_reg {A} (f : registry -> registry * A) w :
  exec (on_reg f) w = (set_reg (f (w_reg w)).1 w, Ok (f (w_reg w)).2).
Proof. cbn. by destruct (f (w_reg w)). Qed.
(** The registered connections are numbers already given out. *)
Definition known (w : world) : Prop := forall c, c ∈ g_conns (w_reg w) -> (c < length (w_conns w))%nat.

Lemma filter_absent c l : c ∉ l -> List.filter (fun d => negb (Nat.eqb c d)) l = l.
Proof.
  induction l as [|d l IH]; cbn; [done|]. intros [Hne Hn]%not_elem_of_cons.
  destruct (Nat.eqb_spec c d); [congruence|]. cbn. by rewrite IH.
Qed.
Lemma add_remove c g : c ∉ g_conns g -> remove c (add c g).1 = g.
Proof.
  intros Hc. unfold add. destruct (g_killed g) eqn:Hk; unfold remove; cbn.
  - rewrite filter_absent by done. by destruct g.
  - rewrite bool_decide_false by done. rewrite List.filter_app, filter_absent by done. cbn. rewrite Nat.eqb_refl.
    cbn. rewrite app_nil_r. destruct g. cbn in *. by subst.
Qed.
Lemma acquire_release g : registry_inv g -> (acquire g).2 = true -> release_slot (acquire g).1 = g.
Proof.
  intros [[? ?] _ _ _]. unfold acquire. destruct (0 <? g_slots g) eqn:E; cbn; [|done]. intros _. bools.
  unfold release_slot. cbn. destruct (Z.ltb_spec (g_slots g - 1) (g_max g)); [|lia].
  destruct g. unfold upd_reg. cbn in *. f_equal. lia.
Qed.
(** [finally] after a body that leaves the registry alone. *)
Lemma close_connection_reg c obj w :
  w_reg (exec (close_connection c obj) w).1 = release_slot (remove obj (w_reg w)).
Proof.
  unfold close_connection. rewrite exec_bind.
  pose proof (exec_noreg (on_conn obj false (terminate (cl_alive c))) w (noreg_terminate _ _)) as E.
  destruct (exec (on_conn obj false (terminate (cl_alive c))) w) as [w1 r] eqn:E1. cbn in E.
  assert (is_ok r = true) as Hr.
  { cbn in E1. destruct (w_conns w !! obj); cbn in E1; by injection E1 as _ <-. }
  destruct r as [x|x]; [|done]. cbn. by rewrite E.
Qed.
(** The two early denials. *)
Lemma noreg_deny_open reason url method src code who : always noreg (deny_plain reason url method src code who;;; Ret false).
Proof. apply always_bind; [apply noreg_deny_plain|done]. Qed.
Lemma exec_known {A} (p : thread A) w : always noreg p -> known w -> known (exec p w).1.
Proof.
  intros Hp Hk. destruct (always_exec noreg p noreg_refl noreg_trans Hp w) as [Hr Hc]. intros c. rewrite Hr. intros Hin.
  rewrite <- (length_map c_id). change (map c_id _) with (conn_ids (exec p w).1). rewrite Hc. unfold conn_ids. rewrite length_map. by apply Hk.
Qed.
(** A CONNECT that leaves the connection open created no connection object. *)
Lemma do_CONNECT_open c w w' : known w -> exec (do_CONNECT c) w = (w', Ok false) -> known w'.
Proof.
  intros Hk. unfold do_CONNECT. destruct (rpartition ":" (cl_target c)) as [[host sep] p]. destruct (_ || _).
  { intros E. pose proof (exec_known _ w (noreg_deny_open "MALFORMED_CONNECT_TARGET" (connect_url c) "CONNECT" (cl_ip c) 403 None) Hk) as Hq.
    by rewrite E in Hq. }
  rewrite exec_bind. destruct (py_int p) as [port|e]; [|done]. cbn [of_res exec]. rewrite exec_bind, exec_on_reg.
  destruct (acquire (w_reg w)) as [g slot] eqn:Ea. cbn [fst snd]. destruct slot; cbn [negb].
  - rewrite exec_bind. cbn [new_conn exec atomic fst snd]. rewrite exec_bind. by destruct (exec (pfinally _ _) _) as [w3 [x|x]].
  - intros E. assert (known (set_reg g w)) as Hg.
    { intros d. cbn. unfold acquire in Ea. destruct (0 <? _); [done|]. injection Ea as <-. by apply Hk. }
    pose proof (exec_known _ _ (noreg_deny_open "CONCURRENCY_LIMIT_REACHED" (connect_url c) "CONNECT" (cl_ip c) 503 None) Hg) as Hq.
    by rewrite E in Hq.
Qed.
Lemma do_CONNECT_reg c w : registry_inv (w_reg w) -> known w ->
  w_reg (exec (do_CONNECT c) w).1 = w_reg w.
Proof.
  intros Hi Hk. unfold do_CONNECT. destruct (rpartition ":" (cl_target c)) as [[host sep] p].
  destruct (_ || _); [apply exec_noreg, noreg_deny_open|].
  rewrite exec_bind. destruct (py_int p) as [port|e]; [|done]. cbn [of_res exec].
  rewrite exec_bind, exec_on_reg. pose proof (acquire_release (w_reg w) Hi) as Hb.
  destruct (acquire (w_reg w)) as [g slot] eqn:Ea. cbn [fst snd] in *. destruct slot; cbn [negb].
  2: { rewrite exec_noreg by apply noreg_deny_open. unfold acquire in Ea. destruct (0 <? _); by simplify_eq. }
  rewrite exec_bind. cbn [new_conn exec atomic fst snd]. rewrite exec_bind, exec_finally.
  set (obj := length _). set (w2 := set_conns _ _).
  set (body := pcatch _ _).
  assert (obj ∉ g_conns g) as Hobj.
  { intros Hin. assert (g_conns g = g_conns (w_reg w)) as E by (unfold acquire in Ea; destruct (0 <? _); by simplify_eq).
    rewrite E in Hin. apply Hk in Hin. unfold obj in Hin. cbn in Hin. lia. }
  assert (w_reg (exec body w2).1 = (add obj g).1) as E.
  { unfold body. rewrite exec_catch, exec_bind, exec_on_reg. cbn [fst snd].
    assert (forall q : thread unit, always noreg q -> forall w0 h, (forall x, always noreg (h x)) ->
      w_reg (let '(w1, r) := exec q w0 in match r with Ok a => (w1, Ok a) | Raise x => exec (h x) w1 end).1 = w_reg w0) as Hq.
    { intros q Hq w0 h Hh. pose proof (exec_noreg q w0 Hq) as E0. destruct (exec q w0) as [w1 [x|x]]; cbn in *; [done|].
      by rewrite exec_noreg. }
    rewrite Hq; [done|destruct (negb _)|]; [noreg_prog|apply noreg_connect_flow|intros x; noreg_prog]. }
  destruct (exec body w2) as [w3 r]. cbn [fst] in E.
  pose proof (close_connection_reg c obj w3) as E4. destruct (exec (close_connection c obj) w3) as [w4 r4].
  cbn [fst] in E4. rewrite E, add_remove in E4 by done. destruct r4 as [[]|]; [destruct r|]; cbn; rewrite E4; auto.
Qed.
Lemma dispatch_reg cmds : forall w, registry_inv (w_reg w) -> known w -> w_reg (exec (dispatch cmds) w).1 = w_reg w.
Proof.
  induction cmds as [|[c|m p s] cmds IH]; intros w Hi Hk; cbn [dispatch]; [done| |].
  { rewrite exec_bind. pose proof (do_CONNECT_reg c w Hi Hk) as E. pose proof (do_CONNECT_open c w) as Ho.
    destruct (exec (do_CONNECT c) w) as [w1 [[]|x]]; cbn [fst] in E; [done| |done].
    rewrite IH; [done|by rewrite E|by apply Ho]. }
  rewrite exec_bind. pose proof (exec_noreg (do_other m p s) w (noreg_other m p s)) as E.
  pose proof (exec_known (do_other m p s) w (noreg_other m p s) Hk) as Ek.
  destruct (exec (do_other m p s) w) as [w1 [x|x]]; cbn in *; [|done]. rewrite IH; [done|by rewrite E|done].
Qed.


End Handler.

(** ** Handlers leave the registry empty

    While handlers interleave, each registered connection carries the id of the
    handler that registered it; a handler unregisters its own before it ends.  So
    when all have ended, no connection is registered. *)

Section Leaving.
Context `{Digest} `{Idna}.
(** The connection ids a handler draws. *)
Context (draws : string -> string -> Prop).

(** A registered connection with an id of handler [i]. *)
Definition mine (i : string) (w : world) (n : nat) : Prop :=
  n ∈ g_conns (w_reg w) /\ exists k, conn_ids w !! n = Some k /\ draws i k.
(** Ids are given once. *)
Definition tagged (w w' : world) : Prop := forall n k, conn_ids w !! n = Some k -> conn_ids w' !! n = Some k.
Definition lrely (i : string) (w w' : world) : Prop := tagged w w' /\ forall n, mine i w' n -> mine i w n.
Definition lguar (i : string) (w w' : world) : Prop := tagged w w' /\ forall j n, j <> i -> mine j w' n -> mine j w n.
Definition linv (ids : list string) (w : world) : Prop :=
  forall n, n ∈ g_conns (w_reg w) -> exists i, i ∈ ids /\ mine i w n.
Lemma lrely_refl i w : lrely i w w.
Proof. split; [by intros n k|by intros n]. Qed.
Lemma lrely_trans i w1 w2 w3 : lrely i w1 w2 -> lrely i w2 w3 -> lrely i w1 w3.
Proof. intros [T1 M1] [T2 M2]. split; [intros n k Hk; by apply T2, T1|auto]. Qed.
Lemma lguar_rely i j w w' : i <> j -> lguar i w w' -> lrely j w w'.
Proof. intros Hij [T M]. split; [done|]. intros n. by apply M. Qed.

Section Thread.
Context (ids : list string) (i : string) (Hi : i ∈ ids) (Hd : forall j k, j <> i -> draws i k -> ~ draws j k).
Abbreviation okl := (ok lrely lguar (linv ids) i).

(** Nothing of the handler's is registered; at most [obj] is, which is its own. *)
Definition gone (w : world) : Prop := forall n, ~ mine i w n.
Definition solely (obj : nat) (w : world) : Prop := (exists k, conn_ids w !! obj = Some k /\ draws i k) /\ forall n, mine i w n -> n = obj.
Definition stable_under (S : world -> Prop) : Prop := forall w w', lrely i w w' -> S w -> S w'.
Lemma gone_stable : stable_under gone.
Proof. intros w w' [_ M] Hw n Hn. by apply (Hw n), M. Qed.
Lemma solely_stable obj : stable_under (solely obj).
Proof. intros w w' [T M] [(k & Hk & Hdk) Hw]. split; [exists k; split; [by apply T|done]|]. intros n Hn. by apply Hw, M. Qed.

Lemma mine_noreg j w w' n : noreg w w' -> mine j w' n <-> mine j w n.
Proof. intros [Er Ec]. unfold mine. by rewrite Er, Ec. Qed.
Lemma linv_noreg w w' : noreg w w' -> linv ids w -> linv ids w'.
Proof.
  intros Hn Hw n Hin. pose proof Hn as [Er _]. rewrite Er in Hin. destruct (Hw n Hin) as (j & Hj & Hm). exists j. split; [done|].
  by apply (mine_noreg j w w').
Qed.
Lemma lguar_noreg w w' : noreg w w' -> lguar i w w' /\ lrely i w w'.
Proof.
  intros Hn. pose proof Hn as [_ Ec]. assert (tagged w w') by (intros n k; by rewrite Ec).
  split; split; try done; intros; by apply (mine_noreg _ w w').
Qed.
(** A thread that leaves the registry alone keeps what is known of it. *)
Lemma l_always {A} (S : world -> Prop) (p : thread A) : stable_under S -> always noreg p -> forall w, S w -> okl (fun _ => S) p w.
Proof.
  intros HS. induction p as [x|e|B f k IH|c k IH]; intros Hp w Hw; cbn in *; [done|done| |].
  - intros w1 Hr Hinv. destruct (Hp w1) as [Hn Hk]. destruct (lguar_noreg _ _ Hn) as [G R]. split_and!; [exact G|by eapply linv_noreg|].
    apply IH; [done|]. eapply HS; [exact R|]. by eapply HS.
  - intros w1 Hr Hinv b _. apply IH; [done|]. by eapply HS.
Qed.
Lemma l_then {A B} (S : world -> Prop) (Q : res B -> world -> Prop) (p : thread A) (g : A -> thread B) w : stable_under S -> always noreg p -> S w ->
  (forall x w', S w' -> okl Q (g x) w') -> (forall e w', S w' -> Q (Raise e) w') -> okl Q (pbind p g) w.
Proof.
  intros HS Hp Hw Hg He. apply ok_bind. eapply ok_weaken; [by apply l_always|]. intros [x|e] w' Hw'; [by apply Hg|by apply He].
Qed.

(** ** Steps on the registry *)

(** A step that registers nothing, for the thread's own and the others' sake. *)
Lemma l_fewer {A} (S S' : world -> Prop) (f : world -> world * A) w : stable_under S -> S w ->
  (forall w1, linv ids w1 -> conn_ids (f w1).1 = conn_ids w1 /\ (forall n, n ∈ g_conns (w_reg (f w1).1) -> n ∈ g_conns (w_reg w1)) /\
     (S w1 -> S' (f w1).1)) ->
  okl (fun r w' => S' w' /\ is_ok r = true) (atomic f) w.
Proof.
  intros HS Hw Hf w1 Hr Hinv. destruct (Hf w1 Hinv) as (Ec & Hg & HS'). split_and!.
  - split; [intros n k; by rewrite Ec|]. intros j n _ [Hn Hk]. split; [by apply Hg|]. by rewrite Ec in Hk.
  - intros n Hn. destruct (Hinv n (Hg n Hn)) as (j & Hj & _ & Hk). exists j. split; [done|]. split; [done|]. by rewrite Ec.
  - cbn. split; [|done]. by eapply HS', HS.
Qed.
Lemma gone_fewer {A} (f : registry -> registry * A) w : gone w -> (forall g n, n ∈ g_conns (f g).1 -> n ∈ g_conns g) ->
  okl (fun r w' => gone w' /\ is_ok r = true) (on_reg f) w.
Proof.
  intros Hw Hf. apply (l_fewer gone); [apply gone_stable|done|]. intros w1 _. specialize (Hf (w_reg w1)). destruct (f (w_reg w1)) as [g x].
  cbn in *. split_and!; [done|done|]. intros Hg n [Hn Hk]. apply (Hg n). split; [by apply Hf|done].
Qed.
Lemma l_new id w : draws i id -> gone w -> okl (fun r w' => match r with Ok obj => solely obj w' | Raise _ => False end) (new_conn id) w.
Proof.
  intros Hid Hw w1 Hr Hinv. pose proof (gone_stable _ _ Hr Hw) as Hg. cbn.
  set (w2 := set_conns _ w1). assert (conn_ids w2 = conn_ids w1 ++ [id])%list as Ec by (unfold conn_ids; cbn; by rewrite map_app).
  assert (tagged w1 w2) as Ht by (intros n k Hk; rewrite Ec; by apply lookup_app_l_Some).
  assert (forall j n, mine j w2 n -> mine j w1 n) as Hm.
  { intros j n [Hn (k & Hk & Hdk)]. change (n ∈ g_conns (w_reg w1)) in Hn. destruct (Hinv n Hn) as (j' & _ & _ & k' & Hk' & _).
    pose proof (Ht n k' Hk') as E. rewrite Hk in E. injection E as ->. split; [done|]. by exists k'. }
  split_and!; [|..].
  - split; [exact Ht|]. intros j n _. apply Hm.
  - intros n Hn. destruct (Hinv n Hn) as (j & Hj & Hn' & k & Hk & Hdk). exists j. split; [done|]. split; [done|]. exists k. split; [by apply Ht|done].
  - split; [|intros n Hn%Hm; by apply Hg in Hn]. exists id. split; [|done]. rewrite Ec.
    assert (length (w_conns w1) = length (conn_ids w1)) as -> by (unfold conn_ids; by rewrite length_map). by rewrite lookup_app_r, Nat.sub_diag.
Qed.
Lemma l_add obj w : solely obj w -> okl (fun r w' => solely obj w' /\ is_ok r = true) (on_reg (add obj)) w.
Proof.
  intros Hw w1 Hr Hinv. pose proof (solely_stable obj _ _ Hr Hw) as [(k & Hk & Hdk) Ho]. unfold add. destruct (g_killed (w_reg w1)).
  { destruct (lguar_noreg w1 (set_reg (w_reg w1) w1)) as [G _]; [done|]. split_and!; [exact G|by apply (linv_noreg w1)|]. cbn. split; [|done].
    split; [by exists k|]. exact Ho. }
  cbn. set (w2 := set_reg _ w1). assert (forall n, n ∈ g_conns (w_reg w2) -> n = obj \/ n ∈ g_conns (w_reg w1)) as Hn.
  { intros n. cbn. destruct (bool_decide _); [by right|]. rewrite elem_of_app, list_elem_of_singleton. tauto. }
  assert (mine i w2 obj) as Hobj.
  { split; [|by exists k]. cbn. destruct (bool_decide (obj ∈ _)) eqn:E; [by apply bool_decide_eq_true in E|]. apply elem_of_app. right. by left. }
  split_and!; [|..].
  - split; [by intros n k'|]. intros j n Hj [[->|Hn']%Hn (k' & Hk' & Hdk')]; [|by split; [|exists k']].
    change (conn_ids w2) with (conn_ids w1) in Hk'. rewrite Hk in Hk'. injection Hk' as <-. by destruct (Hd j k Hj Hdk).
  - intros n [->|Hn']%Hn; [by exists i|]. destruct (Hinv n Hn') as (j & Hj & _ & Hk'). exists j. split; [done|]. split; [|done].
    cbn. destruct (bool_decide _); [done|]. apply elem_of_app. by left.
  - split; [by exists k|]. intros n [[->|Hn']%Hn Hk']; [done|]. by apply Ho.
  - done.
Qed.
Lemma l_remove obj w : solely obj w -> okl (fun r w' => gone w' /\ is_ok r = true) (on_reg_ (remove obj)) w.
Proof.
  intros Hw. apply (l_fewer (solely obj)); [apply solely_stable|done|]. intros w1 _. cbn. split_and!; [done| |].
  - intros n. rewrite !list_elem_of_In, List.filter_In. tauto.
  - intros [_ Ho] n [Hn Hk]. cbn in Hn. apply list_elem_of_In, List.filter_In in Hn as [Hn Hne%negb_true_iff%Nat.eqb_neq].
    apply Hne. symmetry. apply Ho. split; [by apply list_elem_of_In|done].
Qed.
Lemma l_quiet {A} (S : world -> Prop) (f : world -> world * A) w : stable_under S -> always noreg (atomic f) -> S w ->
  okl (fun r w' => S w' /\ is_ok r = true) (atomic f) w.
Proof.
  intros HS Hf Hw w1 Hr Hinv. destruct (Hf w1) as [Hn _]. destruct (lguar_noreg _ _ Hn) as [G R]. split_and!; [exact G|by eapply linv_noreg|].
  cbn. split; [|done]. eapply HS; [exact R|]. by eapply HS.
Qed.
Lemma l_seq {A B} (S : world -> Prop) (Q : res B -> world -> Prop) (p : thread A) (g : A -> thread B) w :
  okl (fun r w' => S w' /\ is_ok r = true) p w -> (forall x w', S w' -> okl Q (g x) w') -> okl Q (pbind p g) w.
Proof. intros Hp Hg. apply ok_bind. eapply ok_weaken; [exact Hp|]. intros [x|e] w' [Hw' E]; [by apply Hg|done]. Qed.
Lemma fewer_slot g n : n ∈ g_conns (release_slot g) -> n ∈ g_conns g.
Proof. unfold release_slot. by destruct (_ <? _). Qed.
Lemma fewer_acquire g n : n ∈ g_conns (acquire g).1 -> n ∈ g_conns g.
Proof. unfold acquire. by destruct (_ <? _). Qed.

(** ** The handler *)

Lemma l_close c obj w : solely obj w -> okl (fun _ => gone) (close_connection c obj) w.
Proof.
  intros Hw. unfold close_connection. eapply (l_seq (solely obj)); [apply l_quiet; [apply solely_stable|apply (noreg_terminate (cl_alive c) obj)|done]|].
  intros _ w1 Hw1. eapply l_seq; [by apply l_remove|]. intros _ w2 Hw2.
  eapply ok_weaken; [apply gone_fewer; [exact Hw2|apply fewer_slot]|]. by intros r w3 [? _].
Qed.
Lemma l_do_CONNECT c w : draws i (cl_conn_id c) -> gone w -> okl (fun _ => gone) (do_CONNECT c) w.
Proof.
  intros Hid Hw. unfold do_CONNECT. destruct (rpartition _ _) as [[host sep] p].
  destruct (_ || _); [by apply l_always; [apply gone_stable|apply noreg_deny_open|]|].
  apply (l_then gone); [apply gone_stable|apply always_of_res|done| |done]. intros port w1 Hw1.
  eapply l_seq; [apply gone_fewer; [exact Hw1|apply fewer_acquire]|]. intros [] w2 Hw2; cbn [negb];
    [|by apply l_always; [apply gone_stable|apply noreg_deny_open|]].
  apply ok_bind. eapply ok_weaken; [by apply l_new|]. intros [obj|e] w3 Hw3; [|done]. cbv zeta.
  apply ok_bind. apply (ok_weaken _ _ _ _ (fun _ => gone)); [|by intros [] w4 Hw4]. apply ok_finally.
  apply (ok_weaken _ _ _ _ (fun _ => solely obj)).
  - apply (ok_catch _ _ _ _ (fun _ => solely obj)). apply (ok_weaken _ _ _ _ (fun _ => solely obj)).
    + eapply l_seq; [by apply l_add|]. intros [] w4 Hw4; cbn [negb]; apply l_always; try apply solely_stable; try done;
        [apply noreg_connect_flow|noreg_prog].
    + intros [y|e] w4 Hw4; [exact Hw4|]. apply l_always; [apply solely_stable|noreg_prog|done].
  - intros r w4 Hw4. eapply ok_weaken; [by apply l_close|]. by intros [] w5.
Qed.
Lemma l_dispatch cmds w : (forall c, Connect c ∈ cmds -> draws i (cl_conn_id c)) -> gone w -> okl (fun _ => gone) (dispatch cmds) w.
Proof.
  revert w. induction cmds as [|[c|m q s] cmds IH]; intros w Hc Hw; cbn [dispatch]; [done| |].
  { apply ok_bind. eapply ok_weaken; [apply l_do_CONNECT; [apply Hc; by left|done]|]. intros [[]|x] w1 Hw1; [done| |done].
    apply IH; [|done]. intros d Hin. apply Hc. by right. }
  apply (l_then gone); [apply gone_stable|apply noreg_other|done| |done]. intros _ w1 Hw1. apply IH; [|done]. intros c Hin. apply Hc. by right.
Qed.
Lemma l_handle cmds w : (forall c, Connect c ∈ cmds -> draws i (cl_conn_id c)) -> gone w -> okl (fun _ => gone) (handle cmds) w.
Proof.
  intros Hc Hw. unfold handle. eapply l_seq; [apply gone_fewer; [exact Hw|intros g n; unfold begin_producer; by destruct (_ || _)]|].
  intros [] w1 Hw1; cbn [negb]; [|done]. apply ok_finally. eapply ok_weaken; [by apply l_dispatch|]. intros r w2 Hw2.
  apply (ok_weaken _ _ _ _ (fun _ => gone)); [|by intros [] w3 Hw3]. unfold end_producing. intros w3 Hr Hinv. pose proof (gone_stable _ _ Hr Hw2) as Hg.
  unfold end_producer. destruct (g_producers (w_reg w3) <=? 0); (split_and!; [split; [by intros n k|by intros j n _]|exact Hinv|exact Hg]).
Qed.
End Thread.

(** ** The pool *)

Lemma all_left (s : system) w0 ts w : g_conns (w_reg w0) = [] ->
  (forall a r, (a, r) ∈ s -> exists cmds, r = Handler cmds /\ forall c, Connect c ∈ cmds -> draws a (cl_conn_id c)) ->
  (forall i j k, i <> j -> draws i k -> ~ draws j k) -> NoDup s.*1 ->
  reach (start s w0) (ts, w) -> Forall finished ts -> g_conns (w_reg w) = [].
Proof.
  intros Hnone Hs Hd Hnd Hr Hf.
  assert (pool_ok lrely lguar (linv s.*1) s.*1 gone (ts, w)) as Hok.
  { apply (pool_reach_ok lrely lguar (linv s.*1) lrely_trans lrely_refl) with (cfg := start s w0); [| | |exact Hr].
    - apply lguar_rely.
    - intros i w1 w2. apply gone_stable.
    - split; [change (length s.*1 = length (threads s)); unfold threads; by rewrite !length_fmap|done|intros m; cbn; rewrite Hnone; by intros Hm%not_elem_of_nil|].
      intros j i p Hi Hj. change (threads s !! j = Some p) in Hj. unfold threads in Hj. rewrite list_lookup_fmap in Hi. rewrite list_lookup_fmap in Hj.
      destruct (s !! j) as [[a r]|] eqn:E; [|done]. cbn in Hi, Hj. injection Hi as ->. injection Hj as <-. apply list_elem_of_lookup_2 in E as Hin.
      destruct (Hs i r Hin) as (cmds & -> & Hc). cbn [role_thread]. apply l_handle; [|by intros j' k Hne; apply Hd|done|intros m; cbn; intros [Hm _]; rewrite Hnone in Hm; by apply not_elem_of_nil in Hm].
      apply list_elem_of_fmap. by exists (i, Handler cmds). }
  destruct (g_conns (w_reg w)) as [|m conns] eqn:E; [done|]. destruct (po_inv _ _ _ _ _ _ Hok m) as (i & Hi & Hm); [cbn; rewrite E; by left|].
  by destruct (pool_done lrely lguar (linv s.*1) s.*1 gone ts w i Hok Hf Hi m).
Qed.
End Leaving.
