(* ===== verification/Scenario.v ===== *)
(** * One request and one kill, evaluated

    The concrete run the witnesses of the system's theorems use: a client whose
    request is relayed, and a watcher that then closes the run. *)

From S2P Require Import Prelude PyStr Json JsonFacts PyDyn Hash AuditLog AuditFacts AuditProps.
From S2P Require Import IpAddr Addressing Resolver Lifecycle LifecycleFacts Pdp PdpProps Conc World.
From S2P Require Import Registry Gateway System SystemFacts SystemOk SystemProps HandlerProps.
Open Scope Z_scope.

#[export] Existing Instance toy.
#[export] Instance idna_none : Idna := {| idna _ := None |}.

Definition env_ex : pdp_env := PdpEnv (Ok policy_ex) false (VInt 100) resolve_ex.
Definition request_bytes : string :=
  "GET /a HTTP/1.1" ++ crlf ++ "Host: www.example.com" ++ crlf ++ crlf.
Definition client_ex : client := {|
  cl_ip := "10.1.2.3"; cl_target := "www.example.com:443"; cl_header := fun _ => None;
  cl_conn_id := "c1"; cl_attempt := "a1";
  cl_pdp_connect := env_ex; cl_pdp_request := env_ex; cl_pdp_recheck := env_ex;
  cl_leaf := Ok tt; cl_established := Ok tt; cl_load_chain := Ok tt; cl_settimeout := Ok tt;
  cl_handshake := Ok tt; cl_sni := Some "www.example.com"; cl_chunks := [Ok request_bytes];
  cl_up_context := Ok tt; cl_socket := Ok tt; cl_connect := Ok tt; cl_up_handshake := Ok tt;
  cl_up_send := Ok tt; cl_relay := [RelayTurn false (Ok "HTTP/1.1 200 OK") (Ok tt)];
  cl_raw := 1; cl_tls := 2; cl_plain := 3; cl_up := 4; cl_alive := fun _ => true |}%nat.
Definition w_ex : world := world0 l_empty (fun _ => io0) 4.
Definition kill_ex : kill_env := KillEnv 7 (fun _ => true) (Some (Ok tt)) true Z.of_nat.

Definition system_ex : system := [("a1", Handler [Connect client_ex]); ("k", Watcher kill_ex)].
Definition start_ex := start system_ex w_ex.
(** After the handler, and after the watcher. *)
Definition w_handled : world := (exec (handle [Connect client_ex]) w_ex).1.
Definition ts_handled : list (thread unit) :=
  <[0%nat := of_res (exec (handle [Connect client_ex]) w_ex).2]> (threads system_ex).
Definition watcher_ex : thread unit := role_thread (Watcher kill_ex).
Definition w_closed : world := (exec watcher_ex w_handled).1.
Definition ts_closed : list (thread unit) := <[1%nat := of_res (exec watcher_ex w_handled).2]> ts_handled.

Lemma boot_ex : boot system_ex w_ex.
Proof.
  apply boot_world0.
  - split.
    + repeat (constructor; [not_in|]). constructor.
    + intros a r [E|[E|E%not_elem_of_nil]%elem_of_cons]%elem_of_cons b Hb; [| |done]; injection E as -> ->; cbn in Hb.
      * by apply list_elem_of_singleton in Hb.
      * by apply not_elem_of_nil in Hb.
  - exists "", "". split_and!; [done|by left|done|done].
  - intros i. apply wf_io0.
  - lia.
Qed.
Lemma reach_handled : reach start_ex (ts_handled, w_handled).
Proof. exact (exec_reach (handle [Connect client_ex]) (threads system_ex) 0%nat w_ex eq_refl). Qed.
Lemma reach_closed : reach (ts_handled, w_handled) (ts_closed, w_closed).
Proof. exact (exec_reach watcher_ex ts_handled 1%nat w_handled eq_refl). Qed.
Lemma reach_both : reach start_ex (ts_closed, w_closed).
Proof. etrans; [apply reach_handled|apply reach_closed]. Qed.
Definition closed_ex : dict := closed_record (CancellationTransition 0 1 4 0 7 true).

(** The handler connects and sends; its history justifies the connect. *)
Lemma effects_mediated_witness :
  exists before after, w_trace w_handled = (before ++ EvConnect "a1" pin_ex :: after)%list /\
    exists st, mediated "a1" pin_ex st /\ sublist (story_events "a1" st) before.
Proof.
  assert (w_trace w_handled = (firstn 6 (w_trace w_handled) ++ EvConnect "a1" pin_ex :: skipn 7 (w_trace w_handled))%list)
    as E by (vm_compute; reflexivity).
  eexists _, _. split; [exact E|].
  exact (effects_mediated _ _ _ _ _ _ _ boot_ex reach_handled E).
Defined.
(** After the kill the run is drained although the handler had sent a request. *)
Lemma no_effect_after_drain_witness :
  effects (w_trace w_closed) <> [] /\ effects (w_trace w_closed) = effects (w_trace w_closed).
Proof.
  split; [vm_compute; discriminate|].
  refine (proj1 (no_effect_after_drain _ _ ts_closed w_closed ts_closed w_closed boot_ex reach_both (rtc_refl _ _) _ _));
    vm_compute; reflexivity.
Defined.
Lemma run_closed_final_witness :
  EvRecord closed_ex ∈ w_trace w_closed /\ g_producers (w_reg w_closed) = 0.
Proof.
  assert (EvRecord closed_ex ∈ w_trace w_closed) as Hd.
  { apply (list_elem_of_lookup_2 _ 16). vm_compute. reflexivity. }
  split; [exact Hd|].
  refine (proj1 (proj2 (proj2 (proj1 (run_closed_final _ _ ts_closed w_closed ts_closed w_closed closed_ex boot_ex
    reach_both (rtc_refl _ _) Hd _))))). vm_compute. reflexivity.
Defined.
Lemma chain_intact_in_every_schedule_witness :
  exists m, verify (l_file (w_log w_handled)) = Ok (true, Intact m).
Proof.
  assert (l_healthy (w_log w_handled) = true) as Hh by (vm_compute; reflexivity).
  destruct (chain_intact_in_every_schedule _ _ _ _ boot_ex reach_handled Hh) as [_ [Hv|(k & x & i & _ & _ & Hc)]];
    [exact Hv|vm_compute in Hc; discriminate Hc].
Defined.
Lemma no_permit_leaks_witness : r_inflight (w_run w_closed) = ∅.
Proof.
  refine (no_permit_leaks _ _ _ _ boot_ex reach_both _). repeat (constructor; [vm_compute; exact I|]). constructor.
Defined.
