(* ===== verification/E10Anchor.v ===== *)
(** * The close anchor ([src/pep/e10_anchor.py])

    The control plane's authenticated statement about one closed audit log. *)

From S2P Require Import Prelude PyStr Json PyDyn Hash AuditLog.
Open Scope Z_scope.

Definition ANCHOR_SCHEMA : string := "E10-close-anchor-v1".
Definition RUN_CLOSE_SCHEMA : string := "E10-run-close-v1".
Definition MAC_ALGORITHM : string := "HMAC-SHA256".
Definition AUTHORITY_ROLE : string := "CONTROL_PLANE_CLOSE_AUTHORITY".
(** [COMMIT.fullmatch]: 40 or 64 lowercase hexadecimal digits. *)
Definition is_commit (s : string) : bool :=
  (Nat.eqb (String.length s) 40 || Nat.eqb (String.length s) 64) && str_all is_lhex s.

Definition payload_of (anchor : dict) : dict :=
  List.filter (fun kv => negb (String.eqb kv.1 "authentication_tag")) anchor.
Definition canonical_payload (anchor : dict) : string := dumps (VDict (payload_of anchor)).

(** [bytes.splitlines()]: a line ends at a newline, a carriage return or both. *)
Definition carriage : ascii := "013".
Fixpoint splitlines (acc : string) (s : string) : list string :=
  match s with
  | EmptyString => if String.eqb acc "" then [] else [str_rev acc]
  | String c s' =>
      if Ascii.eqb c newline then str_rev acc :: splitlines "" s'
      else if Ascii.eqb c carriage then
        match s' with
        | String d s2 => if Ascii.eqb d newline then str_rev acc :: splitlines "" s2
                         else str_rev acc :: splitlines "" s'
        | EmptyString => [str_rev acc]
        end
      else splitlines (String c acc) s'
  end.

Record facts := Facts { f_count : Z; f_length : Z; f_tail : string; f_last : option dict }.

Section Anchor.
Context `{Digest}.

Fixpoint facts_loop (lines : list string) (count : Z) (tail : string) (last : option dict)
    : res (Z * string * option dict) :=
  match lines with
  | [] => Ok (count, tail, last)
  | raw :: rest =>
      let line := b_strip raw in
      if String.eqb line "" then facts_loop rest count tail last else
      match loads line with
      | None => Raise (ValErr "malformed JSON")
      | Some v =>
          prev <- v_get "prev" v;;
          if negb (py_eqb prev (VStr tail)) then Raise (ValErr "audit chain break") else
          rec <- v_items v;;
          facts_loop rest (count + 1) (sha256 line) (Some rec)
      end
  end.
Definition audit_facts (f : string) : res facts :=
  '(count, tail, last) <- facts_loop (splitlines "" f) 0 GENESIS None;;
  Ok (Facts count (Z.of_nat (String.length f)) tail last).

(** [issued_at] is the argument or the time formatted. *)
Definition anchor_fields (close : dict) (fs : facts) (run_id commit key_id issued_at : string) : dict :=
  [ ("schema", VStr ANCHOR_SCHEMA);
    ("authority_role", VStr AUTHORITY_ROLE);
    ("authority_key_id", VStr key_id);
    ("mac_algorithm", VStr MAC_ALGORITHM);
    ("run_id", VStr run_id);
    ("source_commit", VStr commit);
    ("record_count", VInt (f_count fs));
    ("byte_length", VInt (f_length fs));
    ("final_chain_hash", VStr (f_tail fs));
    ("closure_sequence", dget_or "closure_sequence" VNull close);
    ("closure_state", dget_or "closure_state" VNull close);
    ("issued_at", VStr issued_at) ].
Definition build_anchor (f run_id commit key key_id issued_at : string) : res dict :=
  if String.eqb run_id "" then Raise (ValErr "expected_run_id is required") else
  if negb (is_commit commit) then Raise (ValErr "source_commit must be a lowercase 40/64-hex object id") else
  if Nat.ltb (String.length key) 32 then Raise (ValErr "control-plane anchor key must contain at least 32 bytes") else
  if String.eqb key_id "" then Raise (ValErr "key_id is required") else
  fs <- audit_facts f;;
  match f_last fs with
  | None | Some [] => Raise (ValErr "the final record is not RUN_CLOSED")
  | Some close =>
      if negb (py_eqb (dget_or "decision" VNull close) (VStr "RUN_CLOSED"))
      then Raise (ValErr "the final record is not RUN_CLOSED") else
      if negb (py_eqb (dget_or "run_id" VNull close) (VStr run_id))
      then Raise (ValErr "RUN_CLOSED does not bind expected_run_id") else
      if negb (py_eqb (dget_or "closure_schema" VNull close) (VStr RUN_CLOSE_SCHEMA))
      then Raise (ValErr "unsupported run closure schema") else
      let anchor := anchor_fields close fs run_id commit key_id issued_at in
      Ok (dset "authentication_tag" (VStr (hmac_sha256 key (canonical_payload anchor))) anchor)
  end.

(** [write_anchor]: an exclusive creation, the bytes of all short writes, and
    the syncs of the file and of its directory. *)
Definition anchor_bytes (anchor : dict) : string := dumps (VDict anchor) ++ String newline "".
Definition write_anchor (existing : option string) (ws : list wres) (fsync dir_fsync : bool) (anchor : dict)
    : option string * res unit :=
  match existing with
  | Some f => (Some f, Raise (PyExn "FileExistsError" "open"))
  | None =>
      let '(f, wrote) := write_all ws (anchor_bytes anchor) "" in
      (Some f, if wrote && fsync && dir_fsync then Ok tt else Raise (OSError "writing anchor"))
  end.

(** [main] over the log and the key's file: what is at the output path, and the exit
    code.  A log that cannot be read raises as well. *)
Definition main (key_file : res string) (f run_id commit key_id issued_at : string)
    (existing : option string) (ws : list wres) (fsync dir_fsync : bool) : option string * res Z :=
  match (key <- key_file;; build_anchor f run_id commit key key_id issued_at) with
  | Raise x => (existing, Raise x)
  | Ok anchor =>
      let '(file, r) := write_anchor existing ws fsync dir_fsync anchor in
      (file, _ <- r;; Ok 0)
  end.

End Anchor.

(** [hmac.compare_digest] on strings. *)
Definition compare_digest (a b : string) : res bool :=
  if str_all is_ascii a && str_all is_ascii b then Ok (String.eqb a b)
  else Raise (TypeError "comparing strings with non-ASCII characters is not supported").
