(* ===== verification/VerifyE10.v ===== *)
(** * The closed-run verifier ([src/pep/verify_e10.py])

    [schema_error] and [validate_history] record by record, one definition per
    branch of the loop, and [verify] with the close anchor.  A result is its
    status and its extra fields; the human-readable detail is not modelled. *)

From S2P Require Import Prelude PyStr Json PyDyn Hash AuditLog Lifecycle E10Anchor.
Open Scope Z_scope.

(** ** The tables *)

Definition TERMINAL : list string := [COMPLETED; FAILED; UNKNOWN; CANCELLED].
Definition COMMON : list string := ["decision"; "run_id"; "ts"; "prev"].
Definition AUTH_FIELDS : list string :=
  [ "lifecycle_version"; "attempt_id"; "conn_id"; "epoch"; "program_id"; "policy_generation"; "budget_binding";
    "method"; "canonical_host"; "pin_family"; "pin_ip"; "pin_port"; "credential_ref"; "request_intent_digest";
    "lifecycle_seq" ].
Definition ALLOW_FIELDS : list string :=
  [ "reason"; "url"; "method"; "src"; "program_id"; "conn_id"; "attempt_id"; "test_nonce"; "row_id";
    "tls_intercepted"; "canonical_host"; "sni"; "pin_family"; "pin_ip"; "pin_port"; "upstream_status";
    "redirect_followed"; "credential_injected"; "streamed_bytes"; "request_hash"; "request_hash_semantics";
    "response_hash" ].
Definition CANCEL_REQUIRED : list string :=
  [ "cancellation_epoch"; "lifecycle_seq"; "local_drain_complete"; "inflight_remaining";
    "effect_permits_remaining"; "audit_producers_remaining"; "listener_state"; "external_enforcement" ].
Definition CLOSED_FIELDS : list string :=
  [ "closure_schema"; "closure_sequence"; "closure_state"; "admission_state"; "inflight_remaining";
    "cancellation_disposition"; "effect_permits_remaining"; "audit_producers_remaining"; "listener_state";
    "seal_action" ].
Definition exactly (l : list string) : option (list string * list string) := Some (l, l).
(** [SCHEMAS]: the required and the allowed fields of a decision. *)
Definition schema (decision : string) : option (list string * list string) :=
  if String.eqb decision AUTH then exactly AUTH_FIELDS
  else if String.eqb decision PERMIT then
    exactly ["attempt_id"; "conn_id"; "epoch"; "lifecycle_seq"; "policy_generation"; "budget_binding"]
  else if String.eqb decision PERMIT_RELEASED then
    exactly ["attempt_id"; "conn_id"; "epoch"; "permit_seq"; "lifecycle_seq"]
  else if String.eqb decision ATTEMPTED then
    exactly ["attempt_id"; "conn_id"; "epoch"; "permit_seq"; "pin_ip"; "pin_port"]
  else if String.eqb decision COMPLETED then
    exactly ["attempt_id"; "conn_id"; "epoch"; "permit_seq"; "upstream_status"; "response_hash"; "streamed_bytes"]
  else if String.eqb decision FAILED || String.eqb decision CANCELLED then
    Some (["attempt_id"; "conn_id"; "epoch"; "reason"], ["attempt_id"; "conn_id"; "epoch"; "permit_seq"; "reason"])
  else if String.eqb decision UNKNOWN then
    Some (["attempt_id"; "conn_id"; "epoch"; "permit_seq"; "reason"],
          ["attempt_id"; "conn_id"; "epoch"; "permit_seq"; "reason"; "bytes_streamed"])
  else if String.eqb decision "ALLOW" then exactly ALLOW_FIELDS
  else if String.eqb decision CANCEL_REQUESTED then exactly ["reason"; "cancellation_epoch"; "lifecycle_seq"]
  else if String.eqb decision CANCEL_LINEARIZED then
    exactly ["cancelled_epoch"; "new_epoch"; "lifecycle_seq"; "inflight_at_linearization"]
  else if String.eqb decision CANCEL_ACK then exactly ("ack_scope" :: CANCEL_REQUIRED)
  else if String.eqb decision CANCEL_DRAIN_TIMEOUT then
    Some ("ack_scope" :: CANCEL_REQUIRED, "ack_scope" :: "closure_blockers" :: CANCEL_REQUIRED)
  else if String.eqb decision RUN_CLOSED then exactly CLOSED_FIELDS
  else if String.eqb decision "KILL_SWITCH" then
    exactly ("reason" :: "connections_terminated" :: "terminated_conn_ids" :: "registered_at_kill" :: CANCEL_REQUIRED)
  else if String.eqb decision "BLOCKED_BY_POLICY" then
    Some (["reason"], ["reason"; "url"; "method"; "src"; "conn_id"; "row_id"; "test_nonce"; "tls"; "detail"; "pin"])
  else if String.eqb decision "CONNECTION_TERMINATED" then
    exactly ["reason"; "url"; "method"; "bytes_streamed"; "conn_id"; "attempt_id"; "test_nonce"; "row_id"; "pin"]
  else if String.eqb decision "STARTUP" then
    exactly ["reason"; "max_connections"; "port"; "listener"; "listen_family"; "listen_addr"]
  else if String.eqb decision "STARTUP_DEGRADED" then exactly ["reason"; "detail"; "port"]
  else if String.eqb decision "STARTUP_FAILED" then exactly ["reason"; "detail"]
  else None.
Definition STRING_FIELDS : list string :=
  [ "lifecycle_version"; "attempt_id"; "conn_id"; "program_id"; "policy_generation"; "budget_binding"; "method";
    "canonical_host"; "pin_family"; "pin_ip"; "credential_ref"; "request_intent_digest"; "reason"; "url"; "src";
    "test_nonce"; "row_id"; "request_hash"; "request_hash_semantics"; "response_hash"; "ack_scope";
    "external_enforcement"; "closure_schema"; "closure_state"; "admission_state"; "cancellation_disposition";
    "listener_state"; "seal_action"; "detail"; "listener"; "listen_family"; "listen_addr" ].
Definition int_fields : list string :=
  [ "epoch"; "pin_port"; "lifecycle_seq"; "permit_seq"; "cancelled_epoch"; "new_epoch"; "inflight_at_linearization";
    "cancellation_epoch"; "inflight_remaining"; "effect_permits_remaining"; "audit_producers_remaining";
    "closure_sequence"; "upstream_status"; "streamed_bytes"; "bytes_streamed"; "connections_terminated"; "port";
    "max_connections" ].
Definition bool_fields : list string :=
  ["local_drain_complete"; "tls_intercepted"; "redirect_followed"; "credential_injected"; "tls"].
Definition list_fields : list string := ["terminated_conn_ids"; "registered_at_kill"; "closure_blockers"].
Definition reason_decisions : list string :=
  [ FAILED; UNKNOWN; CANCELLED; CANCEL_REQUESTED; "BLOCKED_BY_POLICY"; "CONNECTION_TERMINATED"; "STARTUP";
    "STARTUP_DEGRADED"; "STARTUP_FAILED"; "KILL_SWITCH" ].

(** ** Reading a record

    A typed field that is present has its type ([VerifyE10Props.schema_types]), so
    a default below stands for an absent field only. The fields a schema requires
    are present; an optional one that is absent is a default here where the source
    reads it with [get], and the exception where it does not ([closure_blockers]). *)

Definition int_of (k : string) (r : dict) : Z := match fld k r with VInt z => z | _ => 0 end.
Definition str_of (k : string) (r : dict) : string := match fld k r with VStr s => s | _ => "" end.
Definition strs_of (k : string) (r : dict) : list string :=
  match fld k r with VList l => map (fun v => match v with VStr s => s | _ => "" end) l | _ => [] end.
Definition same (k : string) (r q : dict) : bool := py_eqb (fld k r) (fld k q).
Definition decision_of (r : dict) : string := str_of "decision" r.
(** [v is True], [v is False]. *)
Definition is_truth (b : bool) (v : val) : bool := match v with VBool c => Bool.eqb b c | _ => false end.

(** ** The schema of one record *)

Definition MALFORMED : string := "MALFORMED_RECORD_SCHEMA".
(** A field that is present satisfies [p]. *)
Definition present_ok (p : val -> bool) (r : dict) (k : string) : bool :=
  match dget k r with Some v => p v | None => true end.
(** [math.isfinite]. *)
Definition isfinite (v : val) : res bool :=
  match v with
  | VInt z => if float_limit <=? Z.abs z then Raise (OverflowError "int too large to convert to float") else Ok true
  | VFloat (FFin _ _) => Ok true
  | _ => Ok false
  end.
Definition is_number (v : val) : bool := match v with VInt _ | VFloat _ => true | _ => false end.
Definition chain_metadata_ok (r : dict) : res bool :=
  if negb (is_strv (fld "run_id" r)) || negb (truthy (fld "run_id" r)) || negb (is_number (fld "ts" r))
  then Ok false else
  fin <- isfinite (fld "ts" r);;
  Ok (fin && is_hex64 (py_str (dget_or "prev" (VStr "") r))).
Definition pin_ok (v : val) : bool :=
  match v with VList [VStr _; VStr _; VInt p] => (1 <=? p) && (p <=? 65535) | _ => false end.
Definition types_ok (r : dict) : bool :=
  forallb (present_ok is_strv r) STRING_FIELDS &&
  present_ok (fun v => is_none v || is_strv v) r "sni" &&
  forallb (present_ok (fun v => match v with VInt z => 0 <=? z | _ => false end) r) int_fields &&
  forallb (present_ok is_bool r) bool_fields &&
  forallb (present_ok (fun v => match v with VList l => forallb is_strv l | _ => false end) r) list_fields &&
  present_ok pin_ok r "pin".
Definition is_digest (s : string) : bool := startswith "sha256:" s && is_hex64 (drop 7 s).
Definition intent_ok (r : dict) : bool :=
  String.eqb (str_of "lifecycle_version" r) "E10-v2" &&
  forallb (fun k => negb (String.eqb (py_str (dget_or k (VStr "") r)) ""))
    [ "attempt_id"; "conn_id"; "program_id"; "policy_generation"; "budget_binding"; "method"; "canonical_host";
      "pin_ip"; "credential_ref" ] &&
  mem_str (str_of "pin_family" r) ["ipv4"; "ipv6"] &&
  (1 <=? int_of "pin_port" r) && (int_of "pin_port" r <=? 65535) &&
  is_digest (py_str (dget_or "request_intent_digest" (VStr "") r)).
Definition values_ok (d : string) (r : dict) : bool :=
  (if String.eqb d AUTH then intent_ok r else true) &&
  (if mem_str d [AUTH; PERMIT; PERMIT_RELEASED; CANCEL_REQUESTED; CANCEL_LINEARIZED]
   then 0 <? int_of "lifecycle_seq" r else true) &&
  (if mem_str d [ATTEMPTED; COMPLETED; UNKNOWN] then 0 <? int_of "permit_seq" r else true) &&
  (if mem_str d [FAILED; CANCELLED] && dmem "permit_seq" r then 0 <? int_of "permit_seq" r else true) &&
  (if String.eqb d COMPLETED then is_hex64 (str_of "response_hash" r) else true) &&
  (if String.eqb d "ALLOW"
   then String.eqb (str_of "request_hash_semantics" r) "sanitized-intent-v2" &&
        is_hex64 (py_str (dget_or "request_hash" (VStr "") r)) &&
        is_hex64 (py_str (dget_or "response_hash" (VStr "") r))
   else true) &&
  (if mem_str d reason_decisions then negb (String.eqb (py_str (dget_or "reason" (VStr "") r)) "") else true).
(** The status [_schema_error] names, if any. *)
Definition schema_error (r : dict) : res (option string) :=
  let v := fld "decision" r in
  if negb (hashable v) then Raise (TypeError "unhashable type") else
  match v with
  | VStr d =>
      match schema d with
      | None => Ok (Some "UNKNOWN_DECISION")
      | Some (required, allowed) =>
          if existsb (fun k => negb (dmem k r)) required ||
             existsb (fun k => negb (mem_str k COMMON || mem_str k allowed)) (dkeys r)
          then Ok (Some MALFORMED) else
          meta <- chain_metadata_ok r;;
          Ok (if meta && types_ok r && values_ok d r then None else Some MALFORMED)
      end
  | _ => Ok (Some "UNKNOWN_DECISION")
  end.

(** ** Secrets in an intent *)

Definition forbidden : list string := ["authorization"; "secret"; "credential_secret"; "raw_request"].
Fixpoint walk (v : val) : bool :=
  match v with
  | VDict d => existsb (fun kv => mem_str (str_lower kv.1) forbidden) d || existsb (fun kv => walk kv.2) d
  | VList l => existsb walk l
  | _ => false
  end.
Definition looks_secret (r : dict) : bool :=
  let credential := py_str (dget_or "credential_ref" (VStr "") r) in
  walk (VDict r) || startswith "bearer " (str_lower credential) || str_any c_isspace credential.

(** ** The state of the validation *)

Record attempt := Attempt {
  at_state : string; at_auth : dict; at_permit : option dict; at_attempted : option dict;
  at_terminal : option dict; at_allow : option dict; at_release : option dict; at_late : bool;
  at_terminated : option dict }.
Inductive run_state := RUNNING | REQUESTED | LINEARIZED | ACKNOWLEDGED | TIMED_OUT | CLOSED | START_FAILED.
#[export] Instance run_state_eq_dec : EqDecision run_state.
Proof. solve_decision. Defined.
(** [attempts] in the order of their intents, [sequences] as the numbers owned. *)
Record history := History {
  h_attempts : list (string * attempt);
  h_sequences : list Z;
  h_state : run_state;
  h_startup : bool; h_active : bool;
  h_cancel : option dict; h_request : option dict; h_kill : option dict;
  h_disposition : option string; h_closure : option dict }.
Definition history0 : history := History [] [] RUNNING false false None None None None None.

Fixpoint find_attempt (aid : string) (l : list (string * attempt)) : option attempt :=
  match l with
  | [] => None
  | (k, x) :: l' => if String.eqb aid k then Some x else find_attempt aid l'
  end.
Fixpoint put_attempt (aid : string) (a : attempt) (l : list (string * attempt)) : list (string * attempt) :=
  match l with
  | [] => [(aid, a)]
  | (k, x) :: l' => if String.eqb aid k then (k, a) :: l' else (k, x) :: put_attempt aid a l'
  end.
Definition attempt_of (aid : string) (h : history) : option attempt := find_attempt aid (h_attempts h).
Definition set_attempt (aid : string) (a : attempt) (h : history) : history :=
  History (put_attempt aid a (h_attempts h)) (h_sequences h) (h_state h) (h_startup h) (h_active h) (h_cancel h)
    (h_request h) (h_kill h) (h_disposition h) (h_closure h).
Definition own (seq : Z) (h : history) : history :=
  History (h_attempts h) (seq :: h_sequences h) (h_state h) (h_startup h) (h_active h) (h_cancel h)
    (h_request h) (h_kill h) (h_disposition h) (h_closure h).
Definition owned (seq : Z) (h : history) : bool := existsb (Z.eqb seq) (h_sequences h).
Definition set_state (s : run_state) (h : history) : history :=
  History (h_attempts h) (h_sequences h) s (h_startup h) (h_active h) (h_cancel h)
    (h_request h) (h_kill h) (h_disposition h) (h_closure h).
Definition set_startup (h : history) : history :=
  History (h_attempts h) (h_sequences h) (h_state h) true (h_active h) (h_cancel h)
    (h_request h) (h_kill h) (h_disposition h) (h_closure h).
Definition set_active (h : history) : history :=
  History (h_attempts h) (h_sequences h) (h_state h) (h_startup h) true (h_cancel h)
    (h_request h) (h_kill h) (h_disposition h) (h_closure h).
Definition set_request (r : dict) (h : history) : history :=
  History (h_attempts h) (h_sequences h) REQUESTED (h_startup h) (h_active h) (h_cancel h)
    (Some r) (h_kill h) (h_disposition h) (h_closure h).
Definition set_cancel (r : dict) (h : history) : history :=
  History (h_attempts h) (h_sequences h) LINEARIZED (h_startup h) (h_active h) (Some r)
    (h_request h) (h_kill h) (h_disposition h) (h_closure h).
Definition set_kill (r : dict) (h : history) : history :=
  History (h_attempts h) (h_sequences h) (h_state h) (h_startup h) (h_active h) (h_cancel h)
    (h_request h) (Some r) (h_disposition h) (h_closure h).
Definition set_disposition (s : run_state) (d : string) (h : history) : history :=
  History (h_attempts h) (h_sequences h) s (h_startup h) (h_active h) (h_cancel h)
    (h_request h) (h_kill h) (Some d) (h_closure h).
Definition set_closure (r : dict) (h : history) : history :=
  History (h_attempts h) (h_sequences h) CLOSED (h_startup h) (h_active h) (h_cancel h)
    (h_request h) (h_kill h) (h_disposition h) (Some r).

Definition is_some {A} (o : option A) : bool := match o with Some _ => true | None => false end.
Definition completed (a : attempt) : bool :=
  match at_terminal a with Some t => String.eqb (decision_of t) COMPLETED | None => false end.
Definition keys_where (p : attempt -> bool) (h : history) : list string :=
  map fst (List.filter (fun ka => p ka.2) (h_attempts h)).
Definition incomplete_attempts : history -> list string := keys_where (fun a => negb (is_some (at_terminal a))).
Definition missing_releases : history -> list string :=
  keys_where (fun a => is_some (at_permit a) && negb (is_some (at_release a))).
Definition missing_allows : history -> list string :=
  keys_where (fun a => completed a && negb (is_some (at_allow a))).

(** ** Results *)

Record counts := Counts {
  c_intents : nat; c_permits : nat; c_attempted : nat; c_completed : nat; c_unknown : nat; c_allow : nat;
  c_released : nat }.
Record result := Result {
  rs_status : string; rs_ids : list string; rs_counts : option counts; rs_release : string;
  rs_closure : option dict; rs_disposition : option string }.
Definition only (status : string) : result := Result status [] None "" None None.
(** What a branch does: raise, return a result, or go on. *)
Abbreviation step_out := (res (result + history)).
#[local] Notation "'when' c 'reject' s ;; k" := (if c then Ok (inl (only s)) else k)
  (at level 20, c at level 99, s at level 99, k at level 200).
Definition go (h : history) : step_out := Ok (inr h).
Definition count_error (r : dict) : bool :=
  negb (int_of "inflight_remaining" r =?
        int_of "effect_permits_remaining" r + int_of "audit_producers_remaining" r).
Definition draining (h : history) : bool :=
  match h_state h with RUNNING | REQUESTED | LINEARIZED => negb (is_some (h_kill h)) | _ => false end.
(** Not allocated before the cancellation [cancel]. *)
Definition not_before (seq : Z) (r : dict) (cancel : option dict) : bool :=
  match cancel with
  | Some c => (int_of "lifecycle_seq" c <=? seq) || negb (py_eqb (fld "epoch" r) (fld "cancelled_epoch" c))
  | None => false
  end.

(** ** The branches *)

Definition on_startup (d : string) (r : dict) (h : history) : step_out :=
  when h_startup h || h_active h || negb (bool_decide (h_state h = RUNNING)) reject "ILLEGAL_RUN_TRANSITION";;
  if String.eqb d "STARTUP_DEGRADED" then go h
  else if String.eqb d "STARTUP_FAILED" then go (set_state START_FAILED h)
  else
    when int_of "max_connections" r <=? 0 reject "CONTEXT_BINDING_MISMATCH";;
    go (set_state RUNNING (set_startup h)).

Definition on_auth (aid : string) (r : dict) (h : history) : step_out :=
  let seq := int_of "lifecycle_seq" r in
  let late := negb (bool_decide (h_state h = RUNNING)) in
  when negb (draining h) reject "ILLEGAL_RUN_TRANSITION";;
  when is_some (attempt_of aid h) reject "ILLEGAL_ATTEMPT_TRANSITION";;
  when looks_secret r reject "CREDENTIAL_LEAK";;
  when owned seq h reject "REPLAYED_LIFECYCLE_SEQUENCE";;
  when late && not_before seq r (h_cancel h) reject "AUTH_SEQUENCE_NOT_BEFORE_CANCELLATION";;
  go (set_attempt aid (Attempt "AUTHORIZED" r None None None None None late None) (own seq h)).

Definition on_permit (aid : string) (r : dict) (h : history) : step_out :=
  let seq := int_of "lifecycle_seq" r in
  when negb (draining h) reject "ILLEGAL_RUN_TRANSITION";;
  match attempt_of aid h with
  | None => Ok (inl (only "PERMIT_WITHOUT_INTENT"))
  | Some a =>
      when negb (String.eqb (at_state a) "AUTHORIZED") || at_late a reject "ILLEGAL_ATTEMPT_TRANSITION";;
      when negb (forallb (fun k => same k r (at_auth a))
                   ["conn_id"; "epoch"; "policy_generation"; "budget_binding"]) reject "BINDING_MISMATCH";;
      when seq <=? int_of "lifecycle_seq" (at_auth a) reject "LIFECYCLE_SEQUENCE_ORDER";;
      when owned seq h reject "REPLAYED_LIFECYCLE_SEQUENCE";;
      when not_before seq r (h_cancel h) reject "PERMIT_SEQUENCE_NOT_BEFORE_CANCELLATION";;
      go (set_attempt aid (Attempt "PERMITTED" (at_auth a) (Some r) (at_attempted a) (at_terminal a) (at_allow a)
                             (at_release a) (at_late a) (at_terminated a)) (own seq h))
  end.

Definition on_attempted (aid : string) (r : dict) (h : history) : step_out :=
  when negb (bool_decide (h_state h = RUNNING)) reject "POST_CANCELLATION_EFFECT";;
  match attempt_of aid h with
  | Some a =>
      when negb (String.eqb (at_state a) "PERMITTED") reject "ILLEGAL_ATTEMPT_TRANSITION";;
      let permit := default [] (at_permit a) in
      when negb (py_eqb (fld "permit_seq" r) (fld "lifecycle_seq" permit) && same "conn_id" r permit &&
                 same "epoch" r permit && same "pin_ip" r (at_auth a) && same "pin_port" r (at_auth a))
        reject "BINDING_MISMATCH";;
      go (set_attempt aid (Attempt "ATTEMPTED" (at_auth a) (at_permit a) (Some r) (at_terminal a) (at_allow a)
                             (at_release a) (at_late a) (at_terminated a)) h)
  | None => Ok (inl (only "ILLEGAL_ATTEMPT_TRANSITION"))
  end.

Definition legal_terminal (prior d : string) : bool :=
  (mem_str prior ["AUTHORIZED"; "PERMITTED"] && mem_str d [FAILED; CANCELLED]) ||
  (String.eqb prior "ATTEMPTED" && mem_str d TERMINAL).
Definition on_terminal (d aid : string) (r : dict) (h : history) : step_out :=
  when negb (draining h) reject "ILLEGAL_RUN_TRANSITION";;
  match attempt_of aid h with
  | None => Ok (inl (only "EFFECT_WITHOUT_INTENT"))
  | Some a =>
      when negb (legal_terminal (at_state a) d) reject "ILLEGAL_ATTEMPT_TRANSITION";;
      when negb (same "conn_id" r (at_auth a) && same "epoch" r (at_auth a)) reject "BINDING_MISMATCH";;
      when match at_permit a with
           | Some p => negb (py_eqb (fld "permit_seq" r) (fld "lifecycle_seq" p))
           | None => dmem "permit_seq" r
           end reject "BINDING_MISMATCH";;
      go (set_attempt aid (Attempt d (at_auth a) (at_permit a) (at_attempted a) (Some r) (at_allow a)
                             (at_release a) (at_late a) (at_terminated a)) h)
  end.

Definition allow_valid (r : dict) (a : attempt) (terminal : dict) : bool :=
  let auth := at_auth a in
  let expected_request := match split1 ":" (str_of "request_intent_digest" auth) with [_; t] => t | _ => "" end in
  is_some (at_attempted a) &&
  same "conn_id" r auth && same "program_id" r auth && same "method" r auth && same "canonical_host" r auth &&
  same "pin_family" r auth && same "pin_ip" r auth && same "pin_port" r auth &&
  String.eqb (str_of "request_hash" r) expected_request &&
  same "response_hash" r terminal && same "upstream_status" r terminal && same "streamed_bytes" r terminal &&
  String.eqb (str_of "reason" r) "ALLOW" &&
  is_truth true (fld "tls_intercepted" r) && is_truth false (fld "redirect_followed" r) &&
  py_eqb (fld "credential_injected" r) (VBool (negb (String.eqb (str_of "credential_ref" auth) "none"))) &&
  startswith ("https://" ++ str_of "canonical_host" auth) (str_of "url" r) &&
  (is_none (fld "sni" r) || py_eqb (fld "sni" r) (fld "canonical_host" auth)).
Definition on_allow (aid : string) (r : dict) (h : history) : step_out :=
  when negb (draining h) reject "ILLEGAL_RUN_TRANSITION";;
  match attempt_of aid h with
  | Some a =>
      when negb (completed a) reject "ALLOW_WITHOUT_COMPLETION";;
      when is_some (at_allow a) reject "DUPLICATE_ALLOW";;
      when negb (allow_valid r a (default [] (at_terminal a))) reject "BINDING_MISMATCH";;
      go (set_attempt aid (Attempt (at_state a) (at_auth a) (at_permit a) (at_attempted a) (at_terminal a) (Some r)
                             (at_release a) (at_late a) (at_terminated a)) h)
  | None => Ok (inl (only "ALLOW_WITHOUT_COMPLETION"))
  end.

Definition on_release (aid : string) (r : dict) (h : history) : step_out :=
  let seq := int_of "lifecycle_seq" r in
  when negb (draining h) reject "ILLEGAL_RUN_TRANSITION";;
  match attempt_of aid h with
  | Some a =>
      match at_permit a with
      | None => Ok (inl (only "RELEASE_WITHOUT_PERMIT"))
      | Some p =>
          when negb (is_some (at_terminal a)) reject "RELEASE_BEFORE_TERMINAL";;
          when completed a && negb (is_some (at_allow a)) reject "RELEASE_BEFORE_ALLOW";;
          when is_some (at_release a) reject "DUPLICATE_PERMIT_RELEASE";;
          when negb (same "conn_id" r p && same "epoch" r p &&
                     py_eqb (fld "permit_seq" r) (fld "lifecycle_seq" p)) reject "RELEASE_BINDING_MISMATCH";;
          when seq <=? int_of "lifecycle_seq" p reject "RELEASE_SEQUENCE_ORDER";;
          when owned seq h reject "REPLAYED_LIFECYCLE_SEQUENCE";;
          go (set_attempt aid (Attempt (at_state a) (at_auth a) (at_permit a) (at_attempted a) (at_terminal a)
                                 (at_allow a) (Some r) (at_late a) (at_terminated a)) (own seq h))
      end
  | None => Ok (inl (only "RELEASE_WITHOUT_PERMIT"))
  end.

(** The first attempt that contradicts the linearization, in order of intents. *)
Fixpoint linearization_error (r : dict) (l : list (string * attempt)) : option string :=
  match l with
  | [] => None
  | (_, a) :: l' =>
      let seq := int_of "lifecycle_seq" r in
      if negb (py_eqb (fld "epoch" (at_auth a)) (fld "cancelled_epoch" r)) then Some "BINDING_MISMATCH"
      else if seq <=? int_of "lifecycle_seq" (at_auth a) then Some "AUTH_SEQUENCE_NOT_BEFORE_CANCELLATION"
      else if match at_permit a with Some p => seq <=? int_of "lifecycle_seq" p | None => false end
      then Some "PERMIT_SEQUENCE_NOT_BEFORE_CANCELLATION"
      else linearization_error r l'
  end.
Definition on_linearized (r : dict) (h : history) : step_out :=
  let seq := int_of "lifecycle_seq" r in
  let request := default [] (h_request h) in
  when negb (bool_decide (h_state h = REQUESTED)) reject "ILLEGAL_RUN_TRANSITION";;
  when negb (int_of "new_epoch" r =? int_of "cancelled_epoch" r + 1) reject "ILLEGAL_RUN_TRANSITION";;
  when negb (same "lifecycle_seq" request r && py_eqb (fld "cancellation_epoch" request) (fld "new_epoch" r))
    reject "CANCELLATION_REQUEST_BINDING_MISMATCH";;
  when owned seq h reject "REPLAYED_LIFECYCLE_SEQUENCE";;
  match linearization_error r (h_attempts h) with
  | Some s => Ok (inl (only s))
  | None => go (set_cancel r (own seq h))
  end.

Definition no_dup (l : list string) : bool := bool_decide (NoDup l).
(** Permits that straddle the cancellation. *)
Definition logical_inflight (h : history) (cancel : dict) : Z :=
  Z.of_nat (length (List.filter (fun ka =>
    match at_permit ka.2 with
    | Some p => (int_of "lifecycle_seq" p <? int_of "lifecycle_seq" cancel) &&
                (int_of "lifecycle_seq" cancel <? int_of "lifecycle_seq" (default [] (at_release ka.2)))
    | None => false
    end) (h_attempts h))).
Definition kill_bound (r cancel : dict) : bool :=
  let torn := strs_of "terminated_conn_ids" r in
  let snapshot := strs_of "registered_at_kill" r in
  same "lifecycle_seq" r cancel && py_eqb (fld "cancellation_epoch" r) (fld "new_epoch" cancel) &&
  (int_of "effect_permits_remaining" r =? 0) &&
  (int_of "connections_terminated" r =? Z.of_nat (length torn)) &&
  no_dup torn && no_dup snapshot && forallb (fun c => mem_str c snapshot) torn &&
  String.eqb (str_of "external_enforcement" r) "NOT_RUN_PHASE1".
Definition kill_quiescent (r : dict) : bool :=
  (int_of "inflight_remaining" r =? 0) && String.eqb (str_of "listener_state" r) "STOPPED".
Definition on_kill (r : dict) (h : history) : step_out :=
  let cancel := default [] (h_cancel h) in
  when negb (bool_decide (h_state h = LINEARIZED)) || is_some (h_kill h) reject "KILL_SWITCH_CARDINALITY_ORDER";;
  if negb (bool_decide (incomplete_attempts h = []))
  then Ok (inl (Result "INCOMPLETE_ATTEMPT" (incomplete_attempts h) None "" None None)) else
  if negb (bool_decide (missing_allows h = []))
  then Ok (inl (Result "MISSING_REQUIRED_ALLOW" (missing_allows h) None "" None None)) else
  if negb (bool_decide (missing_releases h = []))
  then Ok (inl (Result "MISSING_PERMIT_RELEASE" (missing_releases h) None "" None None)) else
  when count_error r reject "QUIESCENCE_COUNT_MISMATCH";;
  when negb (logical_inflight h cancel =? int_of "inflight_at_linearization" cancel)
    reject "INFLIGHT_LINEARIZATION_MISMATCH";;
  when negb (kill_bound r cancel) reject "KILL_SWITCH_BINDING_MISMATCH";;
  when negb (is_truth (kill_quiescent r) (fld "local_drain_complete" r))
    reject "KILL_SWITCH_BINDING_MISMATCH";;
  go (set_kill r h).

Definition ack_valid (r : dict) : bool :=
  is_truth true (fld "local_drain_complete" r) && (int_of "inflight_remaining" r =? 0) &&
  (int_of "effect_permits_remaining" r =? 0) && (int_of "audit_producers_remaining" r =? 0) &&
  String.eqb (str_of "listener_state" r) "STOPPED" &&
  String.eqb (str_of "external_enforcement" r) "NOT_RUN_PHASE1" &&
  String.eqb (str_of "ack_scope" r) "LOCAL_IN_PROCESS_DRAIN_ONLY".
Definition timeout_valid (r : dict) (closure_blockers : val) : bool :=
  is_truth false (fld "local_drain_complete" r) &&
  String.eqb (str_of "ack_scope" r) "NO_ACK_DRAIN_INCOMPLETE" && truthy closure_blockers &&
  ((0 <? int_of "inflight_remaining" r) || negb (String.eqb (str_of "listener_state" r) "STOPPED")).
(** The one field a branch reads that its schema does not require is the
    timeout's [closure_blockers]: without it Python raises [KeyError]. *)
Definition on_disposition (d : string) (r : dict) (h : history) : step_out :=
  match h_kill h with
  | Some kill =>
      when negb (bool_decide (h_state h = LINEARIZED)) reject "ILLEGAL_RUN_TRANSITION";;
      when count_error r reject "QUIESCENCE_COUNT_MISMATCH";;
      when negb (forallb (fun k => same k r kill) CANCEL_REQUIRED) reject "FALSE_CANCELLATION_DISPOSITION";;
      if String.eqb d CANCEL_ACK then
        when negb (ack_valid r) reject "FALSE_CANCELLATION_DISPOSITION";;
        go (set_disposition ACKNOWLEDGED d h)
      else
        closure_blockers <- dindex r "closure_blockers";;
        when negb (timeout_valid r closure_blockers) reject "FALSE_CANCELLATION_DISPOSITION";;
        go (set_disposition TIMED_OUT d h)
  | None => Ok (inl (only "ILLEGAL_RUN_TRANSITION"))
  end.

Definition closure_exact (r cancel : dict) : bool :=
  String.eqb (str_of "closure_schema" r) RUN_CLOSE_SCHEMA &&
  py_eqb (fld "closure_sequence" r) (fld "lifecycle_seq" cancel) &&
  String.eqb (str_of "closure_state" r) "CLOSED" && String.eqb (str_of "admission_state" r) "TERMINAL" &&
  (int_of "inflight_remaining" r =? 0) && (int_of "effect_permits_remaining" r =? 0) &&
  (int_of "audit_producers_remaining" r =? 0) && String.eqb (str_of "listener_state" r) "STOPPED" &&
  String.eqb (str_of "seal_action" r) "FINAL_FSYNC_THEN_ATOMIC_SEAL" &&
  String.eqb (str_of "cancellation_disposition" r) CANCEL_ACK.
Definition on_closed (r : dict) (h : history) : step_out :=
  when negb (bool_decide (h_state h = ACKNOWLEDGED)) reject "ILLEGAL_RUN_TRANSITION";;
  when negb (closure_exact r (default [] (h_cancel h))) reject "INVALID_RUN_CLOSURE";;
  when count_error r reject "QUIESCENCE_COUNT_MISMATCH";;
  go (set_closure r h).

Definition termination_bound (r terminal : dict) (a : attempt) : bool :=
  let auth := at_auth a in
  same "conn_id" r auth && same "method" r auth &&
  py_eqb (fld "pin" r) (VList [fld "pin_family" auth; fld "pin_ip" auth; fld "pin_port" auth]) &&
  same "bytes_streamed" terminal r && startswith ("https://" ++ str_of "canonical_host" auth) (str_of "url" r).
Definition on_terminated (aid : string) (r : dict) (h : history) : step_out :=
  when negb (draining h) reject "ILLEGAL_RUN_TRANSITION";;
  match attempt_of aid h with
  | Some a =>
      let terminal := default [] (at_terminal a) in
      when negb (is_some (at_attempted a)) || negb (is_some (at_terminal a)) ||
           negb (String.eqb (decision_of terminal) UNKNOWN) reject "ORPHAN_CONNECTION_TERMINATED";;
      when is_some (at_terminated a) reject "DUPLICATE_CONNECTION_TERMINATED";;
      when negb (termination_bound r terminal a) reject "CONNECTION_TERMINATED_BINDING_MISMATCH";;
      go (set_attempt aid (Attempt (at_state a) (at_auth a) (at_permit a) (at_attempted a) (at_terminal a) (at_allow a)
                             (at_release a) (at_late a) (Some r)) h)
  | None => Ok (inl (only "ORPHAN_CONNECTION_TERMINATED"))
  end.
Definition on_blocked (r : dict) (h : history) : step_out :=
  when negb (draining h) reject "ILLEGAL_RUN_TRANSITION";;
  when match dget "pin" r with
       | Some (VList (VStr f :: _)) => negb (mem_str f ["ipv4"; "ipv6"])
       | _ => false
       end reject "CONTEXT_BINDING_MISMATCH";;
  go h.

(** ** The loop *)

Definition after_disposition (d : string) (h : history) : bool :=
  match h_state h with
  | ACKNOWLEDGED => negb (String.eqb d RUN_CLOSED)
  | TIMED_OUT | START_FAILED => true
  | _ => false
  end.
Definition on_active (d aid : string) (r : dict) (h : history) : step_out :=
  if String.eqb d AUTH then on_auth aid r h
  else if String.eqb d PERMIT then on_permit aid r h
  else if String.eqb d ATTEMPTED then on_attempted aid r h
  else if mem_str d TERMINAL then on_terminal d aid r h
  else if String.eqb d "ALLOW" then on_allow aid r h
  else if String.eqb d PERMIT_RELEASED then on_release aid r h
  else if String.eqb d CANCEL_REQUESTED then
    when negb (bool_decide (h_state h = RUNNING)) reject "ILLEGAL_RUN_TRANSITION";; go (set_request r h)
  else if String.eqb d CANCEL_LINEARIZED then on_linearized r h
  else if String.eqb d "KILL_SWITCH" then on_kill r h
  else if mem_str d [CANCEL_ACK; CANCEL_DRAIN_TIMEOUT] then on_disposition d r h
  else if String.eqb d RUN_CLOSED then on_closed r h
  else if String.eqb d "CONNECTION_TERMINATED" then on_terminated aid r h
  else if String.eqb d "BLOCKED_BY_POLICY" then on_blocked r h
  else Ok (inl (only "UNVALIDATED_CONTEXTUAL_RECORD")).
Definition step (r : dict) (h : history) : step_out :=
  let d := decision_of r in
  let aid := py_str (dget_or "attempt_id" (VStr "") r) in
  when bool_decide (h_state h = CLOSED) reject "RECORD_AFTER_RUN_CLOSURE";;
  when after_disposition d h reject "ILLEGAL_RUN_TRANSITION";;
  if mem_str d ["STARTUP"; "STARTUP_DEGRADED"; "STARTUP_FAILED"] then on_startup d r h
  else on_active d aid r (set_active h).
Fixpoint steps (rs : list dict) (h : history) : step_out :=
  match rs with
  | [] => go h
  | r :: rs' => o <- step r h;; match o with inl b => Ok (inl b) | inr h' => steps rs' h' end
  end.

(** ** The verdict *)

Definition count (p : attempt -> bool) (h : history) : nat := length (keys_where p h).
Definition counts_of (h : history) : counts :=
  Counts (length (h_attempts h)) (count (fun a => is_some (at_permit a)) h)
    (count (fun a => is_some (at_attempted a)) h) (count completed h)
    (length (incomplete_attempts h)) (count (fun a => is_some (at_allow a)) h)
    (count (fun a => is_some (at_release a)) h).
Definition conclude (h : history) : result :=
  let cs := Some (counts_of h) in
  if bool_decide (h_attempts h = []) then only "NO_LIFECYCLE_RECORDS"
  else if negb (bool_decide (incomplete_attempts h = [])) then
    Result "INCOMPLETE_ATTEMPT" (incomplete_attempts h) cs "INDEPENDENT_REVIEW_REQUIRED_NO_AUTOMATIC_RETRY" None None
  else if negb (bool_decide (missing_allows h = [])) then
    Result "MISSING_REQUIRED_ALLOW" (missing_allows h) cs "" None None
  else if negb (bool_decide (missing_releases h = [])) then
    Result "MISSING_PERMIT_RELEASE" (missing_releases h) cs "" None None
  else if negb (is_some (h_kill h)) && is_some (h_cancel h) then only "MISSING_KILL_SWITCH"
  else match h_state h with
       | RUNNING | TIMED_OUT | ACKNOWLEDGED => Result "RUN_NOT_CLOSED" [] cs "" None None
       | REQUESTED => only "MISSING_CANCELLATION_LINEARIZATION"
       | LINEARIZED => only "MISSING_CANCELLATION_DISPOSITION"
       | CLOSED | START_FAILED => Result "LOCAL_HISTORY_VALID" [] cs "" (h_closure h) (h_disposition h)
       end.
(** The first loop: the run and the schema of every record. *)
Fixpoint check_records (run_id : string) (rs : list dict) : res (option result) :=
  match rs with
  | [] => Ok None
  | r :: rs' =>
      if negb (py_eqb (fld "run_id" r) (VStr run_id)) then Ok (Some (only "WRONG_RUN_ID")) else
      e <- schema_error r;;
      match e with
      | Some s => Ok (Some (only s))
      | None => check_records run_id rs'
      end
  end.
Definition validate_history (rs : list dict) (expected_run_id : string) : res result :=
  if String.eqb expected_run_id "" then Ok (only "EXPECTED_RUN_ID_REQUIRED") else
  if bool_decide (rs = []) then Ok (only "NO_LIFECYCLE_RECORDS") else
  bad <- check_records expected_run_id rs;;
  match bad with
  | Some b => Ok b
  | None => o <- steps rs history0;; Ok match o with inl b => b | inr h => conclude h end
  end.

Section Verify.
Context `{Digest}.

(** ** Reading the log *)

Fixpoint load_lines (prev : string) (lines : list string) : option (list dict) :=
  match lines with
  | [] => Some []
  | raw :: rest =>
      let line := b_strip raw in
      if String.eqb line "" then None else
      match loads line with
      | Some (VDict r) =>
          if py_eqb (fld "prev" r) (VStr prev) then rs ← load_lines (sha256 line) rest; Some (r :: rs) else None
      | _ => None
      end
  end.
Definition load_and_verify (audit : option string) : option (list dict) :=
  f ← audit; load_lines GENESIS (file_lines f).

(** ** The anchor *)

Definition mandatory : list string :=
  [ "schema"; "authority_role"; "authority_key_id"; "mac_algorithm"; "run_id"; "source_commit"; "record_count";
    "byte_length"; "final_chain_hash"; "closure_sequence"; "closure_state"; "issued_at"; "authentication_tag" ].
Definition same_set (l m : list string) : bool :=
  forallb (fun k => mem_str k m) l && forallb (fun k => mem_str k l) m.
Definition comparisons (run_id commit : string) (f : facts) (closure : dict) : list (string * val * string) :=
  [ ("run_id", VStr run_id, "ANCHOR_RUN_ID_MISMATCH");
    ("source_commit", VStr commit, "ANCHOR_SOURCE_COMMIT_MISMATCH");
    ("record_count", VInt (f_count f), "ANCHOR_RECORD_COUNT_MISMATCH");
    ("byte_length", VInt (f_length f), "ANCHOR_BYTE_LENGTH_MISMATCH");
    ("final_chain_hash", VStr (f_tail f), "ANCHOR_TAIL_HASH_MISMATCH");
    ("closure_sequence", fld "closure_sequence" closure, "ANCHOR_CLOSURE_SEQUENCE_MISMATCH");
    ("closure_state", fld "closure_state" closure, "ANCHOR_CLOSURE_STATE_MISMATCH") ].
Fixpoint compare (anchor : dict) (l : list (string * val * string)) : option string :=
  match l with
  | [] => None
  | (k, expected, status) :: l' => if negb (py_eqb (fld k anchor) expected) then Some status else compare anchor l'
  end.
(** [set(anchor)] of what [json.load] returned: [Some] of its fields when it is
    an object; another iterable only compares unequal, its extra elements being
    sorted for the message, or is then indexed by a string. *)
Fixpoint distinct (l : list val) : list val :=
  match l with [] => [] | x :: l' => if existsb (py_eqb x) l' then distinct l' else x :: distinct l' end.
Definition sortable (l : list val) : bool :=
  forallb is_strv l || forallb (fun v => is_some (as_num v)) l || Nat.leb (length l) 1.
Definition anchor_object (v : val) : res (option dict) :=
  elems <- v_set v;;
  match v with
  | VDict d => Ok (Some d)
  | _ =>
      let extra := distinct (List.filter (fun x => negb (existsb (py_eqb x) (map VStr mandatory))) elems) in
      if bool_decide (extra = []) && forallb (fun k => existsb (py_eqb (VStr k)) elems) mandatory
      then Raise (TypeError "list indices must be integers or slices, not str")
      else if sortable extra then Ok None else Raise (TypeError "'<' not supported")
  end.
(** The anchor against the key, the operator's selections and the log. *)
Definition verify_anchor (f : string) (run_id commit key_id key : string) (history : result) (anchor : dict)
    : res (option string) :=
  if negb (same_set (dkeys anchor) mandatory) then Ok (Some "ANCHOR_SCHEMA_INVALID") else
  if negb (py_eqb (fld "schema" anchor) (VStr ANCHOR_SCHEMA) && py_eqb (fld "authority_role" anchor) (VStr AUTHORITY_ROLE)
           && py_eqb (fld "mac_algorithm" anchor) (VStr MAC_ALGORITHM)) then Ok (Some "ANCHOR_SCHEMA_INVALID") else
  same_tag <- compare_digest (py_str (fld "authentication_tag" anchor)) (hmac_sha256 key (canonical_payload anchor));;
  if negb same_tag then Ok (Some "ANCHOR_AUTHENTICATION_FAILED") else
  if negb (py_eqb (fld "authority_key_id" anchor) (VStr key_id)) then Ok (Some "ANCHOR_AUTHORITY_KEY_ID_MISMATCH") else
  fs <- audit_facts f;;
  Ok (compare anchor (comparisons run_id commit fs (default [] (rs_closure history)))).

(** The files as they are read: [None] when opening raises. *)
Record inputs := Inputs {
  in_audit : option string; in_run_id : string; in_anchor_path : string; in_anchor : option string;
  in_key_path : string; in_key : option string; in_commit : string; in_key_id : string; in_fixture : bool }.
Definition verify (i : inputs) : res result :=
  match load_and_verify (in_audit i) with
  | None => Ok (only "AUDIT_UNREADABLE_OR_CORRUPT")
  | Some rs =>
      history <- validate_history rs (in_run_id i);;
      if negb (String.eqb (rs_status history) "LOCAL_HISTORY_VALID") then Ok history else
      if negb (is_commit (in_commit i)) then Ok (only "EXPECTED_SOURCE_COMMIT_REQUIRED") else
      if String.eqb (in_key_id i) "" then Ok (only "EXPECTED_AUTHORITY_KEY_ID_REQUIRED") else
      if String.eqb (in_anchor_path i) "" then Ok (only "ANCHOR_REQUIRED") else
      if String.eqb (in_key_path i) "" then Ok (only "TRUSTED_ANCHOR_KEY_REQUIRED") else
      match in_anchor i ≫= loads with
      | None => Ok (only "ANCHOR_UNREADABLE")
      | Some v =>
          match in_key i with
          | None => Ok (only "TRUSTED_ANCHOR_KEY_UNAVAILABLE")
          | Some key =>
              if Nat.ltb (String.length key) 32 then Ok (only "TRUSTED_ANCHOR_KEY_INVALID") else
              anchor <- anchor_object v;;
              e <- match anchor with
                   | None => Ok (Some "ANCHOR_SCHEMA_INVALID")
                   | Some d => verify_anchor (default "" (in_audit i)) (in_run_id i) (in_commit i) (in_key_id i) key
                                 history d
                   end;;
              Ok match e with
                 | Some status => only status
                 | None =>
                     Result (if in_fixture i then "LOCAL_FIXTURE_PASS_NON_CERTIFYING" else "PROVEN") []
                       (rs_counts history)
                       (if in_fixture i then "TEST_KEY_MECHANICS_ONLY_NOT_CERTIFYING"
                        else "E10_ANCHORED_LOCAL_VERIFICATION_PASS") None None
                 end
          end
      end
  end.
(** The exit code of [main]. *)
Definition exit_code (r : result) : Z :=
  if String.eqb (rs_status r) "LOCAL_FIXTURE_PASS_NON_CERTIFYING" then 3
  else if String.eqb (rs_status r) "PROVEN" then 0 else 1.

End Verify.
