(* ===== verification/VerifyE10Facts.v ===== *)
(** * What an accepted history says

    The state of the validation against the records already read: which
    records each attempt holds, and in which order they came. *)

From S2P Require Import Prelude PyStr Json JsonFacts PyDyn Hash AuditLog Lifecycle E10Anchor.
From S2P Require Import VerifyE10.
Open Scope Z_scope.

(** ** The records of an attempt *)

Definition aid_of (r : dict) : string := py_str (dget_or "attempt_id" (VStr "") r).
(** The records of the given decisions of attempt [aid], in order. *)
Definition recs (ds : list string) (aid : string) (rs : list dict) : list dict :=
  List.filter (fun r => mem_str (decision_of r) ds && String.eqb (aid_of r) aid) rs.
Definition olist {A} (o : option A) : list A := match o with Some x => [x] | None => [] end.

Lemma recs_app ds aid l1 l2 : recs ds aid (l1 ++ l2) = (recs ds aid l1 ++ recs ds aid l2)%list.
Proof. apply List.filter_app. Qed.
Lemma recs_hit ds aid l r : decision_of r ∈ ds -> aid_of r = aid ->
  recs ds aid (l ++ [r]) = (recs ds aid l ++ [r])%list.
Proof.
  intros Hd <-. rewrite recs_app. unfold recs at 2. cbn. rewrite String.eqb_refl.
  by apply mem_str_spec in Hd as ->.
Qed.
Lemma recs_miss ds aid l r : decision_of r ∉ ds \/ aid_of r <> aid -> recs ds aid (l ++ [r]) = recs ds aid l.
Proof.
  intros Hm. rewrite recs_app. unfold recs at 2. cbn.
  destruct (mem_str (decision_of r) ds) eqn:E; cbn; [|apply app_nil_r].
  destruct (String.eqb_spec (aid_of r) aid); cbn; [|apply app_nil_r].
  apply mem_str_spec in E. by destruct Hm.
Qed.

(** ** The invariant of one attempt *)

(** The stages of an attempt. *)
Definition stage_ok (a : attempt) : Prop :=
  match at_terminal a with
  | None =>
      at_allow a = None /\ at_release a = None /\
      ((at_state a = "AUTHORIZED" /\ at_permit a = None /\ at_attempted a = None) \/
       (at_state a = "PERMITTED" /\ is_Some (at_permit a) /\ at_attempted a = None) \/
       (at_state a = "ATTEMPTED" /\ is_Some (at_permit a) /\ is_Some (at_attempted a)))
  | Some t =>
      at_state a = decision_of t /\ decision_of t ∈ TERMINAL /\
      (is_Some (at_attempted a) -> is_Some (at_permit a)) /\
      (decision_of t ∈ [COMPLETED; UNKNOWN] -> is_Some (at_attempted a)) /\
      (is_Some (at_allow a) -> decision_of t = COMPLETED) /\
      (is_Some (at_release a) -> is_Some (at_permit a) /\ (decision_of t = COMPLETED -> is_Some (at_allow a)))
  end.
(** The fields in which its records agree. *)
Record bound (a : attempt) : Prop := {
  bd_permit : forall p, at_permit a = Some p ->
    same "conn_id" p (at_auth a) = true /\ same "epoch" p (at_auth a) = true /\
    same "policy_generation" p (at_auth a) = true /\ same "budget_binding" p (at_auth a) = true /\
    int_of "lifecycle_seq" (at_auth a) < int_of "lifecycle_seq" p;
  bd_attempted : forall t p, at_attempted a = Some t -> at_permit a = Some p ->
    py_eqb (fld "permit_seq" t) (fld "lifecycle_seq" p) = true /\
    same "pin_ip" t (at_auth a) = true /\ same "pin_port" t (at_auth a) = true;
  bd_terminal : forall t, at_terminal a = Some t ->
    same "conn_id" t (at_auth a) = true /\ same "epoch" t (at_auth a) = true;
  bd_allow : forall w t, at_allow a = Some w -> at_terminal a = Some t -> allow_valid w a t = true;
  bd_release : forall l p, at_release a = Some l -> at_permit a = Some p ->
    py_eqb (fld "permit_seq" l) (fld "lifecycle_seq" p) = true /\
    int_of "lifecycle_seq" p < int_of "lifecycle_seq" l }.
Definition story_of (a : attempt) : list dict :=
  (at_auth a :: olist (at_permit a) ++ olist (at_attempted a) ++ olist (at_terminal a) ++ olist (at_allow a) ++
   olist (at_release a))%list.
(** What [done] holds of attempt [aid]. *)
Definition tracked (done : list dict) (aid : string) (o : option attempt) : Prop :=
  match o with
  | None => recs [AUTH; PERMIT; ATTEMPTED; COMPLETED; FAILED; UNKNOWN; CANCELLED; "ALLOW"; PERMIT_RELEASED] aid done = []
  | Some a =>
      recs [AUTH] aid done = [at_auth a] /\ recs [PERMIT] aid done = olist (at_permit a) /\
      recs [ATTEMPTED] aid done = olist (at_attempted a) /\ recs TERMINAL aid done = olist (at_terminal a) /\
      recs ["ALLOW"] aid done = olist (at_allow a) /\ recs [PERMIT_RELEASED] aid done = olist (at_release a) /\
      stage_ok a /\ bound a /\ sublist (story_of a) done
  end.

Lemma find_put_eq aid a l : find_attempt aid (put_attempt aid a l) = Some a.
Proof.
  induction l as [|[k x] l IH]; cbn; [by rewrite String.eqb_refl|].
  destruct (String.eqb_spec aid k) as [->|Hne]; cbn; [by rewrite String.eqb_refl|].
  by destruct (String.eqb_spec aid k).
Qed.
Lemma find_put_ne aid b a l : aid <> b -> find_attempt b (put_attempt aid a l) = find_attempt b l.
Proof.
  intros Hne. induction l as [|[k x] l IH]; cbn.
  - by destruct (String.eqb_spec b aid).
  - destruct (String.eqb_spec aid k) as [->|Hk]; cbn; destruct (String.eqb_spec b k); congruence.
Qed.

(** A record that is none of the attempt's leaves it as it is. *)
Definition lifecycle_decisions : list string :=
  [AUTH; PERMIT; ATTEMPTED; COMPLETED; FAILED; UNKNOWN; CANCELLED; "ALLOW"; PERMIT_RELEASED].
Lemma tracked_other done aid o r :
  decision_of r ∉ lifecycle_decisions \/ aid_of r <> aid -> tracked done aid o -> tracked (done ++ [r]) aid o.
Proof.
  intros Hm. assert (forall ds, (forall d, d ∈ ds -> d ∈ lifecycle_decisions) ->
    recs ds aid (done ++ [r]) = recs ds aid done) as Hr.
  { intros ds Hds. apply recs_miss. destruct Hm as [Hm|Hm]; [left|by right]. intros Hd. by apply Hm, Hds. }
  destruct o as [a|]; cbn.
  - intros (H1 & H2 & H3 & H4 & H5 & H6 & H7 & H8 & H9).
    rewrite !Hr; [split_and!; try done; by apply sublist_inserts_r|..];
      intros d Hd; repeat (apply elem_of_cons in Hd as [->|Hd]; [is_in|]); by apply not_elem_of_nil in Hd.
  - intros Hn. by rewrite Hr.
Qed.
Lemma recs_nil_sub ds ds' aid l : (forall d, d ∈ ds -> d ∈ ds') -> recs ds' aid l = [] -> recs ds aid l = [].
Proof.
  intros Hs. induction l as [|r l IH]; cbn; [done|].
  destruct (mem_str (decision_of r) ds') eqn:E; cbn.
  - destruct (String.eqb (aid_of r) aid) eqn:E2; cbn; [done|]. rewrite andb_false_r. auto.
  - intros Hn. destruct (mem_str (decision_of r) ds) eqn:E2; cbn; [|auto].
    apply mem_str_spec, Hs, mem_str_spec in E2. congruence.
Qed.

(** ** The branches *)

(** Every [when] of a branch that went on was false. *)
Ltac whens Hs :=
  repeat match type of Hs with
  | (if ?b then _ else _) = _ => let E := fresh "W" in destruct b eqn:E; [discriminate Hs|]
  | match ?o with Some _ => _ | None => _ end = _ => let E := fresh "O" in destruct o eqn:E; try discriminate Hs
  end.
(** The lists of records after one more. *)
Ltac recs_tac Hd :=
  repeat first
    [ rewrite recs_hit by (first [rewrite Hd; is_in | done])
    | rewrite recs_miss by (left; rewrite Hd; not_in) ].

Definition inv (done : list dict) (h : history) : Prop := forall aid, tracked done aid (attempt_of aid h).

Lemma inv_set done r aid a h :
  inv done h -> aid_of r = aid -> tracked (done ++ [r]) aid (Some a) -> inv (done ++ [r]) (set_attempt aid a h).
Proof.
  intros Hi Ha Ht b. unfold attempt_of, set_attempt. cbn. destruct (decide (aid = b)) as [<-|Hne].
  - by rewrite find_put_eq.
  - rewrite find_put_ne by done. apply tracked_other; [right; congruence|apply Hi].
Qed.
Lemma inv_other done r h h' : inv done h -> h_attempts h' = h_attempts h ->
  decision_of r ∉ lifecycle_decisions -> inv (done ++ [r]) h'.
Proof. intros Hi Hh Hd b. unfold attempt_of. rewrite Hh. apply tracked_other; [by left|apply Hi]. Qed.
Lemma attempt_own aid seq h : attempt_of aid (own seq h) = attempt_of aid h.
Proof. done. Qed.
Lemma inv_own done seq h : inv done h -> inv done (own seq h).
Proof. done. Qed.

Lemma on_auth_inv done r h h' : decision_of r = AUTH -> inv done h ->
  on_auth (aid_of r) r h = Ok (inr h') -> inv (done ++ [r]) h'.
Proof.
  intros Hd Hi Hs. unfold on_auth in Hs. cbv zeta in Hs. whens Hs. injection Hs as <-.
  apply inv_set; [by apply inv_own|done|]. pose proof (Hi (aid_of r)) as Ht.
  destruct (attempt_of (aid_of r) h) as [?|]; [done|]. cbn [tracked at_auth at_permit at_attempted at_terminal
    at_allow at_release olist] in *.
  assert (forall ds, (forall d, d ∈ ds -> d ∈ lifecycle_decisions) -> recs ds (aid_of r) done = []) as Hn
    by (intros ds Hds; by apply (recs_nil_sub ds _ _ _ Hds)).
  recs_tac Hd. rewrite !Hn;
    [|intros d Hx; repeat (apply elem_of_cons in Hx as [->|Hx]; [is_in|]); by apply not_elem_of_nil in Hx..].
  split_and!; try done.
  - cbn. split_and!; try done. by left.
  - apply sublist_inserts_l. reflexivity.
Qed.

(** A new record of the attempt that goes last in its story. *)
Lemma story_snoc done r a a' : sublist (story_of a) done -> story_of a' = (story_of a ++ [r])%list ->
  sublist (story_of a') (done ++ [r])%list.
Proof. intros Hs ->. by apply sublist_app. Qed.
Ltac tracked_tac Hd :=
  cbn [tracked at_auth at_permit at_attempted at_terminal at_allow at_release]; recs_tac Hd;
  repeat match goal with H : recs _ _ _ = _ |- _ => rewrite H; clear H end.

Lemma stage_live a : stage_ok a -> at_state a ∉ TERMINAL -> at_terminal a = None /\ at_allow a = None /\ at_release a = None /\
  ((at_state a = "AUTHORIZED" /\ at_permit a = None /\ at_attempted a = None) \/
   (at_state a = "PERMITTED" /\ is_Some (at_permit a) /\ at_attempted a = None) \/
   (at_state a = "ATTEMPTED" /\ is_Some (at_permit a) /\ is_Some (at_attempted a))).
Proof.
  unfold stage_ok. destruct (at_terminal a) as [t|]; [|by intros (? & ? & ?)].
  intros (-> & Ht & _) Hn. done.
Qed.
(** The parts of a live attempt, its options resolved. *)
Ltac live a Hst := 
  destruct (stage_live a Hst) as (Et & Eal & Ere & Hlive);
  [match goal with H : at_state a = _ |- _ => rewrite H; not_in end|];
  destruct Hlive as [(Est & Ep & Ea)|[(Est & [pm Ep] & Ea)|(Est & [pm Ep] & [tt' Ea])]];
  try (match goal with H : at_state a = _ |- _ => congruence end).
Ltac finish_branch a Hsub :=
  first [done | apply (story_snoc _ _ a); [exact Hsub|]; unfold story_of; cbn;
                repeat match goal with E : at_permit a = _ |- _ => rewrite E; clear E
                | E : at_attempted a = _ |- _ => rewrite E; clear E | E : at_terminal a = _ |- _ => rewrite E; clear E
                | E : at_allow a = _ |- _ => rewrite E; clear E | E : at_release a = _ |- _ => rewrite E; clear E end;
                done].

Lemma on_permit_inv done r h h' : decision_of r = PERMIT -> inv done h ->
  on_permit (aid_of r) r h = Ok (inr h') -> inv (done ++ [r]) h'.
Proof.
  intros Hd Hi Hs. unfold on_permit in Hs. cbv zeta in Hs. whens Hs. injection Hs as <-.
  pose proof (Hi (aid_of r)) as Ht. rewrite O in Ht. destruct Ht as (H1 & H2 & H3 & H4 & H5 & H6 & Hst & Hb & Hsub).
  bools. apply inv_set; [by apply inv_own|done|]. live a Hst.
  tracked_tac Hd. rewrite Ep, Ea, Et, Eal, Ere. split_and!; [done..| | |finish_branch a Hsub].
  - unfold stage_ok. cbn. rewrite ?Et. split_and!; try done. right. left. split_and!; try done; by eexists.
  - cbn in W1. bools. split; cbn; rewrite ?Ea, ?Et, ?Eal, ?Ere; try done. intros p [= <-]. by split_and!.
Qed.
Lemma on_attempted_inv done r h h' : decision_of r = ATTEMPTED -> inv done h ->
  on_attempted (aid_of r) r h = Ok (inr h') -> inv (done ++ [r]) h'.
Proof.
  intros Hd Hi Hs. unfold on_attempted in Hs. cbv zeta in Hs. whens Hs. injection Hs as <-.
  pose proof (Hi (aid_of r)) as Ht. rewrite O in Ht. destruct Ht as (H1 & H2 & H3 & H4 & H5 & H6 & Hst & Hb & Hsub).
  bools. apply inv_set; [done|done|]. live a Hst.
  tracked_tac Hd. rewrite Ep, Ea, Et, Eal, Ere. split_and!; [done..| | |finish_branch a Hsub].
  - unfold stage_ok. cbn. rewrite ?Et, ?Ep. split_and!; try done. right. right. split_and!; try done; by eexists.
  - rewrite Ep in *. cbn in *. destruct Hb as [B1 B2 B3 B4 B5].
    split; cbn; rewrite ?Et, ?Eal, ?Ere, ?Ep; try done; [by rewrite Ep in B1|].
    intros t p [= <-] [= <-]. by split_and!.
Qed.
Lemma legal_cases prior d : legal_terminal prior d = true ->
  (prior ∈ ["AUTHORIZED"; "PERMITTED"] /\ d ∈ [FAILED; CANCELLED]) \/ (prior = "ATTEMPTED" /\ d ∈ TERMINAL).
Proof.
  unfold legal_terminal. intros [Hl|Hl]%orb_true_iff; bools; [left|right]; split; by try apply mem_str_spec.
Qed.
Ltac elems H := repeat (apply elem_of_cons in H as [H|H]; [|]); try (by apply not_elem_of_nil in H).
Lemma on_terminal_inv done r h h' : decision_of r ∈ TERMINAL -> inv done h ->
  on_terminal (decision_of r) (aid_of r) r h = Ok (inr h') -> inv (done ++ [r]) h'.
Proof.
  intros Hd Hi Hs. unfold on_terminal in Hs. whens Hs. injection Hs as <-.
  pose proof (Hi (aid_of r)) as Ht. rewrite O in Ht. destruct Ht as (H1 & H2 & H3 & H4 & H5 & H6 & Hst & Hb & Hsub).
  bools. match goal with H : legal_terminal _ _ = true |- _ => apply legal_cases in H; rename H into Hl end.
  apply inv_set; [done|done|].
  assert (at_state a ∉ TERMINAL) as Hnt.
  { intros Hx. destruct Hl as [[Hl _]|[Hl _]]; [|rewrite Hl in Hx; revert Hx; not_in].
    elems Hl; rewrite Hl in Hx; revert Hx; not_in. }
  destruct (stage_live a Hst Hnt) as (Et & Eal & Ere & Hlive).
  assert (bound (Attempt (decision_of r) (at_auth a) (at_permit a) (at_attempted a) (Some r) (at_allow a)
                   (at_release a) (at_late a) (at_terminated a))) as Hb'.
  { destruct Hb as [B1 B2 B3 B4 B5]. split; cbn; try done; [|by rewrite Eal]. intros t [= <-]. by split. }
  assert (forall d, decision_of r = d -> d ∈ TERMINAL ->
    (d ∈ [COMPLETED; UNKNOWN] -> is_Some (at_attempted a)) -> (is_Some (at_attempted a) -> is_Some (at_permit a)) ->
    tracked (done ++ [r]) (aid_of r) (Some (Attempt (decision_of r) (at_auth a) (at_permit a) (at_attempted a) (Some r)
      (at_allow a) (at_release a) (at_late a) (at_terminated a)))) as Hgen.
  { intros d Hdd Hdt Hc Hp. rewrite Eal, Ere in *.
    assert (stage_ok (Attempt (decision_of r) (at_auth a) (at_permit a) (at_attempted a) (Some r)
      None None (at_late a) (at_terminated a))) as Hst'.
    { unfold stage_ok. cbn. rewrite Hdd. split_and!; try done; intros [? ?]; done. }
    assert (sublist (story_of (Attempt (decision_of r) (at_auth a) (at_permit a) (at_attempted a) (Some r)
      None None (at_late a) (at_terminated a))) (done ++ [r])%list) as Hsub'.
    { apply (story_snoc _ _ a); [exact Hsub|]. unfold story_of. cbn. rewrite Et, Eal, Ere. cbn.
      by rewrite <- !app_assoc. }
    elems Hdt; rewrite Hdt in Hdd; tracked_tac Hdd; rewrite ?Et, ?Eal, ?Ere; by split_and!. }
  apply (Hgen (decision_of r) eq_refl Hd).
  - intros Hc. destruct Hl as [[_ Hl]|[Hl _]].
    + elems Hl; rewrite Hl in Hc; exfalso; revert Hc; not_in.
    + destruct Hlive as [(E & _)|[(E & _)|(_ & _ & ?)]]; [congruence..|done].
  - intros [x Hx]. destruct Hlive as [(_ & _ & E)|[(_ & ? & _)|(_ & ? & _)]]; [congruence|done|done].
Qed.

(** A settled attempt. *)
Lemma stage_settled a t : stage_ok a -> at_terminal a = Some t ->
  at_state a = decision_of t /\ decision_of t ∈ TERMINAL /\
  (is_Some (at_attempted a) -> is_Some (at_permit a)) /\
  (decision_of t ∈ [COMPLETED; UNKNOWN] -> is_Some (at_attempted a)) /\
  (is_Some (at_allow a) -> decision_of t = COMPLETED) /\
  (is_Some (at_release a) -> is_Some (at_permit a) /\ (decision_of t = COMPLETED -> is_Some (at_allow a))).
Proof. unfold stage_ok. intros Hs Ht. by rewrite Ht in Hs. Qed.
Lemma is_some_false {A} (o : option A) : is_some o = false -> o = None.
Proof. by destruct o. Qed.
Lemma completed_true a : completed a = true -> exists t, at_terminal a = Some t /\ decision_of t = COMPLETED.
Proof. unfold completed. destruct (at_terminal a) as [t|]; [|done]. intros ?%String.eqb_eq. by exists t. Qed.
Lemma on_allow_inv done r h h' : decision_of r = "ALLOW" -> inv done h ->
  on_allow (aid_of r) r h = Ok (inr h') -> inv (done ++ [r]) h'.
Proof.
  intros Hd Hi Hs. unfold on_allow in Hs. whens Hs. injection Hs as <-.
  pose proof (Hi (aid_of r)) as Ht. rewrite O in Ht. destruct Ht as (H1 & H2 & H3 & H4 & H5 & H6 & Hst & Hb & Hsub).
  bools. apply inv_set; [done|done|].
  match goal with H : completed a = true |- _ => apply completed_true in H as (t & Et & Ect) end.
  match goal with H : is_some (at_allow a) = false |- _ => apply is_some_false in H; rename H into Eal end.
  destruct (stage_settled a t Hst Et) as (S1 & S2 & S3 & S4 & S5 & S6).
  assert (at_release a = None) as Ere.
  { destruct (at_release a) as [l|] eqn:E; [|done]. destruct S6 as [_ S6]; [by eexists|].
    destruct (S6 Ect) as [x Hx]. congruence. }
  tracked_tac Hd. rewrite Et, Eal, Ere. split_and!; [done..| | |].
  - unfold stage_ok. cbn. rewrite ?Et. by split_and!.
  - rewrite Et in *. cbn [default] in *. destruct Hb as [B1 B2 B3 B4 B5]. split; cbn; try done.
    + intros t' [= <-]. apply B3. done.
    + intros w t' [= <-] [= <-]. done.
  - apply (story_snoc _ _ a); [exact Hsub|]. unfold story_of. cbn. rewrite Et, Eal, Ere. cbn.
    by rewrite <- !app_assoc.
Qed.
Lemma on_release_inv done r h h' : decision_of r = PERMIT_RELEASED -> inv done h ->
  on_release (aid_of r) r h = Ok (inr h') -> inv (done ++ [r]) h'.
Proof.
  intros Hd Hi Hs. unfold on_release in Hs. cbv zeta in Hs. whens Hs. injection Hs as <-.
  pose proof (Hi (aid_of r)) as Ht. rewrite O in Ht. destruct Ht as (H1 & H2 & H3 & H4 & H5 & H6 & Hst & Hb & Hsub).
  bools. apply inv_set; [by apply inv_own|done|].
  assert (exists t, at_terminal a = Some t) as [t Et] by (destruct (at_terminal a); [by eexists|done]).
  match goal with H : is_some (at_release a) = false |- _ => apply is_some_false in H; rename H into Ere end.
  destruct (stage_settled a t Hst Et) as (S1 & S2 & S3 & S4 & S5 & S6).
  tracked_tac Hd. rewrite ?Et, ?Ere, ?O0. split_and!; [done..| | |].
  - unfold stage_ok. cbn. rewrite ?Et. split_and!; try done. intros _. split; [done|]. intros Hc.
    destruct (at_allow a) eqn:Eal; [by eexists|].
    match goal with H : completed a && _ = false |- _ => unfold completed in H; rewrite Et, Hc in H; done end.
  - destruct Hb as [B1 B2 B3 B4 B5]. rewrite ?Et, ?O0 in *. split; cbn; try done.
    intros l' p [= <-] [= <-]. by split.
  - apply (story_snoc _ _ a); [exact Hsub|]. unfold story_of. cbn. rewrite ?Et, ?O0, Ere. cbn.
    by rewrite <- !app_assoc, app_nil_r.
Qed.
Lemma on_terminated_inv done r h h' : decision_of r = "CONNECTION_TERMINATED" -> inv done h ->
  on_terminated (aid_of r) r h = Ok (inr h') -> inv (done ++ [r]) h'.
Proof.
  intros Hd Hi Hs. unfold on_terminated in Hs. cbv zeta in Hs. whens Hs. injection Hs as <-.
  apply inv_set; [done|done|]. assert (decision_of r ∉ lifecycle_decisions) as Hm by (rewrite Hd; not_in).
  pose proof (tracked_other done (aid_of r) (Some a) r (or_introl Hm)) as Ht.
  specialize (Hi (aid_of r)). rewrite O in Hi. destruct (Ht Hi) as (H1 & H2 & H3 & H4 & H5 & H6 & Hst & [] & Hsub).
  split_and!; try done.
Qed.

(** ** The run *)

Definition sequenced : list string := [AUTH; PERMIT; PERMIT_RELEASED; CANCEL_LINEARIZED].
(** The lifecycle numbers the records claim. *)
Definition seqs (rs : list dict) : list Z :=
  map (int_of "lifecycle_seq") (List.filter (fun r => mem_str (decision_of r) sequenced) rs).
Lemma seqs_snoc rs r :
  seqs (rs ++ [r]) = (seqs rs ++ if mem_str (decision_of r) sequenced then [int_of "lifecycle_seq" r] else [])%list.
Proof. unfold seqs. rewrite List.filter_app, map_app. cbn [List.filter]. by destruct (mem_str (decision_of r) sequenced). Qed.
Record phase (done : list dict) (h : history) : Prop := {
  ph_seqs : h_sequences h = rev (seqs done);
  ph_nodup : NoDup (seqs done);
  ph_running : h_state h = RUNNING -> forall r, r ∈ done -> decision_of r <> CANCEL_REQUESTED;
  ph_calm : forall before r after, done = (before ++ r :: after)%list -> decision_of r = ATTEMPTED ->
    forall q, q ∈ before -> decision_of q <> CANCEL_REQUESTED;
  ph_closed : h_state h = CLOSED -> exists init r, done = (init ++ [r])%list /\ decision_of r = RUN_CLOSED /\
    h_closure h = Some r;
  ph_failed : h_state h = START_FAILED -> h_attempts h = [];
  ph_idle : h_active h = false -> h_attempts h = [] }.

(** What a branch does to the run. *)
Record moves (r : dict) (h h' : history) : Prop := {
  mv_seqs : if mem_str (decision_of r) sequenced
            then h_sequences h' = int_of "lifecycle_seq" r :: h_sequences h /\ owned (int_of "lifecycle_seq" r) h = false
            else h_sequences h' = h_sequences h;
  mv_running : h_state h' = RUNNING -> h_state h = RUNNING /\ decision_of r <> CANCEL_REQUESTED;
  mv_attempted : decision_of r = ATTEMPTED -> h_state h = RUNNING;
  mv_closed : h_state h' = CLOSED -> decision_of r = RUN_CLOSED /\ h_closure h' = Some r;
  mv_failed : h_state h' = START_FAILED -> h_attempts h' = [];
  mv_idle : h_active h' = false -> h_attempts h' = [] }.
Lemma phase_moves done r h h' : phase done h -> moves r h h' -> phase (done ++ [r]) h'.
Proof.
  intros [P1 P2 P3 P4 P5 P6 P7] [M1 M2 M3 M4 M5 M6]. split; try done.
  - rewrite seqs_snoc, rev_app_distr. destruct (mem_str (decision_of r) sequenced); cbn [rev app].
    + destruct M1 as [-> _]. by rewrite P1.
    + by rewrite M1.
  - rewrite seqs_snoc. destruct (mem_str (decision_of r) sequenced); [|by rewrite app_nil_r]. destruct M1 as [_ Ho].
    apply NoDup_app. split_and!; [done| |apply NoDup_singleton].
    intros x Hx Hy%list_elem_of_singleton. subst x. unfold owned in Ho. rewrite P1 in Ho.
    assert (existsb (Z.eqb (int_of "lifecycle_seq" r)) (rev (seqs done)) = true) as E; [|congruence].
    apply existsb_elem_of. exists (int_of "lifecycle_seq" r). split; [|apply Z.eqb_refl].
    apply list_elem_of_In. rewrite <- in_rev. by apply list_elem_of_In.
  - intros Hr q [Hq|Hq%list_elem_of_singleton]%elem_of_app; destruct (M2 Hr) as [Hs Hn]; [by apply P3|by subst].
  - intros before x after E Hx q Hq. destruct (decide (after = [])) as [->|Hne].
    + apply app_inj_tail in E as [-> ->]. by apply P3; [apply M3|].
    + destruct (exists_last Hne) as (after' & y & ->).
      rewrite app_comm_cons, app_assoc in E. apply app_inj_tail in E as [E _]. by eapply P4.
  - intros Hc. destruct (M4 Hc). by exists done, r.
Qed.

Lemma put_ne_nil aid a l : put_attempt aid a l <> [].
Proof. destruct l as [|[k x] l]; cbn; [done|]. by destruct (String.eqb aid k). Qed.
Definition busy (s : run_state) : Prop := s = RUNNING \/ s = REQUESTED \/ s = LINEARIZED.
Lemma draining_busy h : draining h = true -> busy (h_state h).
Proof. unfold draining, busy. destruct (h_state h); auto; discriminate. Qed.

(** [moves] of a branch: its equations decide every field. *)
Ltac moves_tac Hd :=
  split; rewrite ?Hd; cbn; auto; try done; try (by split);
  try (intros Hx; exfalso; first [discriminate Hx | congruence]).
Ltac by_busy W := apply draining_busy in W as [W|[W|W]]; rewrite ?W in *.
Lemma on_auth_moves r h h' : decision_of r = AUTH -> h_active h = true -> on_auth (aid_of r) r h = Ok (inr h') -> moves r h h'.
Proof.
  intros Hd Ha Hs. unfold on_auth in Hs. cbv zeta in Hs. whens Hs. injection Hs as <-. bools.
  by_busy W; moves_tac Hd.
Qed.
Lemma on_permit_moves r h h' : decision_of r = PERMIT -> h_active h = true ->
  on_permit (aid_of r) r h = Ok (inr h') -> moves r h h'.
Proof.
  intros Hd Ha Hs. unfold on_permit in Hs. cbv zeta in Hs. whens Hs. injection Hs as <-. bools.
  by_busy W; moves_tac Hd.
Qed.
Lemma on_attempted_moves r h h' : decision_of r = ATTEMPTED -> h_active h = true ->
  on_attempted (aid_of r) r h = Ok (inr h') -> moves r h h'.
Proof.
  intros Hd Ha Hs. unfold on_attempted in Hs. cbv zeta in Hs. whens Hs. injection Hs as <-. bools.
  moves_tac Hd.
Qed.
Lemma on_terminal_moves r h h' : decision_of r ∈ TERMINAL -> h_active h = true ->
  on_terminal (decision_of r) (aid_of r) r h = Ok (inr h') -> moves r h h'.
Proof.
  intros Hd Ha Hs. unfold on_terminal in Hs. whens Hs. injection Hs as <-. bools.
  elems Hd; by_busy W; moves_tac Hd.
Qed.
Lemma on_allow_moves r h h' : decision_of r = "ALLOW" -> h_active h = true ->
  on_allow (aid_of r) r h = Ok (inr h') -> moves r h h'.
Proof.
  intros Hd Ha Hs. unfold on_allow in Hs. whens Hs. injection Hs as <-. bools. by_busy W; moves_tac Hd.
Qed.
Lemma on_release_moves r h h' : decision_of r = PERMIT_RELEASED -> h_active h = true ->
  on_release (aid_of r) r h = Ok (inr h') -> moves r h h'.
Proof.
  intros Hd Ha Hs. unfold on_release in Hs. cbv zeta in Hs. whens Hs. injection Hs as <-. bools. by_busy W; moves_tac Hd.
Qed.
Lemma on_terminated_moves r h h' : decision_of r = "CONNECTION_TERMINATED" -> h_active h = true ->
  on_terminated (aid_of r) r h = Ok (inr h') -> moves r h h'.
Proof.
  intros Hd Ha Hs. unfold on_terminated in Hs. cbv zeta in Hs. whens Hs. injection Hs as <-. bools. by_busy W; moves_tac Hd.
Qed.

(** The branches of the run leave the attempts alone. *)
Lemma on_linearized_ok r h h' : decision_of r = CANCEL_LINEARIZED -> h_active h = true ->
  on_linearized r h = Ok (inr h') -> moves r h h' /\ h_attempts h' = h_attempts h.
Proof.
  intros Hd Ha Hs. unfold on_linearized in Hs. cbv zeta in Hs. whens Hs. injection Hs as <-. bools.
  split; [|done]. moves_tac Hd.
Qed.
Lemma on_kill_ok r h h' : decision_of r = "KILL_SWITCH" -> h_active h = true ->
  on_kill r h = Ok (inr h') -> moves r h h' /\ h_attempts h' = h_attempts h.
Proof.
  intros Hd Ha Hs. unfold on_kill in Hs. cbv zeta in Hs. whens Hs. injection Hs as <-. bools.
  split; [|done]. match goal with E : h_state h = _ |- _ => rename E into Es end. moves_tac Hd; rewrite Es; done.
Qed.
Lemma on_disposition_ok r h h' : decision_of r ∈ [CANCEL_ACK; CANCEL_DRAIN_TIMEOUT] -> h_active h = true ->
  on_disposition (decision_of r) r h = Ok (inr h') -> moves r h h' /\ h_attempts h' = h_attempts h.
Proof.
  intros Hd Ha Hs. unfold on_disposition in Hs. whens Hs. bools.
  destruct (String.eqb (decision_of r) CANCEL_ACK).
  - whens Hs. injection Hs as <-. split; [|done]. elems Hd; moves_tac Hd.
  - destruct (dindex r "closure_blockers"); [|discriminate]. cbn [rbind] in Hs. whens Hs. injection Hs as <-.
    split; [|done]. elems Hd; moves_tac Hd.
Qed.
Lemma on_closed_ok r h h' : decision_of r = RUN_CLOSED -> h_active h = true ->
  on_closed r h = Ok (inr h') -> moves r h h' /\ h_attempts h' = h_attempts h.
Proof.
  intros Hd Ha Hs. unfold on_closed in Hs. whens Hs. injection Hs as <-. split; [|done]. moves_tac Hd.
Qed.
Lemma on_blocked_ok r h h' : decision_of r = "BLOCKED_BY_POLICY" -> h_active h = true ->
  on_blocked r h = Ok (inr h') -> moves r h h' /\ h_attempts h' = h_attempts h.
Proof.
  intros Hd Ha Hs. unfold on_blocked in Hs.
  destruct (negb (draining h)) eqn:W; [discriminate|].
  match type of Hs with (if ?b then _ else _) = _ => destruct b; [discriminate|] end.
  injection Hs as <-. bools. split; [|done]. by_busy W; moves_tac Hd.
Qed.

(** ** One record *)

Lemma on_startup_ok done r h h' : decision_of r ∈ ["STARTUP"; "STARTUP_DEGRADED"; "STARTUP_FAILED"] -> phase done h ->
  h_state h <> CLOSED ->
  on_startup (decision_of r) r h = Ok (inr h') -> moves r h h' /\ h_attempts h' = h_attempts h.
Proof.
  intros Hd Hp Hn Hs. unfold on_startup in Hs. whens Hs. bools.
  pose proof (ph_idle _ _ Hp) as Hi.
  destruct (String.eqb_spec (decision_of r) "STARTUP_DEGRADED") as [E|_]; [injection Hs as <-|].
  { split; [|done]. moves_tac E. }
  destruct (String.eqb_spec (decision_of r) "STARTUP_FAILED") as [E|_]; [injection Hs as <-|].
  { split; [|done]. moves_tac E. }
  elems Hd; rewrite ?Hd in *; whens Hs; try done; injection Hs as <-; (split; [|done]); moves_tac Hd.
Qed.
Lemma on_active_ok done r h h' : inv done h -> h_active h = true -> h_state h <> CLOSED ->
  on_active (decision_of r) (aid_of r) r h = Ok (inr h') -> moves r h h' /\ inv (done ++ [r]) h'.
Proof.
  intros Hi Ha Hn Hs. unfold on_active in Hs.
  assert (forall h', moves r h h' /\ h_attempts h' = h_attempts h -> decision_of r ∉ lifecycle_decisions ->
    moves r h h' /\ inv (done ++ [r]) h') as Hrun.
  { intros h1 [Hm Hat] Hl. split; [done|]. by eapply inv_other. }
  repeat match type of Hs with
  | (if String.eqb ?d ?x then _ else _) = _ => destruct (String.eqb_spec d x) as [Hd|_]
  | (if mem_str ?d ?l then _ else _) = _ =>
      let E := fresh in destruct (mem_str d l) eqn:E; [apply mem_str_spec in E; rename E into Hd|clear E]
  end; try discriminate Hs; rewrite ?Hd in Hs.
  - split; [by apply on_auth_moves|by eapply on_auth_inv].
  - split; [by apply on_permit_moves|by eapply on_permit_inv].
  - split; [by apply on_attempted_moves|by eapply on_attempted_inv].
  - split; [by apply on_terminal_moves|by eapply on_terminal_inv].
  - split; [by apply on_allow_moves|by eapply on_allow_inv].
  - split; [by apply on_release_moves|by eapply on_release_inv].
  - whens Hs. injection Hs as <-. apply Hrun; [|rewrite Hd; not_in]. split; [|done]. bools. moves_tac Hd.
  - apply Hrun; [by apply on_linearized_ok|rewrite Hd; not_in].
  - apply Hrun; [by apply on_kill_ok|rewrite Hd; not_in].
  - apply Hrun; [by apply on_disposition_ok|elems Hd; rewrite Hd; not_in].
  - apply Hrun; [by apply on_closed_ok|rewrite Hd; not_in].
  - split; [by apply on_terminated_moves|by eapply on_terminated_inv].
  - apply Hrun; [by apply on_blocked_ok|rewrite Hd; not_in].
Qed.
Lemma moves_active r h h' : moves r (set_active h) h' -> moves r h h'.
Proof. by intros [? ? ? ? ? ?]. Qed.
Lemma step_ok done r h h' : inv done h -> phase done h -> step r h = Ok (inr h') ->
  inv (done ++ [r]) h' /\ phase (done ++ [r]) h'.
Proof.
  intros Hi Hp Hs. unfold step in Hs. cbv zeta in Hs. fold (aid_of r) in Hs.
  destruct (bool_decide (h_state h = CLOSED)) eqn:Ec; [discriminate|]. bools.
  destruct (after_disposition (decision_of r) h); [discriminate|].
  destruct (mem_str (decision_of r) _) eqn:Em.
  - apply mem_str_spec in Em. destruct (on_startup_ok done r h h' Em Hp Ec Hs) as [Hm Hat].
    split; [eapply inv_other; [done..|]|by eapply phase_moves]. elems Em; rewrite Em; not_in.
  - destruct (on_active_ok done r (set_active h) h' Hi eq_refl Ec Hs) as [Hm Hi'].
    split; [done|]. eapply phase_moves; [done|]. by apply moves_active.
Qed.
Lemma steps_ok rs : forall done h h', inv done h -> phase done h -> steps rs h = Ok (inr h') ->
  inv (done ++ rs) h' /\ phase (done ++ rs) h'.
Proof.
  induction rs as [|r rs IH]; intros done h h' Hi Hp Hs; cbn in Hs.
  - injection Hs as <-. by rewrite app_nil_r.
  - destruct (step r h) as [[b|h1]|e] eqn:E; try discriminate Hs. cbn in Hs.
    destruct (step_ok done r h h1 Hi Hp E) as [Hi1 Hp1].
    rewrite cons_middle, app_assoc. by apply (IH _ h1).
Qed.
Lemma history0_ok : inv [] history0 /\ phase [] history0.
Proof.
  split; [by intros aid|]. split; cbn; try done.
  - apply NoDup_nil_2.
  - intros _ r Hr. by apply not_elem_of_nil in Hr.
  - intros before r after E. by destruct before.
Qed.

Lemma keys_where_nil p h aid a : keys_where p h = [] -> attempt_of aid h = Some a -> p a = false.
Proof.
  unfold keys_where, attempt_of. induction (h_attempts h) as [|[k x] l IH]; cbn; [done|].
  destruct (p x) eqn:Ep; cbn; [done|]. intros Hn. destruct (String.eqb aid k); [intros [= <-]; done|auto].
Qed.
(** What an accepted conclusion establishes of the last state. *)
Lemma conclude_valid h : rs_status (conclude h) = "LOCAL_HISTORY_VALID" ->
  h_attempts h <> [] /\ incomplete_attempts h = [] /\ missing_allows h = [] /\ missing_releases h = [] /\
  (h_state h = CLOSED \/ h_state h = START_FAILED) /\ rs_closure (conclude h) = h_closure h.
Proof.
  unfold conclude. cbv zeta.
  destruct (bool_decide (h_attempts h = [])) eqn:E1; [done|].
  destruct (bool_decide (incomplete_attempts h = [])) eqn:E2; cbn [negb]; [|done].
  destruct (bool_decide (missing_allows h = [])) eqn:E3; cbn [negb]; [|done].
  destruct (bool_decide (missing_releases h = [])) eqn:E4; cbn [negb]; [|done].
  destruct (_ && _); [done|]. bools. destruct (h_state h); try done; intros _; split_and!; auto.
Qed.
