(* ===== verification/E10AnchorFacts.v ===== *)
(** * The two readings of a closed log

    [verify_e10._load_and_verify] reads the log by newlines and
    [e10_anchor.audit_facts] by every line end; on a log both accept they read
    the same records, because no complete JSON object continues. *)

From S2P Require Import Prelude.
From S2P Require Import PyStr.
From S2P Require Import Json.
From S2P Require Import JsonFacts.
From S2P Require Import JsonExt.
From S2P Require Import PyDyn.
From S2P Require Import Hash.
From S2P Require Import AuditLog.
From S2P Require Import AuditFacts.
From S2P Require Import E10Anchor.
From S2P Require Import VerifyE10.
Open Scope Z_scope.

(** ** Stripping *)

Definition blank (s : string) : Prop := str_all b_isspace s = true.
Lemma rstrip_spec p s : exists z, s = rstrip p s ++ z /\ str_all p z = true.
Proof.
  induction s as [|c s (z & E & Hz)]; [by exists ""|]. cbn.
  destruct (rstrip p s) as [|d t]; [|exists z; cbn in *; by rewrite <- E].
  cbn in E. subst z. destruct (p c) eqn:Ec; [exists (String c s); cbn; by rewrite Ec|by exists s].
Qed.
Lemma lstrip_spec p s : exists z, s = z ++ lstrip p s /\ str_all p z = true.
Proof.
  induction s as [|c s (z & E & Hz)]; [by exists ""|]. cbn.
  destruct (p c) eqn:Ec; [|by exists ""]. exists (String c z). cbn. rewrite Ec. by rewrite <- E.
Qed.
Lemma rstrip_blank p s : str_all p s = true -> rstrip p s = "".
Proof. induction s as [|c s IH]; cbn; [done|]. intros [Hc Hs]%andb_true_iff. by rewrite IH, Hc. Qed.
Lemma rstrip_app_blank p u z : str_all p z = true -> rstrip p (u ++ z) = rstrip p u.
Proof. intros Hz. induction u as [|c u IH]; cbn; [by apply rstrip_blank|]. by rewrite IH. Qed.
Lemma rstrip_last_char p s u z : rstrip p s = u ++ z -> str_all p z = true -> z = "".
Proof.
  intros E Hz. pose proof (rstrip_spec p s) as (y & Es & Hy).
  assert (rstrip p s = rstrip p u) as E2.
  { rewrite Es at 1. by rewrite rstrip_app_blank, E, rstrip_app_blank. }
  destruct (rstrip_spec p u) as (x & Eu & _). rewrite E in E2.
  apply (f_equal String.length) in E2. apply (f_equal String.length) in Eu. rewrite length_append in E2, Eu.
  destruct z; [done|cbn in E2; lia].
Qed.
Lemma b_strip_spec s : exists a z, s = a ++ b_strip s ++ z /\ blank a /\ blank z.
Proof.
  unfold b_strip, strip. destruct (rstrip_spec b_isspace s) as (z & E & Hz).
  destruct (lstrip_spec b_isspace (rstrip b_isspace s)) as (a & E2 & Ha). exists a, z.
  rewrite <- append_assoc, <- E2. done.
Qed.
Lemma b_strip_last s u z : b_strip s = u ++ z -> blank z -> z = "".
Proof.
  unfold b_strip, strip. intros E Hz. destruct (lstrip_spec b_isspace (rstrip b_isspace s)) as (a & E2 & _).
  rewrite E, <- append_assoc in E2. by eapply rstrip_last_char.
Qed.
Lemma lstrip_no_head p s c r : lstrip p s = String c r -> p c = false.
Proof. induction s as [|d s IH]; cbn; [done|]. destruct (p d) eqn:E; [exact IH|]. by intros [= -> _]. Qed.
Lemma b_strip_head s c r : b_strip s = String c r -> b_isspace c = false.
Proof. apply lstrip_no_head. Qed.
Lemma b_strip_blank s : blank s -> b_strip s = "".
Proof. intros Hs. unfold b_strip, strip. by rewrite rstrip_blank. Qed.
Lemma json_ws_space c : json_ws c = true -> b_isspace c = true.
Proof. all_ascii c; done. Qed.
Lemma b_strip_cons c w : b_isspace c = true -> b_strip (String c w) = b_strip w.
Proof.
  intros Hc. unfold b_strip, strip. cbn. destruct (rstrip b_isspace w) as [|d t] eqn:E; rewrite ?Hc; [done|].
  cbn. by rewrite Hc.
Qed.
Lemma b_strip_rstrip w w' : rstrip b_isspace w = rstrip b_isspace w' -> b_strip w = b_strip w'.
Proof. unfold b_strip, strip. by intros ->. Qed.
Lemma b_strip_id s : (forall c r, s = String c r -> b_isspace c = false) ->
  (forall u z, s = u ++ z -> blank z -> z = "") -> b_strip s = s.
Proof.
  intros Hh Hl. unfold b_strip, strip. destruct (rstrip_spec b_isspace s) as (z & E & Hz).
  pose proof (Hl _ _ E Hz) as ->. rewrite append_nil_r in E. rewrite <- E.
  destruct s as [|c r]; [done|]. cbn. by rewrite (Hh c r eq_refl).
Qed.

(** ** The lines that carry a record *)

Definition nonblank (l : list string) : list string := filter (fun s => s <> "") (map b_strip l).
Lemma nonblank_cons w l : nonblank (w :: l) = ((if String.eqb (b_strip w) "" then [] else [b_strip w]) ++ nonblank l)%list.
Proof.
  unfold nonblank. cbn [map]. rewrite filter_cons. destruct (String.eqb_spec (b_strip w) "") as [->|H].
  - by rewrite decide_False by tauto.
  - by rewrite decide_True.
Qed.
Lemma nonblank_app l m : nonblank (l ++ m) = (nonblank l ++ nonblank m)%list.
Proof. unfold nonblank. by rewrite map_app, filter_app. Qed.
Lemma nonblank_blank w l : blank w -> nonblank (w :: l) = nonblank l.
Proof. intros Hw. by rewrite nonblank_cons, b_strip_blank. Qed.
Lemma nonblank_head w w' l l' : b_strip w = b_strip w' -> nonblank l = nonblank l' -> nonblank (w :: l) = nonblank (w' :: l').
Proof. intros H1 H2. by rewrite !nonblank_cons, H1, H2. Qed.
(** Pieces of a text between its line ends. *)
Definition pieces (s : string) : list string := concat (map (split carriage) (split newline s)).
Lemma pieces_end c s : c = newline \/ c = carriage -> pieces (String c s) = "" :: pieces s.
Proof.
  intros [-> | ->]; unfold pieces; cbn [split]; [done|]. change (Ascii.eqb newline carriage) with false. cbv iota.
  destruct (split_cons newline s) as (w & ws & ->). done.
Qed.
Lemma pieces_char c s : c <> newline -> c <> carriage -> exists w ws, pieces s = w :: ws /\
  pieces (String c s) = String c w :: ws.
Proof.
  intros Hn Hc. unfold pieces. cbn [split].
  assert (Ascii.eqb newline c = false) as -> by (apply Ascii.eqb_neq; congruence).
  destruct (split_cons newline s) as (v & vs & ->). cbn [map concat split].
  assert (Ascii.eqb carriage c = false) as -> by (apply Ascii.eqb_neq; congruence).
  destruct (split_cons carriage v) as (w & ws & ->). by eexists _, _.
Qed.
Lemma str_rev_cons c s : str_rev (String c s) = str_rev s ++ String c "".
Proof.
  unfold str_rev. cbn. generalize (rev (String.list_ascii_of_string s)). intros l. induction l as [|d l IH]; cbn; [done|].
  by rewrite IH.
Qed.
Lemma splitlines_pieces n : forall s acc, (String.length s <= n)%nat -> exists w ws, pieces s = w :: ws /\
  nonblank (splitlines acc s) = nonblank ((str_rev acc ++ w) :: ws).
Proof.
  induction n as [|n IH]; intros [|c s] acc Hn; try (cbn in Hn; lia).
  1,2: exists "", []; rewrite append_nil_r; cbn; by destruct (String.eqb_spec acc "") as [->|].
  cbn in Hn. cbn [splitlines]. destruct (Ascii.eqb_spec c newline) as [->|Hnl]; [|destruct (Ascii.eqb_spec c carriage) as [->|Hcr]].
  - rewrite pieces_end by auto. eexists _, _. split; [done|]. rewrite append_nil_r. apply nonblank_head; [done|].
    destruct (IH s "" ltac:(lia)) as (w & ws & -> & ->). done.
  - rewrite pieces_end by auto. eexists _, _. split; [done|]. rewrite append_nil_r. destruct s as [|d s2].
    + by apply nonblank_head.
    + destruct (Ascii.eqb_spec d newline) as [->|Hd]; apply nonblank_head; try done.
      * rewrite pieces_end by auto. rewrite nonblank_blank by done. cbn in Hn.
        destruct (IH s2 "" ltac:(lia)) as (w & ws & -> & ->). done.
      * destruct (IH (String d s2) "" ltac:(lia)) as (w & ws & -> & ->). done.
  - destruct (pieces_char c s Hnl Hcr) as (w & ws & E & ->). eexists _, _. split; [done|].
    destruct (IH s (String c acc) ltac:(lia)) as (w' & ws' & E' & ->). rewrite E in E'. injection E' as <- <-.
    by rewrite str_rev_cons, append_assoc.
Qed.
Lemma splitlines_nonblank s : nonblank (splitlines "" s) = nonblank (pieces s).
Proof. by destruct (splitlines_pieces _ s "" (le_n _)) as (w & ws & -> & ->). Qed.

(** ** One line *)

Lemma pieces_trim a s : blank a -> nonblank (split carriage (a ++ s)) = nonblank (split carriage s).
Proof.
  unfold blank. induction a as [|c a IH]; cbn [String.append str_all]; [done|]. intros [Hc Ha]%andb_true_iff.
  rewrite <- IH by done. cbn [split]. destruct (Ascii.eqb carriage c).
  - by rewrite nonblank_blank by done.
  - destruct (split_cons carriage (a ++ s)) as (w & ws & ->). apply nonblank_head; [|done]. by apply b_strip_cons.
Qed.
Lemma pieces_trim_end s z : blank z -> exists w ws w' ws', split carriage (s ++ z) = w :: ws /\ split carriage s = w' :: ws' /\
  rstrip b_isspace w = rstrip b_isspace w' /\ nonblank ws = nonblank ws'.
Proof.
  intros Hz. induction s as [|c s (w & ws & w' & ws' & E & E' & Hw & Hws)]; cbn [String.append split].
  - destruct (split_cons carriage z) as (w & ws & E). exists w, ws, "", []. split_and!; [done..| |].
    + apply rstrip_blank. revert w ws E. induction z as [|c z IH]; cbn [split]; [by intros ? ? ?; simplify_eq|].
      cbn in Hz. apply andb_true_iff in Hz as [Hc Hz]. destruct (Ascii.eqb carriage c); [by intros ? ? ?; simplify_eq|].
      destruct (split_cons carriage z) as (v & vs & Ev). rewrite Ev. intros w0 ws0 E0. injection E0 as <- _. cbn. rewrite Hc. by apply (IH Hz v vs).
    + pose proof (pieces_trim z "" Hz) as Ht. rewrite append_nil_r, E in Ht. change (nonblank (split carriage "")) with (@nil string) in Ht.
      rewrite nonblank_cons in Ht. destruct (String.eqb (b_strip w) ""); [exact Ht|discriminate].
  - rewrite E, E'. destruct (Ascii.eqb carriage c).
    + eexists _, _, _, _. split_and!; [done..|]. by apply nonblank_head; [apply b_strip_rstrip|].
    + eexists _, _, _, _. split_and!; [done..| |done]. cbn. by rewrite Hw.
Qed.
(** The pieces of a line are those of its stripped text. *)
Lemma line_pieces raw : nonblank (split carriage raw) = nonblank (split carriage (b_strip raw)).
Proof.
  destruct (b_strip_spec raw) as (a & z & E & Ha & Hz). rewrite E at 1. rewrite pieces_trim by done.
  destruct (pieces_trim_end (b_strip raw) z Hz) as (w & ws & w' & ws' & -> & -> & Hw & Hws).
  by apply nonblank_head; [apply b_strip_rstrip|].
Qed.
Lemma split_first c s w ws : split c s = w :: ws -> (ws = [] /\ s = w) \/ exists t, s = w ++ String c t.
Proof.
  revert w ws. induction s as [|d s IH]; intros w ws; cbn [split]; [intros [= <- <-]; by left|].
  destruct (Ascii.eqb_spec c d) as [<-|_]; [intros [= <- _]; right; by exists s|].
  destruct (split_cons c s) as (v & vs & E). rewrite E. intros [= <- <-].
  destruct (IH v vs E) as [[-> ->]|[t ->]]; [by left|right; by exists t].
Qed.
(** A line with a record is one piece, or its first piece parses to nothing. *)
Lemma line_object raw d : loads (b_strip raw) = Some (VDict d) ->
  nonblank (split carriage raw) = [b_strip raw] \/
  exists p ps, nonblank (split carriage raw) = p :: ps /\ loads p = None.
Proof.
  intros Hd. rewrite line_pieces. destruct (b_strip raw) as [|c r] eqn:EL; [discriminate Hd|].
  pose proof (b_strip_head _ _ _ EL) as Hc.
  assert (json_ws c = false) as Hj by (destruct (json_ws c) eqn:E; [apply json_ws_space in E; congruence|done]).
  pose proof (loads_object_head _ _ _ Hj Hd) as ->.
  destruct (split_cons carriage (String "{" r)) as (w & ws & E). rewrite E.
  destruct (split_first _ _ _ _ E) as [[-> <-]|[t Et]].
  - left. rewrite nonblank_cons, b_strip_id; [done| |].
    + by intros ? ? [= <- _].
    + intros u z Hu. rewrite <- EL in Hu. by eapply b_strip_last.
  - right. rewrite nonblank_cons. destruct (b_strip_spec w) as (a & z & Ew & Ha & Hz).
    destruct w as [|e w]; [discriminate Et|]. rewrite append_cons in Et. injection Et as <- Et.
    destruct a as [|e a]; [|injection Ew as <- _; by cbn in Ha]. cbn [String.append] in Ew.
    destruct (b_strip (String "{" w)) as [|e p] eqn:Ep; [cbn in Ew; subst z; by cbn in Hz|]. injection Ew as <- Ew.
    eexists _, _. split; [done|]. destruct (loads (String "{" p)) as [v|] eqn:Hv; [exfalso|done].
    assert (String "{" r = String "{" p ++ (z ++ String carriage t)) as Er.
    { by rewrite Et, Ew, append_cons, append_assoc. }
    rewrite Er in Hd. pose proof (loads_object_ext _ _ _ _ (prefix_append "{" p) Hv Hd) as Hx.
    rewrite Er in EL. apply b_strip_last in EL; [by destruct z|].
    eapply str_all_impl; [apply json_ws_space|exact Hx].
Qed.

Lemma py_eqb_VStr v t : py_eqb v (VStr t) = is_str t (Some v).
Proof. destruct v as [|[]|z|[]|s|l|e]; try done. apply String.eqb_sym. Qed.

Section Chain.
Context `{Digest}.

(** [audit_facts] over the lines that carry a record. *)
Fixpoint facts_plain (lines : list string) (count : Z) (tail : string) (last : option dict) : res (Z * string * option dict) :=
  match lines with
  | [] => Ok (count, tail, last)
  | line :: rest =>
      match loads line with
      | None => Raise (ValErr "malformed JSON")
      | Some v =>
          prev <- v_get "prev" v;;
          if negb (py_eqb prev (VStr tail)) then Raise (ValErr "audit chain break") else
          rec <- v_items v;;
          facts_plain rest (count + 1) (sha256 line) (Some rec)
      end
  end.
Lemma facts_loop_nonblank lines : forall count tail last,
  facts_loop lines count tail last = facts_plain (nonblank lines) count tail last.
Proof.
  induction lines as [|raw lines IH]; intros count tail last; [done|]. rewrite nonblank_cons. cbn [facts_loop].
  destruct (String.eqb (b_strip raw) ""); [apply IH|]. cbn [app facts_plain].
  destruct (loads (b_strip raw)) as [v|]; [|done]. destruct (v_get "prev" v); [|done]. cbn [rbind].
  destruct (negb _); [done|]. destruct (v_items v); [|done]. apply IH.
Qed.
(** The chain of the records and their number. *)
Lemma facts_plain_chain lines : forall count tail last c' t' l',
  (forall line, line ∈ lines -> exists d, loads line = Some (VDict d)) ->
  facts_plain lines count tail last = Ok (c', t', l') ->
  chain_from tail lines = Some t' /\ c' = count + Z.of_nat (length lines).
Proof.
  induction lines as [|line lines IH]; intros count tail last c' t' l' Hd; cbn [facts_plain chain_from length].
  - intros [= <- <- <-]. split; [done|lia].
  - destruct (Hd line) as [d ->]; [left|]. cbn [v_get v_get_or rbind v_items].
    destruct (dget "prev" d) as [v|] eqn:Ev; unfold dget_or; rewrite ?Ev; cbn; [|done].
    rewrite py_eqb_VStr. cbn. destruct (match v with VStr _ => _ | _ => _ end); [|done]. cbn. intros Hf. apply IH in Hf as [-> ->]; [split; [done|lia]|]. intros x Hx. apply Hd. by right.
Qed.
Lemma facts_plain_loads lines : forall count tail last x,
  facts_plain lines count tail last = Ok x -> forall line, line ∈ lines -> loads line <> None.
Proof.
  induction lines as [|line lines IH]; intros count tail last x Hf l Hl; [by apply not_elem_of_nil in Hl|].
  cbn [facts_plain] in Hf. destruct (loads line) as [v|] eqn:E; [|done].
  destruct (v_get "prev" v); [|done]. cbn [rbind] in Hf. destruct (negb _); [done|].
  destruct (v_items v); [|done]. cbn [rbind] in Hf.
  apply elem_of_cons in Hl as [->|Hl]; [by rewrite E|]. by eapply IH.
Qed.
Lemma facts_plain_last lines line d : forall count tail last c t l,
  facts_plain (lines ++ [line])%list count tail last = Ok (c, t, l) -> loads line = Some (VDict d) -> l = Some d.
Proof.
  induction lines as [|x lines IH]; intros count tail last c t l; cbn [app facts_plain].
  - intros Hf Hd. rewrite Hd in Hf. cbn in Hf. destruct (negb _); [done|]. by injection Hf.
  - destruct (loads x) as [v|]; [|done]. destruct (v_get "prev" v); [|done]. cbn [rbind]. destruct (negb _); [done|].
    destruct (v_items v); [|done]. apply IH.
Qed.

Lemma load_lines_objects lines : forall prev rs, load_lines prev lines = Some rs ->
  Forall2 (fun raw r => loads (b_strip raw) = Some (VDict r)) lines rs.
Proof.
  induction lines as [|raw lines IH]; intros prev rs; cbn [load_lines]; [intros [= <-]; constructor|].
  destruct (String.eqb _ _); [done|]. destruct (loads (b_strip raw)) as [[| | | | | |r]|] eqn:E; try done.
  destruct (py_eqb _ _); [|done]. destruct (load_lines _ lines) as [rs'|] eqn:El; [|done]. cbn. intros [= <-].
  constructor; [done|by eapply IH].
Qed.
Lemma pieces_lines f : nonblank (pieces f) = concat (map (fun raw => nonblank (split carriage raw)) (file_lines f)).
Proof.
  unfold pieces, file_lines. generalize (split newline f). intros l.
  assert (nonblank (concat (map (split carriage) l)) = concat (map (fun raw => nonblank (split carriage raw)) l)) as ->.
  { induction l as [|w l IH]; [done|]. cbn [map concat]. by rewrite nonblank_app, IH. }
  induction l as [|w l IH]; [done|]. destruct l as [|w' l].
  - cbn [drop_last_empty]. destruct (String.eqb_spec w "") as [->|]; done.
  - change (drop_last_empty (w :: w' :: l)) with (w :: drop_last_empty (w' :: l)). cbn [map concat] in *. by rewrite IH.
Qed.
(** On a log that both accept, the two readings see the same records. *)
Lemma readings_agree f rs fs : load_and_verify (Some f) = Some rs -> audit_facts f = Ok fs ->
  Forall2 (fun line r => loads line = Some (VDict r)) (map b_strip (file_lines f)) rs /\
  chain_from GENESIS (map b_strip (file_lines f)) = Some (f_tail fs) /\
  f_count fs = Z.of_nat (length rs) /\ f_length fs = Z.of_nat (String.length f) /\
  forall init r, rs = (init ++ [r])%list -> f_last fs = Some r.
Proof.
  unfold load_and_verify. cbn [mbind option_bind]. intros Hl%load_lines_objects. unfold audit_facts.
  rewrite facts_loop_nonblank, splitlines_nonblank, pieces_lines.
  destruct (facts_plain _ _ _ _) as [[[c t] l]|e] eqn:Hf; [|done]. cbn [rbind]. intros [= <-].
  assert (concat (map (fun raw => nonblank (split carriage raw)) (file_lines f)) = map b_strip (file_lines f)) as E.
  { pose proof (facts_plain_loads _ _ _ _ _ Hf) as Hall. clear Hf. induction Hl as [|raw r lines rs Hr Hl IH]; [done|].
    cbn [map concat] in *. destruct (line_object raw r Hr) as [E|(p & ps & E & Hp)]; rewrite E in *.
    - cbn. rewrite IH; [done|]. intros line Hin. apply Hall. by right.
    - destruct (Hall p); [by left|done]. }
  rewrite E in Hf. assert (Forall2 (fun line r => loads line = Some (VDict r)) (map b_strip (file_lines f)) rs) as Hm.
  { by apply Forall2_fmap_l. }
  assert (forall init r, rs = (init ++ [r])%list -> l = Some r) as Hlast.
  { intros init r ->. apply Forall2_app_inv_r in Hm as (l1 & l2 & _ & Hm & Em). rewrite Em in Hf.
    apply Forall2_cons_inv_r in Hm as (line & l3 & Hr & Hnil & ->). apply Forall2_nil_inv_r in Hnil as ->.
    by eapply facts_plain_last. }
  apply facts_plain_chain in Hf as [Hc ->].
  - split_and!; [done..| |done|exact Hlast]. by rewrite (Forall2_length _ _ _ Hm).
  - intros line Hin. apply list_elem_of_lookup in Hin as [i Hi]. destruct (Forall2_lookup_l _ _ _ _ _ Hm Hi) as (r & _ & Hr). eauto.
Qed.
End Chain.
