(* ===== verification/VerifyE10Props.v ===== *)
(** * Properties of the closed-run verifier

    What an accepted history contains, what an anchored verification binds, and
    that an anchor built from an accepted log verifies. *)

From S2P Require Import Prelude.
From S2P Require Import PyStr.
From S2P Require Import Json.
From S2P Require Import JsonFacts.
From S2P Require Import PyDyn.
From S2P Require Import Hash.
From S2P Require Import AuditLog.
From S2P Require Import AuditFacts.
From S2P Require Import AuditProps.
From S2P Require Import Lifecycle.
From S2P Require Import E10Anchor.
From S2P Require Import VerifyE10.
From S2P Require Import VerifyE10Facts.
From S2P Require Import JsonExt.
From S2P Require Import E10AnchorFacts.
Open Scope Z_scope.

(** ** Rejections name no acceptance *)

Definition VALID : string := "LOCAL_HISTORY_VALID".
Definition accepting (status : string) : bool :=
  mem_str status [VALID; "PROVEN"; "LOCAL_FIXTURE_PASS_NON_CERTIFYING"].
(** A branch's rejection is not an acceptance. *)
Definition rejects (o : res (result + history)) : Prop :=
  forall b, o = Ok (inl b) -> accepting (rs_status b) = false.
Lemma rejects_if (c : bool) x y : rejects x -> rejects y -> rejects (if c then x else y).
Proof. by destruct c. Qed.
Lemma rejects_opt {A} (o : option A) (x : A -> res (result + history)) y :
  (forall a, o = Some a -> rejects (x a)) -> rejects y -> rejects (match o with Some a => x a | None => y end).
Proof. destruct o; auto. Qed.
Lemma rejects_inr h : rejects (Ok (inr h)).
Proof. by intros b. Qed.
Lemma rejects_bind {A} (x : res A) f : (forall a, rejects (f a)) -> rejects (rbind x f).
Proof. destruct x; cbn; [auto|by intros _ b]. Qed.
Lemma rejects_inl b : accepting (rs_status b) = false -> rejects (Ok (inl b)).
Proof. by intros Hb c [= <-]. Qed.
Ltac rejections :=
  repeat first [ apply rejects_if | apply rejects_opt; [intros ? ?|] | apply rejects_inr
               | apply rejects_inl; reflexivity ].
Lemma linearization_rejects r l s : linearization_error r l = Some s -> accepting s = false.
Proof.
  induction l as [|[k a] l IH]; cbn; [done|].
  repeat match goal with |- (if ?b then _ else _) = _ -> _ => destruct b; [by intros [= <-]|] end. done.
Qed.
Lemma on_active_rejects d aid r h : rejects (on_active d aid r h).
Proof.
  unfold on_active, on_auth, on_permit, on_attempted, on_terminal, on_allow, on_release, on_kill, on_closed,
    on_terminated, on_blocked, on_linearized, on_disposition, go. cbv zeta. rejections.
  - apply rejects_inl. cbn. by eapply linearization_rejects.
  - apply rejects_bind. intros v. rejections.
Qed.
#[local] Opaque on_active.
Lemma step_rejects r h : rejects (step r h).
Proof.
  unfold step, on_startup, go. cbv zeta. rejections. apply on_active_rejects.
Qed.
#[local] Transparent on_active.
Lemma steps_rejects rs h : rejects (steps rs h).
Proof.
  revert h. induction rs as [|r rs IH]; intros h; cbn; [apply rejects_inr|].
  pose proof (step_rejects r h) as Hs. destruct (step r h) as [[b|h']|e]; cbn; [|apply IH|by intros b].
  apply rejects_inl. by apply Hs.
Qed.
Lemma schema_rejects r s : schema_error r = Ok (Some s) -> accepting s = false.
Proof.
  unfold schema_error. cbv zeta. destruct (negb _); [done|]. destruct (fld "decision" r); try by intros [= <-].
  destruct (schema s0) as [[req all]|]; [|by intros [= <-]]. destruct (_ || _); [by intros [= <-]|].
  destruct (chain_metadata_ok r) as [m|]; [|done]. cbn. destruct (_ && _); [done|]. by intros [= <-].
Qed.
Lemma check_rejects run_id rs b : check_records run_id rs = Ok (Some b) -> accepting (rs_status b) = false.
Proof.
  induction rs as [|r rs IH]; cbn; [done|]. destruct (negb _); [by intros [= <-]|].
  destruct (schema_error r) as [[s|]|e] eqn:E; cbn; [|done..]. intros [= <-]. by apply (schema_rejects r).
Qed.
Lemma check_records_run run_id rs : check_records run_id rs = Ok None ->
  Forall (fun r => py_eqb (fld "run_id" r) (VStr run_id) = true /\ schema_error r = Ok None) rs.
Proof.
  induction rs as [|r rs IH]; cbn; [by constructor|].
  destruct (py_eqb _ _) eqn:E; cbn [negb]; [|discriminate].
  destruct (schema_error r) as [[s|]|e] eqn:Es; cbn; try discriminate. constructor; auto.
Qed.
(** An accepted history went through the whole loop. *)
Lemma validate_cases rs run_id res : validate_history rs run_id = Ok res -> rs_status res = VALID ->
  Forall (fun r => py_eqb (fld "run_id" r) (VStr run_id) = true /\ schema_error r = Ok None) rs /\
  exists h, steps rs history0 = Ok (inr h) /\ res = conclude h.
Proof.
  unfold validate_history. intros Hv Hs.
  destruct (String.eqb _ _); [by injection Hv as <-|]. destruct (bool_decide _); [by injection Hv as <-|].
  destruct (check_records run_id rs) as [[b|]|e] eqn:Ec; cbn in Hv; [|..]; try discriminate.
  - injection Hv as <-. apply check_rejects in Ec. by rewrite Hs in Ec.
  - split; [by apply check_records_run|]. pose proof (steps_rejects rs history0) as Hr.
    destruct (steps rs history0) as [[b|h]|e]; cbn in Hv; try discriminate; injection Hv as <-.
    + specialize (Hr b eq_refl). by rewrite Hs in Hr.
    + by exists h.
Qed.
(** A history is rejected or accepted, never proven. *)
Lemma validate_not_proven rs run_id res : validate_history rs run_id = Ok res ->
  rs_status res <> "PROVEN" /\ rs_status res <> "LOCAL_FIXTURE_PASS_NON_CERTIFYING".
Proof.
  assert (forall st, accepting st = false -> st <> "PROVEN" /\ st <> "LOCAL_FIXTURE_PASS_NON_CERTIFYING") as Ha
    by (intros st Hst; split; intros ->; discriminate Hst).
  unfold validate_history. destruct (String.eqb _ _); [by intros [= <-]|]. destruct (bool_decide _); [by intros [= <-]|].
  destruct (check_records run_id rs) as [[b|]|e] eqn:Ec; cbn; [|..]; try discriminate.
  - intros [= <-]. by apply Ha, (check_rejects run_id rs).
  - pose proof (steps_rejects rs history0) as Hr. destruct (steps rs history0) as [[b|h]|e]; cbn; try discriminate; intros [= <-].
    + by apply Ha, Hr.
    + unfold conclude. cbv zeta. repeat match goal with |- context [if ?c then _ else _] => destruct c end; try done.
      by destruct (h_state h).
Qed.
Lemma valid_state rs run_id res : validate_history rs run_id = Ok res -> rs_status res = VALID ->
  exists h, res = conclude h /\ inv rs h /\ phase rs h /\ h_state h = CLOSED /\ incomplete_attempts h = [] /\
    missing_allows h = [] /\ missing_releases h = [] /\ rs_closure res = h_closure h.
Proof.
  intros Hv Hs. destruct (validate_cases _ _ _ Hv Hs) as (_ & h & Hst & ->). exists h. split; [done|].
  destruct history0_ok as [Hi Hp]. destruct (steps_ok rs [] history0 h Hi Hp Hst) as [Hi' Hp'].
  destruct (conclude_valid h Hs) as (Hne & H1 & H2 & H3 & [Hc|Hf] & H4); [by split_and!|].
  by apply (ph_failed _ _ Hp') in Hf.
Qed.

(** ** Accepted histories *)

(** C4: soundness of the closed-run verifier. When a history is accepted, every
    attempt any record speaks of went through one complete story in that order:
    one intent, at most one permit bound to it, at most one attempted effect on
    the pinned address under that permit, exactly one terminal outcome, an ALLOW
    matching the effect when and only when it completed, and the release of the permit if there was one;
    all lifecycle numbers are distinct, no effect follows a cancellation
    request, and the last record is the one closure of the run. *)
Theorem accepted_history_complete rs run_id res :
  validate_history rs run_id = Ok res -> rs_status res = "LOCAL_HISTORY_VALID" ->
  (forall aid, recs lifecycle_decisions aid rs <> [] -> exists a t,
     tracked rs aid (Some a) /\ at_terminal a = Some t /\
     (decision_of t = COMPLETED <-> is_Some (at_allow a)) /\
     (is_Some (at_permit a) <-> is_Some (at_release a))) /\
  NoDup (seqs rs) /\
  (forall before r after, rs = (before ++ r :: after)%list -> decision_of r = ATTEMPTED ->
     forall q, q ∈ before -> decision_of q <> CANCEL_REQUESTED) /\
  (exists init r, rs = (init ++ [r])%list /\ decision_of r = RUN_CLOSED /\ rs_closure res = Some r).
Proof.
  intros Hv Hs. destruct (valid_state _ _ _ Hv Hs) as (h & -> & Hi & Hp & Hc & Hin & Hal & Hre & Hcl).
  split_and!.
  - intros aid Hne. specialize (Hi aid). destruct (attempt_of aid h) as [a|] eqn:Ea; [|done]. exists a.
    pose proof (keys_where_nil _ _ _ _ Hin Ea) as E1. pose proof (keys_where_nil _ _ _ _ Hal Ea) as E2.
    pose proof (keys_where_nil _ _ _ _ Hre Ea) as E3. cbn in E1, E2, E3.
    destruct (at_terminal a) as [t|] eqn:Et; [|done]. exists t. split; [done|]. split; [done|].
    destruct Hi as (_ & _ & _ & _ & _ & _ & Hst & _). destruct (stage_settled a t Hst Et) as (_ & _ & _ & _ & Sa & Sr).
    split; split.
    + intros Hd. unfold completed in E2. rewrite Et, Hd in E2. destruct (at_allow a); [by eexists|done].
    + done.
    + intros [p Hpm]. rewrite Hpm in E3. destruct (at_release a); [by eexists|done].
    + intros Hr. by apply Sr.
  - apply Hp.
  - apply Hp.
  - rewrite Hcl. by apply (ph_closed _ _ Hp).
Qed.

(** ** The types of an accepted record *)

Lemma dmem_dget k d : dmem k d = true <-> exists v, dget k d = Some v.
Proof. unfold dmem. destruct (dget k d); split; [by eexists|done|done|by intros [? ?]]. Qed.
Lemma dget_dkeys k d v : dget k d = Some v -> k ∈ dkeys d.
Proof. intros Hd. destruct (decide (k ∈ dkeys d)) as [|Hn]; [done|]. apply dget_None in Hn. congruence. Qed.
Lemma strs_shape l : forallb is_strv l = true -> l = map VStr (map (fun v => match v with VStr s => s | _ => "" end) l).
Proof. induction l as [|v l IH]; cbn; [done|]. intros [Hv Hl]%andb_true_iff. destruct v; try done. f_equal. auto. Qed.

(** C23: the type discipline of the verifier. A record whose schema is accepted
    has a known decision, every field the schema of that decision requires, no
    field outside the common and the allowed ones, and each of the typed fields,
    where it is present, has its type: strings, non-negative integers that are not
    booleans, booleans, lists of strings, a pin with a port from 1 to 65535. An
    allowed field that is not required may be absent. *)
Theorem schema_types r : schema_error r = Ok None ->
  exists d required allowed, dget "decision" r = Some (VStr d) /\ schema d = Some (required, allowed) /\
    (forall k, k ∈ required -> exists v, dget k r = Some v) /\
    (forall k v, dget k r = Some v ->
       (k ∈ COMMON \/ k ∈ allowed) /\
       (k ∈ STRING_FIELDS -> v = VStr (str_of k r)) /\
       (k ∈ int_fields -> v = VInt (int_of k r) /\ 0 <= int_of k r) /\
       (k ∈ bool_fields -> exists b, v = VBool b) /\
       (k ∈ list_fields -> v = VList (map VStr (strs_of k r))) /\
       (k = "pin" -> exists f a p, v = VList [VStr f; VStr a; VInt p] /\ 1 <= p <= 65535)).
Proof.
  unfold schema_error. cbv zeta. destruct (negb _); [done|].
  destruct (fld "decision" r) as [| | | |d| |] eqn:Ed; try done. destruct (schema d) as [[req all]|] eqn:Es; [|done].
  destruct (existsb _ req || _) eqn:Ek; [done|]. destruct (chain_metadata_ok r) as [m|]; [|done]. cbn [rbind].
  destruct (m && types_ok r && values_ok d r) eqn:Et; [|done]. intros _. exists d, req, all. bools.
  assert (dget "decision" r = Some (VStr d)) as Hd.
  { unfold fld, dget_or in Ed. destruct (dget "decision" r); cbn in Ed; congruence. }
  split_and!; [done..| |].
  - intros k Hk. apply dmem_dget. destruct (dmem k r) eqn:E; [done|].
    assert (existsb (fun k => negb (dmem k r)) req = true) as Hx; [|congruence].
    apply existsb_elem_of. exists k. by rewrite E.
  - unfold types_ok in *. bools. repeat match goal with H : forallb _ _ = true |- _ => rewrite forallb_elem_of in H end.
    unfold present_ok in *. intros k v Hv. assert (fld k r = v) as Hf by (unfold fld, dget_or; by rewrite Hv). split_and!.
    + destruct (mem_str k COMMON) eqn:Ec; [left; by apply mem_str_spec|]. right. apply mem_str_spec.
      destruct (mem_str k all) eqn:Ea; [done|].
      assert (existsb (fun k => negb (mem_str k COMMON || mem_str k all)) (dkeys r) = true) as Hx; [|congruence].
      apply existsb_elem_of. exists k. rewrite Ec, Ea. split; [by eapply dget_dkeys|done].
    + intros Hk. unfold str_of. rewrite Hf. match goal with H : forall x, x ∈ STRING_FIELDS -> _ |- _ => specialize (H k Hk) end.
      rewrite Hv in *. by destruct v.
    + intros Hk. unfold int_of. rewrite Hf. match goal with H : forall x, x ∈ int_fields -> _ |- _ => specialize (H k Hk) end.
      rewrite Hv in *. destruct v; try done. by split; [|apply Z.leb_le].
    + intros Hk. match goal with H : forall x, x ∈ bool_fields -> _ |- _ => specialize (H k Hk) end.
      rewrite Hv in *. destruct v; try done. by eexists.
    + intros Hk. unfold strs_of. rewrite Hf. match goal with H : forall x, x ∈ list_fields -> _ |- _ => specialize (H k Hk) end.
      rewrite Hv in *. destruct v as [| | | | |l|]; try done.
      f_equal. by apply strs_shape.
    + intros ->. match goal with H : match dget "pin" r with _ => _ end = true |- _ => rewrite Hv in H; rename H into Hp end.
      destruct v as [| | | | |[|[] [|[] [|[] [|]]]]|]; try done. cbn in Hp. bools. eexists _, _, _. split; [done|lia].
Qed.

(** ** Anchored verifications *)

Section Anchored.
Context `{Digest}.

(** What a PROVEN verification went through. *)
Record proof_of (i : inputs) (f : string) (rs : list dict) (h : result) (key : string) (d : dict) (fs : facts) : Prop := {
  po_audit : in_audit i = Some f;
  po_load : load_and_verify (Some f) = Some rs;
  po_valid : validate_history rs (in_run_id i) = Ok h /\ rs_status h = VALID;
  po_key : in_key i = Some key /\ (32 <= String.length key)%nat;
  po_anchor : in_anchor i ≫= loads = Some (VDict d);
  po_tag : py_str (fld "authentication_tag" d) = hmac_sha256 key (canonical_payload d);
  po_facts : audit_facts f = Ok fs;
  po_compare : compare d (comparisons (in_run_id i) (in_commit i) fs (default [] (rs_closure h))) = None }.
Lemma anchor_object_dict v d : anchor_object v = Ok (Some d) -> v = VDict d.
Proof.
  unfold anchor_object. destruct (v_set v) as [elems|]; cbn; [|done].
  destruct v; try (destruct (_ && _); [done|]; by destruct (sortable _)). by intros [= ->].
Qed.
Lemma verify_anchor_None f run_id commit key_id key h d : verify_anchor f run_id commit key_id key h d = Ok None ->
  py_str (fld "authentication_tag" d) = hmac_sha256 key (canonical_payload d) /\
  exists fs, audit_facts f = Ok fs /\ compare d (comparisons run_id commit fs (default [] (rs_closure h))) = None.
Proof.
  unfold verify_anchor. destruct (negb _); [done|]. destruct (negb _); [done|].
  destruct (compare_digest _ _) as [b|] eqn:Eb; cbn [rbind]; [|done]. destruct b; cbn [negb]; [|done].
  destruct (negb _); [done|]. destruct (audit_facts f) as [fs|]; cbn [rbind]; [|done]. intros [= Hc].
  unfold compare_digest in Eb. destruct (_ && _); [|done]. injection Eb as Eb%String.eqb_eq. split; [done|by exists fs].
Qed.
Lemma proven_cases i res : verify i = Ok res -> rs_status res = "PROVEN" -> exists f rs h key d fs, proof_of i f rs h key d fs.
Proof.
  unfold verify. intros Hv Hs. destruct (load_and_verify (in_audit i)) as [rs|] eqn:El; [|by injection Hv as <-].
  destruct (validate_history rs (in_run_id i)) as [h|] eqn:Eh; cbn [rbind] in Hv; [|done].
  destruct (String.eqb_spec (rs_status h) "LOCAL_HISTORY_VALID") as [Hst|_]; cbn [negb] in Hv;
    [|injection Hv as <-; by destruct (validate_not_proven _ _ _ Eh)].
  repeat match type of Hv with (if ?c then _ else _) = _ => destruct c; [by injection Hv as <-|] end.
  destruct (in_anchor i ≫= loads) as [v|] eqn:Ea; [|by injection Hv as <-].
  destruct (in_key i) as [key|] eqn:Ek; [|by injection Hv as <-].
  destruct (Nat.ltb_spec (String.length key) 32) as [|Hk]; [by injection Hv as <-|].
  destruct (anchor_object v) as [[d|]|] eqn:Eo; cbn [rbind] in Hv; [|by injection Hv as <-|done].
  apply anchor_object_dict in Eo as ->.
  destruct (verify_anchor _ _ _ _ _ _ _) as [[st|]|] eqn:Ev; cbn [rbind] in Hv; [|..|done].
  - injection Hv as <-. cbn in Hs. subst st. exfalso. revert Ev. unfold verify_anchor.
    repeat match goal with
    | |- (if ?c then _ else _) = _ -> _ => destruct c; [done|]
    | |- rbind ?x _ = _ -> _ => destruct x; cbn [rbind]; [|done]
    end. unfold comparisons. cbn [compare]. by repeat case_match.
  - apply verify_anchor_None in Ev as (Ht & fs & Hf & Hc). destruct (in_audit i) as [f|] eqn:Ef; [|done].
    exists f, rs, h, key, d, fs. by split.
Qed.
Lemma compare_field d l k v st : compare d l = None -> (k, v, st) ∈ l -> py_eqb (fld k d) v = true.
Proof.
  induction l as [|[[k' v'] st'] l IH]; cbn; [by intros _ ?%not_elem_of_nil|].
  destruct (py_eqb (fld k' d) v') eqn:E; cbn; [|done]. intros Hc [[= -> -> ->]|Hin]%elem_of_cons; auto.
Qed.
Lemma py_eqb_VInt v a b : py_eqb v (VInt a) = true -> py_eqb v (VInt b) = true -> a = b.
Proof.
  destruct v as [|c|z|g|t|l|e]; cbn; try done; unfold num_eqb; cbn; [..|destruct g; cbn; try done];
    rewrite !Z.eqb_eq; nia.
Qed.
Lemma objects_lines lines rs rs' : Forall2 (fun line r => loads line = Some (VDict r)) lines rs ->
  Forall2 (fun line r => loads line = Some (VDict r)) lines rs' -> rs = rs'.
Proof.
  intros H1. revert rs'. induction H1 as [|line r lines rs Hr H1 IH]; intros rs' H2; inversion H2; [done|].
  subst. f_equal; [congruence|auto].
Qed.

(** C9: an anchor binds one log. If two verifications are PROVEN against the
    same anchor file, whatever logs, keys and expectations they were given, then
    they expected the same run and source commit, the logs have the same number
    of bytes, the anchor carries its MAC under each of the keys, and the two
    verifications read and validated the same sequence of records, or two byte
    strings with one SHA-256 digest are exhibited. *)
Theorem anchored_verification_binds i1 i2 r1 r2 f1 f2 :
  verify i1 = Ok r1 -> rs_status r1 = "PROVEN" -> in_audit i1 = Some f1 ->
  verify i2 = Ok r2 -> rs_status r2 = "PROVEN" -> in_audit i2 = Some f2 ->
  in_anchor i1 = in_anchor i2 ->
  in_run_id i1 = in_run_id i2 /\ in_commit i1 = in_commit i2 /\ String.length f1 = String.length f2 /\
  (exists d, in_anchor i1 ≫= loads = Some (VDict d) /\ forall i, i ∈ [i1; i2] -> exists key, in_key i = Some key /\
     (32 <= String.length key)%nat /\ py_str (fld "authentication_tag" d) = hmac_sha256 key (canonical_payload d)) /\
  ((exists rs, load_and_verify (Some f1) = Some rs /\ load_and_verify (Some f2) = Some rs) \/ collision).
Proof.
  intros V1 S1 A1 V2 S2 A2 Ea.
  destruct (proven_cases i1 r1 V1 S1) as (g1 & rs1 & h1 & k1 & d1 & fs1 & [B1 L1 H1 K1 D1 T1 F1 C1]).
  destruct (proven_cases i2 r2 V2 S2) as (g2 & rs2 & h2 & k2 & d2 & fs2 & [B2 L2 H2 K2 D2 T2 F2 C2]).
  rewrite A1 in B1. rewrite A2 in B2. injection B1 as <-. injection B2 as <-.
  assert (d2 = d1) as -> by congruence.
  destruct (readings_agree _ _ _ L1 F1) as (M1 & Q1 & N1 & Y1 & _).
  destruct (readings_agree _ _ _ L2 F2) as (M2 & Q2 & N2 & Y2 & _).
  assert (forall k v w st, (k, v, st) ∈ comparisons (in_run_id i1) (in_commit i1) fs1 (default [] (rs_closure h1)) ->
    (k, w, st) ∈ comparisons (in_run_id i2) (in_commit i2) fs2 (default [] (rs_closure h2)) ->
    py_eqb (fld k d1) v = true /\ py_eqb (fld k d1) w = true) as Hf.
  { intros k v w st Hv Hw. split; [apply (compare_field _ _ _ _ _ C1 Hv)|apply (compare_field _ _ _ _ _ C2 Hw)]. }
  unfold comparisons in Hf.
  assert (forall k a b st, (k, VStr a, st) ∈ comparisons (in_run_id i1) (in_commit i1) fs1 (default [] (rs_closure h1)) ->
    (k, VStr b, st) ∈ comparisons (in_run_id i2) (in_commit i2) fs2 (default [] (rs_closure h2)) -> a = b) as Hstr.
  { intros k a b st Hv Hw. destruct (Hf _ _ _ _ Hv Hw) as [E1 E2]. rewrite py_eqb_VStr in E1, E2. cbn in E1, E2.
    destruct (fld k d1); try done. bools. congruence. }
  assert (forall k a b st, (k, VInt a, st) ∈ comparisons (in_run_id i1) (in_commit i1) fs1 (default [] (rs_closure h1)) ->
    (k, VInt b, st) ∈ comparisons (in_run_id i2) (in_commit i2) fs2 (default [] (rs_closure h2)) -> a = b) as Hint.
  { intros k a b st Hv Hw. destruct (Hf _ _ _ _ Hv Hw) as [E1 E2]. by eapply py_eqb_VInt. }
  split_and!.
  - by eapply (Hstr "run_id"); left.
  - by eapply (Hstr "source_commit"); right; left.
  - assert (f_length fs1 = f_length fs2) as E by (eapply (Hint "byte_length"); do 3 right; left). lia.
  - exists d1. split; [done|]. intros i [->|[->|[]%not_elem_of_nil]%elem_of_cons]%elem_of_cons;
      [exists k1|exists k2]; by destruct K1, K2.
  - assert (f_count fs1 = f_count fs2) as E by (eapply (Hint "record_count"); do 2 right; left).
    assert (f_tail fs1 = f_tail fs2) as Et by (eapply (Hstr "final_chain_hash"); do 4 right; left).
    rewrite <- Et in Q2. pose proof (Forall2_length _ _ _ M1) as G1. pose proof (Forall2_length _ _ _ M2) as G2.
    destruct (chain_binds _ _ _ Q1 Q2) as [El|[Hc|[Hl _]]]; [left|by right|lia].
    exists rs1. split; [done|]. rewrite <- El in M2. by rewrite (objects_lines _ _ _ M1 M2).
Qed.
(** The anchor as it is written and read back. *)
Definition stored (d : dict) : dict := sort_keys (map (fun kv => (kv.1, canon kv.2)) d).
Definition signed (close : dict) (fs : facts) (run_id commit key key_id issued_at : string) : dict :=
  let d := anchor_fields close fs run_id commit key_id issued_at in
  dset "authentication_tag" (VStr (hmac_sha256 key (canonical_payload d))) d.
Lemma build_anchor_ok f run_id commit key key_id issued_at a : build_anchor f run_id commit key key_id issued_at = Ok a ->
  is_commit commit = true /\ (32 <= String.length key)%nat /\ key_id <> "" /\
  exists fs close, audit_facts f = Ok fs /\ f_last fs = Some close /\
    a = signed close fs run_id commit key key_id issued_at.
Proof.
  unfold build_anchor. destruct (String.eqb run_id ""); [done|]. destruct (is_commit commit); cbn [negb]; [|done].
  destruct (Nat.ltb_spec (String.length key) 32); [done|]. destruct (String.eqb_spec key_id ""); [done|].
  destruct (audit_facts f) as [fs|]; cbn [rbind]; [|done]. destruct (f_last fs) as [[|kv close]|] eqn:El; [done| |done].
  repeat match goal with |- (if ?c then _ else _) = _ -> _ => destruct c; [done|] end. intros [= <-].
  split_and!; [done..|]. by exists fs, (kv :: close).
Qed.
(** The anchor of a closure whose fields have their types, field by field. *)
Definition anchor_of (schema role mac run_id commit tail key_id state issued_at : string) (seq count len : Z) : dict :=
  [ ("schema", VStr schema); ("authority_role", VStr role); ("authority_key_id", VStr key_id); ("mac_algorithm", VStr mac);
    ("run_id", VStr run_id); ("source_commit", VStr commit); ("record_count", VInt count); ("byte_length", VInt len);
    ("final_chain_hash", VStr tail); ("closure_sequence", VInt seq); ("closure_state", VStr state);
    ("issued_at", VStr issued_at) ].
Lemma wf_anchor a b c d e f g h i n m l tag :
  wf (VDict (anchor_of a b c d e f g h i n m l ++ [("authentication_tag", VStr tag)])%list).
Proof.
  constructor; [|repeat constructor]. unfold dkeys. cbn [anchor_of app fmap list_fmap fst].
  by apply (bool_decide_unpack _), I.
Qed.
(** Reading back what was written keeps the payload that is authenticated. *)
Lemma canonical_stored a b c d e f g h i n m l tag :
  let p := anchor_of a b c d e f g h i n m l in
  canonical_payload (canon_d (p ++ [("authentication_tag", VStr tag)])%list) = canonical_payload p.
Proof. reflexivity. Qed.
Lemma hex_ascii s : is_hex64 s = true -> str_all is_ascii s = true.
Proof.
  unfold is_hex64. intros [_ Hs]%andb_true_iff. eapply str_all_impl; [|exact Hs]. intros c. all_ascii c; done.
Qed.
Lemma anchor_loads d : wf (VDict d) -> loads (anchor_bytes d) = Some (VDict (canon_d d)).
Proof.
  intros Hd. unfold anchor_bytes. apply loads_pad; [|by apply loads_dumps|done].
  destruct (print_dict_ends (canon_d d)) as [x Hx]. unfold dumps. cbn [canon]. fold (canon_d d). rewrite Hx. apply prefix_append.
Qed.
Lemma verify_anchor_built f h fs close run_id commit key_id key seq state issued_at :
  audit_facts f = Ok fs -> rs_closure h = Some close ->
  dget "closure_sequence" close = Some (VInt seq) -> dget "closure_state" close = Some (VStr state) ->
  wf (VDict (signed close fs run_id commit key key_id issued_at)) /\
  verify_anchor f run_id commit key_id key h (canon_d (signed close fs run_id commit key key_id issued_at)) = Ok None.
Proof.
  intros Hf Hc Hq Hs. unfold signed.
  assert (anchor_fields close fs run_id commit key_id issued_at =
    anchor_of ANCHOR_SCHEMA AUTHORITY_ROLE MAC_ALGORITHM run_id commit (f_tail fs) key_id state issued_at seq (f_count fs) (f_length fs)) as ->.
  { unfold anchor_fields, dget_or. by rewrite Hq, Hs. }
  set (p := anchor_of _ _ _ _ _ _ _ _ _ _ _ _).
  assert (forall tag, dset "authentication_tag" (VStr tag) p = (p ++ [("authentication_tag", VStr tag)])%list) as E by done.
  rewrite E. split; [apply wf_anchor|]. unfold verify_anchor.
  assert (forall tag, canonical_payload (canon_d (p ++ [("authentication_tag", VStr tag)])%list) = canonical_payload p) as ->
    by (intros tag; apply canonical_stored).
  generalize (hmac_hex key (canonical_payload p)). generalize (hmac_sha256 key (canonical_payload p)). intros tag Htag.
  assert (forall k v, dget k (p ++ [("authentication_tag", VStr tag)])%list = Some v -> 
    fld k (canon_d (p ++ [("authentication_tag", VStr tag)])%list) = canon v) as Hfld.
  { intros k v Hk. unfold fld, dget_or. rewrite dget_canon_d by (pose proof (wf_anchor ANCHOR_SCHEMA AUTHORITY_ROLE MAC_ALGORITHM
      run_id commit (f_tail fs) key_id state issued_at seq (f_count fs) (f_length fs) tag) as W; by inversion W). by rewrite Hk. }
  assert (same_set (dkeys (canon_d (p ++ [("authentication_tag", VStr tag)])%list)) mandatory = true) as -> by reflexivity.
  cbn [negb].
  rewrite (Hfld "schema" _ eq_refl), (Hfld "authority_role" _ eq_refl), (Hfld "mac_algorithm" _ eq_refl),
    (Hfld "authentication_tag" _ eq_refl), (Hfld "authority_key_id" _ eq_refl). cbn [canon py_eqb py_str].
  rewrite !String.eqb_refl. cbn [andb negb]. unfold compare_digest. rewrite (hex_ascii tag Htag), String.eqb_refl. cbn [andb rbind negb].
  rewrite Hf, Hc. cbn [rbind]. change (default [] (Some close)) with close. unfold comparisons. f_equal.
  assert (fld "closure_sequence" close = VInt seq /\ fld "closure_state" close = VStr state) as [-> ->]
    by (unfold fld, dget_or; by rewrite Hq, Hs).
  cbn [compare]. rewrite (Hfld "run_id" _ eq_refl), (Hfld "source_commit" _ eq_refl), (Hfld "record_count" _ eq_refl),
    (Hfld "byte_length" _ eq_refl), (Hfld "final_chain_hash" _ eq_refl), (Hfld "closure_sequence" _ eq_refl), (Hfld "closure_state" _ eq_refl).
  cbn [canon py_eqb num_of]. unfold num_eqb. cbn [fst snd]. by rewrite !String.eqb_refl, !Z.eqb_refl.
Qed.
(** The fields of the closure of an accepted history. *)
Lemma closure_fields rs run_id h close : validate_history rs run_id = Ok h -> rs_status h = VALID ->
  rs_closure h = Some close ->
  (exists init, rs = (init ++ [close])%list) /\
  exists seq state, dget "closure_sequence" close = Some (VInt seq) /\ dget "closure_state" close = Some (VStr state).
Proof.
  intros Hv Hs Hc. destruct (validate_cases _ _ _ Hv Hs) as [Hall _].
  destruct (valid_state _ _ _ Hv Hs) as (h' & -> & _ & Hp & Hst & _ & _ & _ & Hcl).
  destruct (ph_closed _ _ Hp Hst) as (init & r & -> & Hd & Er). assert (r = close) as -> by congruence.
  split; [by exists init|]. apply Forall_app in Hall as [_ Hr]. apply Forall_singleton in Hr as [_ Hr].
  destruct (schema_types close Hr) as (d & req & all & Ed & Esch & Hreq & Hty).
  unfold decision_of, str_of, fld, dget_or in Hd. rewrite Ed in Hd. cbn in Hd. subst d. injection Esch as <- <-.
  destruct (Hreq "closure_sequence") as [v Hv1]; [is_in|]. destruct (Hreq "closure_state") as [w Hw]; [is_in|].
  exists (int_of "closure_sequence" close), (str_of "closure_state" close). rewrite Hv1, Hw.
  split; f_equal; eapply Hty; first [done|is_in].
Qed.

(** C16: round trip of the close anchor. For a log whose history is accepted,
    whenever the control plane builds an anchor, the anchor as it is written to
    disk and read back verifies with the same key, key id, run and source commit:
    the verdict is PROVEN, with the exit code 0. *)
Theorem built_anchor_verifies f rs h run_id commit key key_id issued_at a anchor_path key_path :
  load_and_verify (Some f) = Some rs -> validate_history rs run_id = Ok h -> rs_status h = "LOCAL_HISTORY_VALID" ->
  build_anchor f run_id commit key key_id issued_at = Ok a -> anchor_path <> "" -> key_path <> "" ->
  exists r, verify (Inputs (Some f) run_id anchor_path (Some (anchor_bytes a)) key_path (Some key) commit key_id false) = Ok r /\
    rs_status r = "PROVEN" /\ rs_counts r = rs_counts h /\ exit_code r = 0.
Proof.
  intros Hl Hv Hs Hb Ha Hk. destruct (build_anchor_ok _ _ _ _ _ _ _ Hb) as (Hcm & Hkl & Hki & fs & close & Hf & Hlast & ->).
  destruct (readings_agree _ _ _ Hl Hf) as (_ & _ & _ & _ & Hlf).
  destruct (valid_state _ _ _ Hv Hs) as (h' & -> & _ & Hp & Hst & _ & _ & _ & Hcl).
  destruct (ph_closed _ _ Hp Hst) as (init & c & Hrs & _ & Ec). rewrite Ec in Hcl.
  destruct (closure_fields _ _ _ _ Hv Hs Hcl) as (_ & seq & state & Hq & Hsq).
  specialize (Hlf _ _ Hrs). assert (c = close) as -> by congruence.
  destruct (verify_anchor_built f (conclude h') fs close run_id commit key_id key seq state issued_at Hf Hcl Hq Hsq) as [Hw Hva].
  unfold verify. cbn [in_audit in_run_id in_anchor_path in_anchor in_key_path in_key in_commit in_key_id in_fixture].
  rewrite Hl, Hv. cbn [rbind]. rewrite Hs, Hcm. cbn [negb]. change (String.eqb "LOCAL_HISTORY_VALID" "LOCAL_HISTORY_VALID") with true.
  cbn [negb]. rewrite (proj2 (String.eqb_neq _ _) Hki), (proj2 (String.eqb_neq _ _) Ha), (proj2 (String.eqb_neq _ _) Hk).
  cbn [mbind option_bind]. rewrite (anchor_loads _ Hw), (proj2 (Nat.ltb_ge _ _) Hkl).
  assert (forall d, anchor_object (VDict d) = Ok (Some d)) as Hobj.
  { intros d. unfold anchor_object, v_set. cbn [v_iter rbind].
    assert (forallb hashable (map VStr (dkeys d)) = true) as ->; [|done]. by induction (dkeys d). }
  rewrite Hobj. cbn [rbind]. change (default "" (Some f)) with f. rewrite Hva. cbn [rbind].
  eexists. split; [done|]. split_and!; reflexivity.
Qed.
End Anchored.
