(* ===== verification/Protocol.v ===== *)
(** * The effect protocol, and the verifier as an implementation of it

    A small specification of what a run may record: attempts that move from an
    intent to a settled outcome, and an admission that only closes.  It knows no
    record, no hash and no number.  [VerifyE10.step] refines it: every record the
    verifier accepts is a step of the protocol between the abstractions of its
    states. *)

From S2P Require Import Prelude.
From S2P Require Import PyStr.
From S2P Require Import Json.
From S2P Require Import PyDyn.
From S2P Require Import Lifecycle.
From S2P Require Import VerifyE10.
From S2P Require Import VerifyE10Facts.
Open Scope Z_scope.

(** ** The protocol *)

Inductive outcome := Completed | Failed | Unknown | Cancelled.
Inductive stage := Intended | Permitted | Sent | Ended (o : outcome).
Record story := Story {
  s_stage : stage; s_late : bool; s_permitted : bool; s_allowed : bool; s_released : bool }.
Inductive admission := Serving | Requested | Linearized | Drained | Acknowledged | Expired | Closed | Down.
Record proto := Proto { p_admission : admission; p_attempts : gmap string story }.
Definition proto0 : proto := Proto Serving ∅.

(** Ended, allowed if completed, and its permit released. *)
Definition settled (s : story) : Prop :=
  (exists o, s_stage s = Ended o) /\ (s_stage s = Ended Completed -> s_allowed s = true) /\
  (s_permitted s = true -> s_released s = true).
(** Attempts may still move. *)
Definition moving (a : admission) : Prop := a = Serving \/ a = Requested \/ a = Linearized.
(** The ends of an attempt: what was sent may end in any way, the rest cannot
    have completed and is never in doubt. *)
Definition may_end (from : stage) (o : outcome) : Prop :=
  match from with
  | Sent => True
  | Intended | Permitted => o = Failed \/ o = Cancelled
  | Ended _ => False
  end.

Inductive act :=
| Note | Fail
| Intend (a : string) | Permit (a : string) | Send (a : string) | End (a : string) (o : outcome)
| Allow (a : string) | Release (a : string)
| Request | Linearize | Drain | Acknowledge | Expire | Close.

Definition put (a : string) (s : story) (p : proto) : proto := Proto (p_admission p) (<[a := s]> (p_attempts p)).
Inductive pstep : act -> proto -> proto -> Prop :=
| p_note p : pstep Note p p
| p_fail : pstep Fail proto0 (Proto Down ∅)
| p_intend a late p : moving (p_admission p) -> p_attempts p !! a = None -> (late = false <-> p_admission p = Serving) ->
    pstep (Intend a) p (put a (Story Intended late false false false) p)
| p_permit a p : moving (p_admission p) -> p_attempts p !! a = Some (Story Intended false false false false) ->
    pstep (Permit a) p (put a (Story Permitted false true false false) p)
| p_send a l p : p_admission p = Serving -> p_attempts p !! a = Some (Story Permitted l true false false) ->
    pstep (Send a) p (put a (Story Sent l true false false) p)
| p_end a o st l m p : moving (p_admission p) -> p_attempts p !! a = Some (Story st l m false false) -> may_end st o ->
    pstep (End a o) p (put a (Story (Ended o) l m false false) p)
| p_allow a l p : moving (p_admission p) -> p_attempts p !! a = Some (Story (Ended Completed) l true false false) ->
    pstep (Allow a) p (put a (Story (Ended Completed) l true true false) p)
| p_release a o l w p : moving (p_admission p) -> p_attempts p !! a = Some (Story (Ended o) l true w false) ->
    (o = Completed -> w = true) ->
    pstep (Release a) p (put a (Story (Ended o) l true w true) p)
| p_request m : pstep Request (Proto Serving m) (Proto Requested m)
| p_linearize m : pstep Linearize (Proto Requested m) (Proto Linearized m)
| p_drain m : map_Forall (fun _ => settled) m -> pstep Drain (Proto Linearized m) (Proto Drained m)
| p_acknowledge m : pstep Acknowledge (Proto Drained m) (Proto Acknowledged m)
| p_expire m : pstep Expire (Proto Drained m) (Proto Expired m)
| p_close m : pstep Close (Proto Acknowledged m) (Proto Closed m).
Inductive prun : list act -> proto -> proto -> Prop :=
| prun_nil p : prun [] p p
| prun_cons x l p q r : pstep x p q -> prun l q r -> prun (x :: l) p r.

(** ** The abstraction of the verifier's state *)

Definition outcome_of (d : string) : outcome :=
  if String.eqb d COMPLETED then Completed else if String.eqb d FAILED then Failed
  else if String.eqb d UNKNOWN then Unknown else Cancelled.
Definition stage_of (a : attempt) : stage :=
  match at_terminal a with
  | Some t => Ended (outcome_of (decision_of t))
  | None => if is_some (at_attempted a) then Sent else if is_some (at_permit a) then Permitted else Intended
  end.
Definition view_attempt (a : attempt) : story :=
  Story (stage_of a) (at_late a) (is_some (at_permit a)) (is_some (at_allow a)) (is_some (at_release a)).
Definition admission_of (h : history) : admission :=
  match h_state h with
  | RUNNING => Serving | REQUESTED => Requested
  | LINEARIZED => if is_some (h_kill h) then Drained else Linearized
  | ACKNOWLEDGED => Acknowledged | TIMED_OUT => Expired | CLOSED => Closed | START_FAILED => Down
  end.
Definition view_attempts (l : list (string * attempt)) : gmap string story :=
  list_to_map (map (fun ka => (ka.1, view_attempt ka.2)) l).
Definition view (h : history) : proto := Proto (admission_of h) (view_attempts (h_attempts h)).
(** The step a record stands for. *)
Definition act_of (r : dict) : act :=
  let d := decision_of r in
  let a := aid_of r in
  if String.eqb d "STARTUP_FAILED" then Fail
  else if String.eqb d AUTH then Intend a else if String.eqb d PERMIT then Permit a
  else if String.eqb d ATTEMPTED then Send a else if mem_str d TERMINAL then End a (outcome_of d)
  else if String.eqb d "ALLOW" then Allow a else if String.eqb d PERMIT_RELEASED then Release a
  else if String.eqb d CANCEL_REQUESTED then Request else if String.eqb d CANCEL_LINEARIZED then Linearize
  else if String.eqb d "KILL_SWITCH" then Drain else if String.eqb d CANCEL_ACK then Acknowledge
  else if String.eqb d CANCEL_DRAIN_TIMEOUT then Expire else if String.eqb d RUN_CLOSED then Close
  else Note.

Lemma view_lookup l a : view_attempts l !! a = view_attempt <$> find_attempt a l.
Proof.
  unfold view_attempts. induction l as [|[k x] l IH]; cbn; [apply lookup_empty|].
  destruct (String.eqb_spec a k) as [->|Hne]; [by rewrite lookup_insert_eq|]. by rewrite lookup_insert_ne.
Qed.
Lemma view_put l a x : view_attempts (put_attempt a x l) = <[a := view_attempt x]> (view_attempts l).
Proof.
  apply map_eq. intros b. rewrite view_lookup. destruct (decide (a = b)) as [<-|Hne].
  - by rewrite find_put_eq, lookup_insert_eq.
  - by rewrite find_put_ne, lookup_insert_ne, view_lookup.
Qed.
Lemma view_set a x h : view (set_attempt a x h) = put a (view_attempt x) (view h).
Proof. unfold view, put. cbn [p_admission p_attempts]. f_equal. apply view_put. Qed.
Lemma view_own seq h : view (own seq h) = view h.
Proof. done. Qed.
Lemma view_active h : view (set_active h) = view h.
Proof. done. Qed.
Lemma view_found a x h : attempt_of a h = Some x -> p_attempts (view h) !! a = Some (view_attempt x).
Proof. intros Hf. cbn. rewrite view_lookup. unfold attempt_of in Hf. by rewrite Hf. Qed.

(** ** Each branch is a step *)

Lemma draining_moving h : draining h = true -> moving (admission_of h).
Proof. unfold draining, admission_of, moving. destruct (h_state h), (h_kill h); cbn; auto; discriminate. Qed.
Lemma outcome_completed d : d ∈ TERMINAL -> outcome_of d = Completed -> d = COMPLETED.
Proof. intros Hd. elems Hd; rewrite Hd; vm_compute; congruence. Qed.
Lemma inv_stage done h a x : inv done h -> attempt_of a h = Some x -> stage_ok x.
Proof. intros Hi Hf. specialize (Hi a). rewrite Hf in Hi. apply Hi. Qed.
(** The view of a live attempt, from the stage its state names. *)
Lemma view_live done h a x : inv done h -> attempt_of a h = Some x -> at_state x ∉ TERMINAL ->
  (at_terminal x = None /\ at_allow x = None /\ at_release x = None) /\
  ((at_state x = "AUTHORIZED" /\ at_permit x = None /\ at_attempted x = None /\
    p_attempts (view h) !! a = Some (Story Intended (at_late x) false false false)) \/
   (at_state x = "PERMITTED" /\ is_Some (at_permit x) /\ at_attempted x = None /\
    p_attempts (view h) !! a = Some (Story Permitted (at_late x) true false false)) \/
   (at_state x = "ATTEMPTED" /\ is_Some (at_permit x) /\ is_Some (at_attempted x) /\
    p_attempts (view h) !! a = Some (Story Sent (at_late x) true false false))).
Proof.
  intros Hi Hf Hn. destruct (stage_live x (inv_stage _ _ _ _ Hi Hf) Hn) as (Ht & Ha & Hr & Hc). split; [done|].
  rewrite (view_found _ _ _ Hf). unfold view_attempt, stage_of. rewrite Ht, Ha, Hr.
  destruct Hc as [(-> & Hp & Hq)|[(-> & [p Hp] & Hq)|(-> & [p Hp] & [q Hq])]]; rewrite Hp, Hq; cbn; eauto 12.
Qed.
(** The view of one that ended. *)
Lemma view_ended done h a x t : inv done h -> attempt_of a h = Some x -> at_terminal x = Some t ->
  p_attempts (view h) !! a =
    Some (Story (Ended (outcome_of (decision_of t))) (at_late x) (is_some (at_permit x)) (is_some (at_allow x))
            (is_some (at_release x))) /\ decision_of t ∈ TERMINAL.
Proof.
  intros Hi Hf Ht. rewrite (view_found _ _ _ Hf). unfold view_attempt, stage_of. rewrite Ht. split; [done|].
  apply (stage_settled x t (inv_stage _ _ _ _ Hi Hf) Ht).
Qed.
Tactic Notation "live_at" constr(Hi) constr(O) "by" tactic3(tac) :=
  destruct (view_live _ _ _ _ Hi O) as ((Ht & Ha & Hr) & [(Es & Hp & Hq & Hv)|[(Es & [pm Hp] & Hq & Hv)|(Es & [pm Hp] & [sent Hq] & Hv)]]);
  [tac|..].
Ltac not_terminal := idtac; match goal with H : at_state _ = _ |- _ => rewrite H; not_in end.

Lemma auth_step r h h' : on_auth (aid_of r) r h = Ok (inr h') -> pstep (Intend (aid_of r)) (view h) (view h').
Proof.
  intros Hs. unfold on_auth in Hs. cbv zeta in Hs. whens Hs. injection Hs as <-. bools.
  rewrite view_set, view_own. apply p_intend; [by apply draining_moving| |].
  - cbn. rewrite view_lookup. match goal with H : is_some (attempt_of _ _) = false |- _ => apply is_some_false in H end.
    unfold attempt_of in *. by match goal with H : find_attempt _ _ = None |- _ => rewrite H end.
  - cbn [p_admission view]. unfold admission_of. destruct (h_state h), (h_kill h); cbn; split; done.
Qed.
Lemma permit_step done r h h' : inv done h -> on_permit (aid_of r) r h = Ok (inr h') ->
  pstep (Permit (aid_of r)) (view h) (view h').
Proof.
  intros Hi Hs. unfold on_permit in Hs. cbv zeta in Hs. whens Hs. injection Hs as <-. bools.
  live_at Hi O by not_terminal; try congruence. rewrite view_set, view_own. unfold view_attempt, stage_of. cbn.
  rewrite Ht, Ha, Hr, Hq. match goal with H : at_late a = false |- _ => rewrite H in * end.
  apply p_permit; [by apply draining_moving|done].
Qed.
Lemma send_step done r h h' : inv done h -> on_attempted (aid_of r) r h = Ok (inr h') ->
  pstep (Send (aid_of r)) (view h) (view h').
Proof.
  intros Hi Hs. unfold on_attempted in Hs. cbv zeta in Hs. whens Hs. injection Hs as <-. bools.
  live_at Hi O by not_terminal; try congruence. rewrite view_set. unfold view_attempt, stage_of. cbn.
  rewrite Ht, Ha, Hr, Hp. apply p_send; [|done]. cbn. unfold admission_of.
  by match goal with H : h_state h = RUNNING |- _ => rewrite H end.
Qed.
Lemma end_step done r h h' : inv done h -> on_terminal (decision_of r) (aid_of r) r h = Ok (inr h') ->
  pstep (End (aid_of r) (outcome_of (decision_of r))) (view h) (view h').
Proof.
  intros Hi Hs. unfold on_terminal in Hs. whens Hs. injection Hs as <-. bools.
  match goal with H : legal_terminal _ _ = true |- _ => apply legal_cases in H; rename H into Hl end.
  assert (forall d, d ∈ [FAILED; CANCELLED] -> outcome_of d = Failed \/ outcome_of d = Cancelled) as Ho
    by (intros d Hd; elems Hd; subst d; vm_compute; auto).
  assert (at_state a ∉ TERMINAL) as Hn.
  { destruct Hl as [[Hl _]|[-> _]]; [elems Hl; rewrite Hl|]; not_in. }
  live_at Hi O by (exact Hn); rewrite view_set; unfold view_attempt, stage_of; cbn; rewrite Ha, Hr, Hp; cbn;
    (eapply p_end; [by apply draining_moving|exact Hv|]); cbn; try done;
    (destruct Hl as [[_ Hl]|[Hl _]]; [by apply Ho|congruence]).
Qed.
Lemma allow_step done r h h' : inv done h -> on_allow (aid_of r) r h = Ok (inr h') ->
  pstep (Allow (aid_of r)) (view h) (view h').
Proof.
  intros Hi Hs. unfold on_allow in Hs. whens Hs. injection Hs as <-. bools.
  match goal with H : completed a = true |- _ => apply completed_true in H as (t & Ht & Hd) end.
  match goal with H : is_some (at_allow a) = false |- _ => apply is_some_false in H; rename H into Ha end.
  pose proof (stage_settled a t (inv_stage _ _ _ _ Hi O) Ht) as (_ & _ & Hp & Hq & _ & Hr).
  destruct (Hp (Hq ltac:(rewrite Hd; is_in))) as [p Hpm]. destruct (view_ended _ _ _ _ _ Hi O Ht) as [Hv _].
  rewrite view_set. unfold view_attempt, stage_of. cbn. rewrite Ht, Hd, Hpm in *. cbn in Hv |- *. rewrite Ha in Hv.
  destruct (at_release a) as [l|]; [by destruct (proj2 (Hr ltac:(by eexists)) eq_refl); congruence|].
  apply p_allow; [by apply draining_moving|exact Hv].
Qed.
Lemma release_step done r h h' : inv done h -> on_release (aid_of r) r h = Ok (inr h') ->
  pstep (Release (aid_of r)) (view h) (view h').
Proof.
  intros Hi Hs. unfold on_release in Hs. cbv zeta in Hs. whens Hs. injection Hs as <-. bools.
  match goal with H : is_some (at_terminal a) = true |- _ => destruct (at_terminal a) as [t|] eqn:Ht; [clear H|done] end.
  match goal with H : is_some (at_release a) = false |- _ => apply is_some_false in H; rename H into Hr end.
  match goal with H : at_permit a = Some _ |- _ => rename H into Hp end.
  destruct (view_ended _ _ _ _ _ Hi O Ht) as [Hv Hd]. rewrite view_set, view_own. unfold view_attempt, stage_of. cbn.
  rewrite Hp, Hr in *. apply p_release; [by apply draining_moving|exact Hv|].
  intros Ho. apply outcome_completed in Ho; [|done]. unfold completed in *. rewrite Ht, Ho in *. cbn in *.
  match goal with H : negb (is_some (at_allow a)) = false |- _ => by destruct (at_allow a) end.
Qed.

(** Every attempt of a history is settled once the kill's three lists are empty. *)
Lemma all_settled done h : inv done h -> incomplete_attempts h = [] -> missing_allows h = [] -> missing_releases h = [] ->
  map_Forall (fun _ => settled) (p_attempts (view h)).
Proof.
  intros Hi H1 H2 H3 a s Hs. cbn in Hs. rewrite view_lookup in Hs. apply fmap_Some in Hs as (x & Hf & ->).
  change (attempt_of a h = Some x) in Hf.
  pose proof (keys_where_nil _ _ _ _ H1 Hf) as E1. pose proof (keys_where_nil _ _ _ _ H2 Hf) as E2.
  pose proof (keys_where_nil _ _ _ _ H3 Hf) as E3. cbn in E1, E2, E3. unfold settled, view_attempt, stage_of. cbn.
  destruct (at_terminal x) as [t|] eqn:Et; [|done]. destruct (stage_settled x t (inv_stage _ _ _ _ Hi Hf) Et) as (_ & Hd & _).
  split_and!.
  - by eexists.
  - intros [= Hc%outcome_completed]; [|done]. unfold completed in E2. rewrite Et, Hc in E2. by destruct (at_allow x).
  - intros Hp. rewrite Hp in E3. by destruct (at_release x).
Qed.

Lemma startup_step done r h h' : phase done h -> decision_of r ∈ ["STARTUP"; "STARTUP_DEGRADED"; "STARTUP_FAILED"] ->
  on_startup (decision_of r) r h = Ok (inr h') ->
  (decision_of r = "STARTUP_FAILED" -> pstep Fail (view h) (view h')) /\
  (decision_of r <> "STARTUP_FAILED" -> view h' = view h).
Proof.
  intros Hp Hd Hs. unfold on_startup in Hs. whens Hs. bools. pose proof (ph_idle _ _ Hp) as Hi.
  assert (view h = proto0) as Hv.
  { unfold view, admission_of. repeat match goal with H : _ = _ |- _ => rewrite H; clear H end. by rewrite Hi by done. }
  elems Hd; rewrite Hd in *; cbn in Hs; whens Hs; injection Hs as <-; (split; [|]); intros Hx; try done.
  - unfold view, admission_of. cbn. match goal with H : h_state h = _ |- _ => rewrite H end. done.
  - rewrite Hv. unfold view. cbn. rewrite Hi by done. apply p_fail.
Qed.
Lemma linearize_step r h h' : on_linearized r h = Ok (inr h') -> h_kill h = None -> pstep Linearize (view h) (view h').
Proof.
  intros Hs Hk. unfold on_linearized in Hs. cbv zeta in Hs. whens Hs. injection Hs as <-. bools.
  unfold view, admission_of. cbn. rewrite Hk. match goal with H : h_state h = _ |- _ => rewrite H end. apply p_linearize.
Qed.
Lemma drain_step done r h h' : inv done h -> on_kill r h = Ok (inr h') -> pstep Drain (view h) (view h').
Proof.
  intros Hi Hs. unfold on_kill in Hs. cbv zeta in Hs. whens Hs. injection Hs as <-. bools.
  pose proof (all_settled done h Hi ltac:(done) ltac:(done) ltac:(done)) as Ha.
  unfold view, admission_of in *. cbn in *. match goal with H : h_state h = _ |- _ => rewrite H in * end.
  match goal with H : is_some (h_kill h) = false |- _ => rewrite H end. by apply p_drain.
Qed.
Lemma disposition_step r h h' : decision_of r ∈ [CANCEL_ACK; CANCEL_DRAIN_TIMEOUT] ->
  on_disposition (decision_of r) r h = Ok (inr h') ->
  pstep (if String.eqb (decision_of r) CANCEL_ACK then Acknowledge else Expire) (view h) (view h').
Proof.
  intros Hd Hs. unfold on_disposition in Hs. whens Hs. bools.
  assert (view h = Proto Drained (p_attempts (view h))) as Hv.
  { unfold view, admission_of. match goal with H : h_state h = _ |- _ => rewrite H end.
    by match goal with H : h_kill h = _ |- _ => rewrite H end. }
  rewrite Hv. destruct (String.eqb (decision_of r) CANCEL_ACK).
  - whens Hs. injection Hs as <-. apply p_acknowledge.
  - destruct (dindex r "closure_blockers"); [|discriminate]. cbn [rbind] in Hs. whens Hs. injection Hs as <-. apply p_expire.
Qed.
Lemma close_step r h h' : on_closed r h = Ok (inr h') -> pstep Close (view h) (view h').
Proof.
  intros Hs. unfold on_closed in Hs. whens Hs. injection Hs as <-. bools.
  unfold view, admission_of. cbn. match goal with H : h_state h = _ |- _ => rewrite H end. apply p_close.
Qed.

(** No kill record before the linearization. *)
Definition quiet (h : history) : Prop := h_state h = RUNNING \/ h_state h = REQUESTED -> h_kill h = None.
Lemma quiet_step r h h' : quiet h -> step r h = Ok (inr h') -> quiet h'.
Proof.
  intros Hq Hs. unfold step in Hs. cbv zeta in Hs.
  unfold on_startup, on_active, on_auth, on_permit, on_attempted, on_terminal, on_allow, on_release, on_linearized,
    on_kill, on_disposition, on_closed, on_terminated, on_blocked in Hs; cbv zeta in Hs.
  repeat match type of Hs with
  | Ok (inl _) = _ => discriminate Hs
  | (if ?b then _ else _) = _ => let W := fresh "W" in destruct b eqn:W; try discriminate Hs
  | match ?o with Some _ => _ | None => _ end = _ => destruct o; try discriminate Hs
  | rbind ?x _ = _ => destruct x; cbn [rbind] in Hs; try discriminate Hs
  end;
  injection Hs as <-; unfold quiet in *; cbn; try exact Hq; bools; intros [E|E];
    try discriminate E; try congruence; auto; change (h_state (set_active h)) with (h_state h) in *; congruence.
Qed.

(** ** The refinement *)

Lemma active_step done r h h' : inv done h -> quiet h -> decision_of r ∉ ["STARTUP"; "STARTUP_DEGRADED"; "STARTUP_FAILED"] ->
  on_active (decision_of r) (aid_of r) r h = Ok (inr h') -> pstep (act_of r) (view h) (view h').
Proof.
  intros Hi Hq Hn Hs. unfold on_active in Hs. unfold act_of. cbv zeta.
  destruct (String.eqb_spec (decision_of r) "STARTUP_FAILED") as [E|_]; [exfalso; apply Hn; rewrite E; is_in|].
  repeat match type of Hs with
  | (if String.eqb ?d ?x then _ else _) = _ => destruct (String.eqb_spec d x) as [Hd|_]
  | (if mem_str ?d ?l then _ else _) = _ =>
      let E := fresh in destruct (mem_str d l) eqn:E; [apply mem_str_spec in E; rename E into Hd|clear E]
  end; try discriminate Hs; rewrite ?Hd in *.
  - by apply auth_step.
  - by eapply permit_step.
  - by eapply send_step.
  - by eapply end_step.
  - by eapply allow_step.
  - by eapply release_step.
  - whens Hs. injection Hs as <-. bools. unfold view, admission_of. cbn.
    match goal with H : h_state h = _ |- _ => rewrite H end. apply p_request.
  - apply linearize_step with r; [done|]. unfold on_linearized in Hs. cbv zeta in Hs. whens Hs. bools. apply Hq. by right.
  - by eapply drain_step.
  - pose proof (disposition_step r h h' Hd Hs) as Hx.
    elems Hd; rewrite Hd in *; exact Hx.
  - by apply close_step in Hs.
  - unfold on_terminated in Hs. cbv zeta in Hs. whens Hs. injection Hs as <-. bools. rewrite view_set.
    match goal with |- pstep _ _ (put _ (view_attempt ?y) _) =>
      change (view_attempt y) with (view_attempt a) end.
    unfold put. rewrite insert_id by (by apply view_found). destruct (view h). apply p_note.
  - unfold on_blocked in Hs. repeat match type of Hs with (if ?b then _ else _) = _ => destruct b; [discriminate Hs|] end.
    injection Hs as <-. apply p_note.
Qed.
Lemma step_refines done r h h' : inv done h -> phase done h -> quiet h -> step r h = Ok (inr h') ->
  pstep (act_of r) (view h) (view h').
Proof.
  intros Hi Hp Hq Hs. unfold step in Hs. cbv zeta in Hs. fold (aid_of r) in Hs.
  destruct (bool_decide (h_state h = CLOSED)); [discriminate|].
  destruct (after_disposition (decision_of r) h); [discriminate|].
  destruct (mem_str (decision_of r) _) eqn:Em.
  - apply mem_str_spec in Em. destruct (startup_step _ _ _ _ Hp Em Hs) as [Hf Hn]. unfold act_of. cbv zeta.
    destruct (String.eqb_spec (decision_of r) "STARTUP_FAILED") as [E|E]; [by apply Hf|]. rewrite (Hn E).
    elems Em; rewrite Em in *; try done; apply p_note.
  - rewrite <- (view_active h). apply (active_step done _ (set_active h)); try done.
    intros Hx%mem_str_spec. congruence.
Qed.
Lemma steps_refine rs : forall done h h', inv done h -> phase done h -> quiet h -> steps rs h = Ok (inr h') ->
  prun (map act_of rs) (view h) (view h').
Proof.
  induction rs as [|r rs IH]; intros done h h' Hi Hp Hq Hs; cbn in Hs.
  - injection Hs as <-. apply prun_nil.
  - destruct (step r h) as [[b|h1]|e] eqn:E; try discriminate Hs. cbn in Hs.
    destruct (step_ok done r h h1 Hi Hp E) as [Hi1 Hp1]. eapply prun_cons; [by eapply step_refines|].
    eapply IH; [exact Hi1|exact Hp1|by eapply quiet_step|exact Hs].
Qed.

(** C6: the verifier implements the effect protocol. Every list of records that
    [_validate_history] steps through is, record by record, a run of the
    protocol from its initial state to the abstraction of the verifier's state;
    and the run of an accepted history ends closed, with every attempt settled. *)
Theorem verifier_refines_protocol rs h : steps rs history0 = Ok (inr h) ->
  prun (map act_of rs) proto0 (view h) /\
  (rs_status (conclude h) = "LOCAL_HISTORY_VALID" ->
     p_admission (view h) = Closed /\ map_Forall (fun _ => settled) (p_attempts (view h))).
Proof.
  intros Hs. destruct history0_ok as [Hi Hp]. split; [by eapply (steps_refine rs [] history0)|].
  intros Hc. destruct (steps_ok rs [] history0 h Hi Hp Hs) as [Hi' Hp'].
  destruct (conclude_valid h Hc) as (Hne & H1 & H2 & H3 & [E|E] & _); [|by apply (ph_failed _ _ Hp') in E].
  split; [|by eapply all_settled]. cbn. unfold admission_of. by rewrite E.
Qed.
