(* ===== verification/VerifyE10Scenario.v ===== *)
(** * The verifier on the evaluated run

    The log that the handler and the watcher of [Scenario] leave behind is
    accepted; the anchor built for it is proven. *)

From S2P Require Import Prelude.
From S2P Require Import PyStr.
From S2P Require Import Json.
From S2P Require Import Hash.
From S2P Require Import AuditLog.
From S2P Require Import AuditProps.
From S2P Require Import Addressing.
From S2P Require Import Resolver.
From S2P Require Import Pdp.
From S2P Require Import PdpProps.
From S2P Require Import Conc.
From S2P Require Import World.
From S2P Require Import Gateway.
From S2P Require Import System.
From S2P Require Import SystemProps.
From S2P Require Import Scenario.
From S2P Require Import Lifecycle.
From S2P Require Import E10Anchor.
From S2P Require Import VerifyE10.
From S2P Require Import VerifyE10Facts.
From S2P Require Import VerifyE10Props.
From S2P Require Import Protocol.
Open Scope Z_scope.

Definition log_ex : string := default "" (l_file (w_log w_closed)).
Definition records_ex : list dict := default [] (load_and_verify (Some log_ex)).
Definition valid_ex : result := match validate_history records_ex "run-1" with Ok h => h | Raise _ => only "" end.
Definition commit_ex : string := "0123456789abcdef0123456789abcdef01234567".
Definition key_ex : string := "0123456789abcdef0123456789abcdef".
Definition anchor_ex : dict :=
  match build_anchor log_ex "run-1" commit_ex key_ex "key-1" "2026-01-01T00:00:00Z" with Ok a => a | Raise _ => [] end.
(** The same records, the final newline replaced by a space. *)
Definition log_ex' : string := take (String.length log_ex - 1) log_ex ++ " ".
Definition inputs_ex (f key_path : string) : inputs :=
  Inputs (Some f) "run-1" "anchor.json" (Some (anchor_bytes anchor_ex)) key_path (Some key_ex) commit_ex "key-1" false.

Lemma load_ex : load_and_verify (Some log_ex) = Some records_ex.
Proof. vm_compute. reflexivity. Qed.
Lemma validate_ex : validate_history records_ex "run-1" = Ok valid_ex.
Proof. vm_compute. reflexivity. Qed.
Lemma status_ex : rs_status valid_ex = "LOCAL_HISTORY_VALID".
Proof. vm_compute. reflexivity. Qed.

Lemma accepted_history_complete_witness :
  exists a t, tracked records_ex "a1" (Some a) /\ at_terminal a = Some t /\
     (decision_of t = COMPLETED <-> is_Some (at_allow a)) /\ (is_Some (at_permit a) <-> is_Some (at_release a)).
Proof.
  refine (proj1 (accepted_history_complete records_ex "run-1" valid_ex validate_ex status_ex) "a1" _).
  vm_compute. discriminate.
Defined.
Lemma anchored_verification_binds_witness :
  log_ex <> log_ex' /\ String.length log_ex = String.length log_ex'.
Proof.
  split; [vm_compute; discriminate|].
  refine (proj1 (proj2 (proj2 (anchored_verification_binds (inputs_ex log_ex "k") (inputs_ex log_ex' "k") _ _ log_ex log_ex'
    _ _ eq_refl _ _ eq_refl eq_refl)))); vm_compute; reflexivity.
Defined.
Lemma built_anchor_verifies_witness :
  exists r, verify (inputs_ex log_ex "k") = Ok r /\ rs_status r = "PROVEN" /\ exit_code r = 0.
Proof.
  destruct (built_anchor_verifies log_ex records_ex valid_ex "run-1" commit_ex key_ex "key-1" "2026-01-01T00:00:00Z" anchor_ex
    "anchor.json" "k" load_ex validate_ex status_ex) as (r & Hr & Hs & _ & He).
  - vm_compute. reflexivity.
  - discriminate.
  - discriminate.
  - exists r. split; [exact Hr|]. split; assumption.
Defined.
Definition record_ex : dict := default [] (hd_error records_ex).
Lemma schema_types_witness : exists d, dget "decision" record_ex = Some (VStr d) /\ schema d <> None.
Proof.
  destruct (schema_types record_ex) as (d & req & all & Hd & Hs & _).
  - vm_compute. reflexivity.
  - exists d. split; [exact Hd|]. rewrite Hs. discriminate.
Defined.
Definition final_ex : history := match steps records_ex history0 with Ok (inr h) => h | _ => history0 end.
Lemma verifier_refines_protocol_witness :
  prun (map act_of records_ex) proto0 (view final_ex) /\ p_admission (view final_ex) = Closed.
Proof.
  assert (steps records_ex history0 = Ok (inr final_ex)) as Hs by (vm_compute; reflexivity).
  destruct (verifier_refines_protocol records_ex final_ex Hs) as [Hr Hc]. split; [exact Hr|].
  refine (proj1 (Hc _)). vm_compute. reflexivity.
Defined.

(** ** A schedule the verifier rejects

    The handler passes its last check, the cancellation is recorded, and the
    handler appends its attempt. Its socket is already shut down. The gateway
    closes the run properly; the verifier calls the attempt an effect after the
    cancellation, by the position of the record. *)

Definition raced_client : client := {|
  cl_ip := "10.1.2.3"; cl_target := "www.example.com:443"; cl_header := fun _ => None;
  cl_conn_id := "c1"; cl_attempt := "a1";
  cl_pdp_connect := env_ex; cl_pdp_request := env_ex; cl_pdp_recheck := env_ex;
  cl_leaf := Ok tt; cl_established := Ok tt; cl_load_chain := Ok tt; cl_settimeout := Ok tt;
  cl_handshake := Ok tt; cl_sni := Some "www.example.com"; cl_chunks := [Ok request_bytes];
  cl_up_context := Ok tt; cl_socket := Ok tt; cl_connect := Raise (OSError "Bad file descriptor"); cl_up_handshake := Ok tt;
  cl_up_send := Ok tt; cl_relay := [];
  cl_raw := 1; cl_tls := 2; cl_plain := 3; cl_up := 4; cl_alive := fun _ => true |}%nat.
Definition raced_system : system := [("a1", Handler [Connect raced_client]); ("k", Watcher kill_ex)].
Definition raced : list (thread unit) * world :=
  let '(h1, w1) := exec_n 19 (handle [Connect raced_client]) w_ex in
  let '(k1, w2) := exec_n 8 watcher_ex w1 in
  let '(w3, r3) := exec h1 w2 in
  let '(w4, r4) := exec k1 w3 in
  ([of_res r3; of_res r4], w4).
Lemma raced_reach : reach (start raced_system w_ex) raced.
Proof.
  unfold raced. set (p := handle [Connect raced_client]).
  pose proof (exec_n_reach 19 p (threads raced_system) 0 w_ex eq_refl) as R1.
  destruct (exec_n 19 p w_ex) as [h1 w1]. cbn [fst snd] in R1.
  pose proof (exec_n_reach 8 watcher_ex [h1; watcher_ex] 1 w1 eq_refl) as R2.
  destruct (exec_n 8 watcher_ex w1) as [k1 w2]. cbn [fst snd] in R2.
  pose proof (exec_reach h1 [h1; k1] 0 w2 eq_refl) as R3. destruct (exec h1 w2) as [w3 r3]. cbn [fst snd] in R3.
  pose proof (exec_reach k1 [of_res r3; k1] 1 w3 eq_refl) as R4. destruct (exec k1 w3) as [w4 r4]. cbn [fst snd] in R4.
  etrans; [exact R1|]. etrans; [exact R2|]. etrans; [exact R3|exact R4].
Qed.
Definition raced_records : list dict := default [] (load_and_verify (l_file (w_log raced.2))).
Definition raced_result : result := match validate_history raced_records "run-1" with Ok h => h | Raise _ => only "" end.
Lemma raced_run_rejected :
  reach (start raced_system w_ex) raced /\ Forall finished raced.1 /\
  l_sealed (w_log raced.2) = true /\
  exists rs res, load_and_verify (l_file (w_log raced.2)) = Some rs /\ validate_history rs "run-1" = Ok res /\
    rs_status res = "POST_CANCELLATION_EFFECT".
Proof.
  split; [apply raced_reach|]. split.
  { unfold raced. destruct (exec_n 19 _ _) as [h1 w1], (exec_n 8 _ w1) as [k1 w2], (exec h1 w2) as [w3 r3], (exec k1 w3) as [w4 r4].
    constructor; [by destruct r3|]. constructor; [by destruct r4|constructor]. }
  split; [vm_compute; reflexivity|]. exists raced_records, raced_result. split_and!; vm_compute; reflexivity.
Qed.

(** ** Runs the gateway allows and the verifier rejects

    One request, relayed, then a kill that closes the run properly: what the
    gateway decides on and what the verifier compares are not always the same
    text. Each of the three runs ends sealed, with its chain intact. *)

Section Client.
Variable c : client.
Definition closed_system : system := [("a1", Handler [Connect c]); ("k", Watcher kill_ex)].
Definition closed_handled : world * res unit := exec (handle [Connect c]) w_ex.
Definition closed_ts : list (thread unit) := <[0%nat := of_res closed_handled.2]> (threads closed_system).
Definition closed_run : world * res unit := exec watcher_ex closed_handled.1.
Definition closed_end : list (thread unit) * world := (<[1%nat := of_res closed_run.2]> closed_ts, closed_run.1).
Lemma closed_reach : reach (start closed_system w_ex) closed_end.
Proof.
  etrans.
  - exact (exec_reach (handle [Connect c]) (threads closed_system) 0%nat w_ex eq_refl).
  - exact (exec_reach watcher_ex closed_ts 1%nat closed_handled.1 eq_refl).
Qed.
Lemma closed_finished : Forall finished closed_end.1.
Proof.
  unfold closed_end, closed_ts. destruct closed_handled as [w1 r1], closed_run as [w2 r2].
  constructor; [by destruct r1|]. constructor; [by destruct r2|constructor].
Qed.
(** The verdict on the log it leaves. *)
Definition verdict : option string :=
  rs ← load_and_verify (l_file (w_log closed_end.2)); match validate_history rs "run-1" with Ok h => Some (rs_status h) | Raise _ => None end.
End Client.

(** A client that differs from [client_ex] in the name it indicates, the bytes it sends
    and the answer it gets. *)
Definition asking (sni request answer : string) : client := {|
  cl_ip := "10.1.2.3"; cl_target := "www.example.com:443"; cl_header := fun _ => None;
  cl_conn_id := "c1"; cl_attempt := "a1";
  cl_pdp_connect := env_ex; cl_pdp_request := env_ex; cl_pdp_recheck := env_ex;
  cl_leaf := Ok tt; cl_established := Ok tt; cl_load_chain := Ok tt; cl_settimeout := Ok tt;
  cl_handshake := Ok tt; cl_sni := Some sni; cl_chunks := [Ok request];
  cl_up_context := Ok tt; cl_socket := Ok tt; cl_connect := Ok tt; cl_up_handshake := Ok tt;
  cl_up_send := Ok tt; cl_relay := [RelayTurn false (Ok answer) (Ok tt)];
  cl_raw := 1; cl_tls := 2; cl_plain := 3; cl_up := 4; cl_alive := fun _ => true |}%nat.
Definition plain_client : client := asking "www.example.com" request_bytes "HTTP/1.1 200 OK".
(** [status_of] reads the sign of the status; the schema takes no integer below 0. *)
Definition negative_client : client := asking "www.example.com" request_bytes "HTTP/1.1 -1 OK".
(** The intent has the method in capitals, as the decision point read it; the records of
    the outcome have it as it was sent. *)
Definition lowercase_client : client :=
  asking "www.example.com" ("get /a HTTP/1.1" ++ crlf ++ "Host: www.example.com" ++ crlf ++ crlf) "HTTP/1.1 200 OK".
(** The gateway compares the canonical form of the indicated name, the verifier its text. *)
Definition capital_client : client := asking "WWW.Example.com" request_bytes "HTTP/1.1 200 OK".
Example texts_compared :
  verdict plain_client = Some "LOCAL_HISTORY_VALID" /\
  verdict negative_client = Some "MALFORMED_RECORD_SCHEMA" /\
  verdict lowercase_client = Some "BINDING_MISMATCH" /\
  verdict capital_client = Some "BINDING_MISMATCH" /\
  forallb (fun c => l_sealed (w_log (closed_end c).2)) [negative_client; lowercase_client; capital_client] = true.
Proof. split_and!; vm_compute; reflexivity. Qed.

(** A credential named none, one whose name holds a space, and one whose secret is empty;
    a failing trust store. *)
Definition credential (secret : string) : val :=
  VDict [("program_id", VStr "p"); ("asset_id", VStr "*"); ("destinations", VList [VStr "www.example.com"]); ("secret", VStr secret)].
Definition policy_cred : val := VDict
  [ ("networks", VDict [("10.0.0.0/8", VStr "p")]); ("programs", VDict [("p", prog_ex)]); ("policy_generation", VStr "g1");
    ("credentials", VDict [("none", credential "s3cret"); ("blank", credential ""); ("api key", credential "s3cret"); ("api", credential "s3cret")]) ].
Definition env_cred : pdp_env := PdpEnv (Ok policy_cred) false (VInt 100) resolve_ex.
Definition with_credential (name : string) : client := {|
  cl_ip := "10.1.2.3"; cl_target := "www.example.com:443";
  cl_header := fun k => if String.eqb k "X-Strix-Cred" then Some name else None;
  cl_conn_id := "c1"; cl_attempt := "a1";
  cl_pdp_connect := env_cred; cl_pdp_request := env_cred; cl_pdp_recheck := env_cred;
  cl_leaf := Ok tt; cl_established := Ok tt; cl_load_chain := Ok tt; cl_settimeout := Ok tt;
  cl_handshake := Ok tt; cl_sni := None; cl_chunks := [Ok request_bytes];
  cl_up_context := Ok tt; cl_socket := Ok tt; cl_connect := Ok tt; cl_up_handshake := Ok tt;
  cl_up_send := Ok tt; cl_relay := [RelayTurn false (Ok "HTTP/1.1 200 OK") (Ok tt)];
  cl_raw := 1; cl_tls := 2; cl_plain := 3; cl_up := 4; cl_alive := fun _ => true |}%nat.
Definition trustless_client : client := {|
  cl_ip := "10.1.2.3"; cl_target := "www.example.com:443"; cl_header := fun _ => None;
  cl_conn_id := "c1"; cl_attempt := "a1";
  cl_pdp_connect := env_ex; cl_pdp_request := env_ex; cl_pdp_recheck := env_ex;
  cl_leaf := Ok tt; cl_established := Ok tt; cl_load_chain := Ok tt; cl_settimeout := Ok tt;
  cl_handshake := Ok tt; cl_sni := None; cl_chunks := [Ok request_bytes];
  cl_up_context := Raise (PyExn "FileNotFoundError" ""); cl_socket := Ok tt; cl_connect := Ok tt; cl_up_handshake := Ok tt;
  cl_up_send := Ok tt; cl_relay := [];
  cl_raw := 1; cl_tls := 2; cl_plain := 3; cl_up := 4; cl_alive := fun _ => true |}%nat.
Example credentials_compared :
  verdict (with_credential "api") = Some "LOCAL_HISTORY_VALID" /\
  verdict (with_credential "none") = Some "BINDING_MISMATCH" /\
  verdict (with_credential "blank") = Some "BINDING_MISMATCH" /\
  verdict (with_credential "api key") = Some "CREDENTIAL_LEAK" /\
  verdict trustless_client = Some "INCOMPLETE_ATTEMPT".
Proof. split_and!; vm_compute; reflexivity. Qed.
