(* ===== verification/Evidence.v ===== *)
(** * Evidence of a run ([src/pep/verify_pp18.py], [stamp_artifacts.py], [collect_artifacts.py])

    How the host's tools read the audit log, which records they take to be of the
    run, and the binding of an artifact to a run by the control plane. *)

From S2P Require Import Prelude.
From S2P Require Import PyStr.
From S2P Require Import Json.
From S2P Require Import PyDyn.
From S2P Require Import IpAddr.
From S2P Require Import AuditLog.
From S2P Require Import E10Anchor.
Open Scope Z_scope.

(** ** Reading the log *)

(** Iterating a text file: its lines end at a newline, a carriage return or
    both.  The text is its code points; [loads] reads their encoding. *)
Fixpoint strict_lines (lines : list string) (recs : list val) (bad : Z) : list val * Z :=
  match lines with
  | [] => (recs, bad)
  | raw :: rest =>
      let ln := str_strip raw in
      if String.eqb ln "" then strict_lines rest recs bad else
      match loads (utf8 ln) with
      | Some v => strict_lines rest (recs ++ [v])%list bad
      | None => strict_lines rest recs (bad + 1)
      end
  end.
(** [None] is a file that cannot be opened. *)
Definition load_strict (audit : option string) : list val * Z :=
  match audit with
  | None => ([], -1)
  | Some text => strict_lines (splitlines "" text) [] 0
  end.

(** [str(e.get(k, ""))]. *)
Definition text_of (k : string) (e : dict) : string := py_str (dget_or k (VStr "") e).
Definition in_run (run_id : string) (e : dict) : bool := String.eqb (text_of "run_id" e) run_id.
Definition is_decision (d : string) (e : dict) : bool := py_eqb (fld "decision" e) (VStr d).
(** The records of the run; [.get] of a record that is no object raises. *)
Definition scope (run_id : string) (recs : list val) : res (list dict) :=
  es <- rmap as_dict recs;; Ok (List.filter (in_run run_id) es).
(** The records of an acceptance row that name their connection. *)
Definition owners (row : string) (scoped : list dict) : list dict :=
  List.filter (fun e => String.eqb (text_of "row_id" e) row && truthy (fld "conn_id" e)) scoped.
Definition kills (scoped : list dict) : list dict := List.filter (is_decision "KILL_SWITCH") scoped.
(** [e.get("terminated_conn_ids") or []], each element as [str]. *)
Definition torn_of (e : dict) : res (list string) :=
  let v := fld "terminated_conn_ids" e in
  if truthy v then l <- v_iter v;; Ok (map py_str l) else Ok [].
Definition killed (scoped : list dict) : res (list string) :=
  ls <- rmap torn_of (kills scoped);; Ok (concat ls).
Definition conn_of (e : dict) : string := py_str (fld "conn_id" e).
(** [a & b] of two sets, in the order of [a]. *)
Definition meet (a b : list string) : list string := List.filter (fun s => mem_str s b) a.
(** [sorted(s)[0]]. *)
Fixpoint least (l : list string) : option string :=
  match l with
  | [] => None
  | x :: l' => Some match least l' with Some y => if String.leb x y then x else y | None => x end
  end.
Definition is_v6_text (v : val) : bool :=
  match ip_address (py_str v) with Some a => is_v6 a | None => false end.

(** ** PP18 ([verify_pp18.verify]) *)

Module Pp18.
Definition ROW : string := "PP18".
(** More than one nonce. *)
Definition conflicting (nonces : list string) : bool :=
  match nonces with [] => false | n :: rest => existsb (fun m => negb (String.eqb n m)) rest end.
Definition verify (audit : option string) (run_id : string) : res string :=
  let '(recs, bad) := load_strict audit in
  if negb (bad =? 0) then Ok "AUDIT_UNREADABLE_OR_TRUNCATED" else
  if String.eqb run_id "" then Ok "NO_RUN_ID" else
  scoped <- scope run_id recs;;
  if bool_decide (scoped = []) then Ok "NO_RECORDS_FOR_RUN" else
  let os := owners ROW scoped in
  if bool_decide (os = []) then Ok "NO_MATCHING_CONNECTION" else
  let nonces := map (text_of "test_nonce") os in
  if mem_str "" nonces then Ok "NO_TEST_CORRELATION" else
  if conflicting nonces then Ok "NO_TEST_CORRELATION" else
  if bool_decide (kills scoped = []) then Ok "NO_KILL_RECORD" else
  torn <- killed scoped;;
  if bool_decide (torn = []) then Ok "KILL_RECORD_LISTS_NO_CONNECTIONS" else
  if bool_decide (meet (map conn_of os) torn = []) then Ok "TERMINATED_A_DIFFERENT_CONNECTION" else
  Ok "PROVEN".
Definition exit_code (status : string) : Z := if String.eqb status "PROVEN" then 0 else 1.
End Pp18.

(** ** Artifacts ([stamp_artifacts.py], [collect_artifacts.py]) *)

Definition populated (prior : val) : bool := negb (is_none prior || py_eqb prior (VStr "")).
Definition bind_run (run_id : string) (data : dict) : dict :=
  dset "run_id_source" (VStr "control-plane") (dset "run_id" (VStr run_id) data).
(** [stamp]: the artifact as it is rewritten and the status; [None] is a file
    that cannot be opened. *)
Definition stamp (file : option string) (run_id : string) : res (dict * string) :=
  match file with
  | None => Raise (OSError "open")
  | Some text =>
      match loads text with
      | None => Raise (ValErr "json")
      | Some (VDict data) =>
          let prior := fld "run_id" data in
          let data := if populated prior then dset "run_id_conflict" (VStr (py_str prior)) data else data in
          let data := bind_run run_id data in
          Ok (data, if dmem "run_id_conflict" data then "CONFLICT" else "ok")
      | Some _ => Raise (ValErr "artifact is not a JSON object")
      end
  end.
(** [main]: 0 when every artifact was stamped, a conflict included. *)
Definition stamp_all (run_id : string) (files : list (option string)) : Z :=
  if String.eqb run_id "" then 1
  else if forallb (fun f => is_ok (stamp f run_id)) files then 0 else 1.

(** What [os.path] and [os.lstat] say of a source, and its content.  [collect]
    decides; the copy itself is the operating system's.  The class of the parse
    error in the last refusal is not modelled. *)
Record source := Source {
  s_islink : bool; s_exists : bool; s_isfile : bool; s_nlink : Z; s_content : option string }.
Definition collect (s : source) : res string :=
  if s_islink s then Ok "REFUSED: symlink"
  else if negb (s_exists s) then Ok "MISSING"
  else if negb (s_isfile s) || negb (s_nlink s =? 1)
  then Ok ("REFUSED: not a regular single-linked file (nlink=" ++ show_Z (s_nlink s) ++ ")")
  else match s_content s with
       | None => Raise (OSError "open")
       | Some text =>
           match loads text with
           | Some (VDict _) => Ok "ok"
           | Some _ => Ok "REFUSED: not a JSON object"
           | None => Ok "REFUSED: unparseable JSON"
           end
       end.
Definition collect_all (sources : list source) : res Z :=
  rs <- rmap collect sources;; Ok (if forallb (String.eqb "ok") rs then 0 else 1).
