(* ===== verification/LayerB.v ===== *)
(** * Layer B against the audit ([src/pep/verify_layerb_audit.py])

    Rows B8 and B9 derived from the PEP's records, and the rows of the sandbox's
    file replaced by them. *)

From S2P Require Import Prelude.
From S2P Require Import PyStr.
From S2P Require Import Json.
From S2P Require Import PyDyn.
From S2P Require Import AuditLog.
From S2P Require Import Evidence.
Open Scope Z_scope.

Definition REQUIRED_ALLOW_FIELDS : list string :=
  ["pin_family"; "pin_ip"; "canonical_host"; "sni"; "request_hash"; "response_hash"].
Definition B8_ROWS : list string := ["B3"; "B5"].
Definition B9_ROW : string := "B6".

(** The result of a row: [conn_id] and [nonce] are [None] where the dict has none. *)
Record row := Row { w_status : string; w_detail : string; w_conn : val; w_nonce : val }.
Definition failed (status detail : string) : row := Row status detail VNull VNull.

(** The ALLOW records of the IPv6 rows. *)
Definition allows (scoped : list dict) : list dict :=
  List.filter (fun e => is_decision "ALLOW" e && mem_str (text_of "row_id" e) B8_ROWS) scoped.
Definition last_of (l : list dict) : dict := List.last l [].
Fixpoint commas (l : list string) : string :=
  match l with [] => "" | [x] => x | x :: l' => x ++ "," ++ commas l' end.
Definition missing (rec : dict) : list string :=
  List.filter (fun f => negb (truthy (fld f rec))) REQUIRED_ALLOW_FIELDS.
Definition b8_status (rec : dict) : string :=
  if negb (py_eqb (fld "pin_family" rec) (VStr "ipv6")) then "PIN_FAMILY_NOT_V6:" ++ py_str (fld "pin_family" rec)
  else if negb (bool_decide (missing rec = [])) then "MISSING:" ++ commas (missing rec)
  else if negb (is_v6_text (fld "pin_ip" rec)) then "PIN_NOT_V6:" ++ py_str (fld "pin_ip" rec)
  else if String.eqb (text_of "test_nonce" rec) "" then "NO_TEST_CORRELATION"
  else "PROVEN".
(** B8 and its nonce, when there is a record. *)
Definition b8 (run_id : string) (scoped : list dict) : row * option string :=
  if bool_decide (allows scoped = [])
  then (failed "NO_MATCHING_RECORD" ("no ALLOW with row_id in ('B3', 'B5') for run " ++ run_id), None)
  else
    let rec := last_of (allows scoped) in
    let nonce := text_of "test_nonce" rec in
    (Row (b8_status rec)
       ("run_id=" ++ run_id ++ " row_id=" ++ py_str (fld "row_id" rec) ++ " conn_id=" ++ py_str (fld "conn_id" rec) ++
        " pin=" ++ py_str (fld "pin_ip" rec) ++ " host=" ++ py_str (fld "canonical_host" rec) ++
        " sni=" ++ py_str (fld "sni" rec)) (fld "conn_id" rec) (VStr nonce), Some nonce).

(** [partial is not None and partial <= 0]. *)
Definition no_stream (partial : val) : res bool :=
  if is_none partial then Ok false else py_le partial (VInt 0).
Definition b9_status (b8_nonce : option string) (b9_nonce : string) (hit : list string) (partial : val) : res string :=
  if String.eqb b9_nonce "" then Ok "NO_TEST_CORRELATION"
  else if bool_decide (hit = []) then Ok "TERMINATED_A_DIFFERENT_CONNECTION"
  else match b8_nonce with
       | Some n => if negb (String.eqb n b9_nonce) then Ok ("NONCE_MISMATCH:" ++ n ++ "!=" ++ b9_nonce)
                   else dead <- no_stream partial;; Ok (if dead then "NO_LIVE_STREAM_BEFORE_KILL" else "PROVEN")
       | None => dead <- no_stream partial;; Ok (if dead then "NO_LIVE_STREAM_BEFORE_KILL" else "PROVEN")
       end.
Definition b9 (run_id : string) (scoped : list dict) (b8_nonce : option string) (client_info : val) : res row :=
  let os := owners B9_ROW scoped in
  torn <- killed scoped;;
  partial <- v_get "partial_bytes" client_info;;
  if bool_decide (os = [])
  then Ok (failed "NO_MATCHING_CONNECTION" ("no record with row_id=B6 in run " ++ run_id))
  else if bool_decide (kills scoped = [])
  then Ok (failed "NO_KILL_RECORD" "no KILL_SWITCH in this run")
  else if bool_decide (torn = [])
  then Ok (failed "KILL_RECORD_LISTS_NO_CONNECTIONS" ("kill_records=" ++ show_nat (length (kills scoped))))
  else
    let nonce := text_of "test_nonce" (last_of os) in
    let hit := meet (map conn_of os) torn in
    st <- b9_status b8_nonce nonce hit partial;;
    let conn := match least hit with Some c => VStr c | None => VNull end in
    Ok (Row st ("run_id=" ++ run_id ++ " conn_id=" ++ py_str conn ++ " killed_set=" ++
                show_nat (length (remove_dups torn)) ++ " nonce=" ++ nonce ++ " client_partial_bytes=" ++ py_str partial)
          conn (VStr nonce)).
Definition evaluate (audit : option string) (run_id : string) (client_info : val) : res (row * row) :=
  let '(recs, bad) := load_strict audit in
  if negb (bad =? 0) then
    let err := failed "AUDIT_UNREADABLE_OR_TRUNCATED" ("malformed_lines=" ++ show_Z bad) in Ok (err, err) else
  if String.eqb run_id "" then
    let err := failed "NO_RUN_ID" "control plane issued no run_id" in Ok (err, err) else
  scoped <- scope run_id recs;;
  if bool_decide (scoped = []) then
    let err := failed "NO_RECORDS_FOR_RUN" ("run_id=" ++ run_id ++ " absent") in Ok (err, err) else
  let '(r8, nonce) := b8 run_id scoped in
  r9 <- b9 run_id scoped nonce client_info;;
  Ok (r8, r9).

(** ** The rewritten file ([main]) *)

Definition row_of (tid desc : string) (r : row) : dict :=
  [ ("layer", VStr "B"); ("id", VStr tid); ("desc", VStr desc); ("expect", VStr "PROVEN"); ("got", VStr (w_status r));
    ("status", VStr (w_status r)); ("pass", VBool (String.eqb (w_status r) "PROVEN")); ("detail", VStr (w_detail r));
    ("conn_id", w_conn r); ("nonce", w_nonce r) ].
Definition desc8 : string := "audit proves enforcement for the IPv6 flow (run_id-scoped)".
Definition desc9 : string := "kill switch terminated THE connection that armed it (conn_id)".
Definition proven (r : dict) : bool := py_eqb (fld "status" r) (VStr "PROVEN").
Definition count_rows (p : dict -> bool) (rows : list dict) : val := VInt (Z.of_nat (length (List.filter p rows))).
(** The file the client wrote, unreadable ones as the empty object. *)
Definition client_of (file : option string) : val :=
  match file ≫= loads with Some v => v | None => VDict [] end.
Definition merge (run_id : string) (r8 r9 : row) (v : val) : res dict :=
  data <- as_dict v;;
  l <- v_iter (dget_or "rows" (VList []) data);;
  old <- rmap as_dict l;;
  let kept := List.filter (fun r => negb (existsb (py_eqb (fld "id" r)) [VStr "B8"; VStr "B9"])) old in
  let rows := (kept ++ [row_of "B8" desc8 r8; row_of "B9" desc9 r9])%list in
  let data := dset "rows" (VList (map VDict rows)) data in
  let prior := fld "run_id" data in
  let already_bound := py_eqb (fld "run_id_source" data) (VStr "control-plane") && String.eqb (py_str prior) run_id in
  let data := if populated prior && negb already_bound then dset "run_id_conflict" (VStr (py_str prior)) data else data in
  let data := bind_run run_id data in
  Ok (dset "total" (VInt (Z.of_nat (length rows))) (dset "passed" (count_rows proven rows) data)).
(** [main]: the file rewritten and the exit code. *)
Definition main (audit layerb client : option string) (run_id : string) : res (dict * Z) :=
  '(r8, r9) <- evaluate audit run_id (client_of client);;
  match layerb with
  | None => Raise (OSError "open")
  | Some text =>
      match loads text with
      | None => Raise (ValErr "json")
      | Some v =>
          data <- merge run_id r8 r9 v;;
          Ok (data, if py_eqb (fld "passed" data) (fld "total" data) then 0 else 1)
      end
  end.
