(* ===== verification/B7.v ===== *)
(** * The host's evidence for B7 ([src/pep/verify_b7_evidence.py])

    The summary's assertions and the re-derivation of its claims from the raw
    output of the apparatus: [derive] is the check E9 of the auditor. *)

From S2P Require Import Prelude.
From S2P Require Import PyStr.
From S2P Require Import Json.
From S2P Require Import PyDyn.
From S2P Require Import Hash.
From S2P Require Import AuditLog.
From S2P Require Import Evidence.
Open Scope Z_scope.

Definition SCHEMA : string := "strix-b7-e9-v1".
Definition REQUIRED_RAW : list string :=
  [ "attempt.pcap"; "receiver.jsonl"; "cal_receiver.jsonl"; "rules.before"; "rules.after"; "sandbox.inspect.json";
    "receiver.inspect.json"; "network-in.inspect.json"; "network-eg.inspect.json"; "host-links.json";
    "sandbox-ipv6-addr.json"; "sandbox-ipv6-route-before.json" ].

(** [need]: the codes of the checks that do not hold, in their order. *)
Definition needs (l : list (bool * string)) : list string := map snd (List.filter (fun p => negb p.1) l).
(** [e.get(k) or {}], used as a mapping. *)
Definition sub (k : string) (e : dict) : res dict := as_dict (v_or (fld k e) (VDict [])).
Definition is_true (v : val) : bool := match v with VBool b => b | _ => false end.
Definition is_false (v : val) : bool := match v with VBool b => negb b | _ => false end.
Definition int_val (v : val) : Z := match v with VInt z => z | VBool true => 1 | _ => 0 end.
Definition agree (d : dict) (expected : list (string * val)) : bool :=
  forallb (fun kv => py_eqb (fld kv.1 d) kv.2) expected.
(** The rows by [str(id)]: the last of an id counts. *)
Definition row_named (id : string) (rows : list dict) : dict :=
  List.last (List.filter (fun r => String.eqb (py_str (fld "id" r)) id) rows) [].

(** ** The summary ([validate_fixture_summary]) *)

Definition summary_failures (e layerb : dict) (run_id : string) : res (list string) :=
  sender <- sub "sender" e;; target <- sub "target" e;; probe <- sub "probe" e;;
  attempt <- sub "packet_attempt" e;; enforcement <- sub "enforcement" e;;
  controls <- sub "controls" e;; receiver <- sub "receiver" e;; cal <- sub "calibration" e;;
  l <- v_iter (v_or (fld "rows" layerb) (VList []));;
  rows <- rmap as_dict l;;
  let b3 := row_named "B3" rows in
  let port := fld "port" target in
  let nonce := text_of "nonce" probe in
  let expected := [("src_ip", fld "src_ip" sender); ("dst_ip", fld "ip" target); ("dst_port", port);
                   ("protocol", VStr "udp")] in
  let before := fld "packets_before" enforcement in
  let after := fld "packets_after" enforcement in
  let c1 := text_of "c1_nonce" controls in
  let c2 := text_of "c2_nonce" controls in
  Ok (needs
    [ (py_eqb (fld "schema_version" e) (VStr SCHEMA), "SCHEMA_MISMATCH");
      (py_eqb (fld "run_id" e) (VStr run_id), "RUN_ID_MISMATCH");
      (py_eqb (fld "run_id_source" e) (VStr "control-plane"), "NOT_CONTROL_PLANE_BOUND");
      (truthy (fld "container_id" sender) && truthy (fld "host_veth" sender) && truthy (fld "network_id" sender),
        "SENDER_IDENTITY_ABSENT");
      (is_v6_text (fld "src_ip" sender), "SENDER_NOT_IPV6");
      (is_v6_text (fld "ip" target) && is_true (fld "off_link" target), "TARGET_NOT_PROVEN_OFFLINK");
      (is_int port && (1024 <=? int_val port) && (int_val port <=? 65535), "TARGET_PORT_INVALID");
      (py_eqb (fld "protocol" probe) (VStr "udp") && is_hex64 nonce, "PROBE_TUPLE_INVALID");
      (is_true (fld "observed" attempt), "NO_HOST_PACKET_ATTEMPT");
      (agree attempt (expected ++ [("nonce", VStr nonce)])%list, "ATTEMPT_TUPLE_MISMATCH");
      (existsb (py_eqb (fld "source" attempt)) [VStr "tcpdump-host-veth"; VStr "host-bridge-capture"],
        "ATTEMPT_SOURCE_NOT_INDEPENDENT");
      (is_hex64 (text_of "pcap_sha256" attempt), "ATTEMPT_CAPTURE_UNBOUND");
      (py_eqb (fld "action" enforcement) (VStr "DROP") && is_true (fld "preexisting" enforcement),
        "ENFORCEMENT_NOT_PREEXISTING_DROP");
      (agree enforcement expected, "ENFORCEMENT_TUPLE_MISMATCH");
      (truthy (fld "rule_identity" enforcement), "ENFORCEMENT_RULE_ABSENT");
      (negb (py_eqb (fld "rule_identity" enforcement) (fld "rule_identity" attempt)), "ATTEMPT_AND_DROP_SAME_SOURCE");
      (is_int before && is_int after && (int_val after =? int_val before + 1), "EXACT_DROP_COUNTER_NOT_ONE");
      (is_hex64 c1 && is_hex64 c2 && bool_decide (NoDup [c1; nonce; c2]), "CONTROL_NONCES_INVALID");
      (is_true (fld "ready" receiver), "RECEIVER_NOT_READY");
      (is_true (fld "c1_seen" receiver) && is_true (fld "c2_seen" receiver), "RECEIVER_CONTROL_FAILED");
      (is_false (fld "measurement_seen" receiver), "MEASUREMENT_REACHED_RECEIVER");
      (is_hex64 (text_of "raw_log_sha256" receiver), "RECEIVER_LOG_UNBOUND");
      (truthy (fld "run_id" cal) && negb (py_eqb (fld "run_id" cal) (VStr run_id)), "CALIBRATION_RUN_NOT_DISTINCT");
      (is_true (fld "seen" cal), "CALIBRATION_NOT_DELIVERED");
      (py_eqb (fld "sender_sha256" cal) (fld "sender_script_sha256" e) &&
       py_eqb (fld "receiver_sha256" cal) (fld "receiver_script_sha256" e), "CALIBRATION_CODE_MISMATCH");
      (is_true (fld "b7_teardown" e), "B7_FIXTURE_NOT_TORN_DOWN");
      (py_eqb (fld "status" b3) (VStr "PROVEN") && is_true (fld "pass" b3), "B3_LIVENESS_NOT_PROVEN") ]).
Definition validate_fixture_summary (e layerb : val) (run_id : string) : res (bool * list string) :=
  e <- as_dict e;; layerb <- as_dict layerb;;
  fs <- summary_failures e layerb run_id;; Ok (bool_decide (fs = []), fs).

(** ** Text files

    Decoding, and lines as [str.splitlines] cuts them.  A string of the model
    holds code points below 256; U+FFFD, which replaces an undecodable byte in a
    rules file, is written as the character 255. *)
Fixpoint utf8_decode (replace : bool) (s : string) : option string :=
  match s with
  | EmptyString => Some ""
  | String c s' =>
      if is_ascii c then String c <$> utf8_decode replace s'
      else match s' with
           | String d s2 =>
               if in_range 194 195 c && in_range 128 191 d
               then String (chr ((code c - 192) * 64 + (code d - 128))) <$> utf8_decode replace s2
               else if replace then String (chr 255) <$> utf8_decode replace s' else None
           | EmptyString => if replace then Some (String (chr 255) "") else None
           end
  end.
Definition UnicodeDecodeError : exn := PyExn "UnicodeDecodeError" "utf-8".
Definition UnicodeEncodeError : exn := PyExn "UnicodeEncodeError" "ascii".
Definition JSONDecodeError : exn := PyExn "JSONDecodeError" "".
Definition line_end (c : ascii) : bool := in_range 10 13 c || in_range 28 30 c || (code c =? 133)%N.
Fixpoint str_lines (acc s : string) : list string :=
  match s with
  | EmptyString => if String.eqb acc "" then [] else [str_rev acc]
  | String c s' =>
      if line_end c then
        str_rev acc :: match s' with
                       | String d s2 => if Ascii.eqb c "013" && Ascii.eqb d "010" then str_lines "" s2 else str_lines "" s'
                       | EmptyString => []
                       end
      else str_lines (String c acc) s'
  end.
Definition read_text (f : string) : res string :=
  match utf8_decode false f with Some t => Ok t | None => Raise UnicodeDecodeError end.
Definition read_json (f : string) : res val :=
  t <- read_text f;; match loads (utf8 t) with Some v => Ok v | None => Raise JSONDecodeError end.
(** [json.loads(...)[0]], used as a mapping. *)
Definition read_first (f : string) : res dict :=
  v <- read_json f;;
  match v with
  | VList (x :: _) => as_dict x
  | VList [] | VStr "" => Raise (PyExn "IndexError" "index out of range")
  | VStr _ => Raise (AttrError "get")
  | VDict _ => Raise (KeyError "0")
  | _ => Raise (TypeError "not subscriptable")
  end.
(** The nonces of a JSONL log. *)
Definition nonces (f : string) : res (list string) :=
  t <- read_text f;;
  vs <- rmap (fun line => match loads (utf8 line) with Some v => v_get "nonce" v | None => Raise JSONDecodeError end)
          (str_lines "" t);;
  Ok (flat_map (fun v => match v with VStr s => [s] | _ => [] end) vs).

(** A rule with its packet and byte counters: [\[p:b\] rule]. *)
Definition digits (s : string) : option (Z * string) :=
  let '(ds, r) := span is_dec s in if String.eqb ds "" then None else Some (Z.of_N (read_N ds), r).
Definition rule_line (line : string) : option (string * (Z * Z)) :=
  match str_strip line with
  | String "[" s =>
      '(p, r) ← digits s;
      match r with
      | String ":" r1 =>
          '(b, r2) ← digits r1;
          match r2 with
          | String "]" (String c r3) => if c_isspace c then Some (lstrip c_isspace r3, (p, b)) else None
          | _ => None
          end
      | _ => None
      end
  | _ => None
  end.
Definition rules (f : string) : list (string * (Z * Z)) :=
  omap rule_line (str_lines "" (default "" (utf8_decode true f))).
(** The packets of a rule: the last line of a rule counts. *)
Definition packets (rule : string) (l : list (string * (Z * Z))) : option Z :=
  (fun rc => rc.2.1) <$> last (List.filter (fun rc => String.eqb rc.1 rule) l).

(** ** The raw checks *)

Definition andr (a : res bool) (b : res bool) : res bool := x <- a;; if x : bool then b else Ok false.
Fixpoint anyr (p : val -> res bool) (l : list val) : res bool :=
  match l with [] => Ok false | x :: l' => b <- p x;; if b : bool then Ok true else anyr p l' end.
(** [d.get(key, {})] with any key, used as a mapping. *)
Definition entry (key : val) (d : dict) : res dict :=
  if negb (hashable key) then Raise (TypeError "unhashable type") else
  match key with VStr k => as_dict (dget_or k (VDict []) d) | _ => Ok [] end.
Definition field (k : string) (d : dict) : res dict := v <- dindex d k;; as_dict v.
Definition ascii_text (v : val) : res string :=
  match v with
  | VStr s => if str_all is_ascii s then Ok s else Raise UnicodeEncodeError
  | _ => Raise (AttrError "encode")
  end.
Definition bridge_of (nin : dict) : res string :=
  options <- sub "Options" nin;;
  let name := fld "com.docker.network.bridge.name" options in
  if truthy name then Ok (py_str name) else
  v <- dindex nin "Id";;
  match v with VStr s => Ok ("br-" ++ take 12 s) | _ => Raise (TypeError "slice") end.

Section Raw.
Context `{Digest}.
(** The regular files of the raw directory. *)
Variable raw : string -> option string.

Definition raw_file (name : string) : string := default "" (raw name).
Definition hash_is (name : string) (v : val) : bool := py_eqb (VStr (sha256 (raw_file name))) v.
(** [v in nonces], the set of a log. *)
Definition seen (v : val) (l : list string) : res bool :=
  if hashable v then Ok (match v with VStr s => mem_str s l | _ => false end) else Raise (TypeError "unhashable type").
Definition raw_logs (e : dict) : res (list (bool * string)) :=
  probe <- field "probe" e;; nonce <- dindex probe "nonce";;
  attempt <- field "packet_attempt" e;;
  nonce <- ascii_text nonce;;
  rn <- nonces (raw_file "receiver.jsonl");; cn <- nonces (raw_file "cal_receiver.jsonl");;
  c <- field "controls" e;; cal <- field "calibration" e;; receiver <- field "receiver" e;;
  controls <- andr (seen (fld "c1_nonce" c) rn) (seen (fld "c2_nonce" c) rn);;
  delivered <- seen (fld "nonce" cal) cn;;
  Ok [ (hash_is "attempt.pcap" (fld "pcap_sha256" attempt), "PCAP_HASH_MISMATCH");
       (contains nonce (raw_file "attempt.pcap"), "NONCE_ABSENT_FROM_PCAP");
       (hash_is "receiver.jsonl" (fld "raw_log_sha256" receiver), "RECEIVER_RAW_HASH_MISMATCH");
       (controls, "RAW_RECEIVER_CONTROL_FAILED");
       (negb (mem_str nonce rn), "RAW_MEASUREMENT_REACHED_RECEIVER");
       (hash_is "cal_receiver.jsonl" (fld "raw_log_sha256" cal), "CAL_RAW_HASH_MISMATCH");
       (delivered, "RAW_CALIBRATION_NOT_DELIVERED") ].
Definition flow_tokens (sender target : dict) : res (list string) :=
  src <- dindex sender "src_ip";; ip <- dindex target "ip";; port <- dindex target "port";;
  Ok [ "-A PREROUTING"; "-s " ++ py_str src ++ "/128"; "-d " ++ py_str ip ++ "/128"; "-p udp";
       "--dport " ++ py_str port; "-j DROP" ].
(** The rule between the two snapshots, and the program's network. *)
Definition raw_rule (e sender target : dict) : res (dict * list (bool * string)) :=
  let rb := rules (raw_file "rules.before") in
  let ra := rules (raw_file "rules.after") in
  enforcement <- field "enforcement" e;;
  tokens <- flow_tokens sender target;;
  nin <- read_first (raw_file "network-in.inspect.json");;
  bridge <- bridge_of nin;;
  match dget_or "rule_identity" (VStr "") enforcement with
  | VStr rule =>
      run <- dindex e "run_id";;
      Ok (nin,
         [ (bool_decide (is_Some (packets rule rb)) && bool_decide (is_Some (packets rule ra)),
              "EXACT_RULE_NOT_IN_RAW_SNAPSHOTS");
           (forallb (fun t => contains t rule) (tokens ++ [("-i " ++ bridge)%string])%list, "RAW_RULE_NOT_EXACT_FLOW");
           (contains ("strix-b7:" ++ py_str run)%string rule, "RAW_RULE_RUN_LABEL_MISSING") ] ++
         match packets rule rb, packets rule ra with
         | Some b, Some a => [(a =? b + 1, "RAW_EXACT_COUNTER_NOT_ONE")]
         | _, _ => []
         end)%list
  | _ => Raise (TypeError "rule_identity is not a string")
  end.
Definition raw_topology (sender target nin : dict) : res (list (bool * string)) :=
  sbx <- read_first (raw_file "sandbox.inspect.json");;
  recv <- read_first (raw_file "receiver.inspect.json");;
  neg <- read_first (raw_file "network-eg.inspect.json");;
  identity <- andr (Ok (py_eqb (fld "Id" sbx) (fld "container_id" sender)))
                (st <- sub "State" sbx;; Ok (py_eqb (fld "Pid" st) (fld "container_pid" sender)));;
  links <- read_json (raw_file "host-links.json");; links <- v_iter links;;
  veth <- anyr (fun x => v <- v_get_or "ifname" (VStr "") x;;
                 match v with
                 | VStr s => Ok (py_eqb (VStr (partition "@" s).1.1) (fld "host_veth" sender))
                 | _ => Raise (AttrError "split")
                 end) links;;
  settings <- sub "NetworkSettings" sbx;; nets <- sub "Networks" settings;; inrec <- entry (fld "Name" nin) nets;;
  rsettings <- sub "NetworkSettings" recv;; rnets <- sub "Networks" rsettings;; erec <- entry (fld "Name" neg) rnets;;
  routes <- read_json (raw_file "sandbox-ipv6-route-before.json");; routes <- v_iter routes;;
  routed <- anyr (fun x => v <- v_get "dst" x;; Ok (String.eqb (py_str v) (py_str (fld "ip" target) ++ "/128"))) routes;;
  Ok [ (identity, "RAW_SENDER_IDENTITY_MISMATCH");
       (py_eqb (fld "Id" nin) (fld "network_id" sender) && py_eqb (fld "Id" neg) (fld "network_id" target),
         "RAW_NETWORK_ID_MISMATCH");
       (veth, "RAW_HOST_VETH_ABSENT");
       (py_eqb (VStr (py_str (fld "GlobalIPv6Address" inrec))) (fld "src_ip" sender), "RAW_SENDER_IPV6_MISMATCH");
       (negb (py_eqb (fld "network_id" target) (fld "network_id" sender)), "RAW_TARGET_NOT_OFFLINK");
       (py_eqb (VStr (py_str (fld "GlobalIPv6Address" erec))) (fld "ip" target), "RAW_TARGET_IPV6_MISMATCH");
       (negb routed, "RAW_TARGET_ALREADY_ROUTED") ].
Definition raw_checks (e : dict) : res (list string) :=
  if negb (forallb (fun n => bool_decide (is_Some (raw n))) REQUIRED_RAW)
  then Ok ["RAW_ARTIFACTS_ABSENT_OR_UNSAFE"] else
  sender <- field "sender" e;; target <- field "target" e;;
  logs <- raw_logs e;;
  '(nin, rule) <- raw_rule e sender target;;
  topology <- raw_topology sender target nin;;
  Ok (needs (logs ++ rule ++ topology)%list).
End Raw.

(** ** [derive] *)

(** [raw_dir] is the contents of the raw directory when it is one. *)
Definition derive `{Digest} (e layerb : val) (run_id : string) (raw_dir : option (string -> option string))
    : bool * list string :=
  match raw_dir with
  | None => (false, ["RAW_DIRECTORY_ABSENT_OR_UNSAFE"])
  | Some raw =>
      match ('(_, fs) <- validate_fixture_summary e layerb run_id;;
             d <- as_dict e;; rs <- raw_checks raw d;; Ok (fs ++ rs)%list) with
      | Ok fs => (bool_decide (fs = []), fs)
      | Raise x => (false, ["RAW_REDERIVATION_FAILED:" ++ exn_cls x])
      end
  end.

(** [load]: the text of a file, which may not be readable, as an object. *)
Definition load (file : res string) : res val :=
  bytes <- file;; v <- read_json bytes;; match v with VDict _ => Ok v | _ => Raise (ValErr "evidence is not a JSON object") end.
Definition result_of (r : bool * list string) : dict :=
  [ ("check", VStr "E9"); ("pass", VBool r.1); ("status", VStr (if r.1 then "PROVEN" else "NOT_PROVEN"));
    ("failures", VList (map VStr r.2)) ].
(** [main]: the result and the exit code; writing the result may raise. *)
Definition main `{Digest} (evidence layerb : res string) (run_id : string) (raw_dir : option (string -> option string))
    (json_out : res unit) : res (dict * Z) :=
  let r := match (e <- load evidence;; l <- load layerb;; Ok (derive e l run_id raw_dir)) with
           | Ok r => r
           | Raise x => (false, ["UNREADABLE:" ++ exn_cls x])
           end in
  _ <- json_out;; Ok (result_of r, if r.1 then 0 else 1).
