(* ===== verification/Regex.v ===== *)
(** * The part of [re] the auditor uses

    Patterns of characters, word boundaries, alternatives and repetitions.
    [matches] says declaratively which text a pattern covers, given the character
    before it; [search] decides whether a pattern occurs, by backtracking. *)

From S2P Require Import Prelude.
From S2P Require Import PyStr.

(** ** Patterns *)

Inductive re :=
| Char (p : ascii -> bool)
| Boundary
| Eps
| Seq (a b : re)
| Alt (a b : re)
| Star (a : re).
(** [\w] and [\s] of a [str] pattern; a letter of a case-insensitive one. *)
Definition is_word (c : ascii) : bool :=
  is_dec c || in_range 65 90 c || in_range 97 122 c || Ascii.eqb c "_" ||
  existsb (N.eqb (code c)) [170; 178; 179; 181; 185; 186; 188; 189; 190]%N ||
  (in_range 192 255 c && negb (code c =? 215)%N && negb (code c =? 247)%N).
Definition letter (x : ascii) : re := Char (fun c => Ascii.eqb (c_lower c) x).
Fixpoint word (s : string) : re := match s with EmptyString => Eps | String c s' => Seq (letter c) (word s') end.
Definition spaces : re := Star (Char c_isspace).
Definition word_chars : re := Star (Char is_word).
Fixpoint any_of (l : list re) : re := match l with [] => Char (fun _ => false) | [a] => a | a :: l' => Alt a (any_of l') end.
Fixpoint seq_of (l : list re) : re := match l with [] => Eps | a :: l' => Seq a (seq_of l') end.

(** ** Matching *)

(** The character before the rest of the text. *)
Definition word_at (o : option ascii) : bool := match o with Some c => is_word c | None => false end.
Definition head_of (s : string) : option ascii := match s with EmptyString => None | String c _ => Some c end.
Definition boundary (prev : option ascii) (s : string) : bool := xorb (word_at prev) (word_at (head_of s)).
Abbreviation cont := (option ascii -> string -> bool).
(** Conditionals, not [||] and [&&], so that nothing is tried in vain. *)
(** Iterations of [f], each of which consumes. *)
Fixpoint star (f : cont -> cont) (k : cont) (n : nat) : cont := fun prev s =>
  match n with
  | O => false
  | S n' => if k prev s then true
           else f (fun prev' s' => if Nat.ltb (String.length s') (String.length s) then star f k n' prev' s' else false) prev s
  end.
Fixpoint match_at (r : re) (k : cont) : cont := fun prev s =>
  match r with
  | Char p => match s with EmptyString => false | String c s' => if p c then k (Some c) s' else false end
  | Boundary => if boundary prev s then k prev s else false
  | Eps => k prev s
  | Seq a b => match_at a (match_at b k) prev s
  | Alt a b => if match_at a k prev s then true else match_at b k prev s
  | Star a => star (match_at a) k (S (String.length s)) prev s
  end.
(** [re.search]. *)
Fixpoint search_from (r : re) (prev : option ascii) (s : string) : bool :=
  if match_at r (fun _ _ => true) prev s then true else
  match s with EmptyString => false | String c s' => search_from r (Some c) s' end.
Definition search (r : re) (s : string) : bool := search_from r None s.

Lemma either (a b : bool) : (if a then true else b) = true <-> a = true \/ b = true.
Proof. exact (orb_true_iff a b). Qed.
Lemma both (a b : bool) : (if a then b else false) = true <-> a = true /\ b = true.
Proof. exact (andb_true_iff a b). Qed.

(** ** What a pattern covers *)

(** From the text [s] after the character [p] to [s'] after [p']. *)
Inductive matches : re -> option ascii -> string -> option ascii -> string -> Prop :=
| ma_char f p c s : f c = true -> matches (Char f) p (String c s) (Some c) s
| ma_boundary p s : boundary p s = true -> matches Boundary p s p s
| ma_eps p s : matches Eps p s p s
| ma_seq a b p s p1 s1 p2 s2 : matches a p s p1 s1 -> matches b p1 s1 p2 s2 -> matches (Seq a b) p s p2 s2
| ma_left a b p s p' s' : matches a p s p' s' -> matches (Alt a b) p s p' s'
| ma_right a b p s p' s' : matches b p s p' s' -> matches (Alt a b) p s p' s'
| ma_done a p s : matches (Star a) p s p s
| ma_more a p s p1 s1 p2 s2 : matches a p s p1 s1 -> matches (Star a) p1 s1 p2 s2 -> matches (Star a) p s p2 s2.
#[export] Hint Constructors matches : core.
(** The pattern covers some stretch of the text. *)
Definition occurs (r : re) (s : string) : Prop :=
  exists a b p' s', s = a ++ b /\ matches r (head_of (str_rev a)) b p' s'.

(** A match moves forward or not at all. *)
Lemma matches_length r p s p' s' : matches r p s p' s' ->
  (String.length s' <= String.length s)%nat /\ (String.length s' = String.length s -> p' = p /\ s' = s).
Proof.
  induction 1; cbn; try (split; [lia|done]); try done; try (split; [lia|intros E; lia]).
  - destruct IHmatches1 as [? E1], IHmatches2 as [? E2]. split; [lia|]. intros E.
    destruct E2 as [-> ->]; [lia|]. apply E1. lia.
  - destruct IHmatches1 as [? E1], IHmatches2 as [? E2]. split; [lia|]. intros E.
    destruct E2 as [-> ->]; [lia|]. apply E1. lia.
Qed.
Section Star.
Context (a : re) (Ha : forall k p s, match_at a k p s = true <-> exists p' s', matches a p s p' s' /\ k p' s' = true).
Lemma star_sound k n : forall p s, star (match_at a) k n p s = true ->
  exists p' s', matches (Star a) p s p' s' /\ k p' s' = true.
Proof.
  induction n as [|n IH]; intros p s; cbn; [done|]. rewrite either. intros [Hk|Hf]; [eauto|].
  apply Ha in Hf as (p1 & s1 & Hm & [_ Hs]%both). destruct (IH _ _ Hs) as (p2 & s2 & ? & ?). eauto.
Qed.
Lemma star_complete k r p s p' s' : matches r p s p' s' -> r = Star a -> k p' s' = true ->
  forall n, (String.length s < n)%nat -> star (match_at a) k n p s = true.
Proof.
  intros Hm. induction Hm as [| | | | | |b p s|b p s p1 s1 p2 s2 H1 _ H2 IH]; intros [=]; subst; intros Hk n Hn;
    (destruct n as [|n]; [lia|]); cbn [star]; apply either.
  - by left.
  - destruct (matches_length _ _ _ _ _ H1) as [Hle Heq]. destruct (decide (String.length s1 = String.length s)) as [E|E].
    + destruct (Heq E) as [-> ->]. specialize (IH eq_refl Hk (S n) Hn). cbn [star] in IH. by apply either in IH.
    + right. apply Ha. exists p1, s1. split; [done|]. apply both. split; [apply Nat.ltb_lt; lia|].
      apply IH; [done|done|lia].
Qed.
End Star.
Lemma match_at_spec r : forall k p s, match_at r k p s = true <-> exists p' s', matches r p s p' s' /\ k p' s' = true.
Proof.
  induction r as [f| | |a IHa b IHb|a IHa b IHb|a IHa]; intros k p s; cbn [match_at].
  - split.
    + destruct s as [|c s]; [done|]. intros [? ?]%both. eauto.
    + intros (p' & s' & Hm & Hk). inversion Hm; subst. by apply both.
  - rewrite both. split; [intros []; eauto|]. intros (p' & s' & Hm & Hk). by inversion Hm; subst.
  - split; [eauto|]. intros (p' & s' & Hm & Hk). by inversion Hm; subst.
  - rewrite IHa. setoid_rewrite IHb. split.
    + intros (p1 & s1 & ? & p2 & s2 & ? & ?). eauto.
    + intros (p' & s' & Hm & Hk). inversion Hm; subst. eauto 10.
  - rewrite either, IHa, IHb. split.
    + intros [(p' & s' & ? & ?)|(p' & s' & ? & ?)]; eauto.
    + intros (p' & s' & Hm & Hk). inversion Hm; subst; [left|right]; eauto.
  - split; [by apply star_sound|]. intros (p' & s' & Hm & Hk). eapply star_complete; eauto.
Qed.

Lemma head_rev_snoc a c : head_of (str_rev (a ++ String c "")) = Some c.
Proof.
  unfold str_rev. replace (String.list_ascii_of_string (a ++ String c "")) with (String.list_ascii_of_string a ++ [c])%list.
  - by rewrite rev_app_distr.
  - induction a as [|d a IH]; cbn; [done|]. by rewrite <- IH.
Qed.
Lemma search_from_spec r s : forall pre, search_from r (head_of (str_rev pre)) s = true <->
  exists a b p' s', s = a ++ b /\ matches r (head_of (str_rev (pre ++ a))) b p' s'.
Proof.
  induction s as [|c s IH]; intros pre; cbn [search_from]; rewrite either, match_at_spec.
  - split.
    + intros [(p' & s' & Hm & _)|[=]]. exists "", "", p', s'. rewrite !append_nil_r. by split.
    + intros (a & b & p' & s' & E & Hm). destruct a, b; try done. rewrite append_nil_r in Hm. left. eauto 6.
  - rewrite <- (head_rev_snoc pre c), IH. split.
    + intros [(p' & s' & Hm & _)|(a & b & p' & s' & -> & Hm)].
      * exists "", (String c s), p', s'. rewrite append_nil_r. by split.
      * exists (String c a), b, p', s'. rewrite append_assoc in Hm. by split.
    + intros ([|d a] & b & p' & s' & E & Hm); cbn in E.
      * left. subst b. rewrite append_nil_r in Hm. eauto 6.
      * right. injection E as <- ->. exists a, b, p', s'. rewrite append_assoc. by split.
Qed.
(** Searching decides occurrence. *)
Lemma search_spec r s : search r s = true <-> occurs r s.
Proof. exact (search_from_spec r s ""). Qed.
