(* ===== verification/PyAst.v ===== *)
(** * Syntax trees of Python sources

    The trees [ast.parse] builds, as far as a reader of nodes sees them: a class
    name and fields.  [walk] and [dump] are the functions of the module [ast];
    the parser itself is an argument where it is used. *)

From S2P Require Import Prelude.
From S2P Require Import PyStr.
From S2P Require Import Json.
From S2P Require Import PyDyn.
From S2P Require Import IpAddr.

(** An identifier or a constant is an [AVal]; constants that are no JSON value are
    their [repr]; an optional field that is absent is [ANone]. *)
Inductive ast :=
| ANode (cls : string) (fields : list (string * ast))
| AList (l : list ast)
| AVal (v : val)
| AOther (repr : string)
| ANone.
Definition is_node (t : ast) : bool := match t with ANode _ _ => true | _ => false end.
Definition cls_of (t : ast) : string := match t with ANode c _ => c | _ => "" end.
Fixpoint field_in (k : string) (fs : list (string * ast)) : option ast :=
  match fs with [] => None | (k', t) :: fs' => if String.eqb k k' then Some t else field_in k fs' end.
(** [getattr(t, k, None)]. *)
Definition attr (k : string) (t : ast) : option ast := match t with ANode _ fs => field_in k fs | _ => None end.
Definition str_attr (k : string) (t : ast) : option string :=
  match attr k t with Some (AVal (VStr s)) => Some s | _ => None end.
Definition list_attr (k : string) (t : ast) : list ast := match attr k t with Some (AList l) => l | _ => [] end.

(** [ast.walk], whose order is unspecified. *)
Fixpoint walk (t : ast) : list ast :=
  match t with
  | ANode _ fs =>
      t :: flat_map (fun kv => match kv.2 with
                               | ANode _ _ => walk kv.2
                               | AList l => flat_map (fun x => if is_node x then walk x else []) l
                               | _ => []
                               end) fs
  | _ => []
  end.
(** [ast.dump]. *)
Definition joined (l : list string) : string := String.concat ", " l.
Fixpoint dump (t : ast) : string :=
  match t with
  | ANode c fs =>
      c ++ "(" ++ joined (flat_map (fun kv => match kv.2 with ANone => [] | _ => [kv.1 ++ "=" ++ dump kv.2] end) fs) ++ ")"
  | AList l => "[" ++ joined (map dump l) ++ "]"
  | AVal v => py_repr v
  | AOther r => r
  | ANone => "None"
  end.

(** ** What [walk] reaches *)

(** [n] is a node of [t]. *)
Inductive inside (n : ast) : ast -> Prop :=
| in_self c fs : n = ANode c fs -> inside n (ANode c fs)
| in_field c fs k t : (k, t) ∈ fs -> is_node t = true -> inside n t -> inside n (ANode c fs)
| in_list c fs k l t : (k, AList l) ∈ fs -> t ∈ l -> is_node t = true -> inside n t -> inside n (ANode c fs).

Section Ind.
Context (P : ast -> Prop).
Context (Hn : forall c fs, Forall (fun kv => P kv.2) fs -> P (ANode c fs)) (Hl : forall l, Forall P l -> P (AList l)).
Context (Hv : forall v, P (AVal v)) (Ho : forall r, P (AOther r)) (H0 : P ANone).
Fixpoint ast_all (t : ast) : P t :=
  match t with
  | ANode c fs => Hn c fs ((fix go (l : list (string * ast)) : Forall (fun kv => P kv.2) l :=
      match l with [] => Forall_nil_2 _ | kv :: l' => Forall_cons_2 _ kv l' (ast_all kv.2) (go l') end) fs)
  | AList l => Hl l ((fix go (l : list ast) : Forall P l :=
      match l with [] => Forall_nil_2 _ | x :: l' => Forall_cons_2 _ x l' (ast_all x) (go l') end) l)
  | AVal v => Hv v
  | AOther r => Ho r
  | ANone => H0
  end.
End Ind.

Lemma elem_of_flat_map {A B} (f : A -> list B) l y : y ∈ flat_map f l <-> exists x, x ∈ l /\ y ∈ f x.
Proof.
  rewrite list_elem_of_In, in_flat_map. split; intros (x & ? & ?); exists x; by rewrite ?list_elem_of_In in *.
Qed.
Lemma walk_inside t : (is_node t = true -> forall n, n ∈ walk t <-> inside n t) /\
  (forall l, t = AList l -> forall x, x ∈ l -> is_node x = true -> forall n, n ∈ walk x <-> inside n x).
Proof.
  induction t as [c fs IH|l IH|v|r|] using ast_all; (split; [|try done]); try done.
  - intros _ n. cbn [walk]. rewrite elem_of_cons, elem_of_flat_map. rewrite Forall_forall in IH. split.
    + intros [->|([k t] & Hin & Hw)]; [by apply in_self|]. destruct (IH _ Hin) as [Ht Hl]. cbn [fst snd] in *.
      destruct t as [c' fs'|l| | |]; try (by apply not_elem_of_nil in Hw).
      * eapply in_field; [exact Hin|done|]. by apply Ht.
      * apply elem_of_flat_map in Hw as (x & Hx & Hw). destruct (is_node x) eqn:Ex; [|by apply not_elem_of_nil in Hw].
        eapply in_list; [exact Hin|exact Hx|done|]. by apply (Hl l).
    + intros Hi. inversion Hi as [? ? ->|? ? k t Hin Hnt Ht|? ? k l t Hin Hx Hnt Ht]; subst; [by left|right..].
      * exists (k, t). split; [done|]. destruct (IH _ Hin) as [Hw _]. cbn [fst snd] in *. destruct t; try done. by apply Hw.
      * exists (k, AList l). split; [done|]. destruct (IH _ Hin) as [_ Hw]. cbn [fst snd] in *.
        apply elem_of_flat_map. exists t. split; [done|]. rewrite Hnt. by apply (Hw l).
  - intros l' [= <-] x Hx Hn. rewrite Forall_forall in IH. by apply (IH x Hx).
Qed.
(** [walk] reaches every node. *)
Lemma walk_spec t n : is_node t = true -> n ∈ walk t <-> inside n t.
Proof. intros Ht. by apply walk_inside. Qed.
