(* ===== verification/SourceAudit.v ===== *)
(** * The auditor's reading of a verifier's source ([src/pep/audit_gate_evidence.py])

    What E5 asks of the source of each verifier: no fallback shape in its code, no
    dynamic execution in its syntax tree, a membership test and no decision on a
    count. *)

From S2P Require Import Prelude.
From S2P Require Import PyStr.
From S2P Require Import Json.
From S2P Require Import PyDyn.
From S2P Require Import IpAddr.
From S2P Require Import Hash.
From S2P Require Import AuditLog.
From S2P Require Import VerifyE10.
From S2P Require Import Evidence.
From S2P Require Import LayerB.
From S2P Require Import B7.
From S2P Require Import Regex.
From S2P Require Import PyAst.

(** ** Reading *)

(** [open(path).read()] on a UTF-8 file of code points below 256: every end of line
    is read as a newline; [None] is a [UnicodeDecodeError]. *)
Fixpoint newlines (s : string) : string :=
  match s with
  | EmptyString => ""
  | String c s' =>
      if Ascii.eqb c "013" then
        String newline match s' with
                       | String d s2 => if Ascii.eqb d newline then newlines s2 else newlines s'
                       | EmptyString => ""
                       end
      else String c (newlines s')
  end.
Definition read_source (bytes : string) : option string := newlines <$> utf8_decode false bytes.

(** ** The code without strings and comments *)

(** [re.sub(q (?:.|\n)*? q, '', s)] for a delimiter [q]; each step consumes. *)
Fixpoint strip_blocks_fuel (n : nat) (q s : string) : string :=
  match n, s with
  | S n', String c s' =>
      if String.prefix q s then
        match partition_str q (drop (String.length q) s) with
        | (_, true, rest) => strip_blocks_fuel n' q rest
        | _ => String c (strip_blocks_fuel n' q s')
        end
      else String c (strip_blocks_fuel n' q s')
  | _, _ => ""
  end.
Definition strip_blocks (q s : string) : string := strip_blocks_fuel (String.length s) q s.
Definition triple (c : ascii) : string := String c (String c (String c "")).
Definition strip_noncode (src : string) : string :=
  let src := strip_blocks (triple "'") (strip_blocks (triple "034") src) in
  String.concat (String newline "") (List.filter (fun ln => negb (startswith "#" (str_strip ln))) (str_lines "" src)).

(** ** The fallback patterns, searched without regard to case *)

Definition some_spaces : re := Seq (Char c_isspace) spaces.
Definition FALLBACK_PATTERNS : list re :=
  [ seq_of [Boundary; word "fallback"; Boundary];
    seq_of [word "if"; some_spaces; word "not"; some_spaces; word_chars; word "conn_id"; word_chars; spaces; letter ":"];
    seq_of [any_of [word "sorted"; word "max"; word "min"]; spaces; letter "("; Star (Char (fun c => negb (Ascii.eqb c ")")));
            Boundary; word "ts"; Boundary];
    seq_of [Boundary; any_of [word "most_recent"; word "latest_record"; word "newest"]; Boundary] ].
Definition fallback_hit (code : string) : bool := existsb (fun p => search p code) FALLBACK_PATTERNS.

(** ** The syntax tree *)

Definition DYNAMIC_CALLS : list string := ["eval"; "exec"; "compile"; "__import__"; "getattr"].
Definition COUNT_FIELD : string := "connections_terminated".
Definition name_of (fn : ast) : option string :=
  match str_attr "id" fn with
  | Some s => if String.eqb s "" then str_attr "attr" fn else Some s
  | None => str_attr "attr" fn
  end.
Definition called (n : ast) : option string := match attr "func" n with Some fn => name_of fn | None => None end.
Definition importer (s : string) : bool := mem_str s ["importlib"; "imp"].
(** The shapes found at a node. *)
Definition shapes (n : ast) : list string :=
  ((if String.eqb (cls_of n) "Call" then
      match called n with Some s => if mem_str s DYNAMIC_CALLS then ["dynamic_call:" ++ s]%string else [] | None => [] end else []) ++
   (if String.eqb (cls_of n) "Import" then
      flat_map (fun al => match str_attr "name" al with
                          | Some s => if importer s then ["dynamic_import:" ++ s]%string else []
                          | None => []
                          end) (list_attr "names" n) else []) ++
   (if String.eqb (cls_of n) "ImportFrom" then
      match str_attr "module" n with Some s => if importer s then ["dynamic_import:" ++ s]%string else [] | None => [] end else []))%list.
Definition compares_in (n : ast) : bool :=
  String.eqb (cls_of n) "Compare" && existsb (fun op => String.eqb (cls_of op) "In") (list_attr "ops" n).
Definition counts (n : ast) : bool :=
  mem_str (cls_of n) ["Compare"; "BoolOp"; "Return"] && contains COUNT_FIELD (dump n).

Section Source.
(** [ast.parse]; [None] is its [SyntaxError]. *)
Variable parse : string -> option ast.

(** [ast_findings], unsorted, with repetitions and without the line of a syntax
    error. *)
Definition ast_findings (src : string) : list string :=
  match parse src with None => ["unparseable"] | Some tree => flat_map shapes (walk tree) end.
Definition ast_membership_and_count (src : string) : bool * bool :=
  match parse src with
  | None => (false, false)
  | Some tree => (existsb compares_in (walk tree), existsb counts (walk tree))
  end.
End Source.
