(* ===== verification/GateAudit.v ===== *)
(** * The evidence auditor ([src/pep/audit_gate_evidence.py])

    The nine checks over the acceptance file, the Layer B file, the raw audit and
    the B7 evidence, and the verdict.  The
    parser of Python is an argument. *)

From S2P Require Import Prelude.
From S2P Require Import PyStr.
From S2P Require Import Json.
From S2P Require Import PyDyn.
From S2P Require Import Hash.
From S2P Require Import AuditLog.
From S2P Require Import VerifyE10.
From S2P Require Import Evidence.
From S2P Require Import LayerB.
From S2P Require Import B7.
From S2P Require Import PyAst.
From S2P Require Import SourceAudit.
Open Scope Z_scope.

Definition ids (prefix : string) (n : nat) : list string := map (fun i => prefix ++ show_nat i) (seq 1 n).
Definition REQUIRED_A : list string := ids "A" 30.
Definition REQUIRED_B : list string := ids "B" 9.

(** ** Reading *)

(** [load_audit]: records, their lines and the number of malformed lines. *)
Fixpoint audit_lines (lines : list string) (recs : list (val * string)) (bad : Z) : list (val * string) * Z :=
  match lines with
  | [] => (recs, bad)
  | raw :: rest =>
      let line := b_strip raw in
      if String.eqb line "" then audit_lines rest recs bad else
      match loads line with
      | Some v => audit_lines rest (recs ++ [(v, line)])%list bad
      | None => audit_lines rest recs (bad + 1)
      end
  end.
Definition load_audit (audit : option string) : list (val * string) * Z :=
  match audit with None => ([], -1) | Some f => audit_lines (file_lines f) [] 0 end.
Definition load_json (file : option string) : option val := file ≫= loads.
(** [load_json(path) or {}], used as a mapping. *)
Definition object_of (file : option string) : res dict :=
  as_dict (v_or (default VNull (load_json file)) (VDict [])).
(** [d.get(k) or []], its elements used as mappings. *)
Definition rows_of (k : string) (d : dict) : res (list dict) :=
  l <- v_iter (v_or (fld k d) (VList []));; rmap as_dict l.
(** The ids of the rows; each is hashed. *)
Definition row_ids (rows : list dict) : res (list val) :=
  rmap (fun r => if hashable (fld "id" r) then Ok (fld "id" r) else Raise (TypeError "unhashable type")) rows.
Definition in_ids (l : list string) (v : val) : bool := match v with VStr s => mem_str s l | _ => false end.
Definition status_proven (r : dict) : bool := String.eqb (py_str (fld "status" r)) "PROVEN".

(** ** E7 *)

Section Checks.
Context `{Digest}.

Fixpoint chain_ok (prev : string) (l : list (dict * string)) : bool :=
  match l with
  | [] => true
  | (r, raw) :: l' => if negb (py_eqb (fld "prev" r) (VStr prev)) then false else chain_ok (sha256 raw) l'
  end.
Definition e7 (records : list (dict * string)) (bad : Z) (scoped : list dict) : bool :=
  chain_ok GENESIS records && (bad =? 0) && negb (bool_decide (scoped = [])) &&
  bool_decide (List.filter (is_decision "STARTUP_DEGRADED") scoped = []).
End Checks.

(** ** E1 and E2: the rows *)

Definition required_rows (a_rows b_rows : list dict) : list dict :=
  (List.filter (fun r => in_ids REQUIRED_A (fld "id" r)) a_rows ++
   List.filter (fun r => in_ids REQUIRED_B (fld "id" r)) b_rows)%list.
Definition has_id (rows : list dict) (id : string) : bool := existsb (fun r => py_eqb (fld "id" r) (VStr id)) rows.
Definition e1 (a_rows b_rows : list dict) : bool :=
  let rows := required_rows a_rows b_rows in
  forallb status_proven rows && forallb (has_id a_rows) REQUIRED_A && forallb (has_id b_rows) REQUIRED_B &&
  forallb (fun r => negb (status_proven r) || B7.is_true (fld "pass" r)) rows.

Definition set_is (ids : list val) (required : list string) : bool :=
  forallb (in_ids required) ids && forallb (fun s => existsb (py_eqb (VStr s)) ids) required.
Fixpoint repeated (l : list val) : bool :=
  match l with [] => false | x :: l' => existsb (py_eqb x) l' || repeated l' end.
Definition len_is (v : val) (n : nat) : bool := py_eqb v (VInt (Z.of_nat n)).
Definition counts_ok (acc lb : dict) (a_rows b_rows : list dict) : bool :=
  len_is (fld "layer_a_total" acc) (length a_rows) &&
  len_is (fld "layer_a_passed" acc) (length (List.filter status_proven a_rows)) &&
  len_is (fld "total" lb) (length b_rows) &&
  len_is (fld "passed" lb)
    (length (List.filter (fun r => in_ids REQUIRED_B (fld "id" r) && status_proven r) b_rows)).
(** The extra ids are sorted for the message, which raises on mixed types. *)
Definition extras (ids_a ids_b : list val) : list val :=
  distinct (List.filter (fun v => negb (in_ids REQUIRED_A v)) ids_a ++
            List.filter (fun v => negb (in_ids REQUIRED_B v)) ids_b)%list.
Definition e2 (acc lb : dict) (a_rows b_rows : list dict) (ids_a ids_b : list val) : res bool :=
  if sortable (extras ids_a ids_b)
  then Ok (set_is ids_a REQUIRED_A && set_is ids_b REQUIRED_B && negb (repeated ids_a) && negb (repeated ids_b) &&
           counts_ok acc lb a_rows b_rows)
  else Raise (TypeError "'<' not supported").

(** ** E3 and E4: the raw records of B8, B9 and B4 *)

Definition nonce_of (l : list dict) : string := match l with [] => "" | _ => text_of "test_nonce" (last_of l) end.
Definition e3 (scoped : list dict) : bool :=
  let b8 := allows scoped in
  let b9 := owners B9_ROW scoped in
  negb (bool_decide (b8 = [])) && negb (bool_decide (b9 = [])) &&
  negb (String.eqb (nonce_of b8) "") && negb (String.eqb (nonce_of b9) "") && String.eqb (nonce_of b8) (nonce_of b9).
Definition b4_denials (prefix : string) (scoped : list dict) : list dict :=
  List.filter (fun e => startswith prefix (text_of "reason" e))
    (List.filter (is_decision "BLOCKED_BY_POLICY") (owners "B4" scoped)).
Definition b4_ok (scoped : list dict) : bool :=
  let n8 := nonce_of (allows scoped) in
  let sni := b4_denials "SNI_MISMATCH:" scoped in
  let host := b4_denials "HOST_HEADER_MISMATCH:" scoped in
  negb (bool_decide (sni = [])) && negb (bool_decide (host = [])) && negb (String.eqb n8 "") &&
  forallb (fun e => String.eqb (text_of "test_nonce" e) n8) (sni ++ host)%list.
Definition b8_valid (scoped : list dict) : bool :=
  match allows scoped with
  | [] => false
  | l => let r := last_of l in
         py_eqb (fld "pin_family" r) (VStr "ipv6") && is_v6_text (fld "pin_ip" r) &&
         forallb (fun f => truthy (fld f r)) REQUIRED_ALLOW_FIELDS
  end.
Definition e4 (scoped : list dict) (torn : list string) : bool :=
  negb (bool_decide (meet (map conn_of (owners B9_ROW scoped)) torn = [])) && b8_valid scoped && b4_ok scoped.

(** ** E5: the verifiers' sources *)

Section Sources.
Context `{Digest}.
(** [ast.parse]. *)
Variable parse : string -> option ast.

Definition strict_codes (base : string) : list string :=
  if String.eqb base "verify_b7_evidence.py"
  then [ "NO_HOST_PACKET_ATTEMPT"; "EXACT_DROP_COUNTER_NOT_ONE"; "MEASUREMENT_REACHED_RECEIVER"; "B3_LIVENESS_NOT_PROVEN" ]
  else [ "NO_TEST_CORRELATION"; "TERMINATED_A_DIFFERENT_CONNECTION" ].
Definition constructs (base : string) : list string :=
  if String.eqb base "verify_b7_evidence.py" then [ "packet_attempt"; "enforcement"; "receiver"; "calibration" ]
  else [ "terminated_conn_ids" ].
Definition verifier_good (expected : val) (base : string) (source : option string) : res bool :=
  match source with
  | None => Ok false
  | Some src =>
      let code := strip_noncode src in
      let '(has_in, on_count) := ast_membership_and_count parse src in
      digest <- v_get base expected;;
      Ok (negb (fallback_hit code) && bool_decide (ast_findings parse src = []) &&
          forallb (fun c => contains c src) (strict_codes base) && forallb (fun c => contains c code) (constructs base) &&
          (String.eqb base "verify_b7_evidence.py" || (has_in && negb on_count)) &&
          truthy digest && py_eqb (VStr (sha256 (utf8 src))) digest)
  end.
Definition e5 (expected : val) (verifiers : list (string * option string)) : res bool :=
  bs <- rmap (fun v => verifier_good expected v.1 v.2) verifiers;; Ok (forallb id bs).

(** ** E6, E8 and E9 *)

(** [v > 0]. *)
Definition num_pos (v : val) : res bool := ge <- py_le (VInt 0) v;; Ok (ge && negb (py_eqb v (VInt 0))).
(** [all(r.get(k) for r in l)], which stops at the first that is false. *)
Fixpoint all_true (k : string) (l : list val) : res bool :=
  match l with
  | [] => Ok true
  | x :: l' => v <- v_get k x;; if truthy v then all_true k l' else Ok false
  end.
Definition e6 (v4 : option val) (scoped : list dict) (torn : list string) : res bool :=
  match v4 with
  | None => Ok false
  | Some v =>
      d <- as_dict v;;
      let rows := v_or (fld "results" d) (VList []) in
      complete <- andr (Ok (py_eqb (fld "passed" d) (fld "total" d)))
                    (andr (num_pos (dget_or "total" (VInt 0) d)) (l <- v_iter rows;; all_true "pass" l));;
      Ok (complete && negb (bool_decide (meet (map conn_of (owners "PP18" scoped)) torn = [])))
  end.
Definition bound_to (run_id : string) (d : dict) : bool :=
  String.eqb (py_str (fld "run_id" d)) run_id && py_eqb (fld "run_id_source" d) (VStr "control-plane") &&
  negb (truthy (fld "run_id_conflict" d)).
Definition artifact_bound (run_id : string) (o : option val) : res bool :=
  match o with None => Ok false | Some v => d <- as_dict v;; Ok (bound_to run_id d) end.
Definition e8 (run_id : string) (artifacts : list (option val)) : res bool :=
  bs <- rmap (artifact_bound run_id) artifacts;; Ok (forallb id bs).
Definition e9 (fixture : bool) (b7 : option val) (lb : dict) (run_id : string) (raw_dir : option (string -> option string))
    : bool :=
  match b7 with
  | None => false
  | Some e =>
      if fixture then match validate_fixture_summary e (VDict lb) run_id with Ok r => r.1 | Raise _ => false end
      else (derive e (VDict lb) run_id raw_dir).1
  end.

(** ** The verdict ([main]) *)

(** The files as they are read, [None] when opening raises; [g_v4] and [g_b7] also
    when they are not named. *)
Record gate := Gate {
  g_acceptance : option string; g_layerb : option string; g_audit : option string; g_run_id : string;
  g_v4 : option string; g_b7 : option string; g_verifiers : list (string * option string);
  g_manifest : option string; g_fixture : bool; g_raw_dir : option (string -> option string) }.
(** The nine checks, in the order in which they are printed. *)
Record verdict := Verdict {
  v_e7 : bool; v_e1 : bool; v_e2 : bool; v_e3 : bool; v_e4 : bool; v_e5 : bool; v_e6 : bool; v_e8 : bool; v_e9 : bool }.
Definition verdict_of (g : gate) : res verdict :=
  manifest <- object_of (g_manifest g);;
  let expected := v_or (fld "verifier_sha256" manifest) (VDict []) in
  acc <- object_of (g_acceptance g);;
  lb <- object_of (g_layerb g);;
  let v4 := load_json (g_v4 g) in
  let b7 := load_json (g_b7 g) in
  let '(recs, bad) := load_audit (g_audit g) in
  es <- rmap as_dict (map fst recs);;
  let scoped := List.filter (in_run (g_run_id g)) es in
  a_rows <- rows_of "layer_a" acc;;
  b_rows <- rows_of "rows" lb;;
  ids_a <- row_ids a_rows;;
  ids_b <- row_ids b_rows;;
  c2 <- e2 acc lb a_rows b_rows ids_a ids_b;;
  torn <- killed scoped;;
  c5 <- e5 expected (g_verifiers g);;
  c6 <- e6 v4 scoped torn;;
  c8 <- e8 (g_run_id g) [Some (VDict acc); Some (VDict lb); v4; b7];;
  Ok (Verdict (e7 (combine es (map snd recs)) bad scoped) (e1 a_rows b_rows) c2 (e3 scoped) (e4 scoped torn)
        c5 c6 c8 (e9 (g_fixture g) b7 lb (g_run_id g) (g_raw_dir g))).
Definition passed (v : verdict) : bool :=
  v_e7 v && v_e1 v && v_e2 v && v_e3 v && v_e4 v && v_e5 v && v_e6 v && v_e8 v && v_e9 v.
(** 0 is CERTIFIED; a fixture that passes exits 3. *)
Definition main (g : gate) : res Z :=
  v <- verdict_of g;;
  Ok (if g_fixture g then if passed v then 3 else 1 else if passed v then 0 else 1).
End Sources.
