(* ===== verification/SourceProps.v ===== *)
(** * What E5 accepts

    A verifier's source passes exactly when its text, its syntax tree and its
    digest are as the auditor asks, stated without the search that decides it. *)

From S2P Require Import Prelude.
From S2P Require Import PyStr.
From S2P Require Import Json.
From S2P Require Import PyDyn.
From S2P Require Import IpAddr.
From S2P Require Import Hash.
From S2P Require Import AuditLog.
From S2P Require Import AuditProps.
From S2P Require Import VerifyE10.
From S2P Require Import Evidence.
From S2P Require Import LayerB.
From S2P Require Import B7.
From S2P Require Import Regex.
From S2P Require Import PyAst.
From S2P Require Import SourceAudit.
From S2P Require Import GateAudit.

Section Source.
Context `{Digest} (parse : string -> option ast).

Definition B7_VERIFIER : string := "verify_b7_evidence.py".
Record sound_source (base src : string) (tree : ast) : Prop := {
  ss_calls : forall n s, inside n tree -> cls_of n = "Call" -> called n = Some s -> s ∉ DYNAMIC_CALLS;
  ss_imports : forall n al s, inside n tree -> cls_of n = "Import" -> al ∈ list_attr "names" n -> str_attr "name" al = Some s ->
    s ∉ ["importlib"; "imp"];
  ss_from : forall n s, inside n tree -> cls_of n = "ImportFrom" -> str_attr "module" n = Some s -> s ∉ ["importlib"; "imp"];
  ss_fallback : forall p, p ∈ FALLBACK_PATTERNS -> ~ occurs p (strip_noncode src);
  ss_codes : forall c, c ∈ strict_codes base -> contains c src = true;
  ss_constructs : forall c, c ∈ constructs base -> contains c (strip_noncode src) = true;
  ss_member : base <> B7_VERIFIER ->
    exists n op, inside n tree /\ cls_of n = "Compare" /\ op ∈ list_attr "ops" n /\ cls_of op = "In";
  ss_count : base <> B7_VERIFIER -> forall n, inside n tree -> cls_of n ∈ ["Compare"; "BoolOp"; "Return"] ->
    contains COUNT_FIELD (dump n) = false }.

Lemma fallback_none code : fallback_hit code = false <-> forall p, p ∈ FALLBACK_PATTERNS -> ~ occurs p code.
Proof.
  unfold fallback_hit. rewrite <- not_true_iff_false, existsb_elem_of. setoid_rewrite search_spec. naive_solver.
Qed.
Lemma and_iff_compat2 (A B C D : Prop) : (A <-> B) -> (C <-> D) -> A /\ C <-> B /\ D.
Proof. tauto. Qed.
Lemma shapes_none n : shapes n = [] <->
  (forall s, cls_of n = "Call" -> called n = Some s -> s ∉ DYNAMIC_CALLS) /\
  (forall al s, cls_of n = "Import" -> al ∈ list_attr "names" n -> str_attr "name" al = Some s -> s ∉ ["importlib"; "imp"]) /\
  (forall s, cls_of n = "ImportFrom" -> str_attr "module" n = Some s -> s ∉ ["importlib"; "imp"]).
Proof.
  unfold shapes. rewrite !app_nil. apply and_iff_compat2; [|apply and_iff_compat2].
  - destruct (String.eqb_spec (cls_of n) "Call") as [E|E]; [|split; [by intros _ ? ?|done]].
    destruct (called n) as [s|]; [|split; [by intros _ ? ? [=]|done]].
    destruct (mem_str s DYNAMIC_CALLS) eqn:Em; split; try done.
    + intros Hs. apply mem_str_spec in Em. by destruct (Hs s).
    + intros _ s' _ [= <-] Hin. apply mem_str_spec in Hin. congruence.
  - destruct (String.eqb_spec (cls_of n) "Import") as [E|E]; [|split; [by intros _ ? ? ?|done]].
    split.
    + intros Hf al s _ Hal Hs Hin. apply mem_str_spec in Hin.
      assert ("dynamic_import:" ++ s ∈ @nil string) as Hx; [|by apply not_elem_of_nil in Hx].
      rewrite <- Hf. apply elem_of_flat_map. exists al. split; [done|]. rewrite Hs. unfold importer. rewrite Hin. by left.
    + intros Hs. destruct (flat_map _ _) as [|x l] eqn:Ef; [done|]. exfalso.
      assert (x ∈ x :: l) as Hx by by left. rewrite <- Ef in Hx. apply elem_of_flat_map in Hx as (al & Hal & Hx).
      destruct (str_attr "name" al) as [s|] eqn:Ea; [|by apply not_elem_of_nil in Hx].
      destruct (importer s) eqn:Ei; [|by apply not_elem_of_nil in Hx]. apply mem_str_spec in Ei. by destruct (Hs al s).
  - destruct (String.eqb_spec (cls_of n) "ImportFrom") as [E|E]; [|split; [by intros _ ? ?|done]].
    destruct (str_attr "module" n) as [s|]; [|split; [by intros _ ? ? [=]|done]].
    destruct (importer s) eqn:Em; split; try done.
    + intros Hs. apply mem_str_spec in Em. by destruct (Hs s).
    + intros _ s' _ [= <-] Hin. apply mem_str_spec in Hin. unfold importer in Em. congruence.
Qed.

Lemma findings_none src : ast_findings parse src = [] <->
  exists tree, parse src = Some tree /\ forall n, n ∈ walk tree -> shapes n = [].
Proof.
  unfold ast_findings. destruct (parse src) as [tree|]; [|split; [done|by intros (? & [=] & _)]]. split.
  - intros Hf. exists tree. split; [done|]. intros n Hn. destruct (shapes n) as [|x l] eqn:E; [done|]. exfalso.
    assert (x ∈ @nil string) as Hx; [|by apply not_elem_of_nil in Hx]. rewrite <- Hf. apply elem_of_flat_map. exists n.
    split; [done|]. rewrite E. by left.
  - intros (t & [= <-] & Hs). destruct (flat_map shapes (walk tree)) as [|x l] eqn:E; [done|]. exfalso.
    assert (x ∈ x :: l) as Hx by by left. rewrite <- E in Hx. apply elem_of_flat_map in Hx as (n & Hn & Hx).
    rewrite (Hs n Hn) in Hx. by apply not_elem_of_nil in Hx.
Qed.
Lemma member_iff src tree : parse src = Some tree ->
  (ast_membership_and_count parse src).1 = true <->
  exists n op, n ∈ walk tree /\ cls_of n = "Compare" /\ op ∈ list_attr "ops" n /\ cls_of op = "In".
Proof.
  intros Hp. unfold ast_membership_and_count. rewrite Hp. cbn [fst]. rewrite existsb_elem_of. unfold compares_in.
  setoid_rewrite andb_true_iff. setoid_rewrite existsb_elem_of. setoid_rewrite String.eqb_eq. naive_solver.
Qed.
Lemma count_iff src tree : parse src = Some tree ->
  (ast_membership_and_count parse src).2 = false <->
  forall n, n ∈ walk tree -> cls_of n ∈ ["Compare"; "BoolOp"; "Return"] -> contains COUNT_FIELD (dump n) = false.
Proof.
  intros Hp. unfold ast_membership_and_count. rewrite Hp. cbn [snd]. rewrite <- not_true_iff_false, existsb_elem_of.
  unfold counts. setoid_rewrite andb_true_iff. setoid_rewrite mem_str_spec. setoid_rewrite <- not_true_iff_false. naive_solver.
Qed.
Lemma pinned_digest d src : truthy d && py_eqb (VStr (sha256 (utf8 src))) d = true <-> d = VStr (sha256 (utf8 src)).
Proof.
  split.
  - intros [_ Hd]%andb_true_iff. destruct d; try done. by apply String.eqb_eq in Hd as ->.
  - intros ->. cbn. rewrite String.eqb_refl, andb_true_r. pose proof (sha256_hex (utf8 src)) as Hx.
    by destruct (sha256 (utf8 src)).
Qed.

Lemma verifier_good_iff expected base src :
  (forall t tree, parse t = Some tree -> is_node tree = true) ->
  verifier_good parse expected base (Some src) = Ok true <->
  exists tree, parse src = Some tree /\ sound_source base src tree /\ v_get base expected = Ok (VStr (sha256 (utf8 src))).
Proof.
  intros Hnode. unfold verifier_good. destruct (ast_membership_and_count parse src) as [has_in on_count] eqn:Em.
  assert (forall b1 b2 b3 b4 b5 (P : val -> bool),
    (d <- v_get base expected;; Ok (b1 && b2 && b3 && b4 && b5 && truthy d && P d)) = Ok true <->
    b1 = true /\ b2 = true /\ b3 = true /\ b4 = true /\ b5 = true /\
    exists d, v_get base expected = Ok d /\ truthy d && P d = true) as Hsplit.
  { intros b1 b2 b3 b4 b5 P. rewrite res_bind_Ok. split.
    - intros (d & Hd & [= Hb]). destruct b1, b2, b3, b4, b5; try discriminate Hb. split_and!; [done..|by exists d].
    - intros (-> & -> & -> & -> & -> & d & Hd & Hb). exists d. split; [done|]. cbn. by rewrite Hb. }
  rewrite Hsplit, negb_true_iff, fallback_none, bool_decide_eq_true, findings_none, !forallb_elem_of. clear Hsplit.
  assert ((exists d, v_get base expected = Ok d /\ truthy d && py_eqb (VStr (sha256 (utf8 src))) d = true) <->
    v_get base expected = Ok (VStr (sha256 (utf8 src)))) as ->.
  { setoid_rewrite pinned_digest. naive_solver. }
  assert (String.eqb base "verify_b7_evidence.py" || (has_in && negb on_count) = true <->
    (base <> B7_VERIFIER -> has_in = true) /\ (base <> B7_VERIFIER -> on_count = false)) as ->.
  { unfold B7_VERIFIER. destruct (String.eqb_spec base "verify_b7_evidence.py"); cbn [orb]; [naive_solver|].
    rewrite andb_true_iff, negb_true_iff. naive_solver. }
  split.
  - intros (Hf & (tree & Hp & Hs) & Hc & Hk & [Hi Hn] & Hd). exists tree. split_and!; [done| |done].
    pose proof (fun n => walk_spec tree n (Hnode _ _ Hp)) as Ht. setoid_rewrite Ht in Hs.
    pose proof (member_iff src tree Hp) as Hmi. pose proof (count_iff src tree Hp) as Hci. rewrite Em in Hmi, Hci. cbn [fst snd] in Hmi, Hci.
    setoid_rewrite Ht in Hmi. setoid_rewrite Ht in Hci.
    setoid_rewrite shapes_none in Hs. split; naive_solver.
  - intros (tree & Hp & [Hca Him Hfr Hfa Hco Hcn Hme Hcu] & Hd). pose proof (fun n => walk_spec tree n (Hnode _ _ Hp)) as Ht.
    pose proof (member_iff src tree Hp) as Hmi. pose proof (count_iff src tree Hp) as Hci. rewrite Em in Hmi, Hci. cbn [fst snd] in Hmi, Hci.
    setoid_rewrite Ht in Hmi. setoid_rewrite Ht in Hci.
    split_and!; [done| |done|done|naive_solver|naive_solver|done].
    exists tree. split; [done|]. intros n Hn. apply Ht in Hn. apply shapes_none. naive_solver.
Qed.
(** C30: what E5 accepts. With a parser that answers a node for every source it
    accepts, the auditor takes a verifier's source exactly when it parses; no node of
    its tree calls eval, exec, compile, __import__ or getattr or imports importlib
    or imp; none of the fallback patterns covers any stretch of its code outside
    strings and comments; it has the strict codes and constructs asked of it; unless it
    is the B7 verifier, it has a membership test and no comparison, boolean operation
    or return that mentions the count; and its digest is the pinned one. *)
Theorem source_accepted expected base src :
  (forall t tree, parse t = Some tree -> is_node tree = true) ->
  verifier_good parse expected base (Some src) = Ok true <->
  exists tree, parse src = Some tree /\ sound_source base src tree /\ v_get base expected = Ok (VStr (sha256 (utf8 src))).
Proof. apply verifier_good_iff. Qed.
End Source.

(** ** What it catches, and what it does not *)

Example patterns_ex : map fallback_hit
  [ "use the FALLBACK row"; "fallbacks"; "if  not e.conn_id_ :"; "IF NOT my_conn_id:"; "sorted(recs, key=lambda e: e.ts)"; "max(a)[ts]";
    "newest = recs[0]"; "renewest" ] = [true; false; false; true; true; false; true; false].
Proof. vm_compute. reflexivity. Qed.
Example strip_ex : strip_noncode ("a = 1" ++ String newline ("  # fallback" ++ String newline
    (triple "034" ++ "fallback" ++ triple "034" ++ "b" ++ String newline (triple "'" ++ "open")))) =
  "a = 1" ++ String newline ("b" ++ String newline (triple "'" ++ "open")).
Proof. vm_compute. reflexivity. Qed.
(** Importing a submodule is no finding. *)
Definition imports (name : string) : ast :=
  ANode "Module" [("body", AList [ANode "Import" [("names", AList [ANode "alias" [("name", AVal (VStr name)); ("asname", ANone)]])]])].
Example submodule_import :
  ast_findings (fun _ => Some (imports "importlib")) "" = ["dynamic_import:importlib"] /\
  ast_findings (fun _ => Some (imports "importlib.util")) "" = [].
Proof. split; vm_compute; reflexivity. Qed.

Definition source_ex : string := "NO_TEST_CORRELATION TERMINATED_A_DIFFERENT_CONNECTION terminated_conn_ids".
Definition member_ex : ast :=
  ANode "Module" [("body", AList [ANode "Return" [("value", ANode "Compare" [("ops", AList [ANode "In" []])])]])].
Definition pins_ex : val := VDict [("verify_pp18.py", VStr (sha256 (Digest := toy) source_ex))].
Lemma source_accepted_witness : exists tree, Some member_ex = Some tree /\ sound_source "verify_pp18.py" source_ex tree.
Proof.
  destruct (proj1 (source_accepted (H := toy) (fun _ => Some member_ex) pins_ex "verify_pp18.py" source_ex
    ltac:(by intros ? ? [= <-]))) as (tree & Hp & Hs & _); [vm_compute; reflexivity|]. exists tree. split; [exact Hp|exact Hs].
Defined.
