(* ===== verification/EvidenceProps.v ===== *)
(** * Properties of the evidence pipeline

    What a certified run has in its raw audit, that the auditor and the Layer B
    verifier, written apart, agree, and that only the control plane's stamp binds
    an artifact to a run. *)

From S2P Require Import Prelude.
From S2P Require Import PyStr.
From S2P Require Import Json.
From S2P Require Import JsonFacts.
From S2P Require Import PyDyn.
From S2P Require Import Hash.
From S2P Require Import AuditLog.
From S2P Require Import AuditFacts.
From S2P Require Import E10AnchorFacts.
From S2P Require Import VerifyE10.
From S2P Require Import Evidence.
From S2P Require Import LayerB.
From S2P Require Import B7.
From S2P Require Import PyAst.
From S2P Require Import SourceAudit.
From S2P Require Import GateAudit.
From S2P Require Import SourceProps.
Open Scope Z_scope.

(** ** Sets of strings *)

Lemma filter_elem {A} (p : A -> bool) l x : x ∈ List.filter p l <-> x ∈ l /\ p x = true.
Proof. rewrite !list_elem_of_In. apply filter_In. Qed.
Lemma filter_nonnil {A} (p : A -> bool) l : bool_decide (List.filter p l = []) = false <-> exists x, x ∈ l /\ p x = true.
Proof.
  rewrite bool_decide_eq_false. split.
  - intros H. destruct (List.filter p l) as [|x l'] eqn:E; [done|]. exists x. apply filter_elem. rewrite E. left.
  - intros [x Hx] E. apply filter_elem in Hx. rewrite E in Hx. by apply not_elem_of_nil in Hx.
Qed.
Lemma meet_nonnil a b : bool_decide (meet a b = []) = false <-> exists s, s ∈ a /\ s ∈ b.
Proof. unfold meet. rewrite filter_nonnil. by setoid_rewrite mem_str_spec. Qed.

(** ** The records behind a killed connection *)

Lemma killed_elem scoped torn c : killed scoped = Ok torn -> c ∈ torn ->
  exists k l, k ∈ scoped /\ is_decision "KILL_SWITCH" k = true /\ torn_of k = Ok l /\ c ∈ l.
Proof.
  unfold killed. intros H Hc. apply res_bind_Ok in H as (ls & Hls & H). injection H as <-.
  apply rmap_Forall2 in Hls. apply list_elem_of_In, in_concat in Hc as (l & Hl & Hc).
  apply list_elem_of_In, list_elem_of_lookup in Hl as [i Hi].
  destruct (Forall2_lookup_r _ _ _ _ _ Hls Hi) as (k & Hk & Ht). exists k, l.
  apply list_elem_of_lookup_2, filter_elem in Hk as [Hk Hd]. split_and!; try done. by apply list_elem_of_In.
Qed.
Lemma killed_kills scoped torn c : killed scoped = Ok torn -> c ∈ torn ->
  bool_decide (kills scoped = []) = false /\ bool_decide (torn = []) = false.
Proof.
  intros H Hc. destruct (killed_elem _ _ _ H Hc) as (k & l & Hk & Hd & _). split; [by apply filter_nonnil; exists k|].
  apply bool_decide_eq_false. intros ->. by apply not_elem_of_nil in Hc.
Qed.

(** ** The two derivations of B8 and B9 *)

Lemma missing_none rec : bool_decide (missing rec = []) = forallb (fun f => truthy (fld f rec)) REQUIRED_ALLOW_FIELDS.
Proof.
  apply eq_true_iff_eq. rewrite bool_decide_eq_true, forallb_forall. unfold missing. split.
  - intros H f Hf. destruct (truthy (fld f rec)) eqn:E; [done|].
    assert (f ∈ List.filter (fun f => negb (truthy (fld f rec))) REQUIRED_ALLOW_FIELDS) as Hx
      by (apply filter_elem; rewrite E; split; [by apply list_elem_of_In|done]).
    rewrite H in Hx. by apply not_elem_of_nil in Hx.
  - intros H. destruct (List.filter _ REQUIRED_ALLOW_FIELDS) as [|f l] eqn:E; [done|].
    assert (f ∈ List.filter (fun f => negb (truthy (fld f rec))) REQUIRED_ALLOW_FIELDS) as Hx by (rewrite E; left).
    apply filter_elem in Hx as [Hf Hn]. rewrite (H f) in Hn by (by apply list_elem_of_In). done.
Qed.
Lemma b8_proven run_id scoped :
  w_status (b8 run_id scoped).1 = "PROVEN" <-> b8_valid scoped = true /\ nonce_of (allows scoped) <> "".
Proof.
  unfold b8, b8_valid, nonce_of. destruct (allows scoped) as [|r l] eqn:E; [cbn; by split; [|intros [? ?]]|].
  rewrite bool_decide_eq_false_2 by done. cbn [fst w_status]. set (rec := last_of (r :: l)). unfold b8_status.
  rewrite missing_none. destruct (py_eqb (fld "pin_family" rec) (VStr "ipv6")); cbn [negb andb]; [|by split; [|intros [? _]]].
  destruct (forallb _ _); cbn [negb]; [rewrite andb_true_r|rewrite andb_false_r; by split; [|intros [? _]]].
  destruct (is_v6_text (fld "pin_ip" rec)); cbn [negb]; [|by split; [|intros [? _]]].
  destruct (String.eqb_spec (text_of "test_nonce" rec) "") as [->|Hn]; [by split; [|intros [_ ?]]|by split].
Qed.
Lemma b8_nonce run_id scoped : (b8 run_id scoped).2 = if bool_decide (allows scoped = []) then None else Some (nonce_of (allows scoped)).
Proof.
  unfold b8, nonce_of. destruct (allows scoped) as [|r l]; [done|]. by rewrite bool_decide_eq_false_2.
Qed.
Lemma nonce_owner l : l <> [] -> nonce_of l = text_of "test_nonce" (last_of l).
Proof. by destruct l. Qed.
(** The client's file reports no empty stream: it has no count of bytes, or a
    number above zero. *)
Definition live_stream (client : val) : Prop :=
  exists partial, v_get "partial_bytes" client = Ok partial /\ no_stream partial = Ok false.
(** Some connection of B6 is listed by a kill record, all of which can be read. *)
Definition torn_down (scoped : list dict) (torn : list string) : Prop :=
  killed scoped = Ok torn /\ bool_decide (meet (map conn_of (owners B9_ROW scoped)) torn = []) = false.
Lemma b9_proven run_id scoped n client :
  let os := owners B9_ROW scoped in
  (exists r, b9 run_id scoped n client = Ok r /\ w_status r = "PROVEN") <->
  os <> [] /\ nonce_of os <> "" /\ (exists torn, torn_down scoped torn) /\
  match n with Some m => m = nonce_of os | None => True end /\ live_stream client.
Proof.
  intros os. unfold b9, torn_down. fold os. destruct (killed scoped) as [torn|x] eqn:Hk; cbn [rbind];
    [|split; [by intros (? & [=] & _)|by intros (_ & _ & (? & [=] & _) & _)]].
  unfold live_stream. destruct (v_get "partial_bytes" client) as [partial|x]; cbn [rbind];
    [|split; [by intros (? & [=] & _)|by intros (_ & _ & _ & _ & ? & [=] & _)]].
  destruct (decide (os = [])) as [E|Hne].
  { rewrite E. cbn. split; [by intros (r & [= <-] & ?)|by intros [? _]]. }
  rewrite (bool_decide_eq_false_2 (os = [])) by done. rewrite (nonce_owner os Hne).
  destruct (bool_decide (meet (map conn_of os) torn = [])) eqn:Em.
  - split; [|intros (_ & _ & (? & [= <-] & ?) & _); congruence]. intros (r & Hr & Hst).
    destruct (bool_decide (kills scoped = [])); [by injection Hr as <-|].
    destruct (bool_decide (torn = [])); [by injection Hr as <-|].
    unfold b9_status in Hr. rewrite Em in Hr. destruct (String.eqb _ ""); cbn in Hr; by injection Hr as <-.
  - destruct (proj1 (meet_nonnil _ _) Em) as (c & _ & Hc). destruct (killed_kills _ _ _ Hk Hc) as [-> ->].
    unfold b9_status. rewrite Em. destruct (String.eqb_spec (text_of "test_nonce" (last_of os)) "") as [->|Hn].
    { cbn. split; [by intros (r & [= <-] & ?)|by intros (_ & ? & _)]. }
    assert (forall (n : row) P, (P <-> False) -> w_status n <> "PROVEN" -> (exists r, Ok n = Ok r /\ w_status r = "PROVEN") <-> P) as Hno.
    { intros n' P HP Hw. rewrite HP. split; [by intros (r & [= <-] & ?)|done]. }
    destruct n as [m|]; [destruct (String.eqb_spec m (text_of "test_nonce" (last_of os))) as [->|Hm]|]; cbn [negb rbind];
      [|by apply Hno; [split; [by intros (_ & _ & _ & ? & _)|done]|]|];
      (destruct (no_stream partial) as [[]|x] eqn:Hs; cbn [rbind];
       [apply Hno; [split; [intros (_ & _ & _ & _ & ? & [= <-] & ?); congruence|done]|done]
       |split; [intros _; split_and!; try done; [by exists torn|by exists partial]|intros _; by eexists]
       |split; [by intros (? & [=] & _)|intros (_ & _ & _ & _ & ? & [= <-] & ?); congruence]]).
Qed.

(** C29: two implementations of one contract, on every set of records of a run
    and every client file. The Layer B verifier finds both B8 and B9 PROVEN
    exactly when E3 of the auditor holds (one non-empty nonce), what E4 asks of B8
    and B9 holds (a genuine IPv6 ALLOW record, and a connection of B6 in a kill
    record, all of which can be read), and the client file does not report an
    empty stream, which the auditor does not look at. And the auditor's E3 and E4
    hold, with such a client file, exactly when both rows are PROVEN and the B4
    denials are on record, which Layer B does not look at. *)
Theorem auditor_agrees_with_layerb run_id scoped client :
  let proven := w_status (b8 run_id scoped).1 = "PROVEN" /\
    exists r, b9 run_id scoped (b8 run_id scoped).2 client = Ok r /\ w_status r = "PROVEN" in
  (proven <-> live_stream client /\ e3 scoped = true /\ b8_valid scoped = true /\ exists torn, torn_down scoped torn) /\
  (proven /\ b4_ok scoped = true <->
   live_stream client /\ e3 scoped = true /\ exists torn, killed scoped = Ok torn /\ e4 scoped torn = true).
Proof.
  intros proven.
  assert (proven <-> live_stream client /\ e3 scoped = true /\ b8_valid scoped = true /\ exists torn, torn_down scoped torn) as Hp.
  { unfold proven. rewrite b8_proven, b9_proven, b8_nonce. unfold e3.
    destruct (decide (allows scoped = [])) as [E|Hne].
    { rewrite E. cbn. split; [by intros ((_ & ?) & _)|by intros (_ & ? & _)]. }
    rewrite (bool_decide_eq_false_2 (allows scoped = [])) by done. cbn [negb andb].
    destruct (decide (owners B9_ROW scoped = [])) as [E|Ho].
    { rewrite E. cbn. split; [by intros (_ & ? & _)|by intros (_ & ? & _)]. }
    rewrite (bool_decide_eq_false_2 (owners B9_ROW scoped = [])) by done. cbn [negb andb]. split.
    - intros ((Hv & Hn8) & _ & Hn9 & Hm & Heq & Hs). split_and!; [done| |done..].
      rewrite (proj2 (String.eqb_neq _ _) Hn8), (proj2 (String.eqb_neq _ _) Hn9), Heq, String.eqb_refl. done.
    - intros (Hs & He & Hv & Hm). bools. split_and!; done. }
  split; [exact Hp|]. rewrite Hp. unfold e4, torn_down. split.
  - intros ((Hs & He & Hv & torn & Hk & Hm) & Hb). split_and!; [done..|]. exists torn. by rewrite Hm, Hv, Hb.
  - intros (Hs & He & torn & Hk & H4). bools. split_and!; try done. exists torn. by rewrite bool_decide_eq_false.
Qed.

(** ** Binding *)

Lemma fld_dset_eq k v d : fld k (dset k v d) = v.
Proof. unfold fld, dget_or. by rewrite dget_dset_eq. Qed.
Lemma fld_dset_ne k k' v d : k <> k' -> fld k (dset k' v d) = fld k d.
Proof. intros H. unfold fld, dget_or. by rewrite dget_dset_ne. Qed.
Lemma py_eqb_refl_str s : py_eqb (VStr s) (VStr s) = true.
Proof. apply String.eqb_refl. Qed.
Lemma bind_bound run_id d : bound_to run_id (bind_run run_id d) = negb (truthy (fld "run_id_conflict" d)).
Proof.
  unfold bound_to, bind_run. rewrite !fld_dset_eq, !(fld_dset_ne "run_id"), !(fld_dset_ne "run_id_conflict") by done.
  rewrite fld_dset_eq. cbn [py_str]. by rewrite String.eqb_refl, py_eqb_refl_str.
Qed.
Lemma bound_dset run_id k v d : k ∉ ["run_id"; "run_id_source"; "run_id_conflict"] ->
  bound_to run_id (dset k v d) = bound_to run_id d.
Proof.
  intros Hk. unfold bound_to. rewrite !fld_dset_ne; [done|..]; intros <-; apply Hk; is_in.
Qed.
Lemma show_N_cons n : exists c s, show_N n = String c s.
Proof. destruct (show_N_head n) as (d & s & _ & -> & _). by eexists _, _. Qed.
(** A run id of its own is recorded as a non-empty conflict. *)
Lemma populated_str prior : populated prior = true -> truthy (VStr (py_str prior)) = true.
Proof.
  assert (forall c s, truthy (VStr (String c s)) = true) as Hc by done.
  unfold populated. destruct prior as [|[]|z|[m k|[]|]|s|[|x l]|[|[k x] d]]; cbn [is_none py_eqb orb negb py_str py_repr]; intros Hp; try done.
  - destruct z as [|p|p]; [done| |done]. unfold show_Z. by destruct (show_N_cons (Z.to_N (Z.pos p))) as (c & t & ->).
  - unfold print_float. destruct (show_N_cons (Z.abs_N m / 10 ^ N.of_nat (S k))) as (c & t & ->). by destruct (m <? 0).
Qed.

(** The run and its source of an artifact, unchanged. *)
Lemma merge_binding run_id r8 r9 d m : merge run_id r8 r9 (VDict d) = Ok m ->
  py_eqb (fld "run_id_source" d) (VStr "control-plane") = true -> String.eqb (py_str (fld "run_id" d)) run_id = true ->
  bound_to run_id m = negb (truthy (fld "run_id_conflict" d)).
Proof.
  unfold merge. cbn [as_dict rbind]. intros Hm Hs Hr.
  destruct (v_iter _) as [l|]; cbn [rbind] in Hm; [|done]. destruct (rmap as_dict l) as [old|]; cbn [rbind] in Hm; [|done].
  rewrite !(fld_dset_ne _ "rows") in Hm by done. rewrite Hs, Hr, andb_false_r in Hm. injection Hm as <-.
  rewrite (bound_dset _ "total"), (bound_dset _ "passed"), bind_bound by not_in. by rewrite fld_dset_ne.
Qed.

(** C35: binding is the control plane's act. An artifact that names a run of its
    own, whichever it is, is reported as a conflict by the stamper, and E8
    refuses it after stamping and after the Layer B verifier has rewritten it;
    one that names none is bound, and stays bound. *)
Theorem stamp_binds text a run_id d st :
  loads text = Some (VDict a) -> stamp (Some text) run_id = Ok (d, st) ->
  (populated (fld "run_id" a) = true ->
     st = "CONFLICT" /\ bound_to run_id d = false /\
     forall r8 r9 m, merge run_id r8 r9 (VDict d) = Ok m -> bound_to run_id m = false) /\
  (populated (fld "run_id" a) = false -> dget "run_id_conflict" a = None ->
     st = "ok" /\ bound_to run_id d = true /\
     forall r8 r9 m, merge run_id r8 r9 (VDict d) = Ok m -> bound_to run_id m = true).
Proof.
  intros Ha. unfold stamp. rewrite Ha. intros [= <- <-].
  assert (forall x r8 r9 m, merge run_id r8 r9 (VDict (bind_run run_id x)) = Ok m ->
    bound_to run_id m = bound_to run_id (bind_run run_id x)) as Hm.
  { intros x r8 r9 m H. rewrite bind_bound.
    rewrite (merge_binding _ _ _ _ _ H); unfold bind_run; rewrite ?fld_dset_eq, ?(fld_dset_ne "run_id"), ?fld_dset_eq by done.
    - by rewrite !(fld_dset_ne "run_id_conflict") by done.
    - done.
    - apply String.eqb_refl. }
  assert (forall x, dmem "run_id_conflict" (bind_run run_id x) = dmem "run_id_conflict" x) as Hd.
  { intros x. unfold dmem, bind_run. by rewrite !dget_dset_ne. }
  split; intros Hp; rewrite Hp.
  - assert (bound_to run_id (bind_run run_id (dset "run_id_conflict" (VStr (py_str (fld "run_id" a))) a)) = false) as Hb.
    { by rewrite bind_bound, fld_dset_eq, populated_str. }
    split_and!; [|done|intros; by erewrite Hm]. rewrite Hd. unfold dmem. by rewrite dget_dset_eq.
  - intros Hn. assert (bound_to run_id (bind_run run_id a) = true) as Hb.
    { rewrite bind_bound. unfold fld, dget_or. by rewrite Hn. }
    split_and!; [|done|intros; by erewrite Hm]. rewrite Hd. unfold dmem. by rewrite Hn.
Qed.

(** ** What a certified run has *)

Section Certified.
Context `{Digest}.

Lemma audit_lines_ok lines : forall recs bad l bad', audit_lines lines recs bad = (l, bad') ->
  bad <= bad' /\ (bad' = bad -> exists new, l = (recs ++ new)%list /\ map snd new = nonblank lines /\
    Forall (fun p => loads p.2 = Some p.1) new).
Proof.
  induction lines as [|raw lines IH]; intros recs bad l bad'; cbn [audit_lines].
  - intros [= <- <-]. split; [lia|]. intros _. exists []. by rewrite app_nil_r.
  - rewrite nonblank_cons. destruct (String.eqb (b_strip raw) ""); [apply IH|].
    destruct (loads (b_strip raw)) as [v|] eqn:Ev; intros Hl; apply IH in Hl as [Hle Heq].
    + split; [done|]. intros E. destruct (Heq E) as (new & -> & Hs & Hn).
      exists ((v, b_strip raw) :: new). rewrite <- app_assoc. split; [done|]. cbn. rewrite Hs. split; [done|by constructor].
    + split; lia.
Qed.
Lemma chain_ok_from recs es : forall p, Forall (fun q => loads q.2 = Some q.1) recs -> Forall2 (fun v d => as_dict v = Ok d) (map fst recs) es ->
  chain_ok p (combine es (map snd recs)) = true -> exists t, chain_from p (map snd recs) = Some t.
Proof.
  revert es. induction recs as [|[v raw] recs IH]; intros es p Hl He; cbn [map chain_from].
  - intros _. by exists p.
  - apply Forall_cons in Hl as [Hv Hl]. apply Forall2_cons_inv_l in He as (d & es' & Hd & He & ->).
    cbn [combine chain_ok fst snd] in *. rewrite Hv. destruct v; try done. injection Hd as ->.
    rewrite py_eqb_VStr. unfold fld, dget_or. destruct (dget "prev" d) as [w|]; cbn; [|done].
    destruct (match w with VStr _ => _ | _ => _ end); cbn; [|done]. by apply IH.
Qed.
(** The log an auditor accepts is intact for [AuditLog.verify] as well. *)
Lemma audit_intact audit recs bad es : load_audit audit = (recs, bad) -> rmap as_dict (map fst recs) = Ok es ->
  chain_ok GENESIS (combine es (map snd recs)) = true -> bad = 0 -> AuditLog.verify audit = Ok (true, Intact (length es)).
Proof.
  unfold load_audit. destruct audit as [f|]; [|by intros [= <- <-]]. intros Hl He Hc ->.
  apply audit_lines_ok in Hl as [_ Hl]. destruct (Hl eq_refl) as (new & -> & Hs & Hn). cbn in *.
  apply rmap_Forall2 in He. destruct (chain_ok_from new es GENESIS Hn He Hc) as [t Ht].
  apply verify_spec. unfold rec_lines. fold (nonblank (file_lines f)). exists t. rewrite <- Hs. split; [done|].
  f_equal. apply Forall2_length in He. by rewrite length_map, <- He, length_map.
Qed.

Definition row_ok (required : list string) (r : dict) : Prop :=
  exists id, fld "id" r = VStr id /\ id ∈ required /\ status_proven r = true /\ fld "pass" r = VBool true.
(** Exactly the required rows, each proven and passed. *)
Definition rows_exact (required : list string) (rows : list dict) : Prop :=
  Forall (row_ok required) rows /\ NoDup (map (fld "id") rows) /\ forall id, id ∈ required -> exists r, r ∈ rows /\ fld "id" r = VStr id.
(** A connection of the acceptance row was listed by a kill of the same run. *)
Definition killed_connection (row : string) (scoped : list dict) : Prop :=
  exists e k torn, e ∈ scoped /\ text_of "row_id" e = row /\ k ∈ scoped /\ is_decision "KILL_SWITCH" k = true /\
    torn_of k = Ok torn /\ conn_of e ∈ torn.
Lemma meet_killed row scoped torn : killed scoped = Ok torn ->
  bool_decide (meet (map conn_of (owners row scoped)) torn = []) = false -> killed_connection row scoped.
Proof.
  intros Hk (c & Hc & Ht)%meet_nonnil. apply list_elem_of_In, in_map_iff in Hc as (e & <- & He).
  apply list_elem_of_In, filter_elem in He as [He Hr]. bools.
  destruct (killed_elem _ _ _ Hk Ht) as (k & l & Hks & Hd & Hl & Hin). by exists e, k, l.
Qed.
Lemma in_ids_str l v : in_ids l v = true -> exists s, v = VStr s /\ s ∈ l.
Proof. destruct v; try done. cbn. intros ?%mem_str_spec. eauto. Qed.
Lemma row_ids_map rows l : row_ids rows = Ok l -> l = map (fld "id") rows.
Proof.
  intros Hl%rmap_Forall2. induction Hl as [|r v rows l Hr Hl IH]; [done|]. cbn. rewrite <- IH.
  destruct (hashable _); [|done]. by injection Hr as ->.
Qed.
Lemma repeated_NoDup l : forallb (fun v => is_strv v) l = true -> repeated l = false -> NoDup l.
Proof.
  induction l as [|v l IH]; cbn; [constructor|]. intros [Hv Hl]%andb_true_iff [Hr Hd]%orb_false_iff.
  constructor; [|auto]. intros Hin. assert (existsb (py_eqb v) l = true) as E; [|congruence].
  apply existsb_elem_of. exists v. split; [done|]. destruct v; try done. apply String.eqb_refl.
Qed.
Lemma exact_rows required rows l : row_ids rows = Ok l ->
  set_is l required = true -> repeated l = false ->
  (forall r, r ∈ rows -> in_ids required (fld "id" r) = true -> status_proven r = true /\ is_true (fld "pass" r) = true) ->
  rows_exact required rows.
Proof.
  intros ->%row_ids_map Hs Hr Hp. unfold set_is in Hs. bools. rewrite !forallb_elem_of in *. split_and!.
  - apply Forall_forall. intros r Hin. match goal with H : forall x, x ∈ map _ rows -> _ |- _ => rename H into Ha end.
    assert (in_ids required (fld "id" r) = true) as Hi by (apply Ha, list_elem_of_In, in_map, list_elem_of_In, Hin).
    destruct (Hp r Hin Hi) as [Hst Hps]. destruct (in_ids_str _ _ Hi) as (s & Es & Hs). exists s.
    split_and!; try done. by destruct (fld "pass" r) as [|[]| | | | |].
  - apply repeated_NoDup; [|done]. apply forallb_elem_of. intros v Hv. 
    match goal with H : forall x, x ∈ map _ rows -> _ |- _ => destruct (in_ids_str _ _ (H v Hv)) as (s & -> & _) end. done.
  - intros s Hs. match goal with H : forall x, x ∈ required -> _ |- _ => apply H in Hs end.
    apply existsb_elem_of in Hs as (v & Hv & Hs). apply list_elem_of_In, in_map_iff in Hv as (r & <- & Hr').
    exists r. split; [by apply list_elem_of_In|]. destruct (fld "id" r); try done. by apply String.eqb_eq in Hs as ->.
Qed.
Variable parse : string -> option ast.
Hypothesis parse_node : forall t tree, parse t = Some tree -> is_node tree = true.

(** The parts of a certified verdict. *)
Record parts (g : gate) (acc lb : dict) (a_rows b_rows es : list dict) (torn : list string) : Prop := {
  pt_acc : object_of (g_acceptance g) = Ok acc /\ rows_of "layer_a" acc = Ok a_rows;
  pt_lb : object_of (g_layerb g) = Ok lb /\ rows_of "rows" lb = Ok b_rows;
  pt_log : exists recs bad, load_audit (g_audit g) = (recs, bad) /\ rmap as_dict (map fst recs) = Ok es /\
    e7 (combine es (map snd recs)) bad (List.filter (in_run (g_run_id g)) es) = true;
  pt_killed : killed (List.filter (in_run (g_run_id g)) es) = Ok torn;
  pt_rows : e1 a_rows b_rows = true /\ exists ids_a ids_b, row_ids a_rows = Ok ids_a /\ row_ids b_rows = Ok ids_b /\
    e2 acc lb a_rows b_rows ids_a ids_b = Ok true;
  pt_raw : e3 (List.filter (in_run (g_run_id g)) es) = true /\ e4 (List.filter (in_run (g_run_id g)) es) torn = true;
  pt_sources : exists expected, e5 parse expected (g_verifiers g) = Ok true;
  pt_v4 : e6 (load_json (g_v4 g)) (List.filter (in_run (g_run_id g)) es) torn = Ok true;
  pt_bound : e8 (g_run_id g) [Some (VDict acc); Some (VDict lb); load_json (g_v4 g); load_json (g_b7 g)] = Ok true;
  pt_b7 : e9 (g_fixture g) (load_json (g_b7 g)) lb (g_run_id g) (g_raw_dir g) = true }.
Lemma certified_parts g : main parse g = Ok 0 ->
  g_fixture g = false /\ exists acc lb a_rows b_rows es torn, parts g acc lb a_rows b_rows es torn.
Proof.
  unfold main. intros (v & Hv & Hm)%res_bind_Ok. destruct (g_fixture g) eqn:Hf; [by destruct (passed v)|].
  split; [done|]. destruct (passed v) eqn:Hp; [clear Hm|done]. unfold verdict_of in Hv.
  apply res_bind_Ok in Hv as (manifest & _ & Hv). cbv zeta in Hv. apply res_bind_Ok in Hv as (acc & Hacc & Hv).
  apply res_bind_Ok in Hv as (lb & Hlb & Hv). destruct (load_audit (g_audit g)) as [recs bad] eqn:Ha.
  apply res_bind_Ok in Hv as (es & Hes & Hv). apply res_bind_Ok in Hv as (a_rows & Har & Hv).
  apply res_bind_Ok in Hv as (b_rows & Hbr & Hv). apply res_bind_Ok in Hv as (ids_a & Hia & Hv).
  apply res_bind_Ok in Hv as (ids_b & Hib & Hv). apply res_bind_Ok in Hv as (c2 & H2 & Hv).
  apply res_bind_Ok in Hv as (torn & Hk & Hv). apply res_bind_Ok in Hv as (c5 & H5 & Hv).
  apply res_bind_Ok in Hv as (c6 & H6 & Hv). apply res_bind_Ok in Hv as (c8 & H8 & Hv). injection Hv as <-.
  unfold passed in Hp. cbn [v_e7 v_e1 v_e2 v_e3 v_e4 v_e5 v_e6 v_e8 v_e9] in Hp.
  apply andb_true_iff in Hp as [Hp H9]. apply andb_true_iff in Hp as [Hp C8]. apply andb_true_iff in Hp as [Hp C6].
  apply andb_true_iff in Hp as [Hp C5]. apply andb_true_iff in Hp as [Hp C4]. apply andb_true_iff in Hp as [Hp C3].
  apply andb_true_iff in Hp as [Hp C2]. apply andb_true_iff in Hp as [C7 C1]. subst c2 c5 c6 c8.
  exists acc, lb, a_rows, b_rows, es, torn. split; try assumption; try (split; assumption).
  - exists recs, bad. by split_and!.
  - split; [assumption|]. exists ids_a, ids_b. by split_and!.
  - by eexists.
Qed.
Lemma sources_read expected vs : e5 parse expected vs = Ok true -> forall base source, (base, source) ∈ vs ->
  exists src tree, source = Some src /\ parse src = Some tree /\ sound_source base src tree.
Proof.
  unfold e5. intros (bs & Hb & [= Hf])%res_bind_Ok base source Hin. apply rmap_Forall2 in Hb.
  apply list_elem_of_lookup in Hin as [i Hi]. destruct (Forall2_lookup_l _ _ _ _ _ Hb Hi) as (b & Hbi & Hg).
  rewrite forallb_elem_of in Hf. specialize (Hf b (list_elem_of_lookup_2 _ _ _ Hbi)). cbn in Hf, Hg. unfold id in Hf. subst b.
  destruct source as [src|]; [|done]. apply verifier_good_iff in Hg as (tree & Hp & Hs & _); [|done]. by exists src, tree.
Qed.
Lemma rows_checked acc lb a_rows b_rows ids_a ids_b : e1 a_rows b_rows = true ->
  row_ids a_rows = Ok ids_a -> row_ids b_rows = Ok ids_b -> e2 acc lb a_rows b_rows ids_a ids_b = Ok true ->
  rows_exact REQUIRED_A a_rows /\ rows_exact REQUIRED_B b_rows.
Proof.
  unfold e1, e2. intros H1 Ha Hb H2. destruct (sortable _); [|done]. injection H2 as H2. bools.
  assert (forall r, r ∈ required_rows a_rows b_rows -> status_proven r = true /\ is_true (fld "pass" r) = true) as Hp.
  { intros r Hr. match goal with H : forallb status_proven _ = true |- _ => rewrite forallb_elem_of in H; specialize (H r Hr) end.
    split; [done|]. match goal with H : forallb (fun r => negb _ || _) _ = true |- _ => rewrite forallb_elem_of in H; specialize (H r Hr); rename H into Hx end.
    cbn beta in Hx. match goal with H : status_proven r = true |- _ => by rewrite H in Hx end. }
  unfold required_rows in Hp.
  split; eapply exact_rows; try done; intros r Hr Hi; apply Hp, elem_of_app; [left|right]; by apply filter_elem.
Qed.
Lemma bound_all run_id acc lb v4 b7 : e8 run_id [Some (VDict acc); Some (VDict lb); v4; b7] = Ok true ->
  bound_to run_id acc = true /\ bound_to run_id lb = true.
Proof.
  unfold e8. cbn [rmap artifact_bound as_dict rbind]. destruct (artifact_bound run_id v4); cbn [rbind]; [|done].
  destruct (artifact_bound run_id b7); cbn [rbind]; [|done]. intros [= Hb]. cbn in Hb. by bools.
Qed.
Lemma b7_derived b7 lb run_id raw_dir : e9 false b7 lb run_id raw_dir = true ->
  exists v, b7 = Some v /\ derive v (VDict lb) run_id raw_dir = (true, []).
Proof.
  unfold e9. destruct b7 as [v|]; [|done]. unfold derive. destruct raw_dir as [raw|]; [|done].
  intros He. exists v. split; [done|]. destruct ('(_, fs) <- validate_fixture_summary _ _ _;; _) as [fs|x]; [|done].
  cbn in *. by bools; subst.
Qed.

End Certified.

(** ** PP18 *)

Lemma conflicting_false n rest : Pp18.conflicting (n :: rest) = false <-> forall m, m ∈ n :: rest -> m = n.
Proof.
  cbn. rewrite <- not_true_iff_false, existsb_elem_of. split.
  - intros H m [->|Hm]%elem_of_cons; [done|]. destruct (String.eqb_spec n m) as [->|Hne]; [done|]. exfalso. apply H.
    exists m. split; [done|]. by rewrite (proj2 (String.eqb_neq _ _) Hne).
  - intros H (m & Hm & Hn). rewrite (H m), String.eqb_refl in Hn by (by right). done.
Qed.

(** PP18 exactly. On a log without malformed lines whose kill records can be
    read, the host-side check of the IPv4 kill switch answers PROVEN if and only
    if the run has an id, every record of the row that names a connection carries
    one and the same non-empty nonce, and one of those connections is in the list
    of a kill record of that run. *)
Theorem pp18_exact audit run_id recs es torn :
  load_strict audit = (recs, 0) -> rmap as_dict recs = Ok es ->
  let scoped := List.filter (in_run run_id) es in killed scoped = Ok torn ->
  Pp18.verify audit run_id = Ok "PROVEN" <->
  run_id <> "" /\
  (exists nonce, nonce <> "" /\ forall e, e ∈ owners "PP18" scoped -> text_of "test_nonce" e = nonce) /\
  bool_decide (meet (map conn_of (owners "PP18" scoped)) torn = []) = false.
Proof.
  intros Hl Hes scoped Hk. unfold Pp18.verify. rewrite Hl. cbn [Z.eqb negb]. unfold scope. rewrite Hes. cbn [rbind]. fold scoped.
  destruct (String.eqb_spec run_id "") as [->|Hr]; [by split; [|intros [? _]]|].
  change Pp18.ROW with "PP18". set (os := owners "PP18" scoped).
  destruct (bool_decide (scoped = [])) eqn:Es.
  { bools. split; [done|]. intros (_ & _ & Hm). unfold os in Hm. rewrite Es in Hm. done. }
  destruct os as [|o os'] eqn:Eo; [by split; [|intros (_ & _ & Hm)]|]. rewrite (bool_decide_eq_false_2 (o :: os' = [])) by done.
  destruct (mem_str "" (map (text_of "test_nonce") (o :: os'))) eqn:En.
  { split; [done|]. intros (_ & (nonce & Hne & Ha) & _). apply mem_str_spec, list_elem_of_In, in_map_iff in En as (e & He & Hin).
    rewrite (Ha e) in He by (by apply list_elem_of_In). done. }
  cbn [map]. destruct (Pp18.conflicting _) eqn:Ec.
  { split; [done|]. intros (_ & (nonce & Hne & Ha) & _). exfalso. revert Ec. apply not_true_iff_false, conflicting_false.
    intros m Hm. rewrite (Ha o) by left. change (text_of "test_nonce" o :: map (text_of "test_nonce") os')
      with (map (text_of "test_nonce") (o :: os')) in Hm.
    apply list_elem_of_In, in_map_iff in Hm as (e & <- & Hin). apply Ha. by apply list_elem_of_In. }
  rewrite Hk. cbn [rbind]. cbn [map].
  destruct (bool_decide (meet (conn_of o :: map conn_of os') torn = [])) eqn:Em.
  { split; [|by intros (_ & _ & ?)]. by destruct (bool_decide (kills scoped = [])), (bool_decide (torn = [])). }
  destruct (proj1 (meet_nonnil _ _) Em) as (c & _ & Hc). destruct (killed_kills _ _ _ Hk Hc) as [-> ->].
  split; [|done]. intros _. split_and!; [done| |done]. exists (text_of "test_nonce" o). split.
  - intros E0. assert (mem_str "" (map (text_of "test_nonce") (o :: os')) = true); [|congruence].
    apply mem_str_spec. cbn. rewrite E0. left.
  - intros e He. apply (proj1 (conflicting_false _ _) Ec). change (text_of "test_nonce" e ∈ map (text_of "test_nonce") (o :: os')).
    by apply list_elem_of_In, in_map, list_elem_of_In.
Qed.

(** ** B7 *)

Lemma needs_nil l : needs l = [] -> forall p, p ∈ l -> p.1 = true.
Proof.
  unfold needs. intros H p Hp. destruct p.1 eqn:E; [done|].
  assert (p ∈ List.filter (fun p => negb p.1) l) as Hx by (apply filter_elem; by rewrite E).
  destruct (List.filter _ l); [by apply not_elem_of_nil in Hx|done].
Qed.
Lemma needs_app l m : needs (l ++ m) = (needs l ++ needs m)%list.
Proof. unfold needs. by rewrite List.filter_app, map_app. Qed.

Section Raw.
Context `{Digest}.
Variable raw : string -> option string.

Lemma summary_run e lb run_id : summary_failures e lb run_id = Ok [] -> fld "run_id" e = VStr run_id.
Proof.
  unfold summary_failures. intros Hs. repeat (apply res_bind_Ok in Hs as (? & _ & Hs)). cbv zeta in Hs. injection Hs as Hs.
  pose proof (needs_nil _ Hs (py_eqb (fld "run_id" e) (VStr run_id), "RUN_ID_MISMATCH")
    ltac:(right; left)) as Hx. cbn [fst] in Hx.
  rewrite py_eqb_VStr in Hx. cbn in Hx. destruct (fld "run_id" e); try done. by bools; subst.
Qed.
Lemma logs_ok e logs : raw_logs raw e = Ok logs -> needs logs = [] ->
  exists probe nonce received, field "probe" e = Ok probe /\ dindex probe "nonce" = Ok (VStr nonce) /\
    contains nonce (raw_file raw "attempt.pcap") = true /\
    nonces (raw_file raw "receiver.jsonl") = Ok received /\ nonce ∉ received.
Proof.
  unfold raw_logs. intros Hl Hn.
  apply res_bind_Ok in Hl as (probe & Hp & Hl). apply res_bind_Ok in Hl as (v & Hv & Hl).
  apply res_bind_Ok in Hl as (attempt & _ & Hl). apply res_bind_Ok in Hl as (nonce & Ht & Hl).
  apply res_bind_Ok in Hl as (rn & Hrn & Hl). apply res_bind_Ok in Hl as (cn & _ & Hl).
  apply res_bind_Ok in Hl as (c & _ & Hl). apply res_bind_Ok in Hl as (cal & _ & Hl).
  apply res_bind_Ok in Hl as (receiver & _ & Hl). apply res_bind_Ok in Hl as (controls & _ & Hl).
  apply res_bind_Ok in Hl as (delivered & _ & Hl). injection Hl as <-.
  exists probe, nonce, rn. split_and!; [done| | |done|].
  - destruct v as [| | | |s| |]; try done. cbn in Ht. destruct (str_all is_ascii s); [|done]. injection Ht as <-. done.
  - exact (needs_nil _ Hn (_, "NONCE_ABSENT_FROM_PCAP") ltac:(right; left)).
  - intros Hin. pose proof (needs_nil _ Hn (_, "RAW_MEASUREMENT_REACHED_RECEIVER") ltac:(do 4 right; left)) as Hx.
    cbn [fst] in Hx. apply mem_str_spec in Hin. by rewrite Hin in Hx.
Qed.
Lemma rule_ok e sender target nin l : raw_rule raw e sender target = Ok (nin, l) -> needs l = [] ->
  exists enforcement rule run before, field "enforcement" e = Ok enforcement /\
    dget_or "rule_identity" (VStr "") enforcement = VStr rule /\ dindex e "run_id" = Ok run /\
    contains ("strix-b7:" ++ py_str run) rule = true /\
    packets rule (rules (raw_file raw "rules.before")) = Some before /\
    packets rule (rules (raw_file raw "rules.after")) = Some (before + 1).
Proof.
  unfold raw_rule. intros Hr Hn. cbv zeta in Hr. apply res_bind_Ok in Hr as (enforcement & He & Hr).
  apply res_bind_Ok in Hr as (tokens & _ & Hr). apply res_bind_Ok in Hr as (nin' & _ & Hr).
  apply res_bind_Ok in Hr as (bridge & _ & Hr).
  destruct (dget_or "rule_identity" (VStr "") enforcement) as [| | | |rule| |] eqn:Er; try done.
  apply res_bind_Ok in Hr as (run & Hrun & Hr). injection Hr as _ <-.
  pose proof (needs_nil _ Hn (_, "EXACT_RULE_NOT_IN_RAW_SNAPSHOTS") ltac:(left)) as H1. cbn [fst] in H1. bools.
  pose proof (needs_nil _ Hn (_, "RAW_RULE_RUN_LABEL_MISSING") ltac:(do 2 right; left)) as H3. cbn [fst] in H3.
  repeat match goal with H : is_Some _ |- _ => destruct H as [? H] end.
  match goal with Hb : packets rule (rules (raw_file raw "rules.before")) = Some ?b,
                  Ha : packets rule (rules (raw_file raw "rules.after")) = Some ?a |- _ =>
    rewrite Hb, Ha in Hn; exists enforcement, rule, run, b;
    pose proof (needs_nil _ Hn (a =? b + 1, "RAW_EXACT_COUNTER_NOT_ONE") ltac:(do 3 right; left)) as Hx; cbn [fst] in Hx; bools;
    split_and!; try done; by rewrite Ha, Hx end.
Qed.

(** C33: B7 from raw output only. When the derivation of B7 succeeds, the nonce of
    the probe is in the captured packets and in no line of the receiver's log, and
    the rule the evidence names, labelled with this run, is in both rule snapshots
    with a packet counter that rose by exactly one. *)
Theorem b7_from_raw v lb run_id : derive v lb run_id (Some raw) = (true, []) ->
  exists e probe nonce received enforcement rule before,
    v = VDict e /\ field "probe" e = Ok probe /\ dindex probe "nonce" = Ok (VStr nonce) /\
    contains nonce (raw_file raw "attempt.pcap") = true /\
    nonces (raw_file raw "receiver.jsonl") = Ok received /\ (nonce ∉ received) /\
    field "enforcement" e = Ok enforcement /\ dget_or "rule_identity" (VStr "") enforcement = VStr rule /\
    contains ("strix-b7:" ++ run_id) rule = true /\
    packets rule (rules (raw_file raw "rules.before")) = Some before /\
    packets rule (rules (raw_file raw "rules.after")) = Some (before + 1).
Proof.
  unfold derive. destruct (rbind (validate_fixture_summary v lb run_id) _) as [fs|x] eqn:E; [|done]. intros [= _ ->].
  apply res_bind_Ok in E as ([ok gs] & Hval & E). apply res_bind_Ok in E as (e & He & E).
  apply res_bind_Ok in E as (rs & Hraw & E). injection E as E. apply app_nil in E as [-> ->].
  destruct v as [| | | | | |d]; try done. injection He as ->.
  unfold validate_fixture_summary in Hval. cbn [as_dict rbind] in Hval. apply res_bind_Ok in Hval as (l & _ & Hval).
  apply res_bind_Ok in Hval as (gs & Hs & Hval). injection Hval as _ ->. pose proof (summary_run _ _ _ Hs) as Hid.
  unfold raw_checks in Hraw. destruct (negb _); [done|].
  apply res_bind_Ok in Hraw as (sender & _ & Hraw). apply res_bind_Ok in Hraw as (target & _ & Hraw).
  apply res_bind_Ok in Hraw as (logs & Hlogs & Hraw). apply res_bind_Ok in Hraw as ([nin rule] & Hrule & Hraw).
  apply res_bind_Ok in Hraw as (topology & _ & Hraw). injection Hraw as Hn. rewrite !needs_app in Hn.
  apply app_nil in Hn as [Hn1 Hn]. apply app_nil in Hn as [Hn2 _].
  destruct (logs_ok _ _ Hlogs Hn1) as (probe & nonce & received & H1 & H2 & H3 & H4 & H5).
  destruct (rule_ok _ _ _ _ _ Hrule Hn2) as (enf & r & run & before & G1 & G2 & G3 & G4 & G5 & G6).
  exists e, probe, nonce, received, enf, r, before. split_and!; try done.
  assert (run = VStr run_id) as ->; [|done]. unfold fld, dget_or in Hid. unfold dindex in G3.
  destruct (dget "run_id" e); [cbn in *; congruence|done].
Qed.
End Raw.
