(* ===== verification/EvidenceScenario.v ===== *)
(** * A certified run, evaluated

    A log, the artifacts and the raw files of B7 that the auditor certifies, and
    the witnesses of the pipeline's properties. *)

From S2P Require Import Prelude.
From S2P Require Import PyStr.
From S2P Require Import Json.
From S2P Require Import JsonFacts.
From S2P Require Import PyDyn.
From S2P Require Import Hash.
From S2P Require Import AuditLog.
From S2P Require Import AuditProps.
From S2P Require Import Evidence.
From S2P Require Import LayerB.
From S2P Require Import B7.
From S2P Require Import PyAst.
From S2P Require Import SourceAudit.
From S2P Require Import GateAudit.
From S2P Require Import SourceProps.
From S2P Require Import EvidenceProps.
Open Scope Z_scope.

#[local] Existing Instance toy.

Definition strs (l : list (string * string)) : dict := map (fun kv => (kv.1, VStr kv.2)) l.
Definition rec_of (l : list (string * string)) : dict := (("run_id", VStr "run-1") :: strs l)%list.
Definition run_records : list dict :=
  [ rec_of [ ("decision", "ALLOW"); ("row_id", "B5"); ("test_nonce", "n1"); ("conn_id", "c5"); ("pin_family", "ipv6");
             ("pin_ip", "2001:db8::10"); ("canonical_host", "www.example.com"); ("sni", "www.example.com");
             ("request_hash", "aa"); ("response_hash", "bb") ];
    rec_of [ ("decision", "BLOCKED_BY_POLICY"); ("row_id", "B4"); ("test_nonce", "n1"); ("conn_id", "c3");
             ("reason", "SNI_MISMATCH:evil") ];
    rec_of [ ("decision", "BLOCKED_BY_POLICY"); ("row_id", "B4"); ("test_nonce", "n1"); ("conn_id", "c4");
             ("reason", "HOST_HEADER_MISMATCH:evil") ];
    rec_of [ ("decision", "CONNECTION_TERMINATED"); ("row_id", "B6"); ("test_nonce", "n1"); ("conn_id", "c6") ];
    rec_of [ ("decision", "CONNECTION_TERMINATED"); ("row_id", "PP18"); ("test_nonce", "n1"); ("conn_id", "c18") ];
    (rec_of [ ("decision", "KILL_SWITCH") ] ++ [("terminated_conn_ids", VList [VStr "c6"; VStr "c18"])])%list ].
Definition nl : string := String newline "".
Fixpoint log_of (prev : string) (l : list dict) : string :=
  match l with
  | [] => ""
  | r :: l' => let line := dumps (VDict (dset "prev" (VStr prev) r)) in line ++ nl ++ log_of (sha256 line) l'
  end.
Definition run_log : string := log_of GENESIS run_records.

Definition good_row (id : string) : val :=
  VDict [("id", VStr id); ("status", VStr "PROVEN"); ("pass", VBool true)].
Definition bound_artifact (d : dict) : string := dumps (VDict (bind_run "run-1" d)).
Definition acceptance_ex : string :=
  bound_artifact [("layer_a", VList (map good_row REQUIRED_A)); ("layer_a_total", VInt 30); ("layer_a_passed", VInt 30)].
Definition layerb_ex : dict := [("rows", VList (map good_row REQUIRED_B)); ("total", VInt 9); ("passed", VInt 9)].
Definition v4_ex : string := bound_artifact [("passed", VInt 1); ("total", VInt 1); ("results", VList [good_row "P1"])].

(** ** The B7 evidence and its raw files *)

Fixpoint times (n : nat) (c : ascii) : string := match n with O => "" | S n' => String c (times n' c) end.
Definition nonce_ex : string := times 64 "a".
Definition c1_ex : string := times 64 "b".
Definition c2_ex : string := times 64 "c".
Definition cal_ex : string := times 64 "d".
Definition rule_ex : string :=
  "-A PREROUTING -s fd00::1/128 -d fd00:1::2/128 -i br0 -p udp --dport 5000 -m comment strix-b7:run-1 -j DROP".
Definition jsonl (l : list string) : string := fold_right (fun n t => dumps (VDict [("nonce", VStr n)]) ++ nl ++ t) "" l.
Definition raw_files : list (string * string) :=
  [ ("attempt.pcap", "xx" ++ nonce_ex ++ "yy");
    ("receiver.jsonl", jsonl [c1_ex; c2_ex]);
    ("cal_receiver.jsonl", jsonl [cal_ex]);
    ("rules.before", "*raw" ++ nl ++ "[0:0] " ++ rule_ex ++ nl);
    ("rules.after", "*raw" ++ nl ++ "[1:80] " ++ rule_ex ++ nl);
    ("sandbox.inspect.json", dumps (VList [VDict [("Id", VStr "sbx"); ("State", VDict [("Pid", VInt 7)]);
       ("NetworkSettings", VDict [("Networks", VDict [("in", VDict [("GlobalIPv6Address", VStr "fd00::1")])])])]]));
    ("receiver.inspect.json", dumps (VList [VDict [("Id", VStr "rcv");
       ("NetworkSettings", VDict [("Networks", VDict [("eg", VDict [("GlobalIPv6Address", VStr "fd00:1::2")])])])]]));
    ("network-in.inspect.json", dumps (VList [VDict [("Id", VStr "nin"); ("Name", VStr "in");
       ("Options", VDict [("com.docker.network.bridge.name", VStr "br0")])]]));
    ("network-eg.inspect.json", dumps (VList [VDict [("Id", VStr "neg"); ("Name", VStr "eg")]]));
    ("host-links.json", dumps (VList [VDict [("ifname", VStr "veth1@if2")]]));
    ("sandbox-ipv6-addr.json", "[]"); ("sandbox-ipv6-route-before.json", "[]") ].
Definition raw_ex (name : string) : option string := snd <$> findb (fun kv => String.eqb name kv.1) raw_files.
Definition flow_ex : dict :=
  (strs [("src_ip", "fd00::1"); ("dst_ip", "fd00:1::2"); ("protocol", "udp")] ++ [("dst_port", VInt 5000)])%list.
Definition hash_of (name : string) : val := VStr (sha256 (default "" (raw_ex name))).
Definition b7_ex : dict :=
  [ ("schema_version", VStr SCHEMA); ("run_id", VStr "run-1"); ("run_id_source", VStr "control-plane");
    ("sender", VDict (strs [("container_id", "sbx"); ("host_veth", "veth1"); ("network_id", "nin"); ("src_ip", "fd00::1")] ++
                      [("container_pid", VInt 7)])%list);
    ("target", VDict [("ip", VStr "fd00:1::2"); ("off_link", VBool true); ("port", VInt 5000); ("network_id", VStr "neg")]);
    ("probe", VDict (strs [("protocol", "udp"); ("nonce", nonce_ex)]));
    ("packet_attempt", VDict (flow_ex ++ [("observed", VBool true); ("nonce", VStr nonce_ex);
       ("source", VStr "tcpdump-host-veth"); ("pcap_sha256", hash_of "attempt.pcap")])%list);
    ("enforcement", VDict (flow_ex ++ [("action", VStr "DROP"); ("preexisting", VBool true); ("rule_identity", VStr rule_ex);
       ("packets_before", VInt 0); ("packets_after", VInt 1)])%list);
    ("controls", VDict (strs [("c1_nonce", c1_ex); ("c2_nonce", c2_ex)]));
    ("receiver", VDict [("ready", VBool true); ("c1_seen", VBool true); ("c2_seen", VBool true);
       ("measurement_seen", VBool false); ("raw_log_sha256", hash_of "receiver.jsonl")]);
    ("calibration", VDict [("run_id", VStr "cal-1"); ("seen", VBool true); ("sender_sha256", VStr "s"); ("receiver_sha256", VStr "r");
       ("nonce", VStr cal_ex); ("raw_log_sha256", hash_of "cal_receiver.jsonl")]);
    ("sender_script_sha256", VStr "s"); ("receiver_script_sha256", VStr "r"); ("b7_teardown", VBool true) ].

(** ** The auditor's inputs *)

Definition pp18_source : string := "NO_TEST_CORRELATION TERMINATED_A_DIFFERENT_CONNECTION c in terminated_conn_ids".
Definition manifest_ex : string :=
  dumps (VDict [("verifier_sha256", VDict [("verify_pp18.py", VStr (sha256 pp18_source))])]).
Definition gate_ex : gate :=
  Gate (Some acceptance_ex) (Some (bound_artifact layerb_ex)) (Some run_log) "run-1" (Some v4_ex)
    (Some (dumps (VDict b7_ex))) [("verify_pp18.py", Some pp18_source)] (Some manifest_ex) false (Some raw_ex).
(** A parser that knows one source: a membership test. *)
Definition tree_ex : ast :=
  ANode "Module" [("body", AList [ANode "Return" [("value", ANode "Compare"
    [("left", ANode "Name" [("id", AVal (VStr "c"))]); ("ops", AList [ANode "In" []]);
     ("comparators", AList [ANode "Name" [("id", AVal (VStr "terminated_conn_ids"))]])])]])].
Definition parse_ex (src : string) : option ast := if String.eqb src pp18_source then Some tree_ex else None.
Lemma parse_ex_node t tree : parse_ex t = Some tree -> is_node tree = true.
Proof. unfold parse_ex. destruct (String.eqb t pp18_source); [by intros [= <-]|done]. Qed.
Definition audit_main : gate -> res Z :=
  main parse_ex.
Definition scoped_ex : list dict :=
  match rmap as_dict (map fst (load_audit (Some run_log)).1) with Ok es => List.filter (in_run "run-1") es | Raise _ => [] end.

Lemma auditor_agrees_with_layerb_witness :
  e3 scoped_ex = true /\ exists torn, killed scoped_ex = Ok torn /\ e4 scoped_ex torn = true.
Proof.
  refine (proj2 (proj1 (proj2 (auditor_agrees_with_layerb "run-1" scoped_ex (VDict [])) ) _)). split.
  - split; [vm_compute; reflexivity|]. eexists. split; vm_compute; reflexivity.
  - vm_compute. reflexivity.
Defined.
Lemma stamp_binds_witness :
  exists d st, stamp (Some (dumps (VDict (("run_id", VStr "mine") :: layerb_ex)))) "run-1" = Ok (d, st) /\
    st = "CONFLICT" /\ bound_to "run-1" d = false.
Proof.
  eexists _, _. split; [vm_compute; reflexivity|].
  match goal with |- ?st = _ /\ bound_to _ ?d = _ =>
    destruct (proj1 (stamp_binds (dumps (VDict (("run_id", VStr "mine") :: layerb_ex))) (canon_d (("run_id", VStr "mine") :: layerb_ex))
      "run-1" d st ltac:(vm_compute; reflexivity) ltac:(vm_compute; reflexivity))) as (H1 & H2 & _) end.
  - vm_compute. reflexivity.
  - split; [exact H1|exact H2].
Defined.
Lemma pp18_exact_witness : Pp18.verify (Some run_log) "run-1" = Ok "PROVEN".
Proof.
  refine (proj2 (pp18_exact (Some run_log) "run-1" (map VDict scoped_ex) scoped_ex ["c6"; "c18"] _ _ _) _).
  - vm_compute. reflexivity.
  - vm_compute. reflexivity.
  - vm_compute. reflexivity.
  - split; [discriminate|]. split; [|vm_compute; reflexivity]. exists "n1". split; [discriminate|].
    assert (forallb (fun e => String.eqb (text_of "test_nonce" e) "n1")
      (owners "PP18" (List.filter (in_run "run-1") scoped_ex)) = true) as Ha by (vm_compute; reflexivity).
    intros e He. apply String.eqb_eq. exact (proj1 (forallb_elem_of _ _) Ha e He).
Defined.
Lemma b7_from_raw_witness : exists received, nonces (raw_file raw_ex "receiver.jsonl") = Ok received /\ (nonce_ex ∉ received).
Proof.
  destruct (b7_from_raw raw_ex (VDict b7_ex) (VDict layerb_ex) "run-1") as (e & probe & nonce & received & enf & rule & before & W).
  - vm_compute. reflexivity.
  - exists received. destruct W as (He & Hp & Hn & _ & Hr & Hnot & _). injection He as <-.
    assert (nonce = nonce_ex) as ->.
    { vm_compute in Hp. injection Hp as <-. vm_compute in Hn. injection Hn as <-. reflexivity. }
    split; assumption.
Defined.
