(* ===== verification/Acceptance.v ===== *)
(** * The IPv6 acceptance suite ([src/pep/ipv6_acceptance.py])

    The rows of Layer A evaluated on the models of the classifier, the canonical
    hosts and the decision point, the rows of Layer B taken from the file of the
    transport suite, and the artifact and exit code of the gate. *)

From S2P Require Import Prelude.
From S2P Require Import PyStr.
From S2P Require Import Json.
From S2P Require Import PyDyn.
From S2P Require Import Addressing.
From S2P Require Import Resolver.
From S2P Require Import Lifecycle.
From S2P Require Import Pdp.
Open Scope Z_scope.

Definition PUB6 : string := "2606:4700:4700::1111".
Definition PUB6_EVIL : string := "2001:4860:4860::8888".
Definition PUB4 : string := "93.184.216.34".

(** ** Rows *)

Definition denied_by (r : decision) (prefixes : list string) : string :=
  if d_allow r then "ALLOW" else
  if existsb (fun p => startswith p (d_reason r)) prefixes then "DENY" else
  let head := (partition ":" (d_reason r)).1.1 in
  "DENIED_FOR_OTHER_REASON:" ++ (if String.eqb head "" then "none" else head).
Definition rec (layer tid desc expect : string) (got : val) (detail : string) : dict :=
  let ok := py_eqb (VStr expect) got in
  [ ("layer", VStr layer); ("id", VStr tid); ("desc", VStr desc); ("expect", VStr expect); ("got", got);
    ("status", VStr (if ok then "PROVEN" else py_str got)); ("pass", VBool ok); ("detail", VStr (take 200 detail)) ].
Definition yes_no (ok : bool) : val := VStr (if ok then "ALLOW" else "DENY").
(** [str] of an optional string, and of a pin. *)
Definition str_opt (o : option string) : string := match o with Some s => s | None => "None" end.
Definition str_pin (o : option pin) : string :=
  match o with
  | Some p => (if String.eqb (pin_family p) "ipv6" then "[" ++ pin_ip p ++ "]" else pin_ip p) ++ ":" ++ show_Z (pin_port p)
  | None => "None"
  end.

(** ** The decision point over a static zone *)

(** The host [decide] resolves, if it gets that far: its only use of the resolver
    reports an exception under the exception's class. *)
Definition probe (h : string) : res resolution := Raise (PyExn h "").
Definition asked (approved : res (flow approval)) : option string :=
  match approved with
  | Ok (Done d) => if startswith "DNS_FAILURE:" (d_reason d) then Some (drop 12 (d_reason d)) else None
  | _ => None
  end.
Definition lab : Type := (static_resolver * budgets)%type.
Definition consult `{Idna} (policy : res val) (killed : bool) (now : val) (q : request) (s : lab) : lab * res decision :=
  let '(zone, b) := s in
  let ask := match policy with
             | Ok p => if killed then None else asked (decide_static p now probe q)
             | Raise _ => None
             end in
  match ask with
  | None => let '(b, r) := PDP.decide policy killed now probe q b in ((zone, b), r)
  | Some h =>
      let '(zone, answer) := zone_resolve h zone in
      let '(b, r) := PDP.decide policy killed now (fun _ => answer) q b in ((zone, b), r)
  end.
Definition lab_of (zone : dict) : lab := (StaticResolver zone ∅, ∅).

(** ** The fixtures *)

Definition entry6 (l : list string) : string * val := ("v6", VList (map VStr l)).
Definition entry4 (l : list string) : string * val := ("v4", VList (map VStr l)).
Definition acc_zone : dict :=
  [ ("v6pub.lab", VDict [entry6 [PUB6]]);
    ("v6loop.lab", VDict [entry6 ["::1"]]);
    ("v6ll.lab", VDict [entry6 ["fe80::1"]]);
    ("v6ula.lab", VDict [entry6 ["fc00::1"]]);
    ("v6mapped.lab", VDict [entry6 ["::ffff:169.254.169.254"]]);
    ("v6site.lab", VDict [entry6 ["fec0::1"]]);
    ("v6to4.lab", VDict [entry6 ["2002:7f00:0001::1"]]);
    ("splitbad6.lab", VDict [entry4 [PUB4]; entry6 ["::1"]]);
    ("splitbad4.lab", VDict [entry6 [PUB6]; entry4 ["127.0.0.1"]]);
    ("v4only.lab", VDict [entry4 [PUB4]]);
    ("v6rebind.lab", VDict [("sequence", VList [VDict [entry6 [PUB6]]; VDict [entry6 [PUB6_EVIL]]])]) ].
Definition strs (l : list string) : val := VList (map VStr l).
(** [time.time()] in microseconds. *)
Definition at_time (t : Z) : val := VFloat (FFin t 5).
Definition seconds (n : Z) : Z := n * 10 ^ 6.
Definition authorization (by_whom : string) (verified expires : Z) : val :=
  VDict [ ("program_id", VStr "acc"); ("verified_by", VStr by_whom); ("verified_at", at_time verified);
          ("expires_at", at_time expires); ("status", VStr "active") ].
Definition policy_for (program : dict) : val :=
  VDict [ ("networks", VDict [("10.99.0.0/24", VStr "acc")]); ("programs", VDict [("acc", VDict program)]);
          ("credentials", VDict []) ].
(** The readings of the clock, in the order of the calls. *)
Definition acc_program (clock : nat -> Z) (i : nat) : dict :=
  [ ("authorization", authorization "ipv6-acceptance" (clock i - seconds 60) (clock (S i) + seconds 3600));
    ("scope_allow", strs ["*.lab"; "v6pub.lab"; "v6loop.lab"; "v6ll.lab"; "v6ula.lab"; "v6mapped.lab"; "v6site.lab";
                          "v6to4.lab"; "splitbad6.lab"; "splitbad4.lab"; "v4only.lab"; "v6rebind.lab"]);
    ("scope_deny", VList []);
    ("allowed_ports", VList [VInt 443]);
    ("allowed_methods", strs ["GET"]);
    ("allow_connect", VBool true);
    ("allowed_families", strs ["ipv4"; "ipv6"]);
    ("authorized_ips", strs [PUB6; PUB4]);
    ("private_ip_exemptions", VList []);
    ("explicit_ip_allowlist", VList []);
    ("max_requests", VInt 10000) ].
Definition v4_program (clock : nat -> Z) (i : nat) : dict :=
  [ ("authorization", authorization "t" (clock i - seconds 5) (clock (S i) + seconds 600));
    ("scope_allow", strs ["*.lab"]); ("allowed_ports", VList [VInt 443]); ("allowed_methods", strs ["GET"]);
    ("allow_connect", VBool true); ("allowed_families", strs ["ipv4"]); ("authorized_ips", strs [PUB6; PUB4]);
    ("max_requests", VInt 100) ].
Definition query (host : string) (p : option pin) : request := Request "10.99.0.5" host 443 "GET" "" "" "" p.

(** ** Layer A *)

Section LayerA.
Context `{Idna}.
(** The clock, and whether the kill file exists. *)
Variable clock : nat -> Z.
Variable killed : bool.

Definition d (policy : res val) (i : nat) (host : string) (p : option pin) : lab -> lab * res decision :=
  consult policy killed (at_time (clock i)) (query host p).
Definition allow_row (tid desc expect : string) (v : verdict) (detail : string) : dict :=
  rec "A" tid desc expect (yes_no (v_ok v)) detail.
Definition eff (v : verdict) : string := v_reason v ++ " eff=" ++ str_opt (v_effective v).
Definition pinned (r : decision) : string := d_reason r ++ " pin=" ++ str_pin (d_pin r).
Definition classifier_rows : list dict :=
  [ allow_row "A1" "::1 loopback" "DENY" (classify "::1" []) (v_reason (classify "::1" []));
    allow_row "A2" "fe80::/10 link-local" "DENY" (classify "fe80::1" []) (v_reason (classify "fe80::1" []));
    allow_row "A3" "fc00::/7 unique-local" "DENY" (classify "fc00::1" []) (v_reason (classify "fc00::1" []));
    (let v := classify "::ffff:169.254.169.254" [] in
     allow_row "A4" "IPv4-mapped ::ffff: judged by embedded v4" "DENY" v (eff v));
    (let v := classify "2002:7f00:0001::1" [] in
     allow_row "A5" "6to4 wrapping 127.0.0.1 judged by embedded v4" "DENY" v (eff v));
    (let v := classify PUB6 [] in allow_row "A6" "public IPv6 permitted by classifier" "ALLOW" v (v_reason v));
    rec "A" "A7" "IPv6 literal canonicalization [2001:DB8::1]" "2001:db8::1"
      (VStr (str_opt (canonical_host "[2001:DB8::1]"))) "";
    rec "A" "A8" "ambiguous octal IPv4 rejected (0177.0.0.1)" "None" (VStr (str_opt (canonical_host "0177.0.0.1"))) "" ].
Definition symmetry_rows : list dict :=
  let row tid desc expect ip ex := let v := classify ip (map VStr ex) in allow_row tid desc expect v (v_reason v) in
  [ row "A25" "ULA exemptible when explicitly authorized (v4 parity)" "ALLOW" "fd00:dead::20" ["fd00:dead::20"];
    row "A26" "ULA denied when NOT exempted" "DENY" "fd00:dead::20" [];
    row "A27" "RFC1918 exemptible (the v4 side of that parity)" "ALLOW" "172.29.0.20" ["172.29.0.20"];
    row "A28" "loopback stays denied even if listed as exempt" "DENY" "::1" ["::1"];
    row "A29" "link-local stays denied even if listed as exempt" "DENY" "fe80::1" ["fe80::1"];
    row "A30" "mapped loopback stays denied even if listed as exempt" "DENY" "::ffff:127.0.0.1" ["::ffff:127.0.0.1"] ].
Definition deny_row (tid desc : string) (r : decision) (prefixes : list string) : dict :=
  rec "A" tid desc "DENY" (VStr (denied_by r prefixes)) (d_reason r).
Definition dns : list string := ["DNS_ANSWER_REJECTED"; "DNS_NO_USABLE_ANSWER"].
(** One row per host, from the reading [i] of the clock on. *)
Fixpoint blocked_rows (policy : res val) (i : nat) (l : list (string * string)) (s : lab) : lab * res (list dict) :=
  match l with
  | [] => (s, Ok [])
  | (tid, host) :: l' =>
      let '(s, r) := d policy i host None s in
      match r with
      | Raise e => (s, Raise e)
      | Ok r =>
          let '(s, rest) := blocked_rows policy (S i) l' s in
          (s, rows <- rest;;
              Ok (deny_row tid ("resolved to blocked v6 class (" ++ host ++ ")") r dns :: rows))
      end
  end.
Definition decision_rows : res (list dict) :=
  let policy := Ok (policy_for (acc_program clock 0)) in
  let '(s, r) := d policy 2 "v6pub.lab" None (lab_of acc_zone) in r9 <- r;;
  let '(s, r) := blocked_rows policy 3
    [("A11", "v6loop.lab"); ("A12", "v6ll.lab"); ("A13", "v6ula.lab"); ("A14", "v6mapped.lab"); ("A15", "v6site.lab")] s in
  blocked <- r;;
  let '(s, r) := d policy 8 "splitbad6.lab" None s in r16 <- r;;
  let '(s, r) := d policy 9 "splitbad4.lab" None s in r17 <- r;;
  let '(s, r) := d policy 10 "v4only.lab" None s in r18 <- r;;
  let '(s, r) := d policy 11 "v6rebind.lab" None s in r19 <- r;;
  let '(s, r) := d policy 12 "v6rebind.lab" None s in r20 <- r;;
  let policy2 := Ok (policy_for (acc_program clock 13)) in
  let '(s2, r) := d policy2 15 "v6rebind.lab" None (lab_of acc_zone) in first <- r;;
  let '(s2, r) := d policy2 16 "v6rebind.lab" (d_pin first) s2 in again <- r;;
  let policy3 := Ok (policy_for (v4_program clock 17)) in
  let '(_, r) := d policy3 19 "dual.lab" None (lab_of [("dual.lab", VDict [entry6 [PUB6]; entry4 [PUB4]])]) in r22 <- r;;
  let '(_, r) := d (Raise (PyExn "RuntimeError" "policy store unavailable")) 20 "v6pub.lab" None (lab_of []) in r23 <- r;;
  let policy4 := Ok (policy_for (acc_program clock 20)) in
  let '(_, r) := PDP.decide policy4 killed (at_time (clock 22)) (fun _ => Raise (PyExn "OSError" "resolver down"))
                   (query "v6pub.lab" None) ∅ in r24 <- r;;
  Ok ([ rec "A" "A9" "public IPv6 destination allowed end-to-end" "ALLOW" (yes_no (d_allow r9)) (pinned r9);
        rec "A" "A10" "pin carries address family" "ipv6"
          (VStr (match d_pin r9 with Some p => pin_family p | None => "none" end)) "" ] ++
      blocked ++
      [ deny_row "A16" "valid A + blocked AAAA -> deny (NO v6->v4 fallback)" r16 dns;
        deny_row "A17" "valid AAAA + blocked A -> deny (validate ALL families)" r17 dns;
        rec "A" "A18" "no AAAA at all -> v4 is normal (absence != denial)" "ALLOW" (yes_no (d_allow r18)) (pinned r18);
        rec "A" "A19" "IPv6 rebinding: 1st lookup authorized" "ALLOW" (yes_no (d_allow r19)) (d_reason r19);
        deny_row "A20" "IPv6 rebinding: 2nd lookup flips -> deny" r20 ["IP_NOT_AUTHORIZED"];
        rec "A" "A21" "pinned connection does not re-resolve" "ALLOW" (yes_no (d_allow again)) (pinned again);
        deny_row "A22" "AAAA present but family disabled -> deny, no fallback" r22 ["FAMILY_NOT_ALLOWED"];
        deny_row "A23" "policy source failure -> fail closed" r23 ["POLICY_UNAVAILABLE"];
        deny_row "A24" "resolver failure -> fail closed" r24 ["DNS_FAILURE"; "DNS_NO_ANSWER"] ])%list.
Definition layer_a : res (list dict) :=
  rows <- decision_rows;; Ok (classifier_rows ++ rows ++ symmetry_rows)%list.
End LayerA.

(** ** Layer B *)

(** What the host says of its IPv6 stack: the inet6 table, [socket.has_ipv6], the
    opening of a socket, the sysctl tree and the kernel's command line. *)
Record ipv6_host := Ipv6Host {
  hv_inet6 : bool; hv_python : bool; hv_socket : res unit; hv_sysctl : bool; hv_cmdline : res string }.
Definition ipv6_runtime_available (h : ipv6_host) : res (bool * string) :=
  if negb (hv_inet6 h) then Ok (false, "no /proc/net/if_inet6 (IPv6 stack not initialized)") else
  if negb (hv_python h) then Ok (false, "python socket.has_ipv6 is False") else
  match hv_socket h with
  | Raise e =>
      if os_error e then Ok (false, "AF_INET6 socket unavailable: " ++ exn_msg e) else Raise e
  | Ok _ =>
      if negb (hv_sysctl h) then Ok (false, "no /proc/sys/net/ipv6 sysctl tree") else
      match hv_cmdline h with
      | Ok s => if contains "ipv6.disable=1" s then Ok (false, "kernel booted with ipv6.disable=1")
                else Ok (true, "ipv6 runtime present")
      | Raise _ => Ok (true, "ipv6 runtime present")
      end
  end.
Definition LAYER_B_ROWS : list (string * string) :=
  [ ("B1", "direct IPv6 egress bypass blocked (vs live positive control)");
    ("B2", "IPv6 route injection via NET_ADMIN is blocked");
    ("B3", "path proof: direct BLOCKED and via-PEP ALLOWED");
    ("B4", "Host/SNI bound to canonical host over IPv6 destination");
    ("B5", "TLS interception over IPv6");
    ("B6", "kill switch tears down a LIVE IPv6 stream (partial body first)");
    ("B7", "direct non-PEP off-link IPv6 UDP egress containment");
    ("B8", "audit proves enforcement for the IPv6 flow (not just connectivity)");
    ("B9", "kill switch evidenced by connection registry + audit") ].
(** [{r["id"]: r for r in rows}]: a later row replaces an earlier one. *)
Definition row_id (v : val) : res val :=
  i <- v_index "id" v;; if hashable i then Ok i else Raise (TypeError "unhashable type").
Fixpoint by_id (rows : list val) (acc : list (val * val)) : res (list (val * val)) :=
  match rows with
  | [] => Ok acc
  | r :: rows' => i <- row_id r;; by_id rows' ((i, r) :: acc)
  end.
Definition find_row (tid : string) (index : list (val * val)) : val :=
  match findb (fun ir => py_eqb (VStr tid) ir.1) index with Some ir => ir.2 | None => VNull end.
Definition imported (index : list (val * val)) (b : string * string) : res dict :=
  let r := v_or (find_row b.1 index) (VDict []) in
  got <- v_get_or "got" (VStr "NOT_RUN") r;;
  status <- v_get_or "status" got r;;
  detail <- v_get_or "detail" (VStr "") r;;
  Ok (rec "B" b.1 b.2 "PROVEN" status (py_str detail)).
(** [results]: [None] when there is no file, else what opening and reading it gives. *)
Definition layer_b (available : bool) (why : string) (results : option (res string)) : res (list dict) :=
  if negb available then Ok (map (fun b => rec "B" b.1 b.2 "PROVEN" (VStr "BLOCKED_ENV") why) LAYER_B_ROWS) else
  match results with
  | None => Ok (map (fun b => rec "B" b.1 b.2 "PROVEN" (VStr "NOT_RUN")
                        "run ipv6_transport.py in the sandbox against the live PEP") LAYER_B_ROWS)
  | Some file =>
      text <- file;;
      match loads text with
      | None => Raise (ValErr "json")
      | Some data =>
          rows <- v_get_or "rows" (VList []) data;; l <- v_iter rows;;
          index <- by_id l [];;
          rmap (imported index) LAYER_B_ROWS
      end
  end.

(** ** The gate ([main]) *)

Definition passing (rows : list dict) : list dict :=
  List.filter (fun r => py_eqb (fld "status" r) (VStr "PROVEN")) rows.
Definition all_pass (rows : list dict) : bool := Nat.eqb (length (passing rows)) (length rows).
Definition count (rows : list dict) : val := VInt (Z.of_nat (length rows)).
Definition artifact (run_id : string) (a b : list dict) (ok : bool) (why : string) : dict :=
  let gate := all_pass a && all_pass b in
  [ ("schema_version", VStr "strix-acceptance-v2-dec7-e9"); ("run_id", VStr run_id); ("run_id_source", VStr "control-plane");
    ("layer_a", VList (map VDict a)); ("layer_b", VList (map VDict b));
    ("layer_a_passed", count (passing a)); ("layer_a_total", count a);
    ("layer_b_passed", count (passing b)); ("layer_b_total", count b);
    ("ipv6_runtime", VBool ok); ("ipv6_runtime_detail", VStr why); ("gate_passed", VBool gate);
    ("ipv6_status", VStr (if gate then "PASSED" else "UNKNOWN / RELEASE BLOCKER")) ].
Definition main `{Idna} (clock : nat -> Z) (killed : bool) (h : ipv6_host) (results : option (res string)) (run_id : string)
    : res (dict * Z) :=
  a <- layer_a clock killed;;
  '(ok, why) <- ipv6_runtime_available h;;
  b <- layer_b ok why results;;
  Ok (artifact run_id a b ok why, if all_pass a && all_pass b then 0 else 1).
