(* ===== verification/AcceptanceProps.v ===== *)
(** * What the acceptance suite establishes

    Layer A passes whatever the clock says, as long as the suite is quick, and the
    gate is exactly Layer B. *)

From Stdlib Require Import FunctionalExtensionality.
From S2P Require Import Prelude.
From S2P Require Import PyStr.
From S2P Require Import Json.
From S2P Require Import PyDyn.
From S2P Require Import Addressing.
From S2P Require Import Resolver.
From S2P Require Import Lifecycle.
From S2P Require Import Pdp.
From S2P Require Import AuditLog.
From S2P Require Import Evidence.
From S2P Require Import GateAudit.
From S2P Require Import EvidenceProps.
From S2P Require Import Acceptance.
Open Scope Z_scope.

(** ** The clock *)

Lemma authorized pid by_whom verified expires t :
  t < expires -> decide_authorization pid (authorization by_whom verified expires) (at_time t) = Ok (Go tt).
Proof.
  intros Ht. unfold decide_authorization. cbn -[Z.mul Z.pow num_leb].
  replace (num_leb (expires, 6%nat) (t, 6%nat)) with false; [done|].
  symmetry. unfold num_leb. cbn [fst snd]. apply Z.leb_gt. nia.
Qed.

Section Suite.
Context `{Idna}.
Variable clock : nat -> Z.

(** A decision whose authorization record holds, over the zone. *)
Definition checked_lab (program : dict) (record : val) (host : string) (p : option pin) (s : lab) : lab * res decision :=
  let q := query host p in
  let st resolve := decide_checked "acc" (policy_for program) (VDict program) record resolve q in
  let '(zone, b) := s in
  match asked (st probe) with
  | None => let '(b, r) := PDP.conclude (st probe) q b in ((zone, b), r)
  | Some h =>
      let '(zone, answer) := zone_resolve h zone in
      let '(b, r) := PDP.conclude (st (fun _ => answer)) q b in ((zone, b), r)
  end.
Lemma static_checked program record now resolve host p :
  dget "authorization" program = Some record -> truthy record = true ->
  decide_authorization "acc" record now = Ok (Go tt) ->
  decide_static (policy_for program) now resolve (query host p) =
    decide_checked "acc" (policy_for program) (VDict program) record resolve (query host p).
Proof.
  intros Hr Ht Ha. unfold decide_static.
  assert (program_for_source (q_src_ip (query host p)) (policy_for program) = Ok (VStr "acc", VDict program)) as ->.
  { cbn [q_src_ip query]. unfold program_for_source.
    replace (source_addr "10.99.0.5") with (Some (IpAddr.IPv4 174260229)) by (vm_compute; reflexivity).
    unfold policy_for. vm_compute. reflexivity. }
  cbn [rbind is_none]. unfold decide_program.
  assert (v_get "authorization" (VDict program) = Ok record) as -> by (unfold v_get, v_get_or, dget_or; by rewrite Hr).
  cbn [rbind]. assert (v_or record (VDict []) = record) as -> by (unfold v_or; by rewrite Ht). by rewrite Ha.
Qed.
Lemma consult_checked program record i host p s :
  dget "authorization" program = Some record -> truthy record = true ->
  decide_authorization "acc" record (at_time (clock i)) = Ok (Go tt) ->
  d clock false (Ok (policy_for program)) i host p s = checked_lab program record host p s.
Proof.
  intros Hr Ht Ha. destruct s as [zone b]. unfold d, consult, checked_lab. cbv zeta. unfold PDP.decide.
  rewrite !(static_checked program record) by done. destruct (asked _) as [h|]; [|done].
  destruct (zone_resolve h zone) as [zone' answer]. by rewrite !(static_checked program record).
Qed.

(** The suite is quick: any two readings are less than ten minutes apart. *)
Hypothesis quick : forall i j, clock i < clock j + seconds 600.

Definition dc (program : nat -> dict) (i : nat) : string -> option pin -> lab -> lab * res decision :=
  checked_lab (program i) (default VNull (dget "authorization" (program i))).
Lemma d_acc k i : d clock false (Ok (policy_for (acc_program clock k))) i = dc (acc_program clock) k.
Proof.
  extensionality host. extensionality p. extensionality s. unfold dc. apply consult_checked; [done|done|].
  apply authorized. specialize (quick i (S k)). unfold seconds in *. lia.
Qed.
Lemma d_v4 k i : d clock false (Ok (policy_for (v4_program clock k))) i = dc (v4_program clock) k.
Proof.
  extensionality host. extensionality p. extensionality s. unfold dc. apply consult_checked; [done|done|].
  apply authorized. specialize (quick i (S k)). unfold seconds in *. lia.
Qed.
Lemma decide_acc k i host b : 
  PDP.decide (Ok (policy_for (acc_program clock k))) false (at_time (clock i)) host (query "v6pub.lab" None) b =
  PDP.conclude (decide_checked "acc" (policy_for (acc_program clock k)) (VDict (acc_program clock k))
    (default VNull (dget "authorization" (acc_program clock k))) host (query "v6pub.lab" None)) (query "v6pub.lab" None) b.
Proof.
  unfold PDP.decide. erewrite static_checked; [done|done|done|].
  apply authorized. specialize (quick i (S k)). unfold seconds in *. lia.
Qed.
(** A row of Layer A as its id, verdict and pass. *)
Definition summary (r : dict) : val * val * val := (fld "id" r, fld "status" r, fld "pass" r).
Definition expected_a : list (val * val * val) := map (fun id => (VStr id, VStr "PROVEN", VBool true)) REQUIRED_A.
Lemma layer_a_rows : (map summary <$> (match layer_a clock false with Ok l => Some l | Raise _ => None end)) = Some expected_a.
Proof.
  unfold layer_a, decision_rows. cbv zeta. cbn [blocked_rows]. rewrite !d_acc, !d_v4, decide_acc.
  vm_compute. reflexivity.
Qed.
Lemma layer_a_ok : exists a, layer_a clock false = Ok a /\ map summary a = expected_a.
Proof. pose proof layer_a_rows as Ha. destruct (layer_a clock false) as [a|e]; [|done]. injection Ha as Ha. by exists a. Qed.
End Suite.

(** ** The gate *)

Lemma filter_full {A} (f : A -> bool) (l : list A) :
  Nat.eqb (length (List.filter f l)) (length l) = true <-> forallb f l = true.
Proof.
  rewrite Nat.eqb_eq. induction l as [|x l IH]; cbn; [done|].
  pose proof (List.filter_length_le f l). destruct (f x); cbn; [rewrite <- IH; lia|]. split; [lia|done].
Qed.
Definition is_proven (r : dict) : bool := py_eqb (fld "status" r) (VStr "PROVEN").
Lemma all_pass_spec rows : all_pass rows = true <-> forallb is_proven rows = true.
Proof. apply filter_full. Qed.
Lemma summaries_pass a : map summary a = expected_a -> all_pass a = true.
Proof.
  intros Ha. apply all_pass_spec, forallb_elem_of. intros r Hr.
  assert (summary r ∈ expected_a) as Hs by (rewrite <- Ha; by apply list_elem_of_In, in_map, list_elem_of_In).
  apply list_elem_of_In, in_map_iff in Hs as (id & Hid & _). unfold summary in Hid. injection Hid as _ Hst _.
  unfold is_proven. by rewrite <- Hst.
Qed.
(** What the file of the transport suite says of a row. *)
Definition reads_proven (index : list (val * val)) (id : string) : Prop :=
  exists got status, v_get_or "got" (VStr "NOT_RUN") (v_or (find_row id index) (VDict [])) = Ok got /\
    v_get_or "status" got (v_or (find_row id index) (VDict [])) = Ok status /\ py_str status = "PROVEN".
Lemma rec_proven tid desc got detail layer : is_proven (rec layer tid desc "PROVEN" got detail) = true <-> py_str got = "PROVEN".
Proof.
  unfold is_proven, rec, fld, dget_or. cbn [dget String.eqb Ascii.eqb Bool.eqb andb].
  change (String.eqb (if py_eqb (VStr "PROVEN") got then "PROVEN" else py_str got) "PROVEN" = true <-> py_str got = "PROVEN").
  destruct (py_eqb (VStr "PROVEN") got) eqn:E; [|apply String.eqb_eq].
  split; [intros _|done]. destruct got; try done. by apply String.eqb_eq in E as <-.
Qed.
Lemma imported_proven index b r : imported index b = Ok r -> is_proven r = true <-> reads_proven index b.1.
Proof.
  unfold imported. cbv zeta. intros (got & Hg & Hi)%res_bind_Ok. apply res_bind_Ok in Hi as (status & Hs & Hi).
  apply res_bind_Ok in Hi as (detail & _ & Hi). injection Hi as <-. rewrite rec_proven. unfold reads_proven. split.
  - intros Hp. by exists got, status.
  - intros (g & s & Eg & Es & Hp). congruence.
Qed.

Lemma imported_all index (bs : list (string * string)) rows : rmap (imported index) bs = Ok rows ->
  forallb is_proven rows = true <-> forall b, b ∈ bs -> reads_proven index b.1.
Proof.
  intros Hr. apply rmap_Forall2 in Hr. induction Hr as [|b r bs rows Hi Hr IH]; cbn.
  - split; [|done]. intros _ b Hb. by apply not_elem_of_nil in Hb.
  - rewrite andb_true_iff, IH, (imported_proven _ _ _ Hi). split.
    + intros [Hb Hl] b' [->|Hb']%elem_of_cons; auto.
    + intros Ha. split; [apply Ha; left|intros b' Hb'; apply Ha; by right].
Qed.
(** Rows that are all recorded with one other verdict do not pass. *)
Lemma unproven_rows got detail : py_str got <> "PROVEN" ->
  forallb is_proven (map (fun b => rec "B" b.1 b.2 "PROVEN" got detail) LAYER_B_ROWS) = false.
Proof.
  intros Hn. apply not_true_iff_false. intros Ha. rewrite forallb_elem_of in Ha.
  apply Hn, (rec_proven "B1" "direct IPv6 egress bypass blocked (vs live positive control)" got detail "B"), Ha. left.
Qed.
(** The transport suite ran and its file says PROVEN of every row. *)
Definition transport_proven (results : option (res string)) : Prop :=
  exists text data rows l index, results = Some (Ok text) /\ loads text = Some data /\
    v_get_or "rows" (VList []) data = Ok rows /\ v_iter rows = Ok l /\ by_id l [] = Ok index /\
    forall id, id ∈ REQUIRED_B -> reads_proven index id.
Lemma layer_b_pass available why results b : layer_b available why results = Ok b ->
  all_pass b = true <-> available = true /\ transport_proven results.
Proof.
  intros Hb. rewrite all_pass_spec. unfold layer_b in Hb. destruct available; cbn [negb] in Hb.
  - destruct results as [file|].
    + apply res_bind_Ok in Hb as (text & -> & Hb). destruct (loads text) as [data|] eqn:El; [|done].
      apply res_bind_Ok in Hb as (rows & Hr & Hb). apply res_bind_Ok in Hb as (l & Hl & Hb).
      apply res_bind_Ok in Hb as (index & Hi & Hb). rewrite (imported_all _ _ _ Hb). split.
      * intros Ha. split; [done|]. exists text, data, rows, l, index. split_and!; try done. intros id Hid.
        change REQUIRED_B with (map fst LAYER_B_ROWS) in Hid. apply list_elem_of_In, in_map_iff in Hid as (x & <- & Hx).
        by apply Ha, list_elem_of_In.
      * intros [_ (text' & data' & rows' & l' & index' & Et & Ed & Er & Eil & Ei & Ha)] x Hx.
        injection Et as <-. rewrite El in Ed. injection Ed as <-. rewrite Hr in Er. injection Er as <-.
        rewrite Hl in Eil. injection Eil as <-. rewrite Hi in Ei. injection Ei as <-. apply Ha.
        change REQUIRED_B with (map fst LAYER_B_ROWS). by apply list_elem_of_In, in_map, list_elem_of_In.
    + apply (f_equal (fun r => match r with Ok x => x | Raise _ => [] end)) in Hb. cbn beta iota in Hb. rewrite <- Hb, unproven_rows by done.
      split; [done|]. by intros [_ (? & ? & ? & ? & ? & ? & _)].
  - apply (f_equal (fun r => match r with Ok x => x | Raise _ => [] end)) in Hb. cbn beta iota in Hb. rewrite <- Hb, unproven_rows by done.
    split; [done|]. by intros [? _].
Qed.

Lemma summaries_exact a : map summary a = expected_a -> rows_exact REQUIRED_A a.
Proof.
  intros Ha.
  assert (forall r, r ∈ a -> exists id, id ∈ REQUIRED_A /\ fld "id" r = VStr id /\ fld "status" r = VStr "PROVEN" /\
            fld "pass" r = VBool true) as Hin.
  { intros r Hr. assert (summary r ∈ expected_a) as Hs by (rewrite <- Ha; by apply list_elem_of_In, in_map, list_elem_of_In).
    apply list_elem_of_In, in_map_iff in Hs as (id & Hid & Hm). unfold summary in Hid. injection Hid as H1 H2 H3.
    exists id. by rewrite <- H1, <- H2, <- H3, list_elem_of_In. }
  assert (map (fld "id") a = map VStr REQUIRED_A) as Hids.
  { transitivity (map (fun s : val * val * val => s.1.1) (map summary a)); [by rewrite map_map|].
    rewrite Ha. unfold expected_a. by rewrite map_map. }
  split_and!.
  - apply Forall_forall. intros r Hr. apply list_elem_of_In in Hr. destruct (Hin r) as (id & Hm & Hi & Hs & Hp).
    { first [exact Hr | by apply list_elem_of_In]. }
    exists id. split_and!; try done. unfold status_proven. by rewrite Hs.
  - rewrite Hids. change (NoDup (VStr <$> REQUIRED_A)). apply NoDup_fmap_2; [by intros x y [= ->]|].
    apply (bool_decide_eq_true_1 _). vm_compute. reflexivity.
  - intros id Hid. assert (VStr id ∈ map (fld "id") a) as Hm by (rewrite Hids; by apply list_elem_of_In, in_map, list_elem_of_In).
    apply list_elem_of_In, in_map_iff in Hm as (r & Hr & Hra). exists r. by rewrite list_elem_of_In.
Qed.
Lemma rmap_dicts (l : list dict) : rmap as_dict (map VDict l) = Ok l.
Proof. induction l as [|x l IH]; [done|]. cbn [map rmap as_dict rbind]. by rewrite IH. Qed.

(** C25: the acceptance suite on the model. Whatever the clock reads, if the kill
    file is absent and the suite takes less than ten minutes, all thirty rows of
    Layer A are PROVEN on the models of the classifier and the decision point; if
    the suite ends, it exits 0 exactly when the host has IPv6 and the transport
    suite's file says PROVEN of each of B1 to B9; and its artifact is bound to
    the run and carries exactly the rows and counts the auditor requires of
    Layer A. *)
Theorem acceptance_gate_exact `{Idna} clock : (forall i j : nat, clock i < clock j + seconds 600) ->
  exists a, layer_a clock false = Ok a /\ map summary a = expected_a /\
  forall h results run_id out code, main clock false h results run_id = Ok (out, code) ->
    (code = 0 <-> (exists why, ipv6_runtime_available h = Ok (true, why)) /\ transport_proven results) /\
    bound_to run_id out = true /\ rows_of "layer_a" out = Ok a /\ rows_exact REQUIRED_A a /\
    len_is (fld "layer_a_total" out) 30 = true /\ len_is (fld "layer_a_passed" out) 30 = true.
Proof.
  intros Hq. destruct (layer_a_ok clock Hq) as (a & Ha & Hs). exists a. split; [done|]. split; [done|].
  intros h results run_id out code Hm. unfold main in Hm. rewrite Ha in Hm. cbn [rbind] in Hm.
  apply res_bind_Ok in Hm as ([ok why] & Hr & Hm). apply res_bind_Ok in Hm as (b & Hb & Hm). injection Hm as <- <-.
  pose proof (summaries_pass _ Hs) as Hp. pose proof (layer_b_pass _ _ _ _ Hb) as Hlb. rewrite Hp. cbn [andb].
  assert (length a = 30%nat) as Hlen by (rewrite <- (length_map summary), Hs; done).
  pose proof (proj1 (Nat.eqb_eq _ _) Hp) as Hpl. split_and!.
  - rewrite Hr. destruct (all_pass b).
    + split; [intros _; by destruct (proj1 Hlb eq_refl) as [-> Ht]; eauto|done].
    + split; [done|]. intros [[w Hw] Ht]. injection Hw as -> _. discriminate (proj2 Hlb (conj eq_refl Ht)).
  - unfold bound_to. cbn. by rewrite String.eqb_refl.
  - unfold rows_of. change (fld "layer_a" (artifact run_id a b ok why)) with (VList (map VDict a)). unfold v_or.
    assert (truthy (VList (map VDict a)) = true) as -> by (by destruct a). cbn [v_iter rbind]. apply rmap_dicts.
  - by apply summaries_exact.
  - change (fld "layer_a_total" (artifact run_id a b ok why)) with (count a). unfold count. by rewrite Hlen.
  - change (fld "layer_a_passed" (artifact run_id a b ok why)) with (count (passing a)). unfold count. by rewrite Hpl, Hlen.
Qed.

(** The transport suite's rows, all proven. *)
Definition transport_ex : string :=
  dumps (VDict [("rows", VList (map (fun id => VDict [("id", VStr id); ("status", VStr "PROVEN")]) REQUIRED_B))]).
#[local] Instance no_idna : Idna := {| idna _ := None |}.
Definition host_ex : ipv6_host := Ipv6Host true true (Ok tt) true (Ok "ro quiet").
Definition gate_out : dict * Z :=
  match main (fun _ => 1) false host_ex (Some (Ok transport_ex)) "run-1" with Ok r => r | Raise _ => ([], 2) end.
Lemma acceptance_gate_exact_witness :
  transport_proven (Some (Ok transport_ex)) /\ bound_to "run-1" gate_out.1 = true.
Proof.
  destruct (acceptance_gate_exact (fun _ => 1) ltac:(intros; unfold seconds; lia)) as (a & _ & _ & Hg).
  destruct (Hg host_ex (Some (Ok transport_ex)) "run-1" gate_out.1 gate_out.2) as (Hc & Hb & _).
  - vm_compute. reflexivity.
  - split; [|exact Hb]. apply (proj1 Hc). vm_compute. reflexivity.
Defined.
