(* ===== verification/Startup.v ===== *)
(** * Starting the gateway ([serve] of [src/pep/gateway.py], [main] of [src/pep/server.py])

    From an audit log to a listener that admits requests: the chain is verified,
    a listener bound, STARTUP made durable, and a kill file that is already there
    closes the run before any handler exists. *)

From S2P Require Import Prelude.
From S2P Require Import PyStr.
From S2P Require Import Json.
From S2P Require Import PyDyn.
From S2P Require Import Hash.
From S2P Require Import AuditLog.
From S2P Require Import Lifecycle.
From S2P Require Import Pdp.
From S2P Require Import Conc.
From S2P Require Import World.
From S2P Require Import Registry.
From S2P Require Import Gateway.
From S2P Require Import System.
Open Scope Z_scope.

(** A bound listener: its family and its address, as [getsockname] has them. *)
Record listener := Listener { li_family : string; li_addr : string; li_port : Z }.
(** What the host answers: the parent directory's fsync, the two binds, whether
    the kill file is there, whether the serving loop is entered in time, and the
    surroundings of an early cancellation. *)
Record serve_env := ServeEnv {
  se_dir_ok : bool; se_dual : res listener; se_v4 : res listener; se_port : Z; se_max : Z;
  se_killed : bool; se_ready : bool; se_now : Z }.
(** How [serve] leaves its start. *)
Inductive served := Serving | ClosedEarly (o : outcome).

Section Startup.
Context `{Digest}.

Definition startup (env : serve_env) : thread (bool * chain_detail) :=
  atomic_res (fun w => match startup_verify (se_dir_ok env) (w_log w) with
                       | Ok (l, v) => (set_log l w, Ok v)
                       | Raise e => (w, Raise e)
                       end).
(** The texts; the ellipsis is written as three dots. *)
Definition show_detail (d : chain_detail) : string :=
  match d with
  | Unparseable n => "line " ++ show_nat n ++ ": unparseable"
  | ChainBreak n prev => "line " ++ show_nat n ++ ": chain break (expected prev=" ++ take 12 prev ++ "...)"
  | Intact n => show_nat n ++ " records, chain intact"
  | NotChecked => "not checked"
  | CreatedDurably => "new empty log created durably"
  | CouldNotCreate => "could not create and sync audit log"
  | ParentNotDurable => "parent directory not durable"
  end.
Definition failed_record (d : chain_detail) : dict :=
  [ ("decision", VStr "STARTUP_FAILED"); ("reason", VStr "AUDIT_SINK_UNHEALTHY"); ("detail", VStr (show_detail d)) ].
(** F03: nothing is served over a chain that does not verify. *)
Definition check_sink (env : serve_env) : thread unit :=
  '(ok, detail) <-- startup env;;
  if ok : bool then Ret tt else
  healthy <-- audit_healthy;;
  (if healthy : bool then audit_write (failed_record detail);;; Ret tt else Ret tt);;;
  Throw (RuntimeError ("AUDIT_SINK_UNHEALTHY: " ++ show_detail detail)).
Definition because (e : exn) : string := exn_cls e ++ ": " ++ exn_msg e.
Definition degraded_record (e : exn) (port : Z) : dict :=
  [ ("decision", VStr "STARTUP_DEGRADED"); ("reason", VStr "IPV6_LISTENER_UNAVAILABLE");
    ("detail", VStr (because e)); ("port", VInt port) ].
(** The listener and how it is described: dual-stack, or IPv4 only and said so. *)
Definition bind_listener (env : serve_env) : thread (listener * string) :=
  match se_dual env with
  | Ok li => Ret (li, "dual-stack(::, v6only=0)")
  | Raise e =>
      if os_error e then
        li <-- of_res (se_v4 env);;
        audit_write (degraded_record e (se_port env));;;
        Ret (li, "IPv4-ONLY(fallback: " ++ because e ++ ")")
      else Throw e
  end.
Definition startup_record (env : serve_env) (li : listener) (families : string) : dict :=
  [ ("decision", VStr "STARTUP"); ("reason", VStr "PEP_READY"); ("max_connections", VInt (se_max env));
    ("port", VInt (se_port env)); ("listener", VStr families); ("listen_family", VStr (li_family li));
    ("listen_addr", VStr (li_addr li ++ ":" ++ show_Z (li_port li))) ].
Definition announce (env : serve_env) : thread unit :=
  check_sink env;;;
  '(li, families) <-- bind_listener env;;
  audit_write (startup_record env li families);;; Ret tt.
(** The listener is already closed, and there is nothing to stop. *)
Definition early_kill (env : serve_env) : kill_env := KillEnv (se_now env) (fun _ => false) None true Z.of_nat.
Definition serve (env : serve_env) : thread served :=
  announce env;;;
  if se_killed env then o <-- cancel_and_quiesce (early_kill env);; Ret (ClosedEarly o)
  else if se_ready env then Ret Serving
  else Throw (RuntimeError "LISTENER_DID_NOT_ENTER_SERVE_LOOP").

(** ** The process *)

(** What [main] finds: the policy file, the certificate authority, and the log:
    its contents, the run id, the writer lock, the creation and the directory. *)
Record process := Process {
  pr_policy : res val; pr_ca : res unit; pr_file : option string; pr_run_id : string; pr_lock : bool;
  pr_creation : creation; pr_dir_ok : bool; pr_ios : nat -> wio; pr_serve : serve_env }.
(** How it ends up: an exit code, an exception, a run closed at once, or a world
    in which the handlers and the watcher run, with or without the static zone. *)
Inductive running := Exit (code : Z) | Crash (e : exn) | Closed (o : outcome) (w : world) | Running (static_zone : bool) (w : world).
Definition open_log (p : process) : res alog :=
  l <- init (pr_file p) [] (Some (pr_run_id p)) true (pr_lock p) (pr_creation p) (pr_dir_ok p);;
  if l_healthy l then Ok l else Raise (RuntimeError "AUDIT_SINK_UNHEALTHY").
Definition main (p : process) : running :=
  match pr_policy p with Raise _ => Exit 2 | Ok policy =>
  match pr_ca p with Raise _ => Exit 3 | Ok _ =>
  match open_log p with Raise _ => Exit 4 | Ok l =>
  match v_get "dns_zone" policy with Raise e => Crash e | Ok zone =>
  match exec (serve (pr_serve p)) (world0 l (pr_ios p) (se_max (pr_serve p))) with
  | (_, Raise e) => if String.eqb (exn_cls e) "RuntimeError" then Exit 5 else Crash e
  | (w, Ok Serving) => Running (truthy zone) w
  | (w, Ok (ClosedEarly o)) => Closed o w
  end end end end end.
End Startup.
