(* ===== verification/StartupProps.v ===== *)
(** * Properties of the start

    What is established before the first request: the preconditions of the
    theorems on the running system. *)

From S2P Require Import Prelude.
From S2P Require Import PyStr.
From S2P Require Import Json.
From S2P Require Import JsonFacts.
From S2P Require Import PyDyn.
From S2P Require Import Hash.
From S2P Require Import AuditLog.
From S2P Require Import AuditFacts.
From S2P Require Import AuditProps.
From S2P Require Import Lifecycle.
From S2P Require Import LifecycleFacts.
From S2P Require Import Pdp.
From S2P Require Import Conc.
From S2P Require Import World.
From S2P Require Import Registry.
From S2P Require Import Gateway.
From S2P Require Import System.
From S2P Require Import SystemFacts.
From S2P Require Import SystemOk.
From S2P Require Import SystemProps.
From S2P Require Import Startup.
Open Scope Z_scope.

Section Startup.
Context `{Digest}.

(** ** Up to the kill file, only the log changes *)

(** The records [ds] were written, and nothing else happened. *)
Record noted (ds : list dict) (w w' : world) : Prop := {
  nt_rest : w' = World (w_log w') (w_ios w) (w_nio w') (w_run w) (w_permits w) (w_conns w) (w_reg w) (w_budgets w) (w_trace w');
  nt_trace : w_trace w' = (w_trace w ++ map EvRecord ds)%list;
  nt_log : (forall i, wf (io_time (w_ios w i))) -> log_inv (w_log w) -> log_inv (w_log w') }.
Lemma noted_trans d1 d2 w1 w2 w3 : noted d1 w1 w2 -> noted d2 w2 w3 -> noted (d1 ++ d2) w1 w3.
Proof.
  intros [R1 T1 L1] [R2 T2 L2]. split.
  - rewrite R2. rewrite R1. done.
  - by rewrite T2, T1, map_app, app_assoc.
  - intros Hi Hl. apply L2; [rewrite R1; exact Hi|]. by apply L1.
Qed.
(** A write that answers is whole: its close did not fail either. *)
Lemma exec_written d w w' t : exec (audit_write d) w = (w', Ok t) ->
  exists l, write (w_ios w (w_nio w)) d (w_log w) = (l, Ok t) /\ w' = emit (EvRecord d) (tick (set_log l w)).
Proof.
  cbn. unfold do_write. destruct (write _ _ _) as [l [t'|e]]; cbn; [|done]. intros [= <- <-]. by exists l.
Qed.
Lemma noted_write d w w' t : plain d -> exec (audit_write d) w = (w', Ok t) ->
  noted [d] w w' /\ l_healthy (w_log w') = true.
Proof.
  intros [Hd _] (l & E & ->)%exec_written. split; [split; try done; cbn; intros Hi Hl; by eapply write_inv|].
  apply write_ok in E as (_ & Hh & _ & ->). cbn. by destruct (w_log w).
Qed.
Lemma noted_startup env w l v : startup_verify (se_dir_ok env) (w_log w) = Ok (l, v) -> noted [] w (set_log l w).
Proof.
  intros (Hf & Hp & _ & Hh)%startup_cases. split; [done|by rewrite app_nil_r|].
  intros _ Hl. cbn. by eapply log_inv_eq.
Qed.

(** ** The log that is opened *)

Lemma whole_inv l c : l_file l = Some c -> ends_nl c -> chain_from GENESIS (rec_lines c) = Some (l_prev l) -> log_inv l.
Proof. intros Hf Hnl Hc. exists c, "". by rewrite append_nil_r. Qed.
Lemma accept_inv dir_ok l l' c : l_file l = Some c -> ends_nl c -> l_prev l = GENESIS ->
  accept_existing dir_ok l = Ok l' -> log_inv l'.
Proof.
  intros Hf Hnl Hp. unfold accept_existing. rewrite Hf. destruct (verify (Some c)) as [[b d]|] eqn:Hv; cbn [rbind]; [|done].
  destruct b.
  - apply verify_spec in Hv as (t & Hc & _). unfold recover_tail. cbn [set_detail l_file]. rewrite Hf.
    pose proof (recover_spec (file_lines c) None GENESIS t Hc eq_refl) as Ht.
    destruct (recover_loop None (file_lines c)) as [[ln v]|]; subst t.
    + destruct (as_dict v) as [rec|]; cbn [rbind]; [|done]. intros [= <-].
      destruct (is_str _ _), dir_ok; by apply (whole_inv _ c).
    + cbn [rbind]. intros [= <-]. destruct dir_ok; by apply (whole_inv _ c).
  - intros [= <-]. exists "", c. cbn. split_and!; try done; [by left|by rewrite Hp].
Qed.
(** Every log a writer of this program leaves ends with a newline, unless its
    last write failed. *)
Definition complete_log (p : process) : Prop :=
  (forall c, pr_file p = Some c -> ends_nl c) /\ (forall c, pr_creation p = AlreadyExists c -> ends_nl c).
Lemma open_log_inv p l : complete_log p -> open_log p = Ok l -> log_inv l /\ l_healthy l = true.
Proof.
  intros [Hf Hc]. unfold open_log, init, initialize_storage. cbn [andb l_file set_file].
  destruct (negb (pr_lock p)); [done|]. intros Ho. apply res_bind_Ok in Ho as (l' & Hl & Ho).
  destruct (l_healthy l') eqn:Hh; [|done]. injection Ho as <-. split; [|done].
  destruct (pr_file p) as [c|]; [eapply accept_inv; [..|exact Hl]; auto|].
  destruct (pr_creation p) as [|c|r].
  - injection Hl as <-. exists "", "". destruct (pr_dir_ok p); cbn; split_and!; try done; by left.
  - eapply accept_inv; [..|exact Hl]; auto.
  - by injection Hl as <-.
Qed.

(** ** The start *)

Lemma exec_check_sink env w w' : exec (check_sink env) w = (w', Ok tt) ->
  exists l d, startup_verify (se_dir_ok env) (w_log w) = Ok (l, (true, d)) /\ w' = set_log l w.
Proof.
  unfold check_sink. rewrite exec_bind. cbn. destruct (startup_verify _ _) as [[l [ok d]]|e]; cbn; [|done].
  destruct ok; cbn; [intros [= <-]; by exists l, d|]. destruct (l_healthy l); cbn; [|done].
  destruct (do_write _ _) as [w2 [t|e]]; by cbn.
Qed.
(** What [announce] wrote when it returns: STARTUP, after STARTUP_DEGRADED if there is no IPv6. *)
Lemma exec_announce env w w' : exec (announce env) w = (w', Ok tt) -> exists l d w2 li families t,
  startup_verify (se_dir_ok env) (w_log w) = Ok (l, (true, d)) /\
  (w2 = set_log l w \/ exists e t2, exec (audit_write (degraded_record e (se_port env))) (set_log l w) = (w2, Ok t2)) /\
  exec (audit_write (startup_record env li families)) w2 = (w', Ok t).
Proof.
  unfold announce. rewrite exec_bind. destruct (exec (check_sink env) w) as [w1 [[]|e]] eqn:E1; [|done].
  apply exec_check_sink in E1 as (l & d & Hv & ->). rewrite exec_bind.
  destruct (exec (bind_listener env) (set_log l w)) as [w2 [[li families]|e]] eqn:E2; [|done].
  rewrite exec_bind. destruct (exec (audit_write _) w2) as [w3 [t|e]] eqn:E3; [|done]. cbn. intros [= <-].
  exists l, d, w2, li, families, t. split; [done|]. split; [|done]. revert E2. unfold bind_listener.
  destruct (se_dual env) as [li2|e]; [intros [= <- _ _]; by left|]. destruct (os_error e); [|done].
  rewrite exec_bind. destruct (se_v4 env) as [li2|e2]; cbn [of_res exec]; [|done]. rewrite exec_bind.
  clear E3. destruct (exec (audit_write (degraded_record _ _)) _) as [w4 [t2|e2]] eqn:E4; [|done]. cbn [exec]. intros [= <- _ _]. right. by exists e, t2.
Qed.
Lemma announce_noted env w w' : exec (announce env) w = (w', Ok tt) -> exists li families ds,
  (ds = [] \/ exists e, ds = [degraded_record e (se_port env)]) /\
  noted (ds ++ [startup_record env li families]) w w' /\ l_healthy (w_log w') = true.
Proof.
  intros (l & d & w2 & li & families & t & Hv & H2 & H3)%exec_announce. exists li, families.
  apply noted_startup in Hv. apply noted_write in H3 as [H3 Hh]; [|plain_tac]. destruct H2 as [->|(e & t2 & H2)].
  - exists []. split; [by left|]. split; [|done]. by apply (noted_trans [] _ _ _ _ Hv).
  - apply noted_write in H2 as [H2 _]; [|plain_tac]. exists [degraded_record e (se_port env)]. split; [right; by exists e|].
    split; [|done]. apply (noted_trans [] _ _ _ _ Hv). by apply (noted_trans _ _ _ _ _ H2).
Qed.
Lemma exec_serve env w w' r : exec (serve env) w = (w', Ok r) ->
  exists w1, exec (announce env) w = (w1, Ok tt) /\
  if se_killed env then exists o, exec (cancel_and_quiesce (early_kill env)) w1 = (w', Ok o) /\ r = ClosedEarly o
  else w' = w1 /\ r = Serving.
Proof.
  unfold serve. rewrite exec_bind. destruct (exec (announce env) w) as [w1 [[]|e]]; [|done].
  destruct (se_killed env).
  - rewrite exec_bind. destruct (exec (cancel_and_quiesce _) w1) as [w2 [o|e]] eqn:E; [|done]. intros [= <- <-]. eauto.
  - destruct (se_ready env); [|done]. intros [= <- <-]. eauto.
Qed.

(** ** A cancellation alone *)

(** No step of a cancellation reaches a target, and none takes the kill back. *)
Definition shut (w : world) : Prop :=
  r_cancelled (w_run w) = true /\ g_killed (w_reg w) = true /\ g_admission (w_reg w) = false /\ g_conns (w_reg w) = [].
Definition harmless (w w' : world) : Prop :=
  effects (w_trace w') = effects (w_trace w) /\ (shut w -> shut w').
Lemma harmless_emit e w w' : is_effect e = false -> w_trace w' = (w_trace w ++ [e])%list -> w_run w' = w_run w -> w_reg w' = w_reg w -> harmless w w'.
Proof.
  intros He Ht Hr Hg. unfold harmless, shut, effects. rewrite Ht, List.filter_app, Hr, Hg. cbn. rewrite He. split; [apply app_nil_r|done].
Qed.
Lemma harmless_write d : always harmless (audit_write d).
Proof.
  apply always_atomic_res. intros w. unfold do_write. destruct (write _ _ _) as [l [t|e]]; [|by split].
  by apply (harmless_emit (EvRecord d)).
Qed.
Lemma harmless_seal d : always harmless (audit_seal d).
Proof.
  apply always_atomic_res. intros w. unfold do_seal. destruct (seal_with _ _ _) as [l [t|e]]; [|by split].
  by apply (harmless_emit (EvRecord d)).
Qed.
Lemma harmless_read {A} (f : run -> A) : always harmless (on_run (fun r => (r, f r))).
Proof. by apply always_atomic. Qed.
Lemma harmless_read_reg {A} (f : registry -> A) : always harmless (on_reg (fun g => (g, f g))).
Proof. by apply always_atomic. Qed.
Lemma harmless_set_last r : always harmless (on_reg_ (set_last r)).
Proof. by apply always_atomic. Qed.
Lemma harmless_on_conn {A} c (d : A) f : always harmless (on_conn c d f).
Proof. apply always_atomic. intros w. unfold harmless. destruct (w_conns w !! c) as [x|]; [|done]. by destruct (f x). Qed.
Lemma harmless_for_each {A B} (f : A -> thread B) l : (forall x, always harmless (f x)) -> always harmless (for_each f l).
Proof.
  intros Hf. induction l as [|x l IH]; [done|]. cbn [for_each]. apply always_bind; [apply Hf|]. intros y.
  by apply always_bind.
Qed.
Ltac harmless_tac :=
  repeat first
    [ apply always_ret | apply always_throw | apply harmless_write | apply harmless_seal | apply harmless_read
    | apply harmless_read_reg | apply harmless_set_last | apply harmless_on_conn | apply harmless_for_each; intros ?
    | apply always_bind; [|intros ?] | apply always_catch; [|intros ?] | apply always_finally
    | apply always_atomic; intros ?; first [by split | by apply (harmless_emit EvStopListener)] | case_match | done ].
Lemma harmless_certify torn snap s d : always harmless (certify torn snap s d).
Proof. unfold certify, audit_healthy. harmless_tac. Qed.
Lemma harmless_exec {A} (p : thread A) w w' r : always harmless p -> exec p w = (w', r) -> harmless w w'.
Proof.
  intros Hp E. pose proof (always_exec harmless p ltac:(by split) ltac:(intros ? ? ? [] []; split; [congruence|auto]) Hp w) as Hh.
  by rewrite E in Hh.
Qed.
(** The terminal state is reached by the first two steps and kept by the others. *)
Lemma cancel_cancels now r : run_inv r -> r_cancelled (cancel now r).1 = true.
Proof. intros Hr. apply ri_cancel in Hr. unfold cancel. by destruct (r_cancellation r); cbn. Qed.
Lemma always_terminate_rest e t taken : always harmless
  (let victims := listed e taken in
   retained <-- for_each (fun c => socks <-- conn_begin_termination c;; Ret (c, socks)) victims;;
   torn <-- for_each (fun cs => live <-- conn_shutdown (ke_alive e) cs.1 cs.2;;
                                id <-- conn_id_of cs.1;; Ret (id, live)) retained;;
   started <-- stop_listener e;;
   durable <-- pcatch (record_linearization t;;; Ret true) (fun _ => Ret false);;
   drained <-- drain run_drained;;
   remaining <-- run_inflight_count;;
   on_reg_ (set_last (CancelResult t drained remaining durable started));;;
   ids <-- for_each conn_id_of victims;;
   Ret (map fst (List.filter (fun p => snd p) torn), ids)).
Proof.
  unfold record_linearization, stop_listener, drain, conn_id_of, conn_begin_termination, conn_shutdown, run_inflight_count, signal.
  cbv zeta. harmless_tac.
Qed.
Lemma exec_terminate_shut e w w' r : run_inv (w_run w) -> exec (terminate_all e (Some record_linearization)) w = (w', r) ->
  effects (w_trace w') = effects (w_trace w) /\ shut w'.
Proof.
  intros Hri. unfold terminate_all. rewrite exec_bind. cbn [on_run atomic exec]. destruct (cancel (ke_now e) (w_run w)) as [rn t] eqn:Ec. cbn [fst snd].
  rewrite exec_bind. cbn [on_reg kill atomic exec fst snd]. intros E.
  destruct (harmless_exec _ _ _ _ (always_terminate_rest e t _) E) as [He Hs].
  split; [by rewrite He|]. apply Hs. pose proof (cancel_cancels (ke_now e) _ Hri) as Hc. rewrite Ec in Hc. by split_and!.
Qed.
Lemma exec_cancel_shut e w w' r : run_inv (w_run w) -> exec (cancel_and_quiesce e) w = (w', r) ->
  effects (w_trace w') = effects (w_trace w) /\ shut w'.
Proof.
  intros Hri. unfold cancel_and_quiesce. rewrite exec_bind.
  destruct (exec (terminate_all _ _) w) as [w1 [[torn snap]|x]] eqn:E1; apply exec_terminate_shut in E1 as [E1 S1]; try done;
    [|by intros [= <- _]].
  intros E2. apply harmless_exec in E2 as [E2 S2]; [split; [congruence|by apply S2]|].
  unfold drain, run_inflight_count, run_epoch. harmless_tac. apply harmless_certify.
Qed.
(** A cancellation that says it sealed has sealed, on the record that closes the run. *)
Lemma exec_certify_sealed torn snap s d w w' : exec (certify torn snap s d) w = (w', Ok true) ->
  l_sealed (w_log w') = true /\ exists t before, w_trace w' = (before ++ [EvRecord (closed_record t)])%list.
Proof.
  unfold certify. destruct (negb d); [done|]. rewrite exec_bind. cbn [audit_healthy atomic exec fst snd]. destruct (negb _); [done|].
  rewrite exec_bind. destruct (exec (audit_write (kill_record _ _ _)) w) as [w1 [x1|x1]]; [|done]. destruct (negb _).
  { rewrite exec_bind. by destruct (exec (audit_write _) w1) as [w2 [x2|x2]]. }
  rewrite exec_bind. destruct (exec (audit_write (ack_record _)) w1) as [w2 [x2|x2]]; [|done].
  destruct (dr_transition s) as [t|]; [|done]. rewrite exec_bind. cbn [audit_seal atomic_res exec]. unfold do_seal, seal_with.
  destruct (negb _); [done|]. destruct (l_sealed (w_log w2)); [done|]. destruct (write _ _ _) as [l [x3|x3]]; [|done].
  cbn. intros [= <-]. split; [done|]. by exists t, (w_trace w2).
Qed.
Lemma exec_bind_ok {A B} (q : thread A) (k : A -> thread B) w w' y : exec (pbind q k) w = (w', Ok y) ->
  exists w1 x, exec q w = (w1, Ok x) /\ exec (k x) w1 = (w', Ok y).
Proof. rewrite exec_bind. destruct (exec q w) as [w1 [x|e]]; [|done]. eauto. Qed.
Lemma exec_cancel_sealed e w w' o : exec (cancel_and_quiesce e) w = (w', Ok o) -> oc_sealed o = true ->
  l_sealed (w_log w') = true /\ exists t before, w_trace w' = (before ++ [EvRecord (closed_record t)])%list.
Proof.
  unfold cancel_and_quiesce. intros (w1 & [torn snap] & _ & E)%exec_bind_ok. do 5 (apply exec_bind_ok in E as (? & ? & _ & E)).
  revert E. cbv zeta. rewrite exec_catch, exec_bind. destruct (exec (certify _ _ _ _) _) as [w2 [[]|ex]] eqn:Ec; cbn.
  - intros [= <- <-] _. by eapply exec_certify_sealed.
  - by intros [= _ <-].
  - by intros [= _ <-].
Qed.

(** C15: the start establishes what the running system relies on. If the process
    comes to serve, over any log without a torn last line, the world it hands to
    its handlers and watchers is one every theorem on the running system starts
    from ([boot]): nothing has run, nothing was sent, the log is intact and
    healthy, no kill file was there, and the records of the start are STARTUP,
    alone or after STARTUP_DEGRADED. If a kill file was there, the run is
    cancelled before any handler exists: nothing was sent, the run is terminal,
    the registry admits nobody, and if the closure says it sealed, the log is
    sealed on its RUN_CLOSED. *)
Theorem start_establishes_boot p s : named s -> (forall i, wf (io_time (pr_ios p i))) -> 0 <= se_max (pr_serve p) -> complete_log p ->
  match main p with
  | Running _ w =>
      boot s w /\ l_healthy (w_log w) = true /\ se_killed (pr_serve p) = false /\
      g_max (w_reg w) = se_max (pr_serve p) /\
      exists li families ds, w_trace w = map EvRecord (ds ++ [startup_record (pr_serve p) li families]) /\
        (ds = [] \/ exists e, ds = [degraded_record e (se_port (pr_serve p))])
  | Closed o w =>
      se_killed (pr_serve p) = true /\ effects (w_trace w) = [] /\ shut w /\
      (oc_sealed o = true ->
         l_sealed (w_log w) = true /\ exists t before, w_trace w = (before ++ [EvRecord (closed_record t)])%list)
  | Exit _ | Crash _ => True
  end.
Proof.
  intros Hs Hio Hmax Hlog. unfold main. destruct (pr_policy p) as [policy|]; [|done]. destruct (pr_ca p); [|done].
  destruct (open_log p) as [l|] eqn:Ho; [|done]. destruct (v_get _ _) as [zone|]; [|done].
  apply open_log_inv in Ho as [Hl _]; [|done]. set (w0 := world0 l (pr_ios p) (se_max (pr_serve p))).
  destruct (exec (serve (pr_serve p)) w0) as [w [r|e]] eqn:E; [|by destruct (String.eqb _ _)].
  apply exec_serve in E as (w1 & Ea & E). apply announce_noted in Ea as (li & families & ds & Hds & [Hrest Ht Hinv] & Hh).
  cbn in Ht. assert (effects (w_trace w1) = [] /\ ~ closed_in (w_trace w1)) as [He Hc].
  { rewrite Ht. destruct Hds as [->|[e ->]]; (split; [done|]); intros (d & Hd & Hk); cbn in Hd;
      repeat (apply elem_of_cons in Hd as [[= ->]|Hd]; [discriminate Hk|]); by apply not_elem_of_nil in Hd. }
  destruct (se_killed (pr_serve p)) eqn:Hk.
  - destruct E as (o & Ec & ->). assert (run_inv (w_run w1)) as Hri by (rewrite Hrest; apply run_inv0).
    destruct (exec_cancel_shut _ _ _ _ Hri Ec) as [Hce Hsh]. split; [done|]. split; [congruence|]. split; [exact Hsh|].
    by eapply exec_cancel_sealed.
  - destruct E as [-> ->]. split; [|split_and!; [done|done|by rewrite Hrest|by exists li, families, ds]].
    split; try done; [rewrite Hrest; split; try done; by exists (se_max (pr_serve p))|by apply Hinv|by rewrite Hrest].
Qed.
End Startup.

(** ** A start, evaluated *)

#[local] Existing Instance toy.
Definition env_s : serve_env := ServeEnv true (Raise (PyExn "OSError" "no IPv6")) (Ok (Listener "AF_INET" "0.0.0.0" 3128)) 3128 4 false true 7.
Definition process_s : process := Process (Ok (VDict [])) (Ok tt) None "run-1" true Created true (fun _ => io0) env_s.
(** The same with the kill file there. *)
Definition killed_s : process :=
  Process (Ok (VDict [])) (Ok tt) None "run-1" true Created true (fun _ => io0)
    (ServeEnv true (Raise (PyExn "OSError" "no IPv6")) (Ok (Listener "AF_INET" "0.0.0.0" 3128)) 3128 4 true true 7).
Lemma complete_fresh p : pr_file p = None -> pr_creation p = Created -> complete_log p.
Proof. intros Hf Hc. split; [by rewrite Hf|by rewrite Hc]. Qed.
Lemma named_none : named [].
Proof. split; [constructor|intros a r Ha; by apply not_elem_of_nil in Ha]. Qed.
Lemma start_establishes_boot_witness :
  (exists w, main process_s = Running false w /\ boot [] w /\ effects (w_trace w) = []) /\
  exists o w, main killed_s = Closed o w /\ oc_sealed o = true /\ shut w /\ l_sealed (w_log w) = true.
Proof.
  split.
  - pose proof (start_establishes_boot process_s [] named_none (fun _ => wf_io0) ltac:(cbn; lia) (complete_fresh process_s eq_refl eq_refl)) as Hw.
    destruct (main process_s) as [code|e|o w|zone w] eqn:E; try (vm_compute in E; discriminate E).
    exists w. split; [f_equal; vm_compute in E; congruence|]. split; [apply Hw|apply Hw].
  - pose proof (start_establishes_boot killed_s [] named_none (fun _ => wf_io0) ltac:(cbn; lia) (complete_fresh killed_s eq_refl eq_refl)) as Hw.
    destruct (main killed_s) as [code|e|o w|zone w] eqn:E; try (vm_compute in E; discriminate E).
    exists o, w. split; [reflexivity|]. assert (oc_sealed o = true) as Ho.
    { apply (f_equal (fun r => match r with Closed o _ => oc_sealed o | _ => false end)) in E. vm_compute in E. symmetry. exact E. }
    split; [exact Ho|]. split; [apply Hw|by apply Hw].
Defined.
(** A torn log is not served; nothing is written to it, so the record of the
    failure the code would write to a healthy sink is never written. *)
Definition torn_p : process :=
  Process (Ok (VDict [])) (Ok tt) (Some "{") "run-1" true Created true (fun _ => io0) env_s.
Example torn_refused : main torn_p = Exit 4.
Proof. vm_compute. reflexivity. Qed.
Lemma no_failure_record env w w' r : exec (check_sink env) w = (w', r) -> w_trace w' = w_trace w.
Proof.
  unfold check_sink. rewrite exec_bind. cbn. destruct (startup_verify _ _) as [[l [ok d]]|e] eqn:E; cbn; [|by intros [= <- _]].
  destruct ok; cbn; [by intros [= <- _]|].
  assert (l_healthy l = false) as ->; [|by intros [= <- _]].
  unfold startup_verify in E. destruct (l_healthy (w_log w)) eqn:Hh; cbn [negb] in E; [|by injection E as <-].
  destruct (verify _) as [[b x]|]; cbn [rbind] in E; [|done]. destruct b; cbn [negb] in E; [|by injection E as <- _].
  destruct (se_dir_ok env); cbn in E; [rewrite Hh in E; cbn in E; congruence|by injection E as <-].
Qed.
