(* ===== verification/Harness.v ===== *)
(** * The policy gateway of phase 2a ([src/phase2a/policy_gw.py])

    The proof harness the production gateway grew out of: its own address
    policy, decision point with budgets, and the plain-HTTP and CONNECT
    handlers as threads over the harness's shared counters. *)

From S2P Require Import Prelude.
From S2P Require Import PyStr.
From S2P Require Import Json.
From S2P Require Import PyDyn.
From S2P Require Import Hash.
From S2P Require Import IpAddr.
From S2P Require Import Addressing.
From S2P Require Import Resolver.
From S2P Require Import Pdp.
From S2P Require Import Conc.
From S2P Require Import Gateway.
Open Scope Z_scope.

(** ** Hosts, scope and addresses *)

(** An ASCII host the IDNA codec refuses is taken as it is. *)
Definition canonical_host `{Idna} (raw : string) : option string :=
  if String.eqb raw "" then None else
  let h := rstrip_dots (str_lower (str_strip raw)) in
  if String.eqb h "" || contains "/" h || contains " " h then None else encode_idna h.
(** The patterns of [host_in_scope] are those of the production gateway. *)
Definition host_in_scope (host : string) (allowlist denylist : val) : res bool :=
  dl <- v_iter denylist;;
  denied <- any_match host dl;;
  if denied : bool then Ok false
  else if negb (truthy allowlist) then Ok false
  else al <- v_iter allowlist;; any_match host al.

(** [is_private] of an IPv4-mapped address is that of the IPv4 address. *)
Definition std_private (a : ipaddr) : bool :=
  match a with
  | IPv6 n _ => match ipv4_mapped n with Some m => is_private m | None => is_private a end
  | IPv4 _ => is_private a
  end.
Definition ip_is_allowed (ip_str : string) (program : val) : res (bool * string) :=
  match ip_address ip_str with
  | None => Ok (false, "malformed_ip")
  | Some ip =>
      ex <- v_get_or "private_ip_exemptions" (VList []) program;;
      exempt <- v_in (VStr ip_str) ex;;
      Ok (if exempt : bool then (true, "private_ip_exemption")
          else if is_loopback ip then (false, "loopback_denied")
          else if is_link_local ip then (false, "link_local_denied")
          else if std_private ip then (false, "rfc1918_denied")
          else if is_reserved ip || is_multicast ip || is_unspecified ip then (false, "reserved_denied")
          else (true, "public_ok"))
  end.

(** ** State *)

Record hrequest := HRequest {
  hq_src : string; hq_host : string; hq_port : Z; hq_method : string; hq_asset : string; hq_cred : string;
  hq_pinned : option string }.
Inductive hevent :=
| HChecked (q : hrequest) (pid : string)
| HAllowed (q : hrequest) (pid ip : string)
| HReply (code : Z) (reason : string)
| HRecord (entry : dict)
| HConnect (ip : val) (port : Z)
| HSend (bytes : string)
| HForward (bytes : string)
| HTunnel.
(** [_spend], [_resolve_calls], and a ghost history: among its events the two
    critical sections of a decision, the budget check and the charge. *)
Record hworld := HWorld { hw_spend : gmap string Z; hw_calls : gmap string nat; hw_trace : list hevent }.
Definition spend (k : string) (w : hworld) : Z := default 0 (hw_spend w !! k).
Definition hemit (e : hevent) (w : hworld) : hworld := HWorld (hw_spend w) (hw_calls w) (hw_trace w ++ [e]).
Abbreviation hthread := (@prog hworld).
Definition hsignal (e : hevent) : hthread unit := atomic (fun w => (hemit e w, tt)).
(** [audit]: the time stamp is not modelled. *)
Definition audit (entry : dict) : hthread unit := hsignal (HRecord entry).

(** ** The simulated zone *)

Definition zone_entry (host : string) (policy : val) : res val :=
  zone <- v_get_or "dns_zone" (VDict []) policy;;
  known <- v_in (VStr host) zone;;
  if negb known then Ok (VList []) else v_index host zone.
Definition is_sequence (v : val) : bool := match v with VDict d => dmem "sequence" d | _ => false end.
(** An answer is a string. *)
Definition answer_list (v : val) : res (list string) := l <- v_iter v;; strings_of l.
Definition resolve (host : string) (policy : val) : hthread (list string) :=
  entry <-- of_res (zone_entry host policy);;
  if is_sequence entry then
    n <-- atomic (fun w => (w, default 0%nat (hw_calls w !! host)));;
    atomic (fun w => (HWorld (hw_spend w) (<[host := S n]> (hw_calls w)) (hw_trace w), tt));;;
    of_res (seq <- v_index "sequence" entry;; chosen <- nth_or_last n seq;; answer_list chosen)
  else of_res (answer_list entry).

(** ** The decision point *)

Record hdecision := HDecision {
  hd_allow : bool; hd_reason : string; hd_pinned : val; hd_secret : val; hd_resolved : list string }.
Definition hdeny (reason : string) (resolved : list string) : hdecision := HDecision false reason VNull VNull resolved.
Inductive hflow (A : Type) := HDone (d : hdecision) | HGo (a : A).
Arguments HDone {A} d.
Arguments HGo {A} a.
#[local] Notation "x <~~ m ;; k" := (rbind m (fun f => match f with HDone d => Ok (HDone d) | HGo x => k end))
  (at level 20, m at level 99, k at level 200).
#[local] Notation "x <== m ;; k" := (pbind (of_res m) (fun f => match f with HDone d => Ret d | HGo x => k end))
  (at level 20, m at level 99, k at level 200).
Definition hstop (reason : string) : res (hflow unit) := Ok (HDone (hdeny reason [])).
Definition hpass : res (hflow unit) := Ok (HGo tt).

(** [int(v)]. *)
Definition py_int (v : val) : res Z :=
  match v with
  | VInt z => Ok z
  | VBool b => Ok (if b then 1 else 0)
  | VFloat (FFin m k) => Ok (Z.quot m (10 ^ Z.of_nat (S k)))
  | VFloat FNan => Raise (ValErr "int")
  | VFloat (FInf _) => Raise (OverflowError "int")
  | VStr s =>
      let t := str_strip s in
      let '(neg, u) := match t with String "-" u => (true, u) | String "+" u => (false, u) | _ => (false, t) end in
      match strip_underscores false u with
      | Some ds => match int_of_digits ds with
                   | Some n => if Nat.ltb 4300 (String.length ds) then Raise (ValErr "int") else Ok (if neg then - n else n)
                   | None => Raise (ValErr "int")
                   end
      | None => Raise (ValErr "int")
      end
  | _ => Raise (TypeError "int")
  end.

(** The program of the first network that contains the source. *)
Fixpoint network_program (src : string) (networks : dict) : val :=
  match networks with
  | [] => VNull
  | (cidr, pid) :: rest =>
      match ip_address src, ip_network cidr with
      | Some a, Some net => if in_net a net then pid else network_program src rest
      | _, _ => network_program src rest
      end
  end.
Definition find_program (src : string) (policy : val) : res (hflow (string * val)) :=
  nets <- v_get_or "networks" (VDict []) policy;; nets <- v_items nets;;
  let pid := network_program src nets in
  if is_none pid then Ok (HDone (hdeny "NO_PROGRAM_FOR_SOURCE" [])) else
  programs <- v_get_or "programs" (VDict []) policy;;
  match programs, pid with
  | VDict d, VStr p =>
      let program := dget_or p VNull d in
      if truthy program then Ok (HGo (p, program)) else Ok (HDone (hdeny "UNKNOWN_PROGRAM" []))
  | VDict _, _ => if hashable pid then Ok (HDone (hdeny "UNKNOWN_PROGRAM" [])) else Raise (TypeError "unhashable")
  | _, _ => Raise (AttrError "get")
  end.
Definition check_authorization (program now : val) : res (hflow unit) :=
  au <- v_get "authorization" program;;
  let rec := v_or au (VDict []) in
  complete <- has_keys auth_keys rec;;
  if negb complete then hstop "AUTHORIZATION_INCOMPLETE" else
  status <- v_get "status" rec;;
  if negb (py_eqb status (VStr "active")) then hstop ("AUTHORIZATION_STATUS_" ++ py_str status) else
  exp <- v_get_or "expires_at" (VInt 0) rec;;
  f <- v_float exp;; expired <- py_le f now;;
  if expired : bool then hstop "AUTHORIZATION_EXPIRED" else hpass.
Definition asset_key (pid asset : string) : string := pid ++ "/" ++ asset.
(** The caps, read from the policy, against the counters: one critical section. *)
Definition check_budget (pid : string) (program : val) (asset : string) (w : hworld) : res (hflow unit) :=
  cap <- v_get_or "max_requests" (VInt 0) program;; cap <- py_int cap;;
  if cap <=? spend pid w then hstop "BUDGET_EXHAUSTED_PROGRAM" else
  caps <- v_get "asset_max_requests" program;;
  acap <- v_get asset (v_or caps (VDict []));;
  if is_none acap then hpass else
  acap <- py_int acap;;
  if acap <=? (if String.eqb asset "" then 0 else spend (asset_key pid asset) w)
  then hstop "BUDGET_EXHAUSTED_ASSET" else hpass.
(** The charge, in another. *)
Definition bump (k : string) (w : hworld) : hworld := HWorld (<[k := spend k w + 1]> (hw_spend w)) (hw_calls w) (hw_trace w).
Definition charge (pid asset : string) (w : hworld) : hworld :=
  let w := bump pid w in if String.eqb asset "" then w else bump (asset_key pid asset) w.

Section Pdp.
Context `{Idna}.

(** Steps 4 to 6: the canonical host. *)
Definition check_destination (program : val) (q : hrequest) : res (hflow string) :=
  match canonical_host (hq_host q) with
  | None => Ok (HDone (hdeny "HOST_NOT_CANONICALIZABLE" []))
  | Some host =>
      literal <- (if is_ip_literal host
                  then l <- v_get_or "explicit_ip_allowlist" (VList []) program;; listed <- v_in (VStr host) l;; Ok (negb listed)
                  else Ok false);;
      if literal : bool then Ok (HDone (hdeny "IP_LITERAL_DENIED" [])) else
      allow <- v_get_or "scope_allow" (VList []) program;;
      dny <- v_get_or "scope_deny" (VList []) program;;
      scoped <- host_in_scope host allow dny;;
      if negb scoped then Ok (HDone (hdeny "OUT_OF_SCOPE" [])) else
      ports <- v_get_or "allowed_ports" (VList [VInt 80; VInt 443]) program;;
      port_ok <- v_in (VInt (hq_port q)) ports;;
      if negb port_ok then Ok (HDone (hdeny "PORT_DENIED" [])) else
      if String.eqb (str_upper (hq_method q)) "CONNECT" then
        c <- v_get_or "allow_connect" (VBool false) program;;
        if truthy c then Ok (HGo host) else Ok (HDone (hdeny "CONNECT_DENIED_BY_POLICY" []))
      else
        ms <- v_get_or "allowed_methods" (VList [VStr "GET"; VStr "HEAD"]) program;;
        m_ok <- v_in (VStr (str_upper (hq_method q))) ms;;
        if m_ok then Ok (HGo host) else Ok (HDone (hdeny "METHOD_DENIED" []))
  end.
(** Step 7, every answer; the first is pinned. *)
Fixpoint check_answers (prefix : string) (program : val) (all l : list string) : res (hflow unit) :=
  match l with
  | [] => hpass
  | a :: l' =>
      v <- ip_is_allowed a program;;
      if fst v : bool then check_answers prefix program all l'
      else Ok (HDone (hdeny (prefix ++ ":" ++ snd v ++ ":" ++ a) all))
  end.
Definition pin_of (program : val) (answers : list string) (from_pin : bool) : res (hflow string) :=
  match answers with
  | [] => Ok (HDone (hdeny "DNS_NO_ANSWER" []))
  | a :: _ => _ <~~ check_answers (if from_pin then "PIN_REJECTED" else "DNS_ANSWER_REJECTED") program answers answers;;
              Ok (HGo a)
  end.
Definition check_authorized_ip (program : val) (pinned : string) (answers : list string) : res (hflow unit) :=
  ips <- v_get_or "authorized_ips" (VList []) program;;
  listed <- v_in (VStr pinned) ips;;
  if listed : bool then hpass else Ok (HDone (hdeny ("IP_NOT_AUTHORIZED:" ++ pinned) answers)).
Definition find_secret (pid : string) (policy : val) (host : string) (q : hrequest) (answers : list string) : res (hflow val) :=
  if String.eqb (hq_cred q) "" then Ok (HGo VNull) else
  creds <- v_get_or "credentials" (VDict []) policy;;
  cred <- v_get (hq_cred q) creds;;
  if negb (truthy cred) then Ok (HDone (hdeny "UNKNOWN_CREDENTIAL" answers)) else
  owner <- v_get "program_id" cred;;
  if negb (py_eqb owner (VStr pid)) then Ok (HDone (hdeny "CREDENTIAL_WRONG_PROGRAM" answers)) else
  asset <- v_get "asset_id" cred;;
  if negb (py_eqb asset (VStr (hq_asset q)) || py_eqb asset (VStr "*"))
  then Ok (HDone (hdeny "CREDENTIAL_WRONG_ASSET" answers)) else
  dests <- v_get_or "destinations" (VList []) cred;;
  to <- v_in (VStr host) dests;;
  if negb to then Ok (HDone (hdeny "CREDENTIAL_WRONG_DESTINATION" answers)) else
  secret <- v_get "secret" cred;; Ok (HGo secret).
(** [pdp]; the kill file and the clock are read once per call. *)
Definition pdp (policy : val) (killed : bool) (now : val) (q : hrequest) : hthread hdecision :=
  if killed then Ret (hdeny "KILL_SWITCH_ACTIVE" []) else
  found <== find_program (hq_src q) policy;;
  let '(pid, program) := found in
  _ <== check_authorization program now;;
  budget <-- atomic_res (fun w => (hemit (HChecked q pid) w, check_budget pid program (hq_asset q) w));;
  match budget with
  | HDone d => Ret d
  | HGo _ =>
      host <== check_destination program q;;
      answers <-- match hq_pinned q with Some p => Ret [p] | None => resolve host policy end;;
      pinned <== pin_of program answers (match hq_pinned q with Some _ => true | None => false end);;
      _ <== check_authorized_ip program pinned answers;;
      secret <== find_secret pid policy host q answers;;
      atomic (fun w => (hemit (HAllowed q pid pinned) (charge pid (hq_asset q) w), tt));;;
      Ret (HDecision true "ALLOW" (VStr pinned) secret answers)
  end.
End Pdp.

(** ** URLs

    [urllib.parse.urlsplit] and the properties of its result the handler reads. *)

Record url_parts := UrlParts { u_scheme : string; u_netloc : string; u_path : string; u_query : string }.
Fixpoint str_filter (f : ascii -> bool) (s : string) : string :=
  match s with EmptyString => "" | String c s' => if f c then String c (str_filter f s') else str_filter f s' end.
Definition is_alpha (c : ascii) : bool := in_range 65 90 c || in_range 97 122 c.
Definition scheme_char (c : ascii) : bool := is_alpha c || is_dec c || mem_str (String c "") ["+"; "-"; "."].
Definition split_scheme (url : string) : string * string :=
  let '(a, found, b) := partition ":" url in
  match a with
  | String c _ => if found && is_alpha c && str_all scheme_char a then (str_lower a, b) else ("", url)
  | EmptyString => ("", url)
  end.
Definition url_delim (c : ascii) : bool := mem_str (String c "") ["/"; "?"; "#"].
(** [_check_bracketed_host]. *)
Definition bracketed_host_ok (h : string) : bool :=
  if startswith "v" h then
    let '(a, found, b) := partition "." (drop 1 h) in
    found && negb (String.eqb a "") && str_all is_hex a && negb (String.eqb b "")
  else match ip_address h with Some a => is_v6 a | None => false end.
Definition netloc_ok (netloc : string) : bool :=
  let opens := contains "[" netloc in
  Bool.eqb opens (contains "]" netloc) &&
  (negb opens || bracketed_host_ok (partition "]" (partition "[" netloc).2).1.1).
Definition urlsplit (url : string) : res url_parts :=
  let url := str_filter (fun c => negb (mem_str (String c "") [String "009" ""; String "010" ""; String "013" ""]))
               (lstrip (fun c => (code c <=? 32)%N) url) in
  let '(scheme, rest) := split_scheme url in
  let '(netloc, rest) := if startswith "//" rest then span (fun c => negb (url_delim c)) (drop 2 rest) else ("", rest) in
  if negb (netloc_ok netloc) then Raise (ValErr "Invalid IPv6 URL") else
  let rest := (partition "#" rest).1.1 in
  let '(path, _, query) := partition "?" rest in
  Ok (UrlParts scheme netloc path query).
(** [_hostinfo]: the host and the port texts. *)
Definition hostinfo (netloc : string) : string * string :=
  let '(_, _, info) := rpartition "@" netloc in
  let '(_, opened, bracketed) := partition "[" info in
  if opened then let '(h, _, p) := partition "]" bracketed in (h, (partition ":" p).2)
  else let '(h, _, p) := partition ":" info in (h, p).
Definition hostname (u : url_parts) : string :=
  let '(h, percent, zone) := partition "%" (hostinfo (u_netloc u)).1 in
  str_lower h ++ (if percent then "%" ++ zone else "").
(** [parts.port or 80]. *)
Definition port_or_80 (u : url_parts) : res Z :=
  let p := (hostinfo (u_netloc u)).2 in
  if String.eqb p "" then Ok 80 else
  if negb (str_all is_dec p) then Raise (ValErr "Port could not be cast to integer value") else
  n <- Gateway.py_int p;;
  if 65535 <? n then Raise (ValErr "Port out of range 0-65535") else Ok (if n =? 0 then 80 else n).
Example url_a : urlsplit "http://User@Example.COM:8080/a/b?c=d#e" =
  Ok (UrlParts "http" "User@Example.COM:8080" "/a/b" "c=d") /\
  hostname (UrlParts "http" "User@Example.COM:8080" "/a/b" "c=d") = "example.com" /\
  port_or_80 (UrlParts "http" "User@Example.COM:8080" "/a/b" "c=d") = Ok 8080.
Proof. split_and!; vm_compute; reflexivity. Qed.

(** ** The handlers *)

(** One request and what its surroundings answer: the policy file, the kill file,
    the clock, the body, and the outcomes of the reply and of the upstream
    connection; reading the response ends at the first empty chunk. *)
Record hclient := HClient {
  hc_ip : string; hc_url : string; hc_header : string -> option string;
  hc_policy : res val; hc_killed : bool; hc_now : val;
  hc_body : Z -> res string;
  hc_reply : res unit;
  hc_connect : res unit; hc_send : res unit; hc_chunks : list (res string) }.
Definition hheader (c : hclient) (k : string) : string := default "" (hc_header c k).

Section Handlers.
Context `{Digest} `{Idna}.

Definition denial_record (d : hdecision) (url method src : string) : dict :=
  [ ("decision", VStr "BLOCKED_BY_POLICY"); ("reason", VStr (hd_reason d)); ("url", VStr url); ("method", VStr method);
    ("src", VStr src); ("resolved", VList (map VStr (hd_resolved d))) ].
(** [_deny]: a reply that fails leaves no record. *)
Definition hdeny_reply (c : hclient) (d : hdecision) (url method : string) : hthread unit :=
  hsignal (HReply 403 (hd_reason d));;;
  of_res (hc_reply c);;;
  audit (denial_record d url method (hc_ip c)).
Definition refuse (c : hclient) (reason url method : string) : hthread unit := hdeny_reply c (hdeny reason []) url method.
Fixpoint read_all (chunks : list (res string)) : res string :=
  match chunks with
  | [] => Ok ""
  | Raise e :: _ => Raise e
  | Ok "" :: _ => Ok ""
  | Ok b :: rest => r <- read_all rest;; Ok (b ++ r)
  end.
Fixpoint join_lines (l : list string) : string :=
  match l with [] => "" | [x] => x | x :: l' => x ++ Gateway.crlf ++ join_lines l' end.
Definition bearer (secret : val) : list string :=
  if truthy secret then ["Authorization: Bearer " ++ py_str secret] else [].
(** The bytes sent upstream. *)
Definition raw_request (start host : string) (secret : val) (payload : string) : string :=
  utf8 (join_lines (([start; "Host: " ++ host; "Connection: close"; "Accept: */*"]%string ++ bearer secret ++
                     (if String.eqb payload "" then [] else ["Content-Length: " ++ show_nat (String.length payload)]%string))%list) ++
        Gateway.crlf ++ Gateway.crlf) ++ payload.
Definition allow_record (c : hclient) (d : hdecision) (url method host req resp : string) : dict :=
  [ ("decision", VStr "ALLOW"); ("reason", VStr (hd_reason d)); ("url", VStr url); ("method", VStr method);
    ("src", VStr (hc_ip c)); ("canonical_host", VStr host); ("resolved", VList (map VStr (hd_resolved d)));
    ("pinned_ip", hd_pinned d); ("upstream_status", VInt (Gateway.status_of resp)); ("redirect_followed", VBool false);
    ("credential_injected", VBool (truthy (hd_secret d)));
    ("request_hash", VStr (sha256 req)); ("response_hash", VStr (sha256 resp)) ].
(** Connect to the pin, send, and read to the end. *)
Definition exchange (c : hclient) (d : hdecision) (port : Z) (req : string) : hthread string :=
  hsignal (HConnect (hd_pinned d) port);;;
  of_res (hc_connect c);;;
  hsignal (HSend req);;;
  of_res (hc_send c);;;
  of_res (read_all (hc_chunks c)).
Definition content_length (c : hclient) : res Z :=
  let h := hheader c "Content-Length" in if String.eqb h "" then Ok 0 else py_int (VStr h).
Definition start_line (method : string) (u : url_parts) : string :=
  method ++ " " ++ (if String.eqb (u_path u) "" then "/" else u_path u) ++
  (if String.eqb (u_query u) "" then "" else "?" ++ u_query u) ++ " HTTP/1.1".
(** After the decision. *)
Definition forward (c : hclient) (d : hdecision) (method : string) (u : url_parts) (host : string) (port : Z) : hthread unit :=
  n <-- of_res (content_length c);;
  payload <-- (if n =? 0 then Ret "" else of_res (hc_body c n));;
  let req := raw_request (start_line method u) host (hd_secret d) payload in
  resp <-- pcatch (r <-- exchange c d port req;; Ret (Ok r)) (fun e => Ret (Raise e));;
  match resp with
  | Raise e => refuse c ("UPSTREAM_ERROR:" ++ exn_cls e) (hc_url c) method
  | Ok resp =>
      audit (allow_record c d (hc_url c) method host req resp);;;
      hsignal (HForward resp)
  end.
(** [None] of [canonical_host] in the request and the record is the text. *)
Definition host_text (o : option string) : string := default "None" o.
Definition request_of (c : hclient) (method host : string) (port : Z) : hrequest :=
  HRequest (hc_ip c) host port method (hheader c "X-Strix-Asset") (hheader c "X-Strix-Cred") None.
Definition split_brain (header_host can : option string) : bool :=
  match header_host, can with
  | Some a, Some b => negb (String.eqb a "") && negb (String.eqb b "") && negb (String.eqb a b)
  | _, _ => false
  end.
Definition proxy (method : string) (c : hclient) : hthread unit :=
  policy <-- of_res (hc_policy c);;
  u <-- of_res (urlsplit (hc_url c));;
  if String.eqb (u_scheme u) "" || String.eqb (u_netloc u) "" then refuse c "NON_ABSOLUTE_URI" (hc_url c) method else
  if negb (String.eqb (u_scheme u) "http") then refuse c ("SCHEME_DENIED:" ++ u_scheme u) (hc_url c) method else
  port <-- of_res (port_or_80 u);;
  let can := canonical_host (hostname u) in
  if split_brain (canonical_host (partition ":" (hheader c "Host")).1.1) can
  then refuse c "HOST_HEADER_MISMATCH" (hc_url c) method else
  d <-- pdp policy (hc_killed c) (hc_now c) (request_of c method (hostname u) port);;
  if negb (hd_allow d) then hdeny_reply c d (hc_url c) method
  else forward c d method u (host_text can) port.
Definition connect_record (c : hclient) (d : hdecision) (url : string) : dict :=
  [ ("decision", VStr "ALLOW"); ("reason", VStr (hd_reason d)); ("url", VStr url); ("method", VStr "CONNECT");
    ("src", VStr (hc_ip c)); ("pinned_ip", hd_pinned d); ("resolved", VList (map VStr (hd_resolved d))) ].
(** The tunnel's bytes are not modelled. *)
Definition do_CONNECT (c : hclient) : hthread unit :=
  policy <-- of_res (hc_policy c);;
  let url := "CONNECT " ++ hc_url c in
  let '(host, sep, p) := rpartition ":" (hc_url c) in
  if negb sep || negb (str_isdigit p) then refuse c "MALFORMED_CONNECT_TARGET" url "CONNECT" else
  port <-- of_res (Gateway.py_int p);;
  d <-- pdp policy (hc_killed c) (hc_now c) (request_of c "CONNECT" host port);;
  if negb (hd_allow d) then hdeny_reply c d url "CONNECT" else
  audit (connect_record c d url);;;
  hsignal (HConnect (hd_pinned d) port);;;
  match hc_connect c with
  | Raise e => refuse c ("UPSTREAM_ERROR:" ++ exn_cls e) url "CONNECT"
  | Ok _ => hsignal (HReply 200 "Connection Established");;; of_res (hc_reply c);;; hsignal HTunnel
  end.
(** Every verb but CONNECT goes through the same chain. *)
Definition dispatch (method : string) (c : hclient) : hthread unit :=
  if String.eqb method "CONNECT" then do_CONNECT c else proxy method c.
End Handlers.
