(* ===== verification/HarnessFacts.v ===== *)
(** * The decision point of the phase 2 gateways as a thread

    Every event a thread emits is justified: the rules of an invariant over the
    history of the world, and the decision point proved against them.  What
    justifies a decision and a connection is a parameter. *)

From S2P Require Import Prelude.
From S2P Require Import PyStr.
From S2P Require Import Json.
From S2P Require Import PyDyn.
From S2P Require Import Hash.
From S2P Require Import IpAddr.
From S2P Require Import Addressing.
From S2P Require Import Pdp.
From S2P Require Import Conc.
From S2P Require Import Harness.
Open Scope Z_scope.

(** ** Pools of threads that keep an invariant *)

Lemma pool_invariant {W} (R : nat -> W -> W -> Prop) (inv : W -> Prop) ts ts' w w' :
  (forall i w1, R i w1 w1) -> (forall i w1 w2 w3, R i w1 w2 -> R i w2 w3 -> R i w1 w3) ->
  (forall i j w1 w2, R i w1 w2 -> R j w1 w2) -> inv w ->
  (forall i p, p ∈ ts -> ok R R inv i (fun _ _ => True) p w) -> reach (ts, w) (ts', w') -> inv w'.
Proof.
  intros Hrefl Htrans Hany Hi Hok Hr.
  assert (pool_ok R R inv (seq 0 (length ts)) (fun _ _ => True) (ts, w)) as Hp.
  { split; cbn.
    - by rewrite length_seq.
    - apply NoDup_ListNoDup, seq_NoDup.
    - done.
    - intros j i p _ Hp. apply Hok. by eapply list_elem_of_lookup_2. }
  assert (pool_ok R R inv (seq 0 (length ts)) (fun _ _ => True) (ts', w')) as [_ _ Hm _]; [|exact Hm].
  by eapply (pool_reach_ok R R inv); eauto.
Qed.

(** ** Mediation *)

Section Mediation.
Context `{Idna}.

(** The counters, from the history: nothing at the start, and a charge for every
    allowing decision. *)
Definition hworld0 : hworld := HWorld ∅ ∅ [].
Definition tally (w : hworld) (e : hevent) : hworld :=
  match e with HAllowed q pid _ => charge pid (hq_asset q) w | _ => w end.
Definition tallied (l : list hevent) : hworld := foldl tally hworld0 l.
(** At the moment of its own check, [q] was within the caps of the program, given
    the decisions taken until then. *)
Definition afforded (before : list hevent) (q : hrequest) (pid : string) (program : val) : Prop :=
  exists earlier later, before = (earlier ++ HChecked q pid :: later)%list /\
    check_budget pid program (hq_asset q) (tallied earlier) = Ok (HGo tt).
(** What else the decision point established before it allowed [q] to [ip]. *)
Record approved (policy now : val) (q : hrequest) (ip : string) (pid : string) (program : val) (host : string) (answers : list string)
    : Prop := {
  ap_program : find_program (hq_src q) policy = Ok (HGo (pid, program));
  ap_authorization : check_authorization program now = Ok (HGo tt);
  ap_destination : check_destination program q = Ok (HGo host);
  ap_pin : forall p, hq_pinned q = Some p -> answers = [p];
  ap_first : hd_error answers = Some ip;
  ap_answers : forall a, a ∈ answers -> exists why, ip_is_allowed a program = Ok (true, why);
  ap_listed : check_authorized_ip program ip answers = Ok (HGo tt);
  ap_credential : exists secret, find_secret pid policy host q answers = Ok (HGo secret) }.

(** What justifies a decision and a connection, given the events before it. *)
Variable allowable : list hevent -> hrequest -> string -> string -> Prop.
Variable connectable : list hevent -> val -> Z -> Prop.
Definition justified (before : list hevent) (e : hevent) : Prop :=
  match e with
  | HAllowed q pid ip => allowable before q pid ip
  | HConnect v port => connectable before v port
  | _ => True
  end.
(** The counters are those of the history, and each of its events is justified. *)
Record mediated (w : hworld) : Prop := {
  md_counted : hw_spend w = hw_spend (tallied (hw_trace w));
  md_justified : forall before e after, hw_trace w = (before ++ e :: after)%list -> justified before e }.
Definition extends (_ : nat) (w w' : hworld) : Prop := exists more, hw_trace w' = (hw_trace w ++ more)%list.

Lemma extends_refl i w : extends i w w.
Proof. exists []. by rewrite app_nil_r. Qed.
Lemma extends_trans i w1 w2 w3 : extends i w1 w2 -> extends i w2 w3 -> extends i w1 w3.
Proof. intros [l1 E1] [l2 E2]. exists (l1 ++ l2)%list. by rewrite E2, E1, app_assoc. Qed.
Lemma extends_in i w w' e : extends i w w' -> e ∈ hw_trace w -> e ∈ hw_trace w'.
Proof. intros [l ->] He. apply elem_of_app. by left. Qed.
Lemma spend_of k w1 w2 : hw_spend w1 = hw_spend w2 -> spend k w1 = spend k w2.
Proof. unfold spend. by intros ->. Qed.
Lemma tally_of e w1 w2 : hw_spend w1 = hw_spend w2 -> hw_spend (tally w1 e) = hw_spend (tally w2 e).
Proof.
  intros E. destruct e; cbn; try done. unfold charge, bump. destruct (String.eqb (hq_asset q) ""); cbn.
  - by rewrite E, (spend_of pid w1 w2).
  - set (b1 := HWorld _ (hw_calls w1) _). set (b2 := HWorld _ (hw_calls w2) _).
    assert (hw_spend b1 = hw_spend b2) as Eb by (cbn; by rewrite E, (spend_of pid w1 w2)).
    rewrite (spend_of _ b1 b2) by done. by rewrite E, (spend_of pid w1 w2).
Qed.
Lemma check_budget_of pid program asset w1 w2 : hw_spend w1 = hw_spend w2 ->
  check_budget pid program asset w1 = check_budget pid program asset w2.
Proof. intros E. unfold check_budget. by rewrite (spend_of pid w1 w2), (spend_of (asset_key pid asset) w1 w2). Qed.
Lemma mediated_snoc w w' e : mediated w -> hw_trace w' = (hw_trace w ++ [e])%list -> hw_spend w' = hw_spend (tally w e) ->
  justified (hw_trace w) e -> mediated w'.
Proof.
  intros [Hc Hm] E Es He. split.
  { rewrite Es, E. unfold tallied. rewrite foldl_snoc. by apply tally_of. }
  intros before x after Hx. rewrite E in Hx. destruct (decide (after = [])) as [->|Hne].
  - apply app_inj_tail in Hx as [<- <-]. done.
  - destruct (exists_last Hne) as (after' & y & ->). rewrite app_comm_cons, app_assoc in Hx.
    apply app_inj_tail in Hx as [Hx _]. by eapply Hm.
Qed.
Lemma mediated_in w before e after q pid ip : mediated w -> hw_trace w = (before ++ e :: after)%list ->
  HAllowed q pid ip ∈ before -> exists l1 l2, before = (l1 ++ HAllowed q pid ip :: l2)%list /\ allowable l1 q pid ip.
Proof.
  intros [_ Hm] Ht Hin. apply list_elem_of_split in Hin as (l1 & l2 & ->). exists l1, l2. split; [done|].
  apply (Hm l1 (HAllowed q pid ip) (l2 ++ e :: after)%list). by rewrite Ht, <- app_assoc.
Qed.
Lemma mediated_same w w' : mediated w -> hw_trace w' = hw_trace w -> hw_spend w' = hw_spend w -> mediated w'.
Proof. intros [Hc Hm] E Es. split; [by rewrite Es, E|]. intros before e after. rewrite E. apply Hm. Qed.
Lemma mediated0 : mediated hworld0.
Proof. split; [done|]. by intros [|??]. Qed.

Abbreviation hok := (ok extends extends mediated).
Section Thread.
Variable i : nat.
Implicit Types w : hworld.

(** Steps that emit nothing, or an event that needs no justification. *)
Definition idle (e : hevent) : Prop := match e with HAllowed _ _ _ | HConnect _ _ => False | _ => True end.
Definition quiet (w w' : hworld) : Prop := hw_spend w' = hw_spend w /\
  (hw_trace w' = hw_trace w \/ exists e, idle e /\ hw_trace w' = (hw_trace w ++ [e])%list).
Lemma quiet_mediated w w' : quiet w w' -> mediated w -> mediated w' /\ extends i w w'.
Proof.
  intros [Es [E|(e & He & E)]] Hm.
  - split; [by eapply mediated_same|]. exists []. by rewrite E, app_nil_r.
  - split; [|by exists [e]]. eapply mediated_snoc; [exact Hm|exact E| |]; by destruct e.
Qed.
Lemma ok_quiet {A} (p : hthread A) Q : forall w, always quiet p ->
  (forall r w1, extends i w w1 -> Q r w1) -> hok i Q p w.
Proof.
  induction p as [a|e|B f k IH|c k IH]; intros w Hp HQ; cbn in *.
  - apply HQ, extends_refl.
  - apply HQ, extends_refl.
  - intros w1 Hr Hm. destruct (Hp w1) as [Hq Hk]. destruct (quiet_mediated _ _ Hq Hm) as [Hm' Hx]. split_and!; [done..|].
    apply IH; [done|]. intros r w2 H2. apply HQ. eapply extends_trans; [exact Hr|]. by eapply extends_trans.
  - intros w1 Hr Hm b _. apply IH; [done|]. intros r w2 H2. apply HQ. by eapply extends_trans.
Qed.
(** A step that emits a justified event. *)
Lemma ok_emit {A B} e (f : hworld -> hworld * B) (k : B -> hthread A) Q w :
  (forall w1, hw_trace (f w1).1 = (hw_trace w1 ++ [e])%list /\ hw_spend (f w1).1 = hw_spend (tally w1 e)) ->
  (forall w1, extends i w w1 -> justified (hw_trace w1) e) ->
  (forall w1, extends i w w1 -> hok i Q (k (f w1).2) (f w1).1) -> hok i Q (Atom f k) w.
Proof.
  intros Ht Hj Hk w1 Hr Hm. destruct (Ht w1) as [E Es]. split; [by exists [e]|]. split; [|by apply Hk].
  by eapply mediated_snoc; [exact Hm|exact E|exact Es|apply Hj].
Qed.
Lemma always_signal e : idle e -> always quiet (hsignal e).
Proof. intros He. apply always_atomic. intros w. split; [done|]. right. by exists e. Qed.

(** *** The decision *)

Definition denies {A} (m : res (hflow A)) : Prop := forall d, m = Ok (HDone d) -> hd_allow d = false.
Lemma denies_go {A} (a : A) : denies (Ok (HGo a)).
Proof. done. Qed.
Lemma denies_done {A} s l : denies (A:=A) (Ok (HDone (hdeny s l))).
Proof. by intros d [= <-]. Qed.
Lemma denies_raise {A} e : denies (A:=A) (Raise e).
Proof. done. Qed.
Lemma denies_bind {A B} (x : res A) (f : A -> res (hflow B)) : (forall a, denies (f a)) -> denies (rbind x f).
Proof. intros Hf. by destruct x; [apply Hf|]. Qed.
Lemma denies_if {A} (b : bool) (x y : res (hflow A)) : denies x -> denies y -> denies (if b then x else y).
Proof. by destruct b. Qed.
Ltac denies_tac :=
  repeat first
    [ apply denies_go | apply denies_done | apply denies_raise | apply denies_if
    | apply denies_bind; intros ? | progress cbv zeta
    | match goal with |- denies (match ?x with _ => _ end) => destruct x end ].
Lemma denies_program src policy : denies (find_program src policy).
Proof. unfold find_program. denies_tac. Qed.
Lemma denies_authorization program now : denies (check_authorization program now).
Proof. unfold check_authorization, hstop, hpass. denies_tac. Qed.
Lemma denies_budget pid program asset w : denies (check_budget pid program asset w).
Proof. unfold check_budget, hstop, hpass. denies_tac. Qed.
Lemma denies_destination program q : denies (check_destination program q).
Proof. unfold check_destination. denies_tac. Qed.
Lemma denies_answers prefix program all l : denies (check_answers prefix program all l).
Proof. induction l as [|a l IH]; cbn [check_answers]; unfold hpass; denies_tac. exact IH. Qed.
Lemma denies_pin program answers b : denies (pin_of program answers b).
Proof.
  unfold pin_of. destruct answers as [|a l]; [apply denies_done|].
  pose proof (denies_answers (if b then "PIN_REJECTED" else "DNS_ANSWER_REJECTED") program (a :: l) (a :: l)) as Hd.
  intros d. destruct (check_answers _ _ _ _) as [[d'|u]|e]; cbn; try done. intros [= <-]. by apply Hd.
Qed.
Lemma denies_listed program ip answers : denies (check_authorized_ip program ip answers).
Proof. unfold check_authorized_ip, hpass. denies_tac. Qed.
Lemma denies_secret pid policy host q answers : denies (find_secret pid policy host q answers).
Proof. unfold find_secret. denies_tac. Qed.
Lemma answers_allowed prefix program all l u : check_answers prefix program all l = Ok (HGo u) ->
  forall a, a ∈ l -> exists why, ip_is_allowed a program = Ok (true, why).
Proof.
  induction l as [|x l IH]; cbn [check_answers]; intros Hc a Ha; [by apply not_elem_of_nil in Ha|].
  apply res_bind_Ok in Hc as ([ok why] & Hv & Hc). cbn in Hc. destruct ok; [|done].
  apply elem_of_cons in Ha as [->|Ha]; [by exists why|by apply IH].
Qed.
Lemma pin_allowed program answers b ip : pin_of program answers b = Ok (HGo ip) ->
  hd_error answers = Some ip /\ forall a, a ∈ answers -> exists why, ip_is_allowed a program = Ok (true, why).
Proof.
  unfold pin_of. destruct answers as [|x l]; [done|]. destruct (check_answers _ _ _ _) as [[d|u]|e] eqn:Hc; cbn; try done.
  intros [= ->]. split; [done|]. by eapply answers_allowed.
Qed.
Lemma always_resolve host policy : always quiet (resolve host policy).
Proof.
  unfold resolve. apply always_bind; [apply always_of_res|]. intros entry. destruct (is_sequence entry); [|apply always_of_res].
  apply always_bind; [apply always_atomic; intros w; split; [done|by left]|]. intros n.
  apply always_bind; [apply always_atomic; intros w; split; [done|by left]|]. intros _. apply always_of_res.
Qed.
Lemma trace_charge pid asset w : hw_trace (charge pid asset w) = hw_trace w.
Proof. unfold charge, bump. by destruct (String.eqb asset ""). Qed.
(** What is known after [pdp] returned: an allowing decision pins an address, it
    is on record, and [P], what the caller wants to remember, holds of it. *)
Definition allowed_in (P : string -> string -> Prop) (q : hrequest) (r : res hdecision) (w : hworld) : Prop :=
  match r with
  | Ok d => hd_allow d = true -> exists pid ip, hd_pinned d = VStr ip /\ HAllowed q pid ip ∈ hw_trace w /\ P pid ip
  | Raise _ => True
  end.
Lemma refused_in P q d w : hd_allow d = false -> allowed_in P q (Ok d) w.
Proof. intros Hd. cbn. congruence. Qed.
(** One check of [pdp]: it raises, refuses, or goes on. *)
Ltac check m H :=
  destruct m as [[?d|?a]|?e] eqn:H; cbn [of_res pbind];
  [match goal with HQ : forall r w1, extends _ _ w1 -> allowed_in _ _ r w1 -> _ |- _ =>
     apply HQ; [try done; try apply extends_refl|apply refused_in] end| |
   match goal with HQ : forall r w1, extends _ _ w1 -> allowed_in _ _ r w1 -> _ |- _ =>
     apply HQ; [try done; try apply extends_refl|exact I] end].
Lemma ok_answers host policy q Q w :
  (forall r w1, extends i w w1 -> (forall p, hq_pinned q = Some p -> r = Ok [p]) -> Q r w1) ->
  hok i Q (match hq_pinned q with Some p => Ret [p] | None => resolve host policy end) w.
Proof.
  intros HQ. destruct (hq_pinned q) as [p|].
  - apply HQ; [apply extends_refl|]. by intros p' [= ->].
  - apply ok_quiet; [apply always_resolve|]. intros r w1 H1. by apply HQ.
Qed.
(** A budget check that passes stays on record. *)
Lemma check_affords w1 w3 q pid program : mediated w1 -> check_budget pid program (hq_asset q) w1 = Ok (HGo tt) ->
  extends i (hemit (HChecked q pid) w1) w3 -> afforded (hw_trace w3) q pid program.
Proof.
  intros Hm Hb [l3 E3]. exists (hw_trace w1), l3. split; [by rewrite E3; cbn; rewrite <- app_assoc|].
  rewrite <- Hb. apply check_budget_of. symmetry. apply (md_counted _ Hm).
Qed.
Lemma ok_pdp P policy killed now q Q w :
  (forall before pid program host answers ip, killed = false -> afforded before q pid program ->
     approved policy now q ip pid program host answers -> allowable before q pid ip /\ P pid ip) ->
  (forall r w1, extends i w w1 -> allowed_in P q r w1 -> Q r w1) ->
  hok i Q (pdp policy killed now q) w.
Proof.
  intros Hallow HQ. unfold pdp. destruct killed eqn:Hk; [by apply HQ; [apply extends_refl|apply refused_in]|].
  check (find_program (hq_src q) policy) Hfp; [by eapply denies_program|]. destruct a as [pid program].
  check (check_authorization program now) Hau; [by eapply denies_authorization|]. destruct a.
  cbn [atomic_res pbind]. intros w1 Hr1 Hm1. set (w1' := hemit (HChecked q pid) w1).
  assert (quiet w1 w1') as Hq1 by (split; [done|right; by exists (HChecked q pid)]).
  destruct (quiet_mediated _ _ Hq1 Hm1) as [Hm1' Hx1]. split; [exact Hx1|]. split; [exact Hm1'|]. cbn [fst snd].
  assert (extends i w w1') as Hr1' by by eapply extends_trans.
  check (check_budget pid program (hq_asset q) w1) Hbu; [by eapply denies_budget|].
  check (check_destination program q) Hde; [by eapply denies_destination|]. rename a0 into host.
  apply ok_bind, ok_answers.
  intros [answers|e] w2 Hr2 Hans; [|by apply HQ; [by eapply extends_trans|]].
  assert (extends i w w2) as Hx by by eapply extends_trans.
  match goal with |- context [pin_of program answers ?b] => check (pin_of program answers b) Hpi end; [by eapply denies_pin|].
  rename a0 into ip. destruct (pin_allowed _ _ _ _ Hpi) as [Hfirst Hall].
  check (check_authorized_ip program ip answers) Hli; [by eapply denies_listed|]. destruct a0.
  check (find_secret pid policy host q answers) Hse; [by eapply denies_secret|].
  assert (approved policy now q ip pid program host answers) as Hap.
  { split; try done; [|by eexists]. intros p Hq. specialize (Hans p Hq). congruence. }
  assert (forall w3, extends i w2 w3 -> afforded (hw_trace w3) q pid program) as Haf.
  { intros w3 H3. destruct a. eapply check_affords; [exact Hm1|exact Hbu|]. by eapply extends_trans. }
  cbn [atomic pbind]. eapply (ok_emit (HAllowed q pid ip)).
  - intros w3. cbn [fst hemit hw_trace hw_spend]. by rewrite trace_charge.
  - intros w3 Hr3. by eapply Hallow; [done|apply Haf|exact Hap].
  - intros w3 Hr3. cbn [fst snd]. apply HQ.
    + eapply extends_trans; [exact Hx|]. eapply extends_trans; [exact Hr3|]. eexists. cbn. by rewrite trace_charge.
    + intros _. exists pid, ip. split; [done|]. split; [cbn; apply elem_of_app; right; left|].
      by eapply Hallow; [done|apply (Haf w3)|exact Hap].
Qed.

Lemma allowed_later P q r w w1 : allowed_in P q r w -> extends i w w1 -> allowed_in P q r w1.
Proof.
  intros Ha Hx. destruct r as [d|e]; [|done]. intros Hd. destruct (Ha Hd) as (pid & ip & Hpin & Hin & HP).
  exists pid, ip. split_and!; [done| |done]. by eapply extends_in.
Qed.
Lemma always_audit entry : always quiet (audit entry).
Proof. by apply always_signal. Qed.
Lemma ok_of_res {A B} (r : res A) (k : A -> hthread B) Q w :
  (forall e, r = Raise e -> Q (Raise e) w) -> (forall a, r = Ok a -> hok i Q (k a) w) -> hok i Q (pbind (of_res r) k) w.
Proof. destruct r; cbn; auto. Qed.
(** A justified connection. *)
Lemma ok_connect {A} v port (k : unit -> hthread A) Q w :
  (forall w1, extends i w w1 -> connectable (hw_trace w1) v port) ->
  (forall w1, extends i w w1 -> hok i Q (k tt) (hemit (HConnect v port) w1)) ->
  hok i Q (pbind (hsignal (HConnect v port)) k) w.
Proof. intros Hj Hk. cbn [hsignal atomic pbind]. by eapply (ok_emit (HConnect v port)). Qed.
End Thread.
End Mediation.
