(* ===== verification/HarnessProps.v ===== *)
(** * Properties of the phase 2a gateway

    No connection without a decision in any schedule, and its address policy
    against the production one. *)

From S2P Require Import Prelude.
From S2P Require Import PyStr.
From S2P Require Import Json.
From S2P Require Import Hash.
From S2P Require Import AuditProps.
From S2P Require Import PyDyn.
From S2P Require Import IpAddr.
From S2P Require Import IpFacts.
From S2P Require Import Addressing.
From S2P Require Import AddressProps.
From S2P Require Import Pdp.
From S2P Require Import Conc.
From S2P Require Import Scenario.
From S2P Require Import Harness.
From S2P Require Import HarnessFacts.
Open Scope Z_scope.

(** ** Every connection is decided *)

Section Mediation.
Context `{Digest} `{Idna}.
(** The requests that are ever handled, with their verbs. *)
Variable requests : list (string * hclient).

(** What a request asks the decision point: the authority of a CONNECT, or the
    host and port of an absolute http URL that its Host header does not contradict. *)
Definition asks (m : string) (c : hclient) (q : hrequest) : Prop :=
  if String.eqb m "CONNECT" then exists host p port,
    rpartition ":" (hc_url c) = (host, true, p) /\ str_isdigit p = true /\ Gateway.py_int p = Ok port /\
    q = request_of c "CONNECT" host port
  else exists u port,
    urlsplit (hc_url c) = Ok u /\ u_scheme u = "http" /\ u_netloc u <> "" /\ port_or_80 u = Ok port /\
    split_brain (canonical_host (partition ":" (hheader c "Host")).1.1) (canonical_host (hostname u)) = false /\
    q = request_of c m (hostname u) port.
Definition decided (before : list hevent) (q : hrequest) (pid ip : string) : Prop :=
  exists m c policy program host answers, (m, c) ∈ requests /\ asks m c q /\ hc_policy c = Ok policy /\ hc_killed c = false /\
    afforded before q pid program /\ approved policy (hc_now c) q ip pid program host answers.
Definition decided_before (before : list hevent) (v : val) (port : Z) : Prop :=
  exists q pid ip, v = VStr ip /\ hq_port q = port /\ HAllowed q pid ip ∈ before.
Abbreviation hok := (ok extends extends (mediated decided decided_before)).
Definition anyhow : res unit -> hworld -> Prop := fun _ _ => True.

Lemma always_deny c d url m : always quiet (hdeny_reply c d url m).
Proof.
  unfold hdeny_reply. apply always_bind; [by apply always_signal|]. intros _.
  apply always_bind; [apply always_of_res|]. intros _. apply always_audit.
Qed.
Abbreviation on_record := (allowed_in (fun _ _ => True)).
Lemma pdp_decides i m c policy q Q w : (m, c) ∈ requests -> hc_policy c = Ok policy -> asks m c q ->
  (forall r w1, extends i w w1 -> on_record q r w1 -> Q r w1) ->
  hok i Q (pdp policy (hc_killed c) (hc_now c) q) w.
Proof.
  intros Hc Hp Hq HQ. apply (ok_pdp _ _ _ (fun _ _ => True)); [|done]. intros before pid program host answers ip Hk Hb Ha.
  split; [|done]. by exists m, c, policy, program, host, answers.
Qed.
Lemma connect_decided {A} i d q port (k : unit -> hthread A) Q w :
  hd_allow d = true -> on_record q (Ok d) w -> hq_port q = port ->
  (forall w1, extends i w w1 -> hok i Q (k tt) (hemit (HConnect (hd_pinned d) port) w1)) ->
  hok i Q (pbind (hsignal (HConnect (hd_pinned d) port)) k) w.
Proof.
  intros Hd Ha Hp Hk. apply ok_connect; [|done]. intros w1 Hr.
  destruct (allowed_later i _ _ _ _ _ Ha Hr Hd) as (pid & ip & Hpin & Hin & _). by exists q, pid, ip.
Qed.
Lemma forward_mediated i c d q m u host port w : hd_allow d = true -> on_record q (Ok d) w -> hq_port q = port ->
  hok i anyhow (forward c d m u host port) w.
Proof.
  intros Hd Ha Hp. unfold forward. apply ok_of_res; [done|]. intros n _. apply ok_bind.
  apply ok_quiet; [destruct (n =? 0); [done|apply always_of_res]|]. intros [payload|e] w1 H1; [|done]. cbv zeta.
  apply ok_bind, ok_catch, ok_bind. unfold exchange. eapply connect_decided; [done|by eapply allowed_later|done|].
  intros w2 H2. apply ok_quiet.
  { apply always_bind; [apply always_of_res|]. intros _. apply always_bind; [by apply always_signal|]. intros _.
    apply always_bind; [apply always_of_res|]. intros _. apply always_of_res. }
  assert (forall r w3, hok i anyhow
     (match r with
      | Ok resp => audit (allow_record c d (hc_url c) m host
          (raw_request (start_line m u) host (hd_secret d) payload) resp);;; hsignal (HForward resp)
      | Raise e => refuse c ("UPSTREAM_ERROR:" ++ exn_cls e) (hc_url c) m
      end) w3) as Hend.
  { intros r w3. apply ok_quiet; [|done]. destruct r; [|apply always_deny].
    apply always_bind; [apply always_audit|]. intros _. by apply always_signal. }
  intros [r|e] w3 H3; [exact (Hend (Ok r) w3)|exact (Hend (Raise e) w3)].
Qed.
Lemma proxy_mediated i c m w : (m, c) ∈ requests -> String.eqb m "CONNECT" = false -> hok i anyhow (proxy m c) w.
Proof.
  intros Hc Hverb. unfold proxy. apply ok_of_res; [done|]. intros policy Hp. apply ok_of_res; [done|]. intros u Hu.
  destruct (_ || _) eqn:Habs; [by apply ok_quiet; [apply always_deny|]|]. apply orb_false_iff in Habs as [_ Hloc%String.eqb_neq].
  destruct (String.eqb (u_scheme u) "http") eqn:Hhttp; cbn [negb]; [|by apply ok_quiet; [apply always_deny|]]. apply String.eqb_eq in Hhttp.
  apply ok_of_res; [done|]. intros port Hport. cbv zeta.
  destruct (split_brain _ _) eqn:Hsplit; [by apply ok_quiet; [apply always_deny|]|].
  assert (asks m c (request_of c m (hostname u) port)) as Hq by (unfold asks; rewrite Hverb; by exists u, port).
  apply ok_bind. eapply pdp_decides; [done..|]. intros [d|e] w1 H1 Ha; [|done].
  destruct (hd_allow d) eqn:Hd; cbn [negb]; [by eapply forward_mediated|]. by apply ok_quiet; [apply always_deny|].
Qed.
Lemma connect_mediated i c w : ("CONNECT", c) ∈ requests -> hok i anyhow (do_CONNECT c) w.
Proof.
  intros Hc. unfold do_CONNECT. apply ok_of_res; [done|]. intros policy Hp. cbv zeta.
  destruct (rpartition ":" (hc_url c)) as [[host sep] p] eqn:Htarget.
  destruct (_ || _) eqn:Hwell; [by apply ok_quiet; [apply always_deny|]|]. apply orb_false_iff in Hwell as [->%negb_false_iff Hdig%negb_false_iff].
  apply ok_of_res; [done|]. intros port Hport.
  assert (asks "CONNECT" c (request_of c "CONNECT" host port)) as Hq by by exists host, p, port.
  apply ok_bind. eapply pdp_decides; [done..|]. intros [d|e] w1 H1 Ha; [|done].
  destruct (hd_allow d) eqn:Hd; cbn [negb]; [|by apply ok_quiet; [apply always_deny|]].
  apply ok_bind, ok_quiet; [apply always_audit|]. intros [[]|e] w2 H2; [|done].
  eapply (connect_decided i d (request_of c "CONNECT" host port)); [done|by eapply allowed_later|done|].
  intros w3 H3. apply ok_quiet; [|done]. destruct (hc_connect c); [|apply always_deny].
  apply always_bind; [by apply always_signal|]. intros _. apply always_bind; [apply always_of_res|]. intros _. by apply always_signal.
Qed.
Lemma dispatch_mediated i c m w : (m, c) ∈ requests -> hok i anyhow (dispatch m c) w.
Proof.
  intros Hc. unfold dispatch. destruct (String.eqb m "CONNECT") eqn:Hm; [|by apply proxy_mediated].
  apply String.eqb_eq in Hm as ->. by apply connect_mediated.
Qed.
End Mediation.

(** One thread per request, [l] their verbs. *)
Definition hthreads `{Digest} `{Idna} (l : list (string * hclient)) : list (hthread unit) := map (fun mc => dispatch mc.1 mc.2) l.


(** ** The address policy against the production one *)

Definition embeds_v4 (a : ipaddr) : bool := match (unwrap_embedded_v4 a).2 with Some _ => true | None => false end.
Lemma forbids_v4 n : 0 <= n < 2 ^ 32 ->
  is_loopback (IPv4 n) || is_link_local (IPv4 n) || std_private (IPv4 n) ||
  (is_reserved (IPv4 n) || is_multicast (IPv4 n) || is_unspecified (IPv4 n)) = negb (public (IPv4 n)).
Proof.
  intros Hn. assert (Ha : addr_ok (IPv4 n)) by done.
  unfold std_private, is_loopback, is_link_local, is_unspecified, is_multicast, is_reserved, is_private,
    in_any, private4, private4_exceptions. cbn [existsb].
  nets. intervals. cbn [is_v6 n4 Bool.eqb andb ip_int].
  unfold public, in_ranges, blocked4. cbn [existsb fst snd]. unfold between, d4. lia.
Qed.
(** The site-local block, which the harness does not test. *)
Definition site_local6 (n : Z) : bool := between (lo6 [0xfec0]) (hi6 [0xfeff]) n.
Ltac lohi :=
  repeat match goal with
  | |- context [lo6 ?l] => let x := eval vm_compute in (lo6 l) in change (lo6 l) with x
  | |- context [hi6 ?l] => let x := eval vm_compute in (hi6 l) in change (hi6 l) with x
  end.
Lemma div_range n k q : 0 < k -> n / k = q -> q * k <= n < q * k + k.
Proof. intros Hk <-. pose proof (Z.div_mod n k) as E. pose proof (Z.mod_pos_bound n k). lia. Qed.
Lemma mapped_reserved n sc : 0 <= n < 2 ^ 128 -> ipv4_mapped n <> None -> is_reserved (IPv6 n sc) = true.
Proof.
  intros Hn. assert (Ha : addr_ok (IPv6 n sc)) by done. unfold ipv4_mapped. rewrite Z.shiftr_div_pow2 by lia.
  destruct (Z.eqb_spec (n / 2 ^ 32) 0xffff) as [E|]; [|done]. intros _. apply div_range in E; [|lia].
  unfold is_reserved, in_any, reserved6. cbn [existsb]. nets. intervals. cbn [is_v6 n6 Bool.eqb andb ip_int].
  unfold between. lia.
Qed.
Lemma forbids_v6 n sc : 0 <= n < 2 ^ 128 ->
  is_loopback (IPv6 n sc) || is_link_local (IPv6 n sc) || std_private (IPv6 n sc) ||
  (is_reserved (IPv6 n sc) || is_multicast (IPv6 n sc) || is_unspecified (IPv6 n sc)) =
  negb (public (IPv6 n sc) || site_local6 n).
Proof.
  intros Hn. assert (Ha : addr_ok (IPv6 n sc)) by done.
  assert (is_loopback (IPv6 n sc) || is_link_local (IPv6 n sc) || std_private (IPv6 n sc) ||
    (is_reserved (IPv6 n sc) || is_multicast (IPv6 n sc) || is_unspecified (IPv6 n sc)) =
    is_loopback (IPv6 n sc) || is_link_local (IPv6 n sc) || is_private (IPv6 n sc) ||
    (is_reserved (IPv6 n sc) || is_multicast (IPv6 n sc) || is_unspecified (IPv6 n sc))) as ->.
  { pose proof (mapped_reserved n sc Hn) as Hm. unfold std_private. destruct (ipv4_mapped n); [|done].
    rewrite Hm by done. by rewrite !orb_true_r. }
  unfold is_loopback, is_link_local, is_unspecified, is_multicast, is_reserved, is_private, in_any, private6, private6_exceptions, reserved6.
  cbn [existsb]. nets. intervals. cbn [is_v6 n6 Bool.eqb andb ip_int].
  unfold public, site_local6, in_ranges, blocked6. cbn [existsb fst snd]. unfold between. lohi. lia.
Qed.
(** No public or site-local IPv6 address embeds an IPv4 address. *)
Lemma embedded_not_public n sc : 0 <= n < 2 ^ 128 -> embeds_v4 (IPv6 n sc) = true ->
  public (IPv6 n sc) || site_local6 n = false.
Proof.
  intros Hn. assert (Ha : addr_ok (IPv6 n sc)) by done. unfold embeds_v4. cbn [unwrap_embedded_v4].
  unfold ipv4_mapped, sixtofour, teredo_client. rewrite !Z.shiftr_div_pow2 by lia.
  nets. intervals. cbn [is_v6 n6 Bool.eqb andb ip_int].
  unfold public, site_local6, in_ranges, blocked6. cbn [existsb fst snd]. unfold between. lohi.
  destruct (Z.eqb_spec (n / 2 ^ 32) 0xffff) as [E|_]; [apply div_range in E; [intros _; lia|lia]|].
  destruct (Z.eqb_spec (n / 2 ^ 112) 0x2002) as [E|_]; [apply div_range in E; [intros _; lia|lia]|].
  destruct (Z.eqb_spec (n / 2 ^ 96) 0x20010000) as [E|_]; [apply div_range in E; [intros _; lia|lia]|].
  destruct (_ && _) eqn:E at 1; [intros _; lia|done].
Qed.
Definition site_local_text (a : ipaddr) : bool := match a with IPv6 n _ => site_local6 n | IPv4 _ => false end.

(** C32: the address policy of the harness against that of the gateway. With no
    exemptions the harness accepts a text exactly when it parses and either the
    gateway accepts it and no IPv4 address is embedded in it, or it is a
    site-local IPv6 address, which only the harness accepts. *)
Theorem harness_policy_agrees s program : v_get_or "private_ip_exemptions" (VList []) program = Ok (VList []) ->
  exists why, ip_is_allowed s program =
    Ok (match ip_address s with
        | None => false
        | Some raw => v_ok (classify s []) && negb (embeds_v4 raw) || site_local_text raw
        end, why).
Proof.
  intros Hex. rewrite classify_exact. unfold ip_is_allowed. destruct (ip_address s) as [raw|] eqn:E; [|by eexists].
  rewrite Hex. cbn [rbind v_in existsb]. pose proof (proj1 (ip_address_ok _ _ E)) as Hok.
  assert (is_loopback raw || is_link_local raw || std_private raw || (is_reserved raw || is_multicast raw || is_unspecified raw) =
    negb ((public (unwrap_embedded_v4 raw).1 || negb (hard (unwrap_embedded_v4 raw).1) && (in_set s [] || in_set (show_ip (unwrap_embedded_v4 raw).1) []))
      && negb (embeds_v4 raw) || site_local_text raw)) as Hf.
  { cbn [in_set existsb orb]. rewrite andb_false_r, orb_false_r. destruct raw as [n|n sc].
    - rewrite forbids_v4 by apply Hok. cbn [unwrap_embedded_v4 fst embeds_v4 snd negb site_local_text].
      by rewrite andb_true_r, orb_false_r.
    - rewrite forbids_v6 by apply Hok. pose proof (embedded_not_public n sc Hok) as He. cbn [site_local_text].
      destruct (embeds_v4 (IPv6 n sc)) eqn:Ew.
      + rewrite He by done. apply orb_false_iff in He as [_ ->]; [|done]. by rewrite andb_false_r.
      + assert ((unwrap_embedded_v4 (IPv6 n sc)).1 = IPv6 n sc) as ->; [|cbn [negb]; by rewrite andb_true_r].
        revert Ew. unfold embeds_v4. cbn [unwrap_embedded_v4]. by repeat case_match. }
  destruct (is_loopback raw), (is_link_local raw), (std_private raw), (_ || _ || is_unspecified raw); cbn [orb] in Hf;
    apply (f_equal negb) in Hf; rewrite negb_involutive in Hf; cbn [negb] in Hf; rewrite <- Hf; by eexists.
Qed.

(** ** Two requests at the phase 2a gateway, evaluated

    The concrete requests of the witnesses, and the schedule in which two
    requests pass a budget of one. *)

Definition pin_h : string := "93.184.216.34".
Definition program_h : val := VDict
  [ ("authorization", VDict [ ("program_id", VStr "p"); ("verified_by", VStr "v"); ("verified_at", VInt 1);
                              ("expires_at", VInt 1000); ("status", VStr "active") ]);
    ("max_requests", VInt 1); ("scope_allow", VList [VStr "*.example.com"]); ("authorized_ips", VList [VStr pin_h]) ].
Definition policy_h : val := VDict
  [ ("networks", VDict [("10.0.0.0/8", VStr "p")]); ("programs", VDict [("p", program_h)]);
    ("dns_zone", VDict [("www.example.com", VList [VStr pin_h])]) ].
Definition client_h : hclient := {|
  hc_ip := "10.1.2.3"; hc_url := "http://www.example.com/a"; hc_header := fun _ => None;
  hc_policy := Ok policy_h; hc_killed := false; hc_now := VInt 100; hc_body := fun _ => Ok "";
  hc_reply := Ok tt; hc_connect := Ok tt; hc_send := Ok tt; hc_chunks := [Ok "HTTP/1.1 200 OK"; Ok ""] |}.
Definition two_gets : list (string * hclient) := [("GET", client_h); ("GET", client_h)].

(** One request, then the other: the second is refused. *)
Definition first_h : hworld := (exec (dispatch "GET" client_h) hworld0).1.
Definition second_h : hworld := (exec (dispatch "GET" client_h) first_h).1.
Example one_after_the_other :
  spend "p" first_h = 1 /\ spend "p" second_h = 1 /\
  existsb (fun e => match e with HReply 403 "BUDGET_EXHAUSTED_PROGRAM" => true | _ => false end) (hw_trace second_h) = true.
Proof. split_and!; vm_compute; reflexivity. Qed.

(** The budget is checked in one critical section and charged in another: two
    requests that both check before either charges both pass, and the program
    has spent two of its one request. *)
Definition raced_h : hworld :=
  let '(p, w) := exec_n 1 (dispatch "GET" client_h) hworld0 in
  (exec p (exec (dispatch "GET" client_h) w).1).1.
Lemma budget_race : exists ts,
  reach (hthreads two_gets, hworld0) (ts, raced_h) /\ py_int (VInt 1) = Ok 1 /\ spend "p" raced_h = 2 /\
  length (List.filter (fun e => match e with HConnect _ _ => true | _ => false end) (hw_trace raced_h)) = 2%nat.
Proof.
  assert (py_int (VInt 1) = Ok 1 /\ spend "p" raced_h = 2 /\
    length (List.filter (fun e => match e with HConnect _ _ => true | _ => false end) (hw_trace raced_h)) = 2%nat) as F
    by (split_and!; vm_compute; reflexivity).
  pose proof (exec_n_reach 1 (dispatch "GET" client_h) (hthreads two_gets) 0 hworld0 eq_refl) as R1.
  unfold raced_h in *. destruct (exec_n 1 _ _) as [p w]. cbn [fst snd] in R1. eexists. split; [|exact F]. etrans; [exact R1|].
  etrans; [exact (exec_reach (dispatch "GET" client_h) [p; dispatch "GET" client_h] 1%nat w eq_refl)|].
  exact (exec_reach p [p; of_res (exec (dispatch "GET" client_h) w).2] 0%nat _ eq_refl).
Qed.

(** ** Witnesses *)

Lemma harness_policy_agrees_witness :
  ip_is_allowed "fec0::1" (VDict []) = Ok (true, "public_ok") /\ v_ok (classify "fec0::1" []) = false /\
  exists why, ip_is_allowed "fec0::1" (VDict []) =
    Ok (match ip_address "fec0::1" with
        | None => false
        | Some raw => v_ok (classify "fec0::1" []) && negb (embeds_v4 raw) || site_local_text raw
        end, why).
Proof. split; [reflexivity|]. split; [vm_compute; reflexivity|]. exact (harness_policy_agrees "fec0::1" (VDict []) eq_refl). Defined.
