(* ===== verification/TlsHarness.v ===== *)
(** * The TLS-intercepting gateway of phase 2b ([src/phase2b/policy_gw_tls.py])

    It runs in the process of the phase 2a gateway, whose decision point,
    policy and audit it imports: its world is that world and the sockets it
    tracks for its kill watcher. *)

From S2P Require Import Prelude.
From S2P Require Import PyStr.
From S2P Require Import Json.
From S2P Require Import PyDyn.
From S2P Require Import Hash.
From S2P Require Import AuditLog.
From S2P Require Import IpAddr.
From S2P Require Import Lifecycle.
From S2P Require Import Addressing.
From S2P Require Import Conc.
From S2P Require Import Gateway.
From S2P Require Import Harness.
Open Scope Z_scope.

(** ** State *)

(** [_live], and the sockets closed so far. *)
Record tworld := TWorld { tw_h : hworld; tw_live : gset nat; tw_closed : gset nat }.
Abbreviation tthread := (@prog tworld).
Definition set_tw_h (h : hworld) (w : tworld) : tworld := TWorld h (tw_live w) (tw_closed w).
(** A thread of the phase 2a world, run in this one. *)
Fixpoint lift {A} (p : hthread A) : tthread A :=
  match p with
  | Ret a => Ret a
  | Throw e => Throw e
  | Atom f k => Atom (fun w => (set_tw_h (f (tw_h w)).1 w, (f (tw_h w)).2)) (fun b => lift (k b))
  | Wait c k => Wait (fun w => c (tw_h w)) (fun b => lift (k b))
  end.
Definition tsignal (e : hevent) : tthread unit := lift (hsignal e).
Definition taudit (entry : dict) : tthread unit := lift (audit entry).
Definition track (s : nat) : tthread unit := atomic (fun w => (TWorld (tw_h w) ({[s]} ∪ tw_live w) (tw_closed w), tt)).
Definition untrack (s : nat) : tthread unit := atomic (fun w => (TWorld (tw_h w) (tw_live w ∖ {[s]}) (tw_closed w), tt)).
(** Shutting a socket down and closing it; failures are swallowed. *)
Definition close (s : nat) : tthread unit := atomic (fun w => (TWorld (tw_h w) (tw_live w) ({[s]} ∪ tw_closed w), tt)).

(** ** The kill watcher *)

Fixpoint close_all (l : list nat) : tthread unit := match l with [] => Ret tt | s :: l' => close s;;; close_all l' end.
Definition kill_record (n : nat) : dict :=
  [ ("decision", VStr "KILL_SWITCH"); ("reason", VStr "STOP_ALL_TORE_DOWN_LIVE_CONNECTIONS");
    ("connections_terminated", VInt (Z.of_nat n)) ].
Definition sweep : tthread unit :=
  victims <-- atomic (fun w => (w, elements (tw_live w)));;
  close_all victims;;;
  taudit (kill_record (length victims)).
(** What the watcher finds at each of its turns: is the kill file there? *)
Fixpoint kill_watcher (armed : bool) (turns : list bool) : tthread unit :=
  match turns with
  | [] => Ret tt
  | present :: rest =>
      if present && negb armed then sweep;;; kill_watcher true rest
      else kill_watcher (present && armed) rest
  end.

(** ** Reading the request inside the tunnel *)

(** The buffer once it holds the head, and what is still to be received. *)
Fixpoint fill_from (buf : string) (chunks : list (res string)) : res (option (string * list (res string))) :=
  if is_in_buf buf then Ok (Some (buf, chunks)) else
  match chunks with
  | [] => Ok None
  | Raise e :: _ => Raise e
  | Ok "" :: _ => Ok None
  | Ok chunk :: rest =>
      let buf' := buf ++ chunk in
      if 262144 <? Z.of_nat (String.length buf') then Ok None else fill_from buf' rest
  end.
Fixpoint read_body (need : Z) (body : string) (chunks : list (res string)) : res string :=
  if need <=? Z.of_nat (String.length body) then Ok body else
  match chunks with
  | [] => Ok body
  | Raise e :: _ => Raise e
  | Ok "" :: _ => Ok body
  | Ok chunk :: rest => read_body need (body ++ chunk) rest
  end.
(** Method, path, headers and body. A Content-Length that is no integer raises. *)
Definition read_http_request (chunks : list (res string)) : res (option head) :=
  filled <- fill_from "" chunks;;
  match filled with
  | None => Ok None
  | Some (buf, rest) =>
      match parse_head buf with
      | None => Ok None
      | Some hd =>
          let h := default "" (h_headers hd !! "content-length") in
          need <- (if String.eqb h "" then Ok 0 else Harness.py_int (VStr h));;
          body <- read_body need (h_rest hd) rest;;
          Ok (Some (Head (h_method hd) (h_path hd) (h_headers hd) body))
      end
  end.

(** ** The handlers *)

(** A request of phase 2a whose URL is the CONNECT target and whose connection
    is the one upstream, with what the tunnel adds: which files exist, the server-side handshake, the decrypted stream, the surroundings of
    the second decision, the upstream handshake, and the four sockets. *)
Record tclient := TClient {
  tc_http : hclient; tc_exists : string -> bool; tc_load : res unit; tc_handshake : res unit; tc_sni : option string;
  tc_stream : list (res string); tc_killed : bool; tc_now : val; tc_context : res unit; tc_verify : res unit;
  tc_raw : nat; tc_tls : nat; tc_plain : nat; tc_up : nat }.

Definition CERT_DIR : string := "/certs".
(** The certificate and the key minted for a host, if both exist. *)
Definition leaf_paths (c : tclient) (host : string) : option (string * string) :=
  let crt := CERT_DIR ++ "/leaf/" ++ host ++ ".crt" in
  let key := CERT_DIR ++ "/leaf/" ++ host ++ ".key" in
  if tc_exists c crt && tc_exists c key then Some (crt, key) else None.

Section Handlers.
Context `{Digest} `{Idna}.

Definition blocked_record (reason url method : string) : dict :=
  [ ("decision", VStr "BLOCKED_BY_POLICY"); ("reason", VStr reason); ("url", VStr url); ("method", VStr method) ].
Definition tdeny_plain (c : tclient) (reason url method : string) : tthread unit :=
  tsignal (HReply 403 reason);;;
  of_res (hc_reply (tc_http c));;;
  taudit (blocked_record reason url method).
(** Failures of the reply are swallowed. *)
Definition deny_over_tls (reason url method : string) : tthread unit :=
  tsignal (HReply 403 reason);;;
  taudit (blocked_record reason url method ++ [("tls", VBool true)])%list.
Definition malformed_record (url : string) : dict :=
  [ ("decision", VStr "BLOCKED_BY_POLICY"); ("reason", VStr "MALFORMED_HTTP_IN_TUNNEL"); ("url", VStr url); ("method", VStr "?") ].
Definition cert_invalid_record (d : hdecision) (url method : string) (e : exn) : dict :=
  [ ("decision", VStr "BLOCKED_BY_POLICY"); ("reason", VStr "UPSTREAM_CERT_INVALID"); ("detail", VStr (take 160 (exn_msg e)));
    ("url", VStr url); ("method", VStr method); ("pinned_ip", hd_pinned d) ].
Definition lost_record (e : exn) (url method : string) : dict :=
  [ ("decision", VStr "CONNECTION_TERMINATED"); ("reason", VStr (exn_cls e)); ("url", VStr url); ("method", VStr method) ].
Definition intercepted_record (c : tclient) (d : hdecision) (url method canon req resp : string) : dict :=
  [ ("decision", VStr "ALLOW"); ("reason", VStr "ALLOW"); ("url", VStr url); ("method", VStr method);
    ("src", VStr (hc_ip (tc_http c))); ("tls_intercepted", VBool true); ("canonical_host", VStr canon);
    ("sni", opt_val VStr (tc_sni c)); ("resolved", VList (map VStr (hd_resolved d))); ("pinned_ip", hd_pinned d);
    ("upstream_status", VInt (status_of resp)); ("redirect_followed", VBool false);
    ("credential_injected", VBool (truthy (hd_secret d)));
    ("request_hash", VStr (sha256 req)); ("response_hash", VStr (sha256 resp)) ].
(** The connection to the pin and its handshake; [Some] exception if one fails. *)
Definition connect_up (c : tclient) (d : hdecision) (port : Z) : tthread (option exn) :=
  pcatch
    (tsignal (HConnect (hd_pinned d) port);;;
     of_res (hc_connect (tc_http c));;;
     track (tc_plain c);;;
     of_res (tc_verify c);;;
     track (tc_up c);;; Ret None)
    (fun e => Ret (Some e)).
(** The request sent and the response read; both sockets are given up at the end. *)
Definition exchange_up (c : tclient) (req url method : string) : tthread (option string) :=
  pfinally
    (pcatch
       (tsignal (HSend req);;;
        of_res (hc_send (tc_http c));;;
        resp <-- of_res (read_all (hc_chunks (tc_http c)));; Ret (Some resp))
       (fun e => taudit (lost_record e url method);;; Ret None))
    (untrack (tc_up c);;; close (tc_up c);;; untrack (tc_plain c);;; close (tc_plain c)).
Definition sni_mismatch (sni : option string) (canon : string) : option string :=
  match sni with
  | Some s => if bool_decide (canonical_host s = Some canon) then None else Some ("SNI_MISMATCH:" ++ s ++ "!=" ++ canon)
  | None => None
  end.
Definition pin_text (d : hdecision) : option string := match hd_pinned d with VStr s => Some s | _ => None end.
Definition inner_request (c : tclient) (d : hdecision) (method canon : string) (port : Z) : hrequest :=
  HRequest (hc_ip (tc_http c)) canon port method (hheader (tc_http c) "X-Strix-Asset") (hheader (tc_http c) "X-Strix-Cred") (pin_text d).
(** After the second decision. *)
Definition forward_up (c : tclient) (d : hdecision) (canon : string) (port : Z) (url : string) (hd : head) : tthread unit :=
  of_res (tc_context c);;;
  failed <-- connect_up c d port;;
  match failed with
  | Some e =>
      if String.eqb (exn_cls e) "SSLCertVerificationError" then
        taudit (cert_invalid_record d url (h_method hd) e);;; deny_over_tls "UPSTREAM_CERT_INVALID" url (h_method hd)
      else deny_over_tls ("UPSTREAM_ERROR:" ++ exn_cls e) url (h_method hd)
  | None =>
      let req := Harness.raw_request (h_method hd ++ " " ++ h_path hd ++ " HTTP/1.1") canon (hd_secret d) (h_rest hd) in
      got <-- exchange_up c req url (h_method hd);;
      match got with
      | None => Ret tt
      | Some resp =>
          taudit (intercepted_record c d url (h_method hd) canon req resp);;;
          tsignal (HForward resp)
      end
  end.
Definition intercepted (c : tclient) (canon : string) (port : Z) (d : hdecision) (policy : val) : tthread unit :=
  let label := "https://" ++ canon ++ ":" ++ show_Z port in
  match sni_mismatch (tc_sni c) canon with
  | Some reason => deny_over_tls reason label "CONNECT"
  | None =>
      req <-- of_res (read_http_request (tc_stream c));;
      match req with
      | None => taudit (malformed_record label)
      | Some hd =>
          let url := label ++ h_path hd in
          let host := canonical_host (partition ":" (default "" (h_headers hd !! "host"))).1.1 in
          if negb (bool_decide (host = Some canon))
          then deny_over_tls ("HOST_HEADER_MISMATCH:" ++ host_text host ++ "!=" ++ canon) url (h_method hd) else
          d2 <-- lift (pdp policy (tc_killed c) (tc_now c) (inner_request c d (h_method hd) canon port));;
          if negb (hd_allow d2) then deny_over_tls (hd_reason d2) url (h_method hd)
          else forward_up c d2 canon port url hd
      end
  end.
Definition hello_malformed (url : string) (e : exn) : dict :=
  [ ("decision", VStr "BLOCKED_BY_POLICY"); ("reason", VStr "MALFORMED_TLS_CLIENT_HELLO"); ("detail", VStr (exn_cls e));
    ("url", VStr url); ("method", VStr "CONNECT") ].
(** The tunnel, once the CONNECT is allowed and the host has a leaf certificate. *)
Definition tunnel_tls (c : tclient) (canon : string) (port : Z) (d : hdecision) (policy : val) (url : string) : tthread unit :=
  tsignal (HReply 200 "Connection Established");;;
  of_res (hc_reply (tc_http c));;;
  of_res (tc_load c);;;
  track (tc_raw c);;;
  match tc_handshake c with
  | Raise e => if os_error e then untrack (tc_raw c);;; taudit (hello_malformed url e) else Throw e
  | Ok _ =>
      track (tc_tls c);;;
      pfinally (intercepted c canon port d policy)
        (untrack (tc_tls c);;; untrack (tc_raw c);;; close (tc_tls c))
  end.
Definition tls_CONNECT (c : tclient) : tthread unit :=
  policy <-- of_res (hc_policy (tc_http c));;
  let url := "CONNECT " ++ hc_url (tc_http c) in
  let '(host, sep, p) := rpartition ":" (hc_url (tc_http c)) in
  if negb sep || negb (str_isdigit p) then tdeny_plain c "MALFORMED_CONNECT_TARGET" url "CONNECT" else
  port <-- of_res (Gateway.py_int p);;
  d <-- lift (pdp policy (hc_killed (tc_http c)) (hc_now (tc_http c)) (request_of (tc_http c) "CONNECT" host port));;
  if negb (hd_allow d) then tdeny_plain c (hd_reason d) url "CONNECT" else
  let canon := host_text (canonical_host host) in
  match leaf_paths c canon with
  | None => tdeny_plain c "NO_INTERCEPTION_CERT" url "CONNECT"
  | Some _ => tunnel_tls c canon port d policy url
  end.
(** [do_GET] and every other verb. *)
Definition tls_dispatch (method : string) (c : tclient) : tthread unit :=
  if String.eqb method "CONNECT" then tls_CONNECT c
  else if String.eqb method "GET" then tdeny_plain c "PLAINTEXT_HTTP_DISABLED_IN_PHASE2B" (hc_url (tc_http c)) "GET"
  else tdeny_plain c "UNSUPPORTED_PROTOCOL_OR_METHOD" (hc_url (tc_http c)) method.
End Handlers.
