(* ===== verification/TlsProps.v ===== *)
(** * Properties of the phase 2b gateway

    Two decisions, one resolution and one address behind every upstream
    connection, in any schedule of tunnels and kill watchers. *)

From S2P Require Import Prelude.
From S2P Require Import PyStr.
From S2P Require Import Json.
From S2P Require Import Hash.
From S2P Require Import AuditProps.
From S2P Require Import PyDyn.
From S2P Require Import IpAddr.
From S2P Require Import Addressing.
From S2P Require Import Conc.
From S2P Require Import Gateway.
From S2P Require Import Scenario.
From S2P Require Import Harness.
From S2P Require Import HarnessFacts.
From S2P Require Import HarnessProps.
From S2P Require Import TlsHarness.
Open Scope Z_scope.

Section Mediation.
Context `{Digest} `{Idna}.
Variable clients : list tclient.

(** The decision on the CONNECT, which resolves. *)
Record outer (c : tclient) (policy : val) (q : hrequest) (ip : string) : Prop := {
  ou_alive : hc_killed (tc_http c) = false;
  ou_src : hq_src q = hc_ip (tc_http c);
  ou_method : hq_method q = "CONNECT";
  ou_fresh : hq_pinned q = None;
  ou_approved : exists pid program host answers, approved policy (hc_now (tc_http c)) q ip pid program host answers }.
(** The decision on the request inside, which does not. *)
Record inner (c : tclient) (policy : val) (q : hrequest) (ip : string) : Prop := {
  in_alive : tc_killed c = false;
  in_src : hq_src q = hc_ip (tc_http c);
  in_pinned : hq_pinned q = Some ip;
  in_approved : exists pid program host, approved policy (tc_now c) q ip pid program host [ip] }.
(** One tunnel: the same authority throughout, and the request read from it. *)
Record one_tunnel (c : tclient) (q1 q2 : hrequest) (port : Z) (hd : head) : Prop := {
  ot_port1 : hq_port q1 = port;
  ot_port2 : hq_port q2 = port;
  ot_host : canonical_host (hq_host q1) = Some (hq_host q2);
  ot_leaf : leaf_paths c (hq_host q2) <> None;
  ot_sni : forall s, tc_sni c = Some s -> canonical_host s = Some (hq_host q2);
  ot_read : read_http_request (tc_stream c) = Ok (Some hd);
  ot_header : canonical_host (partition ":" (default "" (h_headers hd !! "host"))).1.1 = Some (hq_host q2);
  ot_method : hq_method q2 = h_method hd }.
Definition served (c : tclient) (policy : val) : Prop := c ∈ clients /\ hc_policy (tc_http c) = Ok policy.
Definition tls_decided (_ : list hevent) (q : hrequest) (_ ip : string) : Prop :=
  exists c policy, served c policy /\ (outer c policy q ip \/ inner c policy q ip).
Definition tls_connected (before : list hevent) (v : val) (port : Z) : Prop :=
  exists c policy q1 q2 pid1 pid2 ip hd, v = VStr ip /\ served c policy /\ HAllowed q1 pid1 ip ∈ before /\ HAllowed q2 pid2 ip ∈ before /\
    outer c policy q1 ip /\ inner c policy q2 ip /\ one_tunnel c q1 q2 port hd.

(** ** Threads of the phase 2a world, lifted *)

Definition textends (i : nat) (w w' : tworld) : Prop := extends i (tw_h w) (tw_h w').
Definition tmediated (w : tworld) : Prop := mediated tls_decided tls_connected (tw_h w).
Abbreviation hok := (ok extends extends (mediated tls_decided tls_connected)).
Abbreviation tok := (ok textends textends tmediated).
Definition later {A} (i : nat) (w : tworld) (Q : res A -> tworld -> Prop) : res A -> hworld -> Prop :=
  fun r h => forall w1, textends i w w1 -> tw_h w1 = h -> Q r w1.
Lemma tok_lift {A} i (p : hthread A) Q : forall w, hok i (later i w Q) p (tw_h w) -> tok i Q (lift p) w.
Proof.
  induction p as [a|e|B f k IH|c k IH]; intros w Hp; cbn in *.
  - apply Hp; [apply extends_refl|done].
  - apply Hp; [apply extends_refl|done].
  - intros w1 Hr Hm. destruct (Hp (tw_h w1) Hr Hm) as (Hg & Hm' & Hk). split_and!; [exact Hg|exact Hm'|].
    apply IH. cbn. eapply ok_weaken; [exact Hk|]. intros r h HQ w2 H2. apply HQ.
    eapply extends_trans; [exact Hr|]. eapply extends_trans; [exact Hg|exact H2].
  - intros w1 Hr Hm b Hb. apply IH. eapply ok_weaken; [by apply (Hp (tw_h w1))|].
    intros r h HQ w2 H2. apply HQ. by eapply extends_trans.
Qed.
Definition tquiet (w w' : tworld) : Prop := quiet (tw_h w) (tw_h w').
Lemma tok_quiet {A} i (p : tthread A) Q : forall w, always tquiet p -> (forall r w1, textends i w w1 -> Q r w1) -> tok i Q p w.
Proof.
  induction p as [a|e|B f k IH|c k IH]; intros w Hp HQ; cbn in *.
  - apply HQ, extends_refl.
  - apply HQ, extends_refl.
  - intros w1 Hr Hm. destruct (Hp w1) as [Hq Hk]. destruct (quiet_mediated _ _ i _ _ Hq Hm) as [Hm' Hx]. split_and!; [done..|].
    apply IH; [done|]. intros r w2 H2. apply HQ. eapply extends_trans; [exact Hr|]. by eapply extends_trans.
  - intros w1 Hr Hm b _. apply IH; [done|]. intros r w2 H2. apply HQ. by eapply extends_trans.
Qed.
Lemma always_lift {A} (p : hthread A) : always quiet p -> always tquiet (lift p).
Proof. induction p as [a|e|B f k IH|c k IH]; cbn; auto. intros Hp w. destruct (Hp (tw_h w)). split; [done|]. by apply IH. Qed.
Lemma quiet_still (w w' : tworld) : tw_h w' = tw_h w -> tquiet w w'.
Proof. intros E. unfold tquiet. rewrite E. split; [done|by left]. Qed.

(** ** Quiet parts *)

Lemma quiet_signal e : idle e -> always tquiet (tsignal e).
Proof. intros He. by apply always_lift, always_signal. Qed.
Lemma quiet_audit entry : always tquiet (taudit entry).
Proof. by apply quiet_signal. Qed.
Lemma quiet_track s : always tquiet (track s).
Proof. apply always_atomic. intros w. by apply quiet_still. Qed.
Lemma quiet_untrack s : always tquiet (untrack s).
Proof. apply always_atomic. intros w. by apply quiet_still. Qed.
Lemma quiet_close s : always tquiet (close s).
Proof. apply always_atomic. intros w. by apply quiet_still. Qed.
Ltac quiet_tac :=
  repeat first
    [ apply always_ret | apply always_throw | apply always_of_res
    | apply quiet_track | apply quiet_untrack | apply quiet_close | apply quiet_audit | apply quiet_signal; exact I
    | apply always_bind; [|intros ?] | apply always_catch; [|intros ?] | apply always_finally ].
Lemma quiet_deny_tls reason url m : always tquiet (deny_over_tls reason url m).
Proof. unfold deny_over_tls. quiet_tac. Qed.
Lemma quiet_deny_plain c reason url m : always tquiet (tdeny_plain c reason url m).
Proof. unfold tdeny_plain. quiet_tac. Qed.
Lemma quiet_exchange c req url m : always tquiet (exchange_up c req url m).
Proof. unfold exchange_up. quiet_tac. Qed.
Lemma quiet_close_all l : always tquiet (close_all l).
Proof. induction l as [|s l IH]; cbn [close_all]; quiet_tac. exact IH. Qed.
Lemma quiet_sweep : always tquiet sweep.
Proof. unfold sweep. quiet_tac; [apply always_atomic; intros w; by apply quiet_still|apply quiet_close_all]. Qed.
Lemma quiet_watcher armed turns : always tquiet (kill_watcher armed turns).
Proof.
  revert armed. induction turns as [|b l IH]; intros armed; cbn [kill_watcher]; [quiet_tac|].
  destruct (b && negb armed); [|apply IH]. apply always_bind; [apply quiet_sweep|]. intros _. apply IH.
Qed.

(** ** The handlers *)

Definition anyhow {A} : res A -> tworld -> Prop := fun _ _ => True.
Lemma tok_still {A} i (p : tthread A) w : always tquiet p -> tok i anyhow p w.
Proof. intros Hp. by apply tok_quiet. Qed.
Lemma tok_of_res {A B} i (r : res A) (k : A -> tthread B) w : (forall a, r = Ok a -> tok i anyhow (k a) w) ->
  tok i anyhow (pbind (of_res r) k) w.
Proof. destruct r; cbn; [auto|done]. Qed.
Lemma tok_seq {A B} i (p : tthread A) (k : A -> tthread B) w : always tquiet p ->
  (forall a w1, textends i w w1 -> tok i anyhow (k a) w1) -> tok i anyhow (pbind p k) w.
Proof. intros Hp Hk. apply ok_bind, tok_quiet; [done|]. intros [a|e] w1 H1; [by apply Hk|done]. Qed.
Lemma tok_end i (p : tthread unit) q w : tok i anyhow p w -> always tquiet q -> tok i anyhow (pfinally p q) w.
Proof. intros Hp Hq. apply ok_finally. eapply ok_weaken; [exact Hp|]. intros r w1 _. by apply tok_still. Qed.
(** The decision point, lifted. *)
Lemma tok_pdp i P policy killed now q (k : hdecision -> tthread unit) w :
  (forall before pid program host answers ip, killed = false -> afforded before q pid program ->
     approved policy now q ip pid program host answers -> tls_decided before q pid ip /\ P pid ip) ->
  (forall d w1, textends i w w1 -> allowed_in P q (Ok d) (tw_h w1) -> tok i anyhow (k d) w1) ->
  tok i anyhow (pbind (lift (pdp policy killed now q)) k) w.
Proof.
  intros Hdec Hk. apply ok_bind, tok_lift. apply (ok_pdp _ _ _ P); [exact Hdec|].
  intros [d|e] h Hx Ha w1 H1 E; [|done]. apply Hk; [done|]. by rewrite E.
Qed.

(** After the CONNECT was allowed to [ip]. *)
Section Tunnel.
Variables (i : nat) (c : tclient) (policy : val) (q1 : hrequest) (pid1 ip canon : string) (port : Z).
Context (Hserved : served c policy) (Houter : outer c policy q1 ip).

Lemma tok_forward q2 d hd url w : hd_allow d = true -> hq_pinned q2 = Some ip -> one_tunnel c q1 q2 port hd ->
  HAllowed q1 pid1 ip ∈ hw_trace (tw_h w) -> allowed_in (fun _ => inner c policy q2) q2 (Ok d) (tw_h w) ->
  tok i anyhow (forward_up c d canon port url hd) w.
Proof.
  intros Hd Hp Ht Hin1 H2. destruct (H2 Hd) as (pid2 & ip2 & Hpin & Hin2 & Hinn).
  assert (ip2 = ip) as -> by (destruct Hinn; congruence). unfold forward_up. apply tok_of_res. intros _ _.
  apply ok_bind. unfold connect_up. apply ok_catch. unfold tsignal. apply ok_bind, tok_lift. cbn [hsignal atomic].
  eapply ok_emit; [done| |].
  { intros w1 Hx. exists c, policy, q1, q2, pid1, pid2, ip, hd. split_and!; try done; by eapply (extends_in i). }
  assert (forall r w1, tok i anyhow
    (match r with
     | Some e => if String.eqb (exn_cls e) "SSLCertVerificationError" then
                   taudit (cert_invalid_record d url (h_method hd) e);;; deny_over_tls "UPSTREAM_CERT_INVALID" url (h_method hd)
                 else deny_over_tls ("UPSTREAM_ERROR:" ++ exn_cls e) url (h_method hd)
     | None => let req := Harness.raw_request (h_method hd ++ " " ++ h_path hd ++ " HTTP/1.1") canon (hd_secret d) (h_rest hd) in
               got <-- exchange_up c req url (h_method hd);;
               match got with
               | None => Ret tt
               | Some resp => taudit (intercepted_record c d url (h_method hd) canon req resp);;; tsignal (HForward resp)
               end
     end) w1) as Hend.
  { intros [e|] w1; apply tok_still.
    - destruct (String.eqb _ _); [apply always_bind; [apply quiet_audit|intros _]|]; apply quiet_deny_tls.
    - apply always_bind; [apply quiet_exchange|]. intros [resp|]; quiet_tac. }
  intros w1 Hx w2 Hx2 E. apply tok_quiet; [quiet_tac|]. intros [r|e] w3 H3; apply Hend.
Qed.
Lemma tok_intercepted d w : hd_pinned d = VStr ip -> hq_port q1 = port -> canonical_host (hq_host q1) = Some canon ->
  leaf_paths c canon <> None -> HAllowed q1 pid1 ip ∈ hw_trace (tw_h w) -> tok i anyhow (intercepted c canon port d policy) w.
Proof.
  intros Hpin Hport Hcan Hleaf Hin. unfold intercepted. cbv zeta.
  destruct (sni_mismatch (tc_sni c) canon) eqn:Hsni; [apply tok_still, quiet_deny_tls|].
  apply tok_of_res. intros [hd|] Hread; [|apply tok_still, quiet_audit].
  destruct (bool_decide _) eqn:Hhost; cbn [negb]; [|apply tok_still, quiet_deny_tls]. apply bool_decide_eq_true in Hhost.
  set (q2 := inner_request c d (h_method hd) canon port).
  assert (hq_pinned q2 = Some ip) as Hq2 by (cbn; unfold pin_text; by rewrite Hpin).
  apply (tok_pdp i (fun _ => inner c policy q2)).
  { intros before pid program host answers ip' Hk _ Ha. assert (inner c policy q2 ip') as Hinn.
    { pose proof (ap_pin _ _ _ _ _ _ _ _ Ha ip Hq2) as E. pose proof (ap_first _ _ _ _ _ _ _ _ Ha) as Hf. subst answers.
      cbn in Hf. injection Hf as <-. split; try done. by exists pid, program, host. }
    split; [|done]. exists c, policy. split; [done|by right]. }
  intros d2 w1 Hx Ha2. destruct (hd_allow d2) eqn:Hd2; cbn [negb]; [|apply tok_still, quiet_deny_tls].
  apply (tok_forward q2); [done..| |by eapply (extends_in i)|done].
  split; try done. intros s Hs. unfold sni_mismatch in Hsni. rewrite Hs in Hsni. by case_bool_decide.
Qed.
Lemma tok_tunnel d url w : hd_pinned d = VStr ip -> hq_port q1 = port -> canonical_host (hq_host q1) = Some canon ->
  leaf_paths c canon <> None -> HAllowed q1 pid1 ip ∈ hw_trace (tw_h w) -> tok i anyhow (tunnel_tls c canon port d policy url) w.
Proof.
  intros Hpin Hport Hcan Hleaf Hin. unfold tunnel_tls. apply tok_seq; [by apply quiet_signal|]. intros _ w1 H1.
  apply tok_of_res. intros _ _. apply tok_of_res. intros _ _. apply tok_seq; [apply quiet_track|]. intros _ w2 H2.
  destruct (tc_handshake c) as [[]|e]; [|destruct (os_error e); [apply tok_still; quiet_tac|done]].
  apply tok_seq; [apply quiet_track|]. intros _ w3 H3. apply tok_end; [|quiet_tac].
  apply tok_intercepted; try done. eapply (extends_in i); [|exact Hin].
  eapply (extends_trans i); [exact H1|]. by eapply (extends_trans i).
Qed.
End Tunnel.

Lemma approved_canonical policy now q ip pid program host answers : approved policy now q ip pid program host answers ->
  canonical_host (hq_host q) = Some host.
Proof.
  intros Ha. pose proof (ap_destination _ _ _ _ _ _ _ _ Ha) as Hd. unfold check_destination in Hd.
  destruct (canonical_host (hq_host q)) as [h|]; [|done]. f_equal.
  repeat match type of Hd with
  | rbind _ _ = Ok _ => apply res_bind_Ok in Hd as (? & _ & Hd)
  | (if ?b then _ else _) = _ => destruct b
  end; congruence.
Qed.
Lemma tok_CONNECT i c w : c ∈ clients -> tok i anyhow (tls_CONNECT c) w.
Proof.
  intros Hc. unfold tls_CONNECT. apply tok_of_res. intros policy Hp. cbv zeta.
  destruct (rpartition ":" (hc_url (tc_http c))) as [[host sep] p].
  destruct (_ || _); [apply tok_still, quiet_deny_plain|]. apply tok_of_res. intros port _.
  set (q1 := request_of (tc_http c) "CONNECT" host port).
  assert (served c policy) as Hs by done. apply (tok_pdp i (fun _ => outer c policy q1)).
  { intros before pid program h answers ip Hk _ Ha. assert (outer c policy q1 ip) as Hou by (split; try done; by exists pid, program, h, answers).
    split; [|done]. exists c, policy. split; [done|by left]. }
  intros d w1 Hx Ha. destruct (hd_allow d) eqn:Hd; cbn [negb]; [|apply tok_still, quiet_deny_plain].
  destruct (Ha Hd) as (pid1 & ip & Hpin & Hin & Hou). pose proof (ou_approved _ _ _ _ Hou) as (pid & program & h & answers & Happ).
  pose proof (approved_canonical _ _ _ _ _ _ _ _ Happ) as Hcan. cbn in Hcan. rewrite Hcan.
  change (host_text (Some h)) with h.
  destruct (leaf_paths c h) eqn:Hleaf; [|apply tok_still, quiet_deny_plain].
  apply (tok_tunnel i c policy q1 pid1 ip h port); try done. by rewrite Hleaf.
Qed.
Lemma tok_dispatch i c m w : c ∈ clients -> tok i anyhow (tls_dispatch m c) w.
Proof.
  intros Hc. unfold tls_dispatch. destruct (String.eqb m "CONNECT"); [by apply tok_CONNECT|].
  destruct (String.eqb m "GET"); apply tok_still, quiet_deny_plain.
Qed.
End Mediation.

(** One thread per request, with its verb, and one per kill watcher, with what
    it finds at each of its turns. *)
Definition tworld0 : tworld := TWorld hworld0 ∅ ∅.
Definition tthreads `{Digest} `{Idna} (l : list (string * tclient)) (watchers : list (list bool)) : list (tthread unit) :=
  (map (fun mc => tls_dispatch mc.1 mc.2) l ++ map (kill_watcher false) watchers)%list.

(** C13: two decisions, one resolution, one address. In every schedule of tunnels
    and kill watchers, each upstream connection of the intercepting gateway goes
    to the address and port that two earlier decisions of its tunnel allowed:
    the one on the CONNECT, which resolved the name and accepted every answer,
    and the one on the request read inside, which was given that address and
    did not resolve; authority, SNI and Host header name one canonical host,
    for which a leaf certificate exists. *)
Theorem tls_mediates `{Digest} `{Idna} l watchers ts w before v port after :
  reach (tthreads l watchers, tworld0) (ts, w) -> hw_trace (tw_h w) = (before ++ HConnect v port :: after)%list ->
  exists c policy q1 q2 pid1 pid2 ip hd, c ∈ map snd l /\ hc_policy (tc_http c) = Ok policy /\ v = VStr ip /\
    HAllowed q1 pid1 ip ∈ before /\ HAllowed q2 pid2 ip ∈ before /\
    outer c policy q1 ip /\ inner c policy q2 ip /\ one_tunnel c q1 q2 port hd.
Proof.
  intros Hr Ht. assert (tmediated (map snd l) w) as Hm.
  { eapply (pool_invariant textends); [intros; apply extends_refl|intros ????; apply extends_trans|done| | |exact Hr]; [exact (mediated0 _ _)|].
    intros i p Hp. apply elem_of_app in Hp as [Hp|Hp]; apply list_elem_of_In, in_map_iff in Hp.
    - destruct Hp as ([m c] & <- & Hc). apply tok_dispatch. apply list_elem_of_In, in_map_iff. by exists (m, c).
    - destruct Hp as (turns & <- & _). apply tok_quiet; [apply quiet_watcher|done]. }
  destruct (md_justified _ _ _ Hm _ _ _ Ht) as (c & policy & q1 & q2 & pid1 & pid2 & ip & hd & -> & [Hc Hp] & H1 & H2 & Ho & Hi & Hot).
  by exists c, policy, q1, q2, pid1, pid2, ip, hd.
Qed.

(** ** Tunnels at the phase 2b gateway, evaluated

    A tunnel that is relayed, one whose request cannot be read, one whose
    upstream refuses the handshake, and one that outlives the kill switch. *)

Definition policy_t : val := VDict
  [ ("networks", VDict [("10.0.0.0/8", VStr "p")]);
    ("programs", VDict [("p", match program_h with
                              | VDict d => VDict (dset "allow_connect" (VBool true) (dset "max_requests" (VInt 9) d))
                              | v => v end)]);
    ("dns_zone", VDict [("www.example.com", VList [VStr pin_h])]) ].
(** A tunnel in which [stream] is received and the upstream handshake ends as [verify]. *)
Definition client_t (stream : string) (verify : res unit) : tclient := {|
  tc_http := {|
    hc_ip := "10.1.2.3"; hc_url := "www.example.com:443"; hc_header := fun _ => None;
    hc_policy := Ok policy_t; hc_killed := false; hc_now := VInt 100; hc_body := fun _ => Ok "";
    hc_reply := Ok tt; hc_connect := Ok tt; hc_send := Ok tt; hc_chunks := [Ok "HTTP/1.1 200 OK"; Ok ""] |};
  tc_exists := fun _ => true; tc_load := Ok tt; tc_handshake := Ok tt; tc_sni := Some "WWW.example.com";
  tc_stream := [Ok stream]; tc_killed := false; tc_now := VInt 100; tc_context := Ok tt; tc_verify := verify;
  tc_raw := 1; tc_tls := 2; tc_plain := 3; tc_up := 4 |}%nat.
Definition get_t : string := "GET /a HTTP/1.1" ++ crlf ++ "Host: www.example.com" ++ crlf ++ crlf.
Definition plain_t : tclient := client_t get_t (Ok tt).
Definition run_t (c : tclient) : tworld * res unit := exec (tls_dispatch "CONNECT" c) tworld0.
Definition records (w : tworld) : list dict := omap (fun e => match e with HRecord r => Some r | _ => None end) (hw_trace (tw_h w)).

(** A request whose Content-Length is no integer ends its handler with an
    exception: no reply and no record beside those of the CONNECT. *)
Lemma bad_length_unaudited :
  let c := client_t ("POST / HTTP/1.1" ++ crlf ++ "Host: www.example.com" ++ crlf ++ "Content-Length: x" ++ crlf ++ crlf) (Ok tt) in
  exists e, (run_t c).2 = Raise e /\ records (run_t c).1 = [].
Proof. eexists. split; vm_compute; reflexivity. Qed.
(** An upstream handshake that fails leaves its socket tracked and open. *)
Lemma failed_handshake_tracked :
  let w := (run_t (client_t get_t (Raise (PyExn "SSLCertVerificationError" "expired")))).1 in
  bool_decide (3%nat ∈ tw_live w) = true /\ bool_decide (3%nat ∈ tw_closed w) = false.
Proof. split; vm_compute; reflexivity. Qed.

(** The kill file appears after the second decision and before the connection:
    the watcher closes what is tracked, records it, and the handler then
    connects, tracks its new sockets and sends. *)
Definition late_t : tworld :=
  let '(p, w) := exec_n 7 (tls_dispatch "CONNECT" plain_t) tworld0 in
  (exec p (exec (kill_watcher false [true; true]) w).1).1.
Definition phase (e : hevent) : nat :=
  match e with HRecord r => if dmem "connections_terminated" r then 1 else 0 | HConnect _ _ => 2 | HSend _ => 3 | _ => 0 end.
Lemma effect_after_sweep : exists ts,
  reach (tthreads [("CONNECT", plain_t)] [[true; true]], tworld0) (ts, late_t) /\
  List.filter (fun n => negb (Nat.eqb n 0)) (map phase (hw_trace (tw_h late_t))) = [1; 2; 3]%nat.
Proof.
  assert (List.filter (fun n => negb (Nat.eqb n 0)) (map phase (hw_trace (tw_h late_t))) = [1; 2; 3]%nat) as F
    by (vm_compute; reflexivity).
  pose proof (exec_n_reach 7 (tls_dispatch "CONNECT" plain_t) (tthreads [("CONNECT", plain_t)] [[true; true]]) 0 tworld0 eq_refl) as R1.
  unfold late_t in *. destruct (exec_n 7 _ _) as [p w]. cbn [fst snd] in R1. eexists. split; [|exact F]. etrans; [exact R1|].
  etrans; [exact (exec_reach (kill_watcher false [true; true]) [p; kill_watcher false [true; true]] 1%nat w eq_refl)|].
  exact (exec_reach p [p; of_res (exec (kill_watcher false [true; true]) w).2] 0%nat _ eq_refl).
Qed.

(** ** Witness *)

Lemma tls_mediates_witness : exists q1 q2, q1 <> q2 /\
  hq_pinned q1 = None /\ hq_pinned q2 = Some pin_h /\ one_tunnel plain_t q1 q2 443 (Head "GET" "/a" {["host" := "www.example.com"]} "").
Proof.
  set (w := (run_t plain_t).1).
  assert (hw_trace (tw_h w) = (firstn 5 (hw_trace (tw_h w)) ++ HConnect (VStr pin_h) 443 :: skipn 6 (hw_trace (tw_h w)))%list) as E
    by (vm_compute; reflexivity).
  destruct (tls_mediates [("CONNECT", plain_t)] [] _ w _ _ _ _
    (exec_reach (tls_dispatch "CONNECT" plain_t) (tthreads [("CONNECT", plain_t)] []) 0%nat tworld0 eq_refl) E)
    as (c & policy & q1 & q2 & pid1 & pid2 & ip & hd & Hc & _ & Hip & _ & _ & Ho & Hi & Ht).
  injection Hip as <-. apply list_elem_of_singleton in Hc as ->. exists q1, q2.
  destruct Ho as [_ _ _ Hf _]. destruct Hi as [_ _ Hp _]. split_and!; [congruence|exact Hf|exact Hp|].
  pose proof (ot_read _ _ _ _ _ Ht) as Hr. assert (hd = Head "GET" "/a" {["host" := "www.example.com"]} "") as ->; [|exact Ht].
  assert (read_http_request (tc_stream plain_t) = Ok (Some (Head "GET" "/a" {["host" := "www.example.com"]} ""))) as E2 by (vm_compute; reflexivity).
  exact (f_equal (fun r => match r with Ok (Some h) => h | _ => hd end) (eq_trans (eq_sym Hr) E2)).
Defined.
