(* ===== verification/Transport.v ===== *)
(** * The transport suite of Layer B ([src/pep/ipv6_transport.py])

    The suite runs where the sandbox runs. What its sockets, its TLS, the route
    commands and the host's advisory answer are arguments; what it observes, and
    which observation it takes for proof, are the code's. *)

From S2P Require Import Prelude.
From S2P Require Import PyStr.
From S2P Require Import Json.
From S2P Require Import PyDyn.
From S2P Require Import IpAddr.
From S2P Require Import Gateway.
From S2P Require Import Harness.
Open Scope Z_scope.

(** ** Observing ([tcp6]) *)

(** The direct attempt: an empty [getaddrinfo], the exceptions told apart, or a
    connection; the number of an [OSError] may be missing. *)
Inductive attempt :=
| NoAddress
| GaiError
| TimedOut
| Failed (errno : option Z)
| Connected.
Definition EPERM : Z := 1.
Definition EACCES : Z := 13.
Definition EINVAL : Z := 22.
Definition EAFNOSUPPORT : Z := 97.
Definition ENETDOWN : Z := 100.
Definition ENETUNREACH : Z := 101.
Definition ETIMEDOUT : Z := 110.
Definition ECONNREFUSED : Z := 111.
Definition EHOSTUNREACH : Z := 113.

Definition BLOCKING_OBSERVATIONS : list string := ["TIMEOUT"; "NO_ROUTE"].
Definition INCONCLUSIVE_OBSERVATIONS : list string :=
  ["INVALID_ADDRESS"; "NO_IPV6_STACK"; "CONNECTION_REFUSED"; "PERMISSION_DENIED"; "LINK_DOWN"].
(** [errorcode] names a number, as [errno.errorcode] does. *)
Definition os_observation (errorcode : Z -> option string) (errno : option Z) : string :=
  match errno with
  | None => "OTHER:None"
  | Some e =>
      if e =? ENETDOWN then "LINK_DOWN"
      else if (e =? ENETUNREACH) || (e =? EHOSTUNREACH) then "NO_ROUTE"
      else if (e =? EACCES) || (e =? EPERM) then "PERMISSION_DENIED"
      else if e =? ECONNREFUSED then "CONNECTION_REFUSED"
      else if (e =? EINVAL) || (e =? EAFNOSUPPORT) then
        (if e =? EAFNOSUPPORT then "NO_IPV6_STACK" else "INVALID_ADDRESS")
      else if e =? ETIMEDOUT then "TIMEOUT"
      else "OTHER:" ++ match errorcode e with Some name => name | None => show_Z e end
  end.
Definition tcp6 (errorcode : Z -> option string) (a : attempt) : string :=
  match a with
  | NoAddress | GaiError => "INVALID_ADDRESS"
  | TimedOut => "TIMEOUT"
  | Failed errno => os_observation errorcode errno
  | Connected => "REACHABLE"
  end.
Definition enforcement_verdict (obs : string) (control_ok : bool) : string :=
  if negb control_ok then "NO_POSITIVE_CONTROL"
  else if String.eqb obs "REACHABLE" then "FAILED_OPEN"
  else if mem_str obs BLOCKING_OBSERVATIONS then "PROVEN"
  else "INCONCLUSIVE_" ++ obs.
(** [index name] is [if_nametoindex], which raises for a name it does not know. *)
Definition scoped_ll (index : string -> res Z) (addr : string) : res string :=
  if contains "%" addr then Ok addr else
  (fix pick (names : list string) : res string :=
     match names with
     | [] => Ok addr
     | name :: rest =>
         match index name with
         | Ok n => if n =? 0 then pick rest else Ok (addr ++ "%" ++ name)
         | Raise e => if os_error e then pick rest else Raise e
         end
     end) ["eth0"; "eth1"].

(** ** The tunnel through the PEP ([tunnel6]) *)

(** What one tunnel meets, in order. *)
Record tunnel_env := TunnelEnv {
  te_connect : res unit; te_send : res unit; te_recv : list (res string); te_context : res unit; te_wrap : res unit;
  te_request : res unit; te_response : list (res string) }.
(** The dictionary [out]. *)
Record observed := Observed {
  ob_connect : Z; ob_reason : string; ob_status : Z; ob_body : string; ob_err : string; ob_bytes : Z }.
Definition ob0 : observed := Observed 0 "" 0 "" "" 0.
Definition with_err (e : string) (o : observed) : observed :=
  Observed (ob_connect o) (ob_reason o) (ob_status o) (ob_body o) e (ob_bytes o).
(** Receive until the head is complete or the peer is done. *)
Fixpoint read_reply (buf : string) (chunks : list (res string)) : res string :=
  if is_in_buf buf then Ok buf else
  match chunks with
  | [] => Ok buf
  | Raise e :: _ => Raise e
  | Ok "" :: _ => Ok buf
  | Ok c :: rest => read_reply (buf ++ c) rest
  end.
Definition second_word (s : string) : option string := match split " " s with _ :: w :: _ => Some w | _ => None end.
(** [int(head.split(" ", 2)[1])], 0 when it raises. *)
Definition reply_code (head : string) : Z :=
  match second_word head with
  | Some w => match Harness.py_int (VStr w) with Ok n => n | Raise _ => 0 end
  | None => 0
  end.
(** The last X-PDP-Reason line wins. *)
Definition pdp_reason (text : string) (before : string) : string :=
  foldl (fun r ln => if startswith "x-pdp-reason:" (str_lower ln) then str_strip (partition ":" ln).2 else r)
    before (split_str crlf text).
Fixpoint read_response (chunks : list (res string)) (first : bool) (o : observed) : observed :=
  match chunks with
  | [] => o
  | Raise e :: _ => if ob_bytes o =? 0 then with_err ("IO:" ++ exn_cls e) o else o
  | Ok "" :: _ => o
  | Ok c :: rest =>
      let status := if first then status_of c else ob_status o in
      let reason := if first then pdp_reason c (ob_reason o) else ob_reason o in
      let body := if (Z.of_nat (String.length (ob_body o)) <? 2048) then ob_body o ++ c else ob_body o in
      read_response rest false
        (Observed (ob_connect o) reason status body (ob_err o) (ob_bytes o + Z.of_nat (String.length c)))
  end.
(** The first [sendall] and the TLS context are outside every handler. *)
Definition tunnel6 (e : tunnel_env) : res observed :=
  match te_connect e with Raise x => Ok (with_err ("NOGW:" ++ exn_cls x) ob0) | Ok _ =>
  _ <- te_send e;;
  match read_reply "" (te_recv e) with Raise x => Ok (with_err (exn_cls x) ob0) | Ok head =>
  let o := Observed (reply_code head) (pdp_reason head "") 0 "" "" 0 in
  if negb (ob_connect o =? 200) then Ok o else
  _ <- te_context e;;
  match te_wrap e with Raise x => Ok (with_err ("TLS:" ++ exn_cls x) o) | Ok _ =>
  let o := match te_request e with Raise x => with_err ("SEND:" ++ exn_cls x) o | Ok _ => o end in
  Ok (read_response (te_response e) true o)
  end end end.
Definition v (o : observed) : string :=
  if startswith "NOGW" (ob_err o) then "NOGW"
  else if (ob_connect o =? 403) || (ob_status o =? 403) then "BLOCK"
  else if startswith "TLS" (ob_err o) then "TLSFAIL"
  else if ob_status o =? 200 then "ALLOW"
  else if (300 <=? ob_status o) && (ob_status o <? 400) then "REDIRECT"
  else "OTHER" ++ show_Z (ob_status o).

(** ** The dripping stream of B6 *)

(** The shared [holder], and what the stream's thread meets. *)
Record holder := Holder { ho_partial : Z; ho_err : string; ho_status : Z; ho_clen : Z }.
Definition holder0 : holder := Holder 0 "" 0 0.
Definition fail_with (e : exn) (h : holder) : holder := Holder (ho_partial h) (exn_cls e) (ho_status h) (ho_clen h).
(** [int] of bytes. *)
Definition bytes_int (w : string) : res Z :=
  let '(neg, u) := strip_sign (b_strip w) in
  match strip_underscores false u with
  | Some t => match int_of_digits t with
              | Some n => if Nat.ltb 4300 (String.length t) then Raise (ValErr "int") else Ok (if neg then - n else n)
              | None => Raise (ValErr "int")
              end
  | None => Raise (ValErr "int")
  end.
(** The Content-Length lines of the head, in order; a bad one raises. *)
Fixpoint declared_length (lines : list string) (clen : Z) : Z * option exn :=
  match lines with
  | [] => (clen, None)
  | ln :: rest =>
      if startswith "content-length:" (str_lower ln) then
        match bytes_int (match split ":" ln with _ :: w :: _ => w | _ => "" end) with
        | Ok n => declared_length rest n
        | Raise e => (clen, Some e)
        end
      else declared_length rest clen
  end.
Definition body_part (got : string) : Z := Z.of_nat (String.length (partition_str (crlf ++ crlf) got).2).
Fixpoint stream (chunks : list (res string)) (got : string) (h : holder) : holder :=
  match chunks with
  | [] => h
  | Raise e :: _ => fail_with e h
  | Ok "" :: _ => h
  | Ok c :: rest =>
      let got := got ++ c in
      let status := if (ho_status h =? 0) && contains " 200 " got then 200 else ho_status h in
      let '(clen, bad) := if (ho_clen h =? 0) && contains (crlf ++ crlf) got
                          then declared_length (split_str crlf (partition_str (crlf ++ crlf) got).1.1) (ho_clen h)
                          else (ho_clen h, None) in
      match bad with
      | Some e => fail_with e (Holder (ho_partial h) (ho_err h) status clen)
      | None => stream rest got (Holder (body_part got) (ho_err h) status clen)
      end
  end.
(** After [n] chunks of the response. *)
Definition drip (e : tunnel_env) (n : nat) : holder :=
  match te_connect e with Raise x => fail_with x holder0 | Ok _ =>
  match te_send e with Raise x => fail_with x holder0 | Ok _ =>
  match read_reply "" (te_recv e) with Raise x => fail_with x holder0 | Ok b =>
  if negb (contains " 200 " b) then Holder 0 "CONNECT_DENIED" 0 0 else
  match te_context e with Raise x => fail_with x holder0 | Ok _ =>
  match te_wrap e with Raise x => fail_with x holder0 | Ok _ =>
  match te_request e with Raise x => fail_with x holder0 | Ok _ =>
  stream (firstn n (te_response e)) "" holder0
  end end end end end end.

(** ** The suite ([main]) *)

Definition rec (tid desc got detail : string) : dict :=
  let ok := String.eqb "PROVEN" got in
  [ ("layer", VStr "B"); ("id", VStr tid); ("desc", VStr desc); ("expect", VStr "PROVEN"); ("got", VStr got);
    ("status", VStr (if ok then "PROVEN" else got)); ("pass", VBool ok); ("detail", VStr (take 200 detail)) ].
(** Everything the run meets, in order. The dripping thread has processed
    [sv_seen] chunks when the stream is first found live, or given up on, and
    [sv_joined] when it is read for the last time. *)
Record suite_env := SuiteEnv {
  sv_nonce : string; sv_errorcode : Z -> option string;
  sv_via : tunnel_env; sv_stack : attempt; sv_direct : attempt;
  sv_routes : list (res Z); sv_after : attempt;
  sv_sni : tunnel_env; sv_host : tunnel_env; sv_intercept : tunnel_env;
  sv_advisory : res val; sv_drip : tunnel_env; sv_seen : nat; sv_joined : nat }.
(** The outcome of a route command; an exception that is no [OSError] escapes. *)
Definition applied (r : res Z) : res string :=
  match r with
  | Ok rc => Ok ("rc=" ++ show_Z rc)
  | Raise e => if os_error e then Ok ("err=" ++ exn_cls e) else Raise e
  end.
Definition bool_text (b : bool) : string := if b then "True" else "False".
Definition path_verdict (via_ok : bool) (direct : string) : string :=
  if via_ok && mem_str direct BLOCKING_OBSERVATIONS then "PROVEN"
  else if negb via_ok then "NO_POSITIVE_CONTROL"
  else if String.eqb direct "REACHABLE" then "FAILED_OPEN"
  else "INCONCLUSIVE_" ++ direct.
(** The advisory's verdict and detail; whatever goes wrong reading it is caught. *)
Definition B7_ADVISORY : string := "/b7/b7_advisory.json".
Definition advised (advisory : res val) : string * string :=
  let read :=
    a <- advisory;;
    seen <- v_get "measurement_seen" a;;
    verdict <- (if match seen with VBool true => true | _ => false end then Ok "FAILED_OPEN" else
                ready <- v_get "ready_for_e9" a;;
                if match ready with VBool true => true | _ => false end then Ok "PROVEN" else
                status <- v_get "status" a;; Ok (py_str (v_or status (VStr "APPARATUS_FAILURE"))));;
    status <- v_get "status" a;;
    sha <- v_get_or "evidence_sha256" (VStr "") a;;
    Ok (verdict, "host_advisory=" ++ py_str status ++ " evidence_sha256=" ++ py_str sha) in
  match read with
  | Ok r => r
  | Raise e => ("APPARATUS_FAILURE:" ++ exn_cls e, "host advisory unreadable at " ++ B7_ADVISORY)
  end.
(** [live and holder["clen"] and partial < clen], and [bool(err) or truncated]:
    the operand Python returns. *)
Definition truncated (live : bool) (h : holder) : val :=
  if negb live then VBool false else if ho_clen h =? 0 then VInt 0 else VBool (ho_partial h <? ho_clen h).
Definition terminated (live : bool) (h : holder) : val :=
  if negb (String.eqb (ho_err h) "") then VBool true else truncated live h.
Definition kill_verdict (live : bool) (h : holder) : string :=
  if live && truthy (terminated live h) then "PROVEN" else if live then "SURVIVED" else "NO_LIVE_STREAM".
Definition b6_client (nonce : string) (live : bool) (h : holder) : dict :=
  [ ("partial_bytes", VInt (ho_partial h)); ("err", VStr (ho_err h)); ("content_length", VInt (ho_clen h));
    ("live", VBool live); ("terminated", terminated live h); ("test_nonce", VStr nonce);
    ("origin", VStr "sandbox"); ("run_id", VNull) ].
Definition proven (rows : list dict) : nat :=
  length (List.filter (fun r => py_eqb (dget_or "status" VNull r) (VStr "PROVEN")) rows).
Definition artifact (nonce : string) (rows : list dict) : dict :=
  [ ("schema_version", VStr "strix-layerb-v2-dec7-e9"); ("rows", VList (map VDict rows));
    ("passed", VInt (Z.of_nat (proven rows))); ("total", VInt (Z.of_nat (length rows)));
    ("origin", VStr "sandbox"); ("run_id", VNull); ("test_nonce", VStr nonce) ].
Definition bytes_text (o : observed) : string := "bytes=" ++ show_Z (ob_bytes o).
(** The rows, in the order they are recorded. *)
Definition suite (e : suite_env) : res (list dict) :=
  via <- tunnel6 (sv_via e);;
  let see := tcp6 (sv_errorcode e) in
  let via_ok := String.eqb (v via) "ALLOW" in
  let stack := see (sv_stack e) in
  let stack_ok := String.eqb stack "REACHABLE" in
  let direct := see (sv_direct e) in
  cmds <- rmap applied (sv_routes e);;
  let after := see (sv_after e) in
  let injected := existsb (String.eqb "rc=0") cmds in
  o <- tunnel6 (sv_sni e);;
  o2 <- tunnel6 (sv_host e);;
  o3 <- tunnel6 (sv_intercept e);;
  let sni_ok := String.eqb (v o) "BLOCK" && contains "SNI_MISMATCH" (ob_reason o) in
  let host_ok := String.eqb (v o2) "BLOCK" && contains "HOST_HEADER_MISMATCH" (ob_reason o2) in
  let intercepted := String.eqb (v o3) "ALLOW" && contains (String "034" ("target" ++ String "034" "")) (ob_body o3) in
  let '(b7, b7_detail) := advised (sv_advisory e) in
  let live := 0 <? ho_partial (drip (sv_drip e) (sv_seen e)) in
  let h := drip (sv_drip e) (sv_joined e) in
  Ok [ rec "B1" "direct IPv6 egress bypass blocked (vs live positive control)" (enforcement_verdict direct (via_ok && stack_ok))
         ("direct=" ++ direct ++ " via_pep=" ++ v via ++ " v6_stack=" ++ stack);
       rec "B2" "IPv6 route injection via NET_ADMIN is blocked"
         (if injected then enforcement_verdict after (via_ok && stack_ok) else "NO_POSITIVE_CONTROL")
         ("after_injection=" ++ after ++ " injected=" ++ bool_text injected ++ " " ++ join " " cmds);
       rec "B3" "path proof: direct BLOCKED and via-PEP ALLOWED" (path_verdict via_ok direct)
         ("via_pep=" ++ v via ++ " direct=" ++ direct ++ " " ++ bytes_text via);
       rec "B4" "Host/SNI bound to canonical host over IPv6 destination" (if sni_ok && host_ok then "PROVEN" else "FAILED")
         ("sni=" ++ ob_reason o ++ " host=" ++ ob_reason o2);
       rec "B5" "TLS interception over IPv6" (if intercepted then "PROVEN" else "FAILED") (bytes_text o3);
       rec "B7" "direct non-PEP off-link IPv6 UDP egress containment" (if via_ok && stack_ok then b7 else "NO_POSITIVE_CONTROL") b7_detail;
       rec "B6" "kill switch tears down a LIVE IPv6 stream (partial body first)" (kill_verdict live h)
         ("got=" ++ show_Z (ho_partial h) ++ "/" ++ show_Z (ho_clen h) ++ " err=" ++ ho_err h) ].
(** The two files and the exit code. *)
Definition main (e : suite_env) : res (dict * dict * Z) :=
  rows <- suite e;;
  let live := 0 <? ho_partial (drip (sv_drip e) (sv_seen e)) in
  Ok (b6_client (sv_nonce e) live (drip (sv_drip e) (sv_joined e)), artifact (sv_nonce e) rows,
      if Nat.eqb (proven rows) (length rows) then 0 else 1).
