(* ===== verification/TransportProps.v ===== *)
(** * What the transport suite takes for proof

    A probe that never reached the boundary is never counted, and the suite
    succeeds exactly when every one of its observations is the proof it asks. *)

From S2P Require Import Prelude.
From S2P Require Import PyStr.
From S2P Require Import Json.
From S2P Require Import JsonFacts.
From S2P Require Import PyDyn.
From S2P Require Import Gateway.
From S2P Require Import Transport.
Open Scope Z_scope.

(** The attempt left the sandbox and was not answered, or had no way out. *)
Definition contained (a : attempt) : Prop :=
  a = TimedOut \/ exists n, a = Failed (Some n) /\ (n = ENETUNREACH \/ n = EHOSTUNREACH \/ n = ETIMEDOUT).

Lemma other_text s : mem_str ("OTHER:" ++ s) BLOCKING_OBSERVATIONS = false /\ ("OTHER:" ++ s = "REACHABLE" -> False).
Proof. by split. Qed.
Lemma observe_blocking ec a : mem_str (tcp6 ec a) BLOCKING_OBSERVATIONS = true <-> contained a.
Proof.
  unfold contained. destruct a as [| | |[n|]|]; cbn [tcp6 os_observation].
  1, 2, 5, 6: split; [done|intros [?|(? & ? & ?)]; done].
  - split; [by left|done].
  - unfold ENETUNREACH, EHOSTUNREACH, ETIMEDOUT, ENETDOWN, EACCES, EPERM, ECONNREFUSED, EINVAL, EAFNOSUPPORT.
    split.
    + intros Ho. right. exists n. split; [done|].
      repeat match type of Ho with context [if ?b then _ else _] => destruct b eqn:?; try done end; lia.
    + intros [?|(m & [= <-] & Hm)]; [done|].
      repeat match goal with |- context [if ?b then _ else _] => destruct b eqn:?; try done end; lia.
Qed.
Lemma observe_reachable ec a : tcp6 ec a = "REACHABLE" <-> a = Connected.
Proof.
  destruct a as [| | |[n|]|]; cbn [tcp6 os_observation]; try done.
  split; [|done]. intros Ho.
  repeat match type of Ho with context [if ?b then _ else _] => destruct b eqn:?; try done end.
Qed.
(** A negative row is proven only with a positive control and a contained probe. *)
Lemma verdict_proven ec a control : enforcement_verdict (tcp6 ec a) control = "PROVEN" <-> control = true /\ contained a.
Proof.
  unfold enforcement_verdict. destruct control; cbn [negb]; [|by split; [|intros []]].
  rewrite <- (observe_blocking ec a). destruct (String.eqb_spec (tcp6 ec a) "REACHABLE") as [->|_]; [by split; [|intros []]|].
  destruct (mem_str _ _); [by split|]. by split; [|intros []].
Qed.

(** ** The rows *)

Definition passes (e : tunnel_env) : Prop := exists o, tunnel6 e = Ok o /\ v o = "ALLOW".
Definition blocked_for (reason : string) (e : tunnel_env) : Prop :=
  exists o, tunnel6 e = Ok o /\ v o = "BLOCK" /\ contains reason (ob_reason o) = true.
Definition relays_target (e : tunnel_env) : Prop :=
  exists o, tunnel6 e = Ok o /\ v o = "ALLOW" /\ contains (String "034" ("target" ++ String "034" "")) (ob_body o) = true.
(** The stream was live when the kill was armed, and was cut. *)
Definition cut (e : tunnel_env) (seen joined : nat) : Prop :=
  0 < ho_partial (drip e seen) /\
  (ho_err (drip e joined) <> "" \/ ho_clen (drip e joined) <> 0 /\ ho_partial (drip e joined) < ho_clen (drip e joined)).

Lemma applied_zero r s : applied r = Ok s -> String.eqb "rc=0" s = true <-> r = Ok 0.
Proof.
  destruct r as [rc|x]; cbn [applied].
  - intros [= <-]. rewrite String.eqb_eq. split; [|by intros [= ->]]. intros E. f_equal.
    assert (show_Z 0 = show_Z rc) as Ez by (by injection E).
    destruct (parse_show_Z 0) as [_ P0], (parse_show_Z rc) as [_ P1]. rewrite Ez, P1 in P0. by injection P0.
  - destruct (os_error x); [|done]. intros [= <-]. by split.
Qed.
Lemma injected_iff l cmds : rmap applied l = Ok cmds -> existsb (String.eqb "rc=0") cmds = true <-> Ok 0 ∈ l.
Proof.
  revert cmds. induction l as [|r l IH]; intros cmds; cbn [rmap].
  - intros [= <-]. split; [done|]. by intros ?%not_elem_of_nil.
  - intros Hm. apply res_bind_Ok in Hm as (s & Hs & Hm). apply res_bind_Ok in Hm as (cmds' & Hc & [= <-]).
    cbn [existsb]. rewrite orb_true_iff, (applied_zero _ _ Hs), (IH _ Hc), elem_of_cons. split; (intros [H|H]; [left|right]; done).
Qed.
Lemma kill_proven live h : kill_verdict live h = "PROVEN" <->
  live = true /\ (ho_err h <> "" \/ ho_clen h <> 0 /\ ho_partial h < ho_clen h).
Proof.
  unfold kill_verdict, terminated, truncated. destruct live; cbn [andb negb]; [|by split; [|intros []]].
  destruct (String.eqb_spec (ho_err h) "") as [->|He]; cbn [negb truthy].
  - destruct (Z.eqb_spec (ho_clen h) 0) as [Hc|Hc]; cbn [truthy].
    + change (negb (0 =? 0)) with false. cbn. split; [done|]. intros [_ [?|[? _]]]; done.
    + destruct (Z.ltb_spec (ho_partial h) (ho_clen h)); split; try done.
      * intros _. split; [done|]. by right.
      * intros [_ [?|[_ ?]]]; [done|lia].
  - split; [|done]. intros _. split; [done|]. by left.
Qed.
Lemma path_proven ec a ok : path_verdict ok (tcp6 ec a) = "PROVEN" <-> ok = true /\ contained a.
Proof.
  unfold path_verdict. destruct ok; cbn [andb negb]; [|by split; [|intros []]]. rewrite <- (observe_blocking ec a).
  destruct (mem_str _ _); [by split|]. destruct (String.eqb _ _); by split; [|intros []].
Qed.

(** ** The exit code *)

Lemma row_proven tid desc got detail :
  py_eqb (dget_or "status" VNull (rec tid desc got detail)) (VStr "PROVEN") = String.eqb got "PROVEN".
Proof.
  unfold rec. destruct (String.eqb_spec "PROVEN" got) as [<-|Hn]; [done|].
  change (String.eqb got "PROVEN" = String.eqb got "PROVEN"). done.
Qed.
Lemma proven_all rows : Nat.eqb (proven rows) (length rows) = forallb (fun r => py_eqb (dget_or "status" VNull r) (VStr "PROVEN")) rows.
Proof.
  assert (forall l, (proven l <= length l)%nat) as Hle.
  { unfold proven. induction l as [|r l IH]; [done|]. cbn [List.filter length]. destruct (py_eqb _ _); cbn [length]; lia. }
  unfold proven in *. induction rows as [|r rows IH]; [done|]. cbn [List.filter forallb length]. specialize (Hle rows).
  destruct (py_eqb _ _); cbn [length andb]; [exact IH|]. apply Nat.eqb_neq. lia.
Qed.

Lemma guarded (b : bool) x y : x = "PROVEN" -> y <> "PROVEN" -> String.eqb (if b then x else y) "PROVEN" = b.
Proof. intros -> Hy. destruct b; [done|]. by apply String.eqb_neq. Qed.
Lemma only_if (b : bool) x y : y <> "PROVEN" -> (if b then x else y) = "PROVEN" <-> b = true /\ x = "PROVEN".
Proof. intros Hy. destruct b; (split; [|intros []]); done. Qed.

(** C24: the transport suite succeeds exactly on proof. A run that ends exits 0
    exactly when its target answered through the PEP and the PEP over IPv6, both
    direct probes, before and after a route that was really added, left without
    an answer or had no way out, the two mismatches were refused for that reason,
    the relayed body is the target's, the host's advisory says so, and the
    stream, live when the kill was armed, was cut. A probe that failed locally, was
    refused or never ran proves nothing. *)
Theorem transport_gate_exact e files code : main e = Ok (files, code) ->
  code = 0 <->
  passes (sv_via e) /\ sv_stack e = Connected /\ contained (sv_direct e) /\
  Ok 0 ∈ sv_routes e /\ contained (sv_after e) /\
  blocked_for "SNI_MISMATCH" (sv_sni e) /\ blocked_for "HOST_HEADER_MISMATCH" (sv_host e) /\ relays_target (sv_intercept e) /\
  (advised (sv_advisory e)).1 = "PROVEN" /\ cut (sv_drip e) (sv_seen e) (sv_joined e).
Proof.
  unfold main. intros Hm. apply res_bind_Ok in Hm as (rows & Hs & [= _ <-]). rewrite proven_all.
  unfold suite in Hs.
  apply res_bind_Ok in Hs as (via & Hvia & Hs). apply res_bind_Ok in Hs as (cmds & Hcmds & Hs).
  apply res_bind_Ok in Hs as (o & Ho & Hs). apply res_bind_Ok in Hs as (o2 & Ho2 & Hs). apply res_bind_Ok in Hs as (o3 & Ho3 & Hs).
  destruct (advised (sv_advisory e)) as [b7 b7d]. injection Hs as <-. cbn [forallb fst]. rewrite !row_proven, andb_true_r.
  set (ec := sv_errorcode e). set (ok := String.eqb (v via) "ALLOW" && String.eqb (tcp6 ec (sv_stack e)) "REACHABLE").
  assert (ok = true <-> passes (sv_via e) /\ sv_stack e = Connected) as Hok.
  { unfold ok, passes. rewrite andb_true_iff, !String.eqb_eq, observe_reachable, Hvia. split; intros [H1 H2]; split; eauto.
    destruct H1 as (x & [= <-] & Hx). done. }
  assert (String.eqb (v via) "ALLOW" = true <-> passes (sv_via e)) as Hpass.
  { unfold passes. rewrite String.eqb_eq, Hvia. split; [eauto|]. by intros (x & [= <-] & Hx). }
  transitivity (((ok = true /\ contained (sv_direct e)) /\ (existsb (String.eqb "rc=0") cmds = true /\ ok = true /\ contained (sv_after e)) /\
    (String.eqb (v via) "ALLOW" = true /\ contained (sv_direct e)) /\
    (blocked_for "SNI_MISMATCH" (sv_sni e) /\ blocked_for "HOST_HEADER_MISMATCH" (sv_host e)) /\ relays_target (sv_intercept e) /\
    (ok = true /\ b7 = "PROVEN") /\ cut (sv_drip e) (sv_seen e) (sv_joined e))).
  2: { rewrite Hok, Hpass, (injected_iff _ _ Hcmds). tauto. }
  rewrite <- (verdict_proven ec), <- (verdict_proven ec), <- (path_proven ec).
  rewrite !(guarded _ "PROVEN" "FAILED") by done.
  assert (forall b : bool, (if b then 0 else 1) = 0 <-> b = true) as Hif by (by intros []).
  rewrite Hif, !andb_true_iff, !String.eqb_eq, !only_if by done. rewrite kill_proven, Z.ltb_lt.
  unfold blocked_for, relays_target, cut. rewrite Ho, Ho2, Ho3.
  assert (forall (P : observed -> Prop) x, (exists y, Ok x = Ok y /\ P y) <-> P x) as Hex.
  { intros P x. split; [by intros (y & [= <-] & Hy)|]. intros Hx. by exists x. }
  rewrite !Hex. tauto.
Qed.

(** ** A run, evaluated *)

Definition http (status : string) (more body : string) : string := "HTTP/1.1 " ++ status ++ crlf ++ more ++ crlf ++ body.
Definition tunnel_s (response : string) : tunnel_env :=
  TunnelEnv (Ok tt) (Ok tt) [Ok (http "200 OK" "" "")] (Ok tt) (Ok tt) (Ok tt) [Ok response; Ok ""].
Definition refused_s (reason : string) : tunnel_env :=
  tunnel_s (http "403 Forbidden" ("X-PDP-Reason: " ++ reason ++ ":a!=b" ++ crlf) "").
Definition target_s : tunnel_env := tunnel_s (http "200 OK" "" ("{" ++ String "034" ("target" ++ String "034" ": 1}"))).
Definition suite_s (direct : attempt) : suite_env := {|
  sv_nonce := "n"; sv_errorcode := fun _ => None; sv_via := target_s; sv_stack := Connected; sv_direct := direct;
  sv_routes := [Ok 0%Z; Raise (PyExn "FileNotFoundError" "busybox")]; sv_after := TimedOut;
  sv_sni := refused_s "SNI_MISMATCH"; sv_host := refused_s "HOST_HEADER_MISMATCH"; sv_intercept := target_s;
  sv_advisory := Ok (VDict [("ready_for_e9", VBool true)]);
  sv_drip := tunnel_s (http "200 OK" ("Content-Length: 100" ++ crlf) "abc"); sv_seen := 1; sv_joined := 2 |}%nat.
Definition code_of (r : res (dict * dict * Z)) : option Z := match r with Ok (_, c) => Some c | Raise _ => None end.
Example local_refusal_is_no_proof :
  map (fun a => code_of (main (suite_s a))) [Failed (Some EHOSTUNREACH); Failed (Some EACCES); Failed (Some ECONNREFUSED); Connected]
  = [Some 0; Some 1; Some 1; Some 1]%Z.
Proof. vm_compute. reflexivity. Qed.
(** An advisory whose status reads PROVEN counts although it is not ready. *)
Example advisory_status_suffices : (advised (Ok (VDict [("ready_for_e9", VBool false); ("status", VStr "PROVEN")]))).1 = "PROVEN".
Proof. reflexivity. Qed.
Lemma transport_gate_exact_witness : exists files, main (suite_s TimedOut) = Ok (files, 0) /\
  cut (sv_drip (suite_s TimedOut)) 1 2 /\ contained TimedOut.
Proof.
  destruct (main (suite_s TimedOut)) as [[files code]|x] eqn:E; [|vm_compute in E; discriminate E].
  assert (code = 0) as -> by (vm_compute in E; congruence).
  exists files. split; [reflexivity|].
  pose proof (proj1 (transport_gate_exact _ _ _ E) eq_refl) as (_ & _ & Hc & _ & _ & _ & _ & _ & _ & Hcut).
  split; [exact Hcut|exact Hc].
Defined.
