(* ===== verification/Independent.v ===== *)
(** * The independent adversarial checks ([src/verification/independent/independent_corrected3_adversarial.py])

    A complete history, five forgeries of it, each chained, anchored and given
    to the verifier of closed runs; and what makes all five pass: a verdict does
    not depend on how a URL goes on after its host. *)

From S2P Require Import Prelude.
From S2P Require Import PyStr.
From S2P Require Import Json.
From S2P Require Import JsonFacts.
From S2P Require Import Hash.
From S2P Require Import AuditLog.
From S2P Require Import AuditProps.
From S2P Require Import Lifecycle.
From S2P Require Import PyDyn.
From S2P Require Import E10Anchor.
From S2P Require Import VerifyE10.
From S2P Require Import VerifyE10Facts.
From S2P Require Import VerifyE10Props.
Open Scope Z_scope.

Definition RUN : string := "run-independent-corrected3".
Definition SOURCE : string := "8e924860bd9b6f27381c6964ec1f585edf4d5ac3".
Definition KEY : string := "independent-local-test-key-material-32-bytes-minimum".
Definition KEY_ID : string := "independent-local-test-only".
Definition RESPONSE : string := String.concat "" (replicate 64 "b").

Section Independent.
Context `{Digest}.

Definition intent_text : string :=
  "v2" ++ String newline "GET" ++ String newline "allowed.lab" ++ String newline "/x" ++ String newline "body_len=0".
Definition auth : dict :=
  [ ("decision", VStr "AUTH_COMMITTED"); ("lifecycle_version", VStr "E10-v2"); ("attempt_id", VStr "att-1"); ("conn_id", VStr "conn-1");
    ("epoch", VInt 0); ("program_id", VStr "prog-1"); ("policy_generation", VStr "policy-1"); ("budget_binding", VStr "budget-1");
    ("method", VStr "GET"); ("canonical_host", VStr "allowed.lab"); ("pin_family", VStr "ipv4"); ("pin_ip", VStr "127.0.0.1");
    ("pin_port", VInt 443); ("credential_ref", VStr "none"); ("request_intent_digest", VStr ("sha256:" ++ sha256 intent_text));
    ("lifecycle_seq", VInt 1) ].
Definition quiescence : dict :=
  [ ("cancellation_epoch", VInt 1); ("lifecycle_seq", VInt 4); ("local_drain_complete", VBool true); ("inflight_remaining", VInt 0);
    ("effect_permits_remaining", VInt 0); ("audit_producers_remaining", VInt 0); ("listener_state", VStr "STOPPED");
    ("external_enforcement", VStr "NOT_RUN_PHASE1") ].
(** Fields the records of one attempt share. *)
Definition of_attempt (decision : string) : dict :=
  [ ("decision", VStr decision); ("attempt_id", VStr "att-1"); ("conn_id", VStr "conn-1"); ("epoch", VInt 0) ].
Definition allow : dict :=
  [ ("decision", VStr "ALLOW"); ("reason", VStr "ALLOW"); ("url", VStr "https://allowed.lab/x"); ("method", VStr "GET");
    ("src", VStr "127.0.0.1"); ("program_id", VStr "prog-1"); ("conn_id", VStr "conn-1"); ("attempt_id", VStr "att-1");
    ("test_nonce", VStr ""); ("row_id", VStr ""); ("tls_intercepted", VBool true); ("canonical_host", VStr "allowed.lab");
    ("sni", VNull); ("pin_family", VStr "ipv4"); ("pin_ip", VStr "127.0.0.1"); ("pin_port", VInt 443); ("upstream_status", VInt 200);
    ("redirect_followed", VBool false); ("credential_injected", VBool false); ("streamed_bytes", VInt 0);
    ("request_hash", VStr (sha256 intent_text)); ("request_hash_semantics", VStr "sanitized-intent-v2");
    ("response_hash", VStr RESPONSE) ].
Definition before_outcome : list dict :=
  [ auth;
    (of_attempt "PERMIT_GRANTED" ++ [("lifecycle_seq", VInt 2); ("policy_generation", VStr "policy-1"); ("budget_binding", VStr "budget-1")])%list;
    (of_attempt "EFFECT_ATTEMPTED" ++ [("permit_seq", VInt 2); ("pin_ip", VStr "127.0.0.1"); ("pin_port", VInt 443)])%list ].
Definition after_outcome : list dict :=
  [ (of_attempt "PERMIT_RELEASED" ++ [("permit_seq", VInt 2); ("lifecycle_seq", VInt 3)])%list;
    [("decision", VStr "CANCELLATION_REQUESTED"); ("reason", VStr "STOP_ALL_PRESENT"); ("cancellation_epoch", VInt 1); ("lifecycle_seq", VInt 4)];
    [("decision", VStr "CANCELLATION_LINEARIZED"); ("cancelled_epoch", VInt 0); ("new_epoch", VInt 1); ("lifecycle_seq", VInt 4);
     ("inflight_at_linearization", VInt 0)];
    ([("decision", VStr "KILL_SWITCH"); ("reason", VStr "STOP_ALL_TORE_DOWN_LIVE_CONNECTIONS"); ("connections_terminated", VInt 0);
      ("terminated_conn_ids", VList []); ("registered_at_kill", VList [])] ++ quiescence)%list;
    ([("decision", VStr "CANCELLATION_ACK"); ("ack_scope", VStr "LOCAL_IN_PROCESS_DRAIN_ONLY")] ++ quiescence)%list;
    [("decision", VStr "RUN_CLOSED"); ("closure_schema", VStr "E10-run-close-v1"); ("closure_sequence", VInt 4); ("closure_state", VStr "CLOSED");
     ("admission_state", VStr "TERMINAL"); ("inflight_remaining", VInt 0); ("effect_permits_remaining", VInt 0);
     ("audit_producers_remaining", VInt 0); ("listener_state", VStr "STOPPED"); ("seal_action", VStr "FINAL_FSYNC_THEN_ATOMIC_SEAL");
     ("cancellation_disposition", VStr "CANCELLATION_ACK")] ].
Definition outcome (decision : string) (more : dict) : dict := (of_attempt decision ++ ("permit_seq", VInt 2) :: more)%list.
(** [complete_records], its ALLOW for the given URL. *)
Definition complete_records (url : string) : list dict :=
  (before_outcome ++
   outcome "EFFECT_COMPLETED" [("upstream_status", VInt 200); ("response_hash", VStr RESPONSE); ("streamed_bytes", VInt 0)] ::
   dset "url" (VStr url) allow :: after_outcome)%list.
(** [unknown_records], its termination for the given URL. *)
Definition unknown_records (url : string) : list dict :=
  (before_outcome ++
   outcome "EFFECT_OUTCOME_UNKNOWN" [("reason", VStr "TimeoutError"); ("bytes_streamed", VInt 7)] ::
   [ ("decision", VStr "CONNECTION_TERMINATED"); ("reason", VStr "TimeoutError"); ("url", VStr url); ("method", VStr "GET");
     ("bytes_streamed", VInt 7); ("conn_id", VStr "conn-1"); ("attempt_id", VStr "att-1"); ("test_nonce", VStr ""); ("row_id", VStr "");
     ("pin", VList [VStr "ipv4"; VStr "127.0.0.1"; VInt 443]) ] :: after_outcome)%list.

(** [write_chain]: the file, the [i]-th record stamped with time [i]. *)
Fixpoint write_chain (i : Z) (prev : string) (records : list dict) : string :=
  match records with
  | [] => ""
  | source :: rest =>
      let raw := dumps (VDict (dset "prev" (VStr prev) (dset "ts" (VFloat (FFin (10 * i) 0)) (dset "run_id" (VStr RUN) source)))) in
      raw ++ String newline (write_chain (i + 1) (sha256 raw) rest)
  end.
(** [created] is the clock's text in the anchor. *)
Definition verify_case (created : string) (records : list dict) : res result :=
  let log := write_chain 1 GENESIS records in
  anchor <- build_anchor log RUN SOURCE KEY KEY_ID created;;
  verify (Inputs (Some log) RUN "anchor.json" (Some (anchor_bytes anchor)) "key" (Some KEY) SOURCE KEY_ID false).
Definition cases : list (string * list dict) :=
  [ ("baseline_without_startup", complete_records "https://allowed.lab/x");
    ("allow_prefix_spoof", complete_records "https://allowed.lab.evil.example/x");
    ("allow_userinfo_spoof", complete_records "https://allowed.lab@evil.example/x");
    ("allow_path_contradiction", complete_records "https://allowed.lab/not-the-authorized-path");
    ("allow_port_contradiction", complete_records "https://allowed.lab:9443/x");
    ("termination_prefix_spoof", unknown_records "https://allowed.lab.evil.example/x") ].
Definition results (created : string) : res (list (string * string)) :=
  rmap (fun c => r <- verify_case created c.2;; Ok (c.1, rs_status r)) cases.
Definition main (created : string) : res (list string * Z) :=
  l <- results created;;
  let bad := map fst (List.filter (fun c => String.eqb c.2 "PROVEN") l) in
  Ok (bad, if Nat.eqb (length bad) (length l) then 1 else 0).
End Independent.

(** The suite, evaluated: an ALLOW that names another host is PROVEN, chained with
    SHA-256, and so are the baseline and all five forgeries; the suite exits 1. *)
Example suite_fails :
  (r <- verify_case (H := hashlib) "2026-01-01T00:00:00Z" (complete_records (H := hashlib) "https://allowed.lab@evil.example/x");;
   Ok (rs_status r)) = Ok "PROVEN" /\
  main (H := toy) "2026-01-01T00:00:00Z" =
    Ok (["baseline_without_startup"; "allow_prefix_spoof"; "allow_userinfo_spoof"; "allow_path_contradiction"; "allow_port_contradiction";
         "termination_prefix_spoof"], 1).
Proof. split; vm_compute; reflexivity. Qed.

(** ** What the verdict does not read

    Two histories are the same to the verifier when they agree but for the ALLOW
    and termination records they keep: of these it asks only whether they are
    there. *)

Definition shadow (o : option dict) : option dict := match o with Some _ => Some [] | None => None end.
Definition shade (a : attempt) : attempt :=
  Attempt (at_state a) (at_auth a) (at_permit a) (at_attempted a) (at_terminal a) (shadow (at_allow a)) (at_release a)
    (at_late a) (shadow (at_terminated a)).
Definition shade_all : list (string * attempt) -> list (string * attempt) := map (fun ka => (ka.1, shade ka.2)).
Definition bare (h : history) : history :=
  History (shade_all (h_attempts h)) (h_sequences h) (h_state h) (h_startup h) (h_active h) (h_cancel h)
    (h_request h) (h_kill h) (h_disposition h) (h_closure h).
Definition bare_out (o : res (result + history)) : res (result + history) :=
  match o with Ok (inr h) => Ok (inr (bare h)) | _ => o end.

Lemma find_shade aid l : find_attempt aid (shade_all l) = shade <$> find_attempt aid l.
Proof. induction l as [|[k x] l IH]; cbn; [done|]. by destruct (String.eqb aid k). Qed.
Lemma put_shade aid a l : shade_all (put_attempt aid a l) = put_attempt aid (shade a) (shade_all l).
Proof. unfold shade_all. induction l as [|[k x] l IH]; cbn; [done|]. destruct (String.eqb aid k); cbn; [done|by rewrite IH]. Qed.
Lemma shade_shade a : shade (shade a) = shade a.
Proof. by destruct a as [? ? ? ? ? [|] ? ? [|]]. Qed.
Lemma shade_all_twice l : shade_all (shade_all l) = shade_all l.
Proof. induction l as [|[k x] l IH]; cbn; [done|]. by rewrite shade_shade, IH. Qed.
Lemma attempt_bare aid h : attempt_of aid (bare h) = shade <$> attempt_of aid h.
Proof. apply find_shade. Qed.
Lemma bare_bare h : bare (bare h) = bare h.
Proof. unfold bare. cbn. by rewrite shade_all_twice. Qed.
Lemma bare_set aid a h : bare (set_attempt aid a h) = set_attempt aid (shade a) (bare h).
Proof. unfold bare, set_attempt. cbn. by rewrite put_shade. Qed.
Lemma bare_own seq h : bare (own seq h) = own seq (bare h).
Proof. done. Qed.
Lemma set_bare aid a b h h' : shade a = shade b -> bare h = bare h' ->
  bare (set_attempt aid a h) = bare (set_attempt aid b h').
Proof. intros Ha Hh. by rewrite !bare_set, Ha, Hh. Qed.

Lemma keys_shade p h : (forall a, p (shade a) = p a) -> keys_where p (bare h) = keys_where p h.
Proof.
  intros Hp. unfold keys_where, bare. cbn [h_attempts]. induction (h_attempts h) as [|[k x] l IH]; cbn; [done|].
  rewrite Hp. destruct (p x); cbn; [f_equal|]; exact IH.
Qed.
Lemma is_some_shadow o : is_some (shadow o) = is_some o.
Proof. by destruct o. Qed.
Lemma incomplete_bare h : incomplete_attempts (bare h) = incomplete_attempts h.
Proof. by apply keys_shade. Qed.
Lemma releases_bare h : missing_releases (bare h) = missing_releases h.
Proof. by apply keys_shade. Qed.
Lemma allows_bare h : missing_allows (bare h) = missing_allows h.
Proof. apply keys_shade. intros a. cbn. by rewrite is_some_shadow. Qed.
Lemma inflight_bare h c : logical_inflight (bare h) c = logical_inflight h c.
Proof.
  unfold logical_inflight, bare. cbn [h_attempts]. f_equal. induction (h_attempts h) as [|[k x] l IH]; cbn; [done|].
  destruct (at_permit x) as [p|]; [|exact IH]. destruct (_ && _); cbn; [f_equal|]; exact IH.
Qed.
Lemma linearization_bare r l : linearization_error r (shade_all l) = linearization_error r l.
Proof. induction l as [|[k x] l IH]; cbn; [done|]. by rewrite IH. Qed.
Lemma conclude_bare h : conclude (bare h) = conclude h.
Proof.
  unfold conclude, counts_of, count. rewrite incomplete_bare, allows_bare, releases_bare, !keys_shade; cbn; try done.
  2: intros a; apply is_some_shadow.
  unfold shade_all. rewrite length_map. destruct (h_attempts h); [done|]. reflexivity.
Qed.

(** Each branch reads them no more than that. *)
Lemma when_bare (c : bool) x k k' : bare_out k = bare_out k' ->
  bare_out (if c then Ok (inl x) else k) = bare_out (if c then Ok (inl x) else k').
Proof. by destruct c. Qed.
Lemma go_bare h h' : bare h = bare h' -> bare_out (go h) = bare_out (go h').
Proof. unfold go. cbn. by intros ->. Qed.
Lemma own_bare seq h : bare (own seq (bare h)) = bare (own seq h).
Proof. by rewrite !bare_own, bare_bare. Qed.
Ltac shaded h :=
  cbv zeta; rewrite ?attempt_bare;
  repeat match goal with |- context [attempt_of ?aid h] => destruct (attempt_of aid h) as [[? ? [|] ? ? [|] ? ? [|]]|];
    cbn [fmap option_fmap option_map shade at_permit at_allow at_terminated at_state at_auth at_attempted at_terminal at_release at_late shadow] end;
  repeat apply when_bare; try reflexivity; apply go_bare; try (apply set_bare; [reflexivity|]);
  first [apply own_bare | apply bare_bare].
Lemma auth_bare aid r h : bare_out (on_auth aid r (bare h)) = bare_out (on_auth aid r h).
Proof.
  unfold on_auth. cbv zeta. rewrite attempt_bare. destruct (attempt_of aid h); cbn [fmap option_fmap option_map is_some];
    repeat apply when_bare; try reflexivity. apply go_bare, set_bare; [reflexivity|apply own_bare].
Qed.
Lemma permit_bare aid r h : bare_out (on_permit aid r (bare h)) = bare_out (on_permit aid r h).
Proof. unfold on_permit. shaded h. Qed.
Lemma attempted_bare aid r h : bare_out (on_attempted aid r (bare h)) = bare_out (on_attempted aid r h).
Proof. unfold on_attempted. shaded h. Qed.
Lemma terminal_bare d aid r h : bare_out (on_terminal d aid r (bare h)) = bare_out (on_terminal d aid r h).
Proof. unfold on_terminal. shaded h. Qed.
Lemma allow_bare aid r h : bare_out (on_allow aid r (bare h)) = bare_out (on_allow aid r h).
Proof. unfold on_allow. shaded h. Qed.
Lemma release_bare aid r h : bare_out (on_release aid r (bare h)) = bare_out (on_release aid r h).
Proof. unfold on_release. shaded h. Qed.
Lemma terminated_bare aid r h : bare_out (on_terminated aid r (bare h)) = bare_out (on_terminated aid r h).
Proof. unfold on_terminated. shaded h. Qed.
(** A step of the run, which no attempt is part of. *)
Ltac run_bare := apply go_bare; unfold bare; cbn; by rewrite ?shade_all_twice.
Lemma linearized_bare r h : bare_out (on_linearized r (bare h)) = bare_out (on_linearized r h).
Proof.
  unfold on_linearized. cbv zeta. repeat apply when_bare. change (h_attempts (bare h)) with (shade_all (h_attempts h)).
  rewrite linearization_bare. destruct (linearization_error _ _); [done|]. run_bare.
Qed.
Lemma kill_bare r h : bare_out (on_kill r (bare h)) = bare_out (on_kill r h).
Proof.
  unfold on_kill. cbv zeta. rewrite incomplete_bare, allows_bare, releases_bare, inflight_bare. repeat apply when_bare. run_bare.
Qed.
Lemma disposition_bare d r h : bare_out (on_disposition d r (bare h)) = bare_out (on_disposition d r h).
Proof.
  unfold on_disposition. change (h_kill (bare h)) with (h_kill h). destruct (h_kill h) as [kill|]; [|done]. repeat apply when_bare.
  destruct (String.eqb d CANCEL_ACK); [apply when_bare; run_bare|]. destruct (dindex r _) as [v|x]; [|done]. cbn [rbind].
  apply when_bare. run_bare.
Qed.
Lemma closed_bare r h : bare_out (on_closed r (bare h)) = bare_out (on_closed r h).
Proof. unfold on_closed. repeat apply when_bare. run_bare. Qed.
Lemma blocked_bare r h : bare_out (on_blocked r (bare h)) = bare_out (on_blocked r h).
Proof. unfold on_blocked. repeat apply when_bare. run_bare. Qed.
Lemma startup_bare d r h : bare_out (on_startup d r (bare h)) = bare_out (on_startup d r h).
Proof. unfold on_startup. apply when_bare. destruct (String.eqb d _); [run_bare|]. destruct (String.eqb d _); [run_bare|]. apply when_bare. run_bare. Qed.
Lemma active_bare d aid r h : bare_out (on_active d aid r (bare h)) = bare_out (on_active d aid r h).
Proof.
  unfold on_active. repeat match goal with |- bare_out (if ?c then _ else _) = bare_out (if ?c then _ else _) => destruct c end;
    auto using auth_bare, permit_bare, attempted_bare, terminal_bare, allow_bare, release_bare, linearized_bare, kill_bare,
      disposition_bare, closed_bare, terminated_bare, blocked_bare.
  apply when_bare. run_bare.
Qed.
Lemma step_bare r h : bare_out (step r (bare h)) = bare_out (step r h).
Proof.
  unfold step. cbv zeta. do 2 apply when_bare. destruct (mem_str _ _); [apply startup_bare|].
  change (set_active (bare h)) with (bare (set_active h)). apply active_bare.
Qed.
Lemma step_same r h h' : bare h = bare h' -> bare_out (step r h) = bare_out (step r h').
Proof. intros E. by rewrite <- (step_bare r h), <- (step_bare r h'), E. Qed.

(** ** Forged URLs *)

(** An ALLOW or a termination, anything appended to its URL. *)
Definition forged (r r' : dict) : Prop :=
  r' = r \/ (decision_of r = "ALLOW" \/ decision_of r = "CONNECTION_TERMINATED") /\
    exists url more, dget "url" r = Some (VStr url) /\ r' = dset "url" (VStr (url ++ more)) r.

Lemma startswith_longer p s more : startswith p s = true -> startswith p (s ++ more) = true.
Proof.
  unfold startswith. revert s. induction p as [|c p IH]; intros [|d s]; cbn; try done.
  - by destruct more.
  - destruct (ascii_dec _ _); [apply IH|done].
Qed.

Section Forged.
Context (r r' : dict) (url more : string) (Hu : dget "url" r = Some (VStr url)) (Hr : r' = dset "url" (VStr (url ++ more)) r).
Lemma forged_get k : k <> "url" -> dget k r' = dget k r.
Proof. intros Hk. rewrite Hr. by apply dget_dset_ne. Qed.
Lemma forged_fld k : k <> "url" -> fld k r' = fld k r.
Proof. intros Hk. unfold fld, dget_or. by rewrite forged_get. Qed.
Lemma forged_str k : k <> "url" -> str_of k r' = str_of k r.
Proof. intros Hk. unfold str_of. by rewrite forged_fld. Qed.
Lemma forged_url : dget "url" r' = Some (VStr (url ++ more)).
Proof. rewrite Hr. apply dget_dset_eq. Qed.
Lemma forged_keys : dkeys r' = dkeys r.
Proof. rewrite Hr, dkeys_dset. unfold dmem. by rewrite Hu. Qed.
Lemma forged_mem k : dmem k r' = dmem k r.
Proof.
  unfold dmem. destruct (String.eqb_spec k "url") as [->|Hk]; [by rewrite forged_url, Hu|by rewrite forged_get].
Qed.
Lemma forged_prefix p : startswith p (str_of "url" r) = true -> startswith p (str_of "url" r') = true.
Proof.
  unfold str_of, fld, dget_or. rewrite Hu, forged_url. apply startswith_longer.
Qed.
Lemma forged_decision : decision_of r' = decision_of r.
Proof. by apply forged_str. Qed.
Lemma forged_aid : aid_of r' = aid_of r.
Proof. unfold aid_of, dget_or. by rewrite forged_get. Qed.

(** The schema asks for a text. *)
Lemma forged_present p k : k <> "url" -> present_ok p r' k = present_ok p r k.
Proof. intros Hk. unfold present_ok. by rewrite forged_get. Qed.
Lemma forged_all p l : "url" ∉ l -> forallb (present_ok p r') l = forallb (present_ok p r) l.
Proof.
  induction l as [|k l IH]; cbn; [done|]. intros [Hk Hl]%not_elem_of_cons. by rewrite forged_present, IH.
Qed.
Lemma forged_types : types_ok r' = types_ok r.
Proof.
  unfold types_ok. rewrite (forged_all _ int_fields), (forged_all _ bool_fields), (forged_all _ list_fields), !forged_present by first [done|not_in]. do 5 f_equal.
  unfold STRING_FIELDS. cbn [forallb]. unfold present_ok. rewrite forged_url, Hu. by rewrite !forged_get.
Qed.
Lemma forged_values d : values_ok d r' = values_ok d r.
Proof. unfold values_ok, intent_ok, int_of, str_of, fld, dget_or, dmem. cbn [forallb]. by rewrite !forged_get. Qed.
Lemma forged_schema : schema_error r' = schema_error r.
Proof.
  unfold schema_error, chain_metadata_ok. rewrite !forged_fld, forged_keys, forged_types by done. unfold dget_or. rewrite !forged_get by done.
  destruct (negb (hashable _)); [done|]. destruct (fld "decision" r); try done. destruct (schema _) as [[req all]|]; [|done].
  rewrite forged_values. assert (existsb (fun k => negb (dmem k r')) req = existsb (fun k => negb (dmem k r)) req) as ->; [|done].
  induction req as [|k req IH]; cbn; [done|]. by rewrite forged_mem, IH.
Qed.

(** The two branches that read a URL ask for its prefix. *)
Lemma forged_allow a t : allow_valid r a t = true -> allow_valid r' a t = true.
Proof.
  unfold allow_valid, same. cbv zeta. rewrite !forged_fld, !forged_str by done. rewrite !andb_true_iff. intuition auto using forged_prefix.
Qed.
Lemma forged_termination a t : termination_bound r t a = true -> termination_bound r' t a = true.
Proof.
  unfold termination_bound, same. cbv zeta. rewrite !forged_fld by done. rewrite !andb_true_iff. intuition auto using forged_prefix.
Qed.
End Forged.

Lemma on_allow_forged r r' url more aid h h1 : dget "url" r = Some (VStr url) -> r' = dset "url" (VStr (url ++ more)) r ->
  on_allow aid r h = Ok (inr h1) -> bare_out (on_allow aid r' h) = Ok (inr (bare h1)).
Proof.
  intros Hu Hr Hs. unfold on_allow in *. whens Hs. injection Hs as <-. apply negb_false_iff in W2.
  rewrite (forged_allow r r' url more Hu Hr _ _ W2). cbn. by rewrite !bare_set.
Qed.
Lemma on_terminated_forged r r' url more aid h h1 : dget "url" r = Some (VStr url) -> r' = dset "url" (VStr (url ++ more)) r ->
  on_terminated aid r h = Ok (inr h1) -> bare_out (on_terminated aid r' h) = Ok (inr (bare h1)).
Proof.
  intros Hu Hr Hs. unfold on_terminated in *. cbv zeta in *. whens Hs. injection Hs as <-. apply negb_false_iff in W2.
  rewrite (forged_termination r r' url more Hu Hr _ _ W2). cbn. by rewrite !bare_set.
Qed.
Lemma step_forged r r' h h1 : forged r r' -> step r h = Ok (inr h1) -> bare_out (step r' h) = Ok (inr (bare h1)).
Proof.
  intros [->|(Hd & url & more & Hu & Hr)]; [by intros ->|].
  pose proof (forged_decision r r' url more Hr) as Ed. pose proof (forged_aid r r' url more Hr) as Ea.
  unfold step. fold (aid_of r) (aid_of r'). cbv zeta. rewrite Ed, Ea. intros Hs. whens Hs. revert Hs. destruct Hd as [-> | ->].
  - by apply (on_allow_forged r r' url more).
  - by apply (on_terminated_forged r r' url more).
Qed.
Lemma steps_forged rs rs' : Forall2 forged rs rs' -> forall h h' h1, bare h = bare h' -> steps rs h = Ok (inr h1) ->
  exists h2, steps rs' h' = Ok (inr h2) /\ bare h2 = bare h1.
Proof.
  induction 1 as [|r r' rs rs' Hr _ IH]; intros h h' h1 Hb Hs; cbn [steps] in *.
  - injection Hs as <-. exists h'. split; [done|by symmetry].
  - destruct (step r h) as [[b|h3]|x] eqn:E; try discriminate Hs. cbn [rbind] in Hs.
    pose proof (step_forged _ _ _ _ Hr E) as Hst. rewrite (step_same _ _ _ Hb) in Hst.
    destruct (step r' h') as [[b|h4]|x] eqn:E'; try discriminate Hst. cbn [bare_out] in Hst. assert (bare h3 = bare h4) as Hb' by congruence. cbn [rbind].
    by apply (IH h3).
Qed.
Lemma check_forged run_id rs rs' : Forall2 forged rs rs' -> check_records run_id rs' = check_records run_id rs.
Proof.
  induction 1 as [|r r' rs rs' [->|(_ & url & more & Hu & Hr)] _ IH]; cbn [check_records]; [done|by rewrite IH|].
  by rewrite (forged_fld r r' url more Hr), (forged_schema r r' url more Hu Hr), IH by done.
Qed.

(** C17: the verifier does not bind the URL of a record. Take any accepted history
    and append anything, [.evil.example/x] or [@evil.example/x] or another port or
    path, to the URLs of any of its ALLOW and CONNECTION_TERMINATED records: the
    verdict is the same, with the same counts, disposition and closure. *)
Theorem urls_unbound run_id rs rs' res : validate_history rs run_id = Ok res -> rs_status res = "LOCAL_HISTORY_VALID" ->
  Forall2 forged rs rs' -> validate_history rs' run_id = Ok res.
Proof.
  intros Hv Hs Hf. destruct (validate_cases _ _ _ Hv Hs) as (_ & h & Hst & ->).
  destruct (steps_forged rs rs' Hf history0 history0 h eq_refl Hst) as (h' & Hst' & Hb).
  revert Hv. unfold validate_history. destruct (String.eqb run_id ""); [done|].
  assert (bool_decide (rs' = []) = bool_decide (rs = [])) as -> by (apply bool_decide_ext; by destruct Hf).
  destruct (bool_decide _); [done|]. rewrite (check_forged run_id rs rs' Hf), Hst, Hst'.
  destruct (check_records run_id rs) as [[b|]|x]; try done. cbn [rbind]. intros _.
  by rewrite <- (conclude_bare h'), Hb, conclude_bare.
Qed.

(** The history of the suite, its termination and its ALLOW forged. *)
Definition loaded (records : list dict) : list dict :=
  default [] (load_and_verify (H := toy) (Some (write_chain (H := toy) 1 GENESIS records))).
Definition forge (more : string) (r : dict) : dict :=
  if mem_str (decision_of r) ["ALLOW"; "CONNECTION_TERMINATED"] then dset "url" (VStr (str_of "url" r ++ more)) r else r.
Lemma forge_forged more r : (mem_str (decision_of r) ["ALLOW"; "CONNECTION_TERMINATED"] = true -> is_strv (fld "url" r) = true) ->
  forged r (forge more r).
Proof.
  unfold forge. destruct (mem_str _ _) eqn:E; [|by left]. intros Hu. specialize (Hu eq_refl). right. split.
  - apply mem_str_spec in E. elems E; auto.
  - unfold str_of, fld, dget_or in *. destruct (dget "url" r) as [[]|]; try discriminate Hu. by eexists _, more.
Qed.
Definition outcome_ind : result :=
  match validate_history (loaded (complete_records (H := toy) "https://allowed.lab")) RUN with Ok x => x | Raise _ => only "" end.
Lemma urls_unbound_witness :
  validate_history (map (forge "@evil.example/x") (loaded (complete_records (H := toy) "https://allowed.lab"))) RUN = Ok outcome_ind.
Proof.
  apply (urls_unbound RUN (loaded (complete_records (H := toy) "https://allowed.lab"))).
  - vm_compute. reflexivity.
  - vm_compute. reflexivity.
  - apply Forall2_fmap_r, Forall_Forall2_diag. eapply Forall_impl; [|intros r; apply forge_forged].
    vm_compute. by repeat constructor.
Defined.
