(* ===== verification/PepClient.v ===== *)
(** * The IPv4 acceptance client ([src/pep/pep_client.py])

    The suite the sandbox runs against the production gateway, over what its
    tunnels answer. Its readers are those of the transport suite. *)

From S2P Require Import Prelude.
From S2P Require Import PyStr.
From S2P Require Import Json.
From S2P Require Import PyDyn.
From S2P Require Import Hash.
From S2P Require Import IpAddr.
From S2P Require Import Gateway.
From S2P Require Import Harness.
From S2P Require Import Transport.
Open Scope Z_scope.

(** ** One tunnel *)

(** The dictionary [out]. *)
Record seen := Seen {
  se_connect : Z; se_reason : string; se_status : Z; se_body : string; se_err : string; se_loc : string;
  se_bytes : Z; se_sha : string }.
Definition seen0 : seen := Seen 0 "" 0 "" "" "" 0 "".
Definition set_err (e : string) (o : seen) : seen :=
  Seen (se_connect o) (se_reason o) (se_status o) (se_body o) e (se_loc o) (se_bytes o) (se_sha o).
Definition set_sha (s : string) (o : seen) : seen :=
  Seen (se_connect o) (se_reason o) (se_status o) (se_body o) (se_err o) (se_loc o) (se_bytes o) s.
(** The last line of the given name wins. *)
Definition header_line (name text before : string) : string :=
  foldl (fun r ln => if startswith name (str_lower ln) then str_strip (partition ":" ln).2 else r) before (split_str crlf text).
(** The bytes hashed and what is observed, once the peer is done. *)
Fixpoint read_tls (read_body : bool) (chunks : list (res string)) (first : bool) (hashed : string) (o : seen) : string * seen :=
  match chunks with
  | [] => (hashed, o)
  | Raise e :: _ => (hashed, if se_bytes o =? 0 then set_err ("IO:" ++ exn_cls e) o else o)
  | Ok "" :: _ => (hashed, o)
  | Ok c :: rest =>
      let status := if first then status_of c else se_status o in
      let reason := if first then header_line "x-pdp-reason:" c (se_reason o) else se_reason o in
      let loc := if first then header_line "location:" c (se_loc o) else se_loc o in
      let bytes := se_bytes o + Z.of_nat (String.length c) in
      let body := if read_body && (bytes <? 4096) then se_body o ++ c else se_body o in
      read_tls read_body rest false (hashed ++ c) (Seen (se_connect o) reason status body (se_err o) loc bytes (se_sha o))
  end.
Definition tunnel `{Digest} (read_body : bool) (e : tunnel_env) : res seen :=
  match te_connect e with Raise x => Ok (set_err ("NOGW:" ++ exn_cls x) seen0) | Ok _ =>
  _ <- te_send e;;
  match read_reply "" (te_recv e) with Raise x => Ok (set_err (exn_cls x) seen0) | Ok head =>
  let o := Seen (reply_code head) (header_line "x-pdp-reason:" head "") 0 "" "" "" 0 "" in
  if negb (se_connect o =? 200) then Ok o else
  _ <- te_context e;;
  match te_wrap e with Raise x => Ok (set_err ("TLS:" ++ exn_cls x) o) | Ok _ =>
  let o := match te_request e with Raise x => set_err ("SEND:" ++ exn_cls x) o | Ok _ => o end in
  let '(hashed, o) := read_tls read_body (te_response e) true "" o in
  Ok (set_sha (sha256 hashed) o)
  end end end.
Definition v (o : seen) : string :=
  if startswith "NOGW" (se_err o) then "NOGW"
  else if se_connect o =? 503 then "LIMIT"
  else if (se_connect o =? 403) || (se_status o =? 403) then "BLOCK"
  else if startswith "TLS" (se_err o) then "TLSFAIL"
  else if se_status o =? 200 then "ALLOW"
  else if (300 <=? se_status o) && (se_status o <? 400) then "REDIRECT"
  else "OTHER" ++ show_Z (se_status o).
Definition first_field (s : string) : string := (partition ":" s).1.1.
Definition blocked_by (o : seen) (prefixes : list string) : string :=
  if negb (String.eqb (v o) "BLOCK") then v o
  else if existsb (fun p => startswith p (se_reason o)) prefixes then "BLOCK"
  else "BLOCKED_FOR_OTHER_REASON:" ++ (if String.eqb (first_field (se_reason o)) "" then "none" else first_field (se_reason o)).

(** ** The verdicts of the composite rows *)

Definition rebind_first (o1 : seen) : string :=
  if String.eqb (v o1) "ALLOW" then "ALLOW"
  else if startswith "OUT_OF_SCOPE" (se_reason o1) || startswith "DNS_NO_" (se_reason o1) then "NO_TARGET_PROVISIONED"
  else v o1.
Definition rebind_second (pp9 ip : string) (o2 : seen) : string :=
  if negb (String.eqb pp9 "ALLOW") then "NO_POSITIVE_CONTROL"
  else if negb (String.eqb (v o2) "BLOCK") then v o2
  else if negb (startswith "IP_NOT_AUTHORIZED:" (se_reason o2)) then "BLOCKED_FOR_OTHER_REASON:" ++ first_field (se_reason o2)
  else if negb (String.eqb ip "") && negb (endswith ip (se_reason o2)) then "WRONG_IP_IN_DENIAL:" ++ se_reason o2
  else "BLOCK".
(** The counts of [hammer] when they are read, from the tunnels finished then; a
    thread that raised has counted nothing. *)
Record hits := Hits { hi_limit : Z; hi_ok : Z; hi_other : Z }.
Definition hammer (h : hits) (r : res seen) : hits :=
  match r with
  | Raise _ => h
  | Ok o => if String.eqb (v o) "LIMIT" then Hits (hi_limit h + 1) (hi_ok h) (hi_other h)
            else if String.eqb (v o) "ALLOW" then Hits (hi_limit h) (hi_ok h + 1) (hi_other h)
            else Hits (hi_limit h) (hi_ok h) (hi_other h + 1)
  end.
(** The probes, up to 120, until one is allowed. *)
Fixpoint drained `{Digest} (n : nat) (probes : list tunnel_env) : res bool :=
  match n, probes with
  | S n', p :: rest => o <- tunnel true p;; if String.eqb (v o) "ALLOW" then Ok true else drained n' rest
  | _, _ => Ok false
  end.
(** [drip] after [n] chunks; nobody reads the status its holder keeps. *)
Definition drip (e : tunnel_env) (n : nat) : holder :=
  match te_connect e with Raise x => fail_with x holder0 | Ok _ =>
  match te_send e with Raise x => fail_with x holder0 | Ok _ =>
  match read_reply "" (te_recv e) with Raise x => fail_with x holder0 | Ok b =>
  if negb (contains " 200 " b) then
    match second_word b with
    | Some w => Holder 0 ("CONNECT_" ++ w) 0 0
    | None => fail_with (PyExn "IndexError" "list index out of range") holder0
    end
  else
  match te_context e with Raise x => fail_with x holder0 | Ok _ =>
  match te_wrap e with Raise x => fail_with x holder0 | Ok _ =>
  match te_request e with Raise x => fail_with x holder0 | Ok _ =>
  stream (firstn n (te_response e)) "" holder0
  end end end end end end.
Definition kill_outcome (live : bool) (h : holder) : string :=
  if live && truthy (terminated live h) then "TERMINATED" else if live then "SURVIVED" else "NO_LIVE_STREAM".

(** ** The suite ([main]) *)

Definition rec (tid desc expect got detail : string) : dict :=
  let ok := String.eqb expect got in
  [ ("id", VStr tid); ("desc", VStr desc); ("expect", VStr expect); ("got", VStr got);
    ("status", VStr (if ok then "PROVEN" else got)); ("pass", VBool ok); ("detail", VStr (take 200 detail)) ].
(** What the run meets, in order; [cv_elapsed] is the text of the seconds the
    large response took. *)
Record client_env := ClientEnv {
  cv_nonce : string; cv_rebind_ip : string;
  cv_allowed : tunnel_env; cv_neverseen : tunnel_env; cv_evil : tunnel_env; cv_sni : tunnel_env; cv_host : tunnel_env;
  cv_method : tunnel_env; cv_redirect : tunnel_env; cv_badcert : tunnel_env; cv_rebind1 : tunnel_env; cv_rebind2 : tunnel_env;
  cv_credential : tunnel_env; cv_foreign : tunnel_env; cv_big : tunnel_env; cv_elapsed : string; cv_control : tunnel_env;
  cv_hammer : list tunnel_env; cv_probes : list tunnel_env; cv_drip : tunnel_env; cv_seen : nat; cv_joined : nat }.
Definition or_any (s : string) : string := if String.eqb s "" then "<any>" else s.
Definition AUTH_PRESENT : string := String "034" ("auth_present" ++ String "034" ": true").
Section Suite.
Context `{Digest}.
(** A row that asks the PEP's own reason for a block. *)
Definition block_row (tid desc : string) (o : seen) (reason : string) : dict :=
  rec tid desc "BLOCK" (blocked_by o [reason]) (se_reason o).
Definition enforcement_rows (e : client_env) : res (list dict) :=
  o1 <- tunnel true (cv_allowed e);; o2 <- tunnel true (cv_neverseen e);; o3 <- tunnel true (cv_evil e);;
  o4 <- tunnel true (cv_sni e);; o5 <- tunnel true (cv_host e);; o6 <- tunnel true (cv_method e);;
  o7 <- tunnel true (cv_redirect e);; o8 <- tunnel true (cv_badcert e);;
  r1 <- tunnel true (cv_rebind1 e);; r2 <- tunnel true (cv_rebind2 e);;
  let pp9 := rebind_first r1 in
  o11 <- tunnel true (cv_credential e);; o13 <- tunnel true (cv_foreign e);;
  Ok [ rec "PP1" "in-scope HTTPS allowed (dynamic cert minted)" "ALLOW" (v o1) (se_reason o1);
       block_row "PP2" "never-seen host: minted, then upstream mismatch denied" o2 "UPSTREAM_CERT_INVALID";
       block_row "PP3" "out-of-scope host" o3 "OUT_OF_SCOPE";
       block_row "PP4" "SNI mismatch" o4 "SNI_MISMATCH";
       block_row "PP5" "Host mismatch inside tunnel" o5 "HOST_HEADER_MISMATCH";
       block_row "PP6" "method policy inside tunnel" o6 "METHOD_DENIED";
       rec "PP7" "3xx not auto-followed" "REDIRECT" (v o7) (se_loc o7);
       block_row "PP8" "untrusted upstream cert -> fail closed" o8 "UPSTREAM_CERT_INVALID";
       rec "PP9" "rebind 1st authorized (positive control for PP10)" "ALLOW" pp9 ("reason=" ++ se_reason r1);
       rec "PP10" "rebind 2nd flips -> denied BY rebinding check" "BLOCK" (rebind_second pp9 (cv_rebind_ip e) r2)
         ("reason=" ++ se_reason r2 ++ " expect_ip=" ++ or_any (cv_rebind_ip e));
       rec "PP11" "authorized credential injected" "ALLOW" (v o11) "";
       rec "PP12" "upstream saw credential" "YES" (if contains AUTH_PRESENT (se_body o11) then "YES" else "NO") "";
       block_row "PP13" "credential from another program" o13 "CREDENTIAL_WRONG_PROGRAM" ].
Definition load_rows (e : client_env) : res (list dict) :=
  o <- tunnel false (cv_big e);; ctl <- tunnel true (cv_control e);;
  let serves := String.eqb (v ctl) "ALLOW" in
  let h := foldl hammer (Hits 0 0 0) (map (tunnel true) (cv_hammer e)) in
  Ok [ rec "PP14" "2MB response streamed through" "ALLOW" (v o)
         (show_Z (se_bytes o) ++ " bytes in " ++ cv_elapsed e ++ "s sha=" ++ take 12 (se_sha o));
       rec "PP15" "full body delivered (>=2MB)" "YES" (if 2 * 1024 * 1024 <=? se_bytes o then "YES" else "NO(" ++ show_Z (se_bytes o) ++ ")") "";
       rec "PP16" "excess connections rejected with audited 503" "YES"
         (if negb serves then "NO_POSITIVE_CONTROL" else if 0 <? hi_limit h then "YES" else "NO")
         ("limit=" ++ show_Z (hi_limit h) ++ " ok=" ++ show_Z (hi_ok h) ++ " pool_serves=" ++ bool_text serves ++ " control=" ++ v ctl) ].
(** PP17 and the advisory file, which is written only if the pool drained. *)
Definition kill_rows (e : client_env) : res (list dict * option dict) :=
  ready <- drained 120 (cv_probes e);;
  if negb ready then Ok ([rec "PP17" "kill switch: pool never drained (cannot test)" "TERMINATED" "POOL_SATURATED" ""], None) else
  let live := 0 <? ho_partial (drip (cv_drip e) (cv_seen e)) in
  let h := drip (cv_drip e) (cv_joined e) in
  Ok ([ rec "PP17" "kill switch tears down a LIVE stream (partial body first)" "TERMINATED" (kill_outcome live h)
          ("got=" ++ show_Z (ho_partial h) ++ "/" ++ show_Z (ho_clen h) ++ " err=" ++ ho_err h) ],
      Some [ ("row_id", VStr "PP18"); ("test_nonce", VStr (cv_nonce e)); ("origin", VStr "sandbox"); ("run_id", VNull);
             ("partial_bytes", VInt (ho_partial h)); ("content_length", VInt (ho_clen h)); ("err", VStr (ho_err h)) ]).
Definition results_file (nonce : string) (rows : list dict) : dict :=
  [ ("results", VList (map VDict rows)); ("passed", VInt (Z.of_nat (proven rows))); ("total", VInt (Z.of_nat (length rows)));
    ("origin", VStr "sandbox"); ("run_id", VNull); ("test_nonce", VStr nonce) ].
(** The rows, the advisory and the results; there is no exit code. *)
Definition main (e : client_env) : res (list dict * option dict * dict) :=
  a <- enforcement_rows e;; b <- load_rows e;; '(c, advisory) <- kill_rows e;;
  let rows := (a ++ b ++ c)%list in
  Ok (rows, advisory, results_file (cv_nonce e) rows).
End Suite.
