(* ===== verification/PepClientProps.v ===== *)
(** * What the IPv4 client takes for proof

    Every negative row asks the gateway's own reason, and the composite rows
    their positive controls. *)

From S2P Require Import Prelude.
From S2P Require Import PyStr.
From S2P Require Import Json.
From S2P Require Import PyDyn.
From S2P Require Import Hash.
From S2P Require Import AuditProps.
From S2P Require Import Gateway.
From S2P Require Import Transport.
From S2P Require Import TransportProps.
From S2P Require Import PepClient.
Open Scope Z_scope.

Section Props.
Context `{Digest}.

(** What a tunnel shows. *)
Definition shows (b : bool) (e : tunnel_env) (P : seen -> Prop) : Prop := exists o, tunnel b e = Ok o /\ P o.
Definition allowed (o : seen) : Prop := v o = "ALLOW".
Definition refused (reason : string) (o : seen) : Prop := v o = "BLOCK" /\ startswith reason (se_reason o) = true.
(** PP10: the flipped address is refused as an address, and is the one given. *)
Definition rebound (ip : string) (o : seen) : Prop :=
  refused "IP_NOT_AUTHORIZED:" o /\ (ip = "" \/ endswith ip (se_reason o) = true).
Definition saw_credential (o : seen) : Prop := allowed o /\ contains AUTH_PRESENT (se_body o) = true.
(** PP14 and PP15. *)
Definition two_megabytes (o : seen) : Prop := allowed o /\ 2 * 1024 * 1024 <= se_bytes o.
Definition limited (l : list tunnel_env) : Prop := exists e o, e ∈ l /\ tunnel true e = Ok o /\ v o = "LIMIT".
Definition torn (e : tunnel_env) (seen joined : nat) : Prop :=
  0 < ho_partial (drip e seen) /\
  (ho_err (drip e joined) <> "" \/ ho_clen (drip e joined) <> 0 /\ ho_partial (drip e joined) < ho_clen (drip e joined)).

Lemma blocked_iff o p : blocked_by o [p] = "BLOCK" <-> refused p o.
Proof.
  unfold blocked_by, refused. destruct (String.eqb_spec (v o) "BLOCK") as [E|E]; cbn [negb existsb].
  - rewrite orb_false_r. destruct (startswith p (se_reason o)); [by rewrite E|]. split; [done|by intros []].
  - split; [done|by intros []].
Qed.
Lemma rebind_first_iff o : rebind_first o = "ALLOW" <-> allowed o.
Proof.
  unfold rebind_first, allowed. destruct (String.eqb_spec (v o) "ALLOW") as [E|E]; [by split|].
  destruct (_ || _); split; try done; congruence.
Qed.
Lemma rebind_second_iff pp9 ip o : rebind_second pp9 ip o = "BLOCK" <-> pp9 = "ALLOW" /\ rebound ip o.
Proof.
  unfold rebind_second, rebound, refused. destruct (String.eqb_spec pp9 "ALLOW") as [E9|E9]; cbn [negb]; [|by split; [|intros []]].
  destruct (String.eqb_spec (v o) "BLOCK") as [E|E]; cbn [negb]; [|split; [done|by intros (_ & [? _] & _)]].
  destruct (startswith _ _); cbn [negb]; [|split; [done|by intros (_ & [_ ?] & _)]].
  destruct (String.eqb_spec ip "") as [Ei|Ei]; cbn [negb andb]; [by split; auto|].
  destruct (endswith _ _); cbn [negb]; split; try done; auto. intros (_ & _ & [?|?]); done.
Qed.
Lemma limited_iff l : (0 <? hi_limit (foldl hammer (Hits 0 0 0) (map (tunnel true) l))) = true <-> limited l.
Proof.
  assert (forall h, 0 <= hi_limit h -> (0 <? hi_limit (foldl hammer h (map (tunnel true) l))) = true <-> 0 < hi_limit h \/ limited l) as Hg.
  { induction l as [|e l IH]; intros h Hh; cbn [map foldl].
    - rewrite Z.ltb_lt. split; [by left|]. intros [?|(e & o & He & _)]; [done|]. by apply not_elem_of_nil in He.
    - assert (0 <= hi_limit (hammer h (tunnel true e))) as Hh'.
      { unfold hammer. destruct (tunnel true e) as [o|]; [|done]. repeat case_match; cbn; lia. }
      rewrite (IH _ Hh'). unfold limited. setoid_rewrite elem_of_cons. unfold hammer. split.
      + intros [Hl|(e' & o & He & Ho)]; [|right; exists e', o; auto].
        destruct (tunnel true e) as [o|] eqn:Et; [|by left]. destruct (String.eqb_spec (v o) "LIMIT"); [right; exists e, o; auto|].
        left. by destruct (String.eqb (v o) "ALLOW").
      + intros [Hl|(e' & o & [->|He] & Ho & Hv)].
        * left. destruct (tunnel true e) as [o|]; [|done]. repeat case_match; cbn; lia.
        * left. rewrite Ho, Hv. cbn. lia.
        * right. by exists e', o. }
  rewrite Hg by done. cbn. split; [intros [?|?]; [lia|done]|by right].
Qed.
Lemma killed_iff live h : kill_outcome live h = "TERMINATED" <->
  live = true /\ (ho_err h <> "" \/ ho_clen h <> 0 /\ ho_partial h < ho_clen h).
Proof.
  rewrite <- kill_proven. unfold kill_outcome, kill_verdict. destruct (live && _); [done|]. by destruct live.
Qed.

(** ** A row counts exactly when it got what it asks *)

Lemma v_unproven o : v o <> "PROVEN".
Proof. unfold v. repeat case_match; done. Qed.
Lemma blocked_unproven o l : blocked_by o l <> "PROVEN".
Proof. unfold blocked_by. repeat case_match; try done. apply v_unproven. Qed.
Lemma rebind_first_unproven o : rebind_first o <> "PROVEN".
Proof. unfold rebind_first. repeat case_match; try done. apply v_unproven. Qed.
Lemma rebind_second_unproven p ip o : rebind_second p ip o <> "PROVEN".
Proof. unfold rebind_second. repeat case_match; try done. apply v_unproven. Qed.
Lemma kill_unproven live h : kill_outcome live h <> "PROVEN".
Proof. unfold kill_outcome. repeat case_match; done. Qed.
Lemma counted_iff tid desc expect got detail : got <> "PROVEN" ->
  py_eqb (dget_or "status" VNull (rec tid desc expect got detail)) (VStr "PROVEN") = true <-> got = expect.
Proof.
  intros Hg. unfold rec. destruct (String.eqb_spec expect got) as [<-|Hn]; [done|].
  change (String.eqb got "PROVEN" = true <-> got = expect). rewrite String.eqb_eq. split; [done|]. intros ->. by destruct Hn.
Qed.
Lemma yes_iff (b : bool) other : other <> "YES" -> (if b then "YES" else other) = "YES" <-> b = true.
Proof. intros Ho. by destruct b. Qed.
Lemma served_iff (c b : bool) : (if negb c then "NO_POSITIVE_CONTROL" else if b then "YES" else "NO") = "YES" <-> c = true /\ b = true.
Proof. destruct c, b; cbn; tauto || (split; [done|by intros []]). Qed.
Lemma shows_iff b e o P : tunnel b e = Ok o -> shows b e P <-> P o.
Proof. intros Ho. unfold shows. rewrite Ho. split; [by intros (? & [= <-] & ?)|]. intros ?. by exists o. Qed.

(** C26: a complete score of the IPv4 client is attributable evidence. In the
    results file of a run that ends, passed is total exactly when the in-scope
    request is served; each of the seven negative requests is blocked by the gateway's
    own reason for it; the redirect is relayed; the rebound name is first served
    and then refused for the address it flipped to; the upstream saw the injected
    credential; two megabytes arrive; some connection is turned away while a single
    one is served; and, the pool drained, a stream with a partial body is torn down. *)
Theorem client_rows_attributed e rows advisory file : main e = Ok (rows, advisory, file) ->
  dget_or "passed" VNull file = dget_or "total" VNull file <->
  shows true (cv_allowed e) allowed /\
  shows true (cv_neverseen e) (refused "UPSTREAM_CERT_INVALID") /\ shows true (cv_evil e) (refused "OUT_OF_SCOPE") /\
  shows true (cv_sni e) (refused "SNI_MISMATCH") /\ shows true (cv_host e) (refused "HOST_HEADER_MISMATCH") /\
  shows true (cv_method e) (refused "METHOD_DENIED") /\ shows true (cv_redirect e) (fun o => v o = "REDIRECT") /\
  shows true (cv_badcert e) (refused "UPSTREAM_CERT_INVALID") /\
  shows true (cv_rebind1 e) allowed /\ shows true (cv_rebind2 e) (rebound (cv_rebind_ip e)) /\
  shows true (cv_credential e) saw_credential /\ shows true (cv_foreign e) (refused "CREDENTIAL_WRONG_PROGRAM") /\
  shows false (cv_big e) two_megabytes /\ shows true (cv_control e) allowed /\ limited (cv_hammer e) /\
  drained 120 (cv_probes e) = Ok true /\ torn (cv_drip e) (cv_seen e) (cv_joined e).
Proof.
  unfold main. intros Hm. apply res_bind_Ok in Hm as (a & Ha & Hm). apply res_bind_Ok in Hm as (b & Hb & Hm).
  apply res_bind_Ok in Hm as ([c adv] & Hc & [= <- _ <-]).
  match goal with |- _ <-> ?R =>
    change (VInt (Z.of_nat (proven (a ++ b ++ c)%list)) = VInt (Z.of_nat (length (a ++ b ++ c)%list)) <-> R) end.
  transitivity (forallb (fun r => py_eqb (dget_or "status" VNull r) (VStr "PROVEN")) (a ++ b ++ c)%list = true).
  { rewrite <- proven_all, Nat.eqb_eq. split; [by intros [= ?%Nat2Z.inj]|by intros ->]. }
  rewrite !forallb_app, !andb_true_iff.
  unfold enforcement_rows in Ha. unfold load_rows in Hb. unfold kill_rows in Hc.
  repeat (apply res_bind_Ok in Ha as (? & ? & Ha)). injection Ha as <-.
  repeat (apply res_bind_Ok in Hb as (? & ? & Hb)). injection Hb as <-.
  apply res_bind_Ok in Hc as (ready & Hr & Hc).
  erewrite !shows_iff by eassumption. cbn [forallb]. unfold block_row.
  rewrite !andb_true_iff, !counted_iff by first [apply v_unproven|apply blocked_unproven|apply rebind_first_unproven|
    apply rebind_second_unproven|repeat case_match; done].
  rewrite !blocked_iff, rebind_second_iff, rebind_first_iff, !yes_iff, served_iff, limited_iff, Z.leb_le, String.eqb_eq by done.
  assert (forallb (fun r => py_eqb (dget_or "status" VNull r) (VStr "PROVEN")) c = true <->
    drained 120 (cv_probes e) = Ok true /\ torn (cv_drip e) (cv_seen e) (cv_joined e)) as Hk.
  { rewrite Hr. destruct ready; cbn [negb] in Hc; injection Hc as <- _; cbn [forallb].
    - rewrite andb_true_r, counted_iff, killed_iff, Z.ltb_lt by apply kill_unproven. unfold torn. tauto.
    - rewrite andb_true_r, counted_iff by done. split; [done|by intros [[=] _]]. }
  rewrite Hk. unfold saw_credential, two_megabytes, allowed. split; intros; destruct_and?; split_and?; done.
Qed.
End Props.

(** ** A run, evaluated *)

(** Tunnels as the gateway answers them. *)
Definition served_s (more body : string) : tunnel_env := tunnel_s (http "200 OK" more body).
Definition blocked_s (reason : string) : tunnel_env := tunnel_s (http "403 Forbidden" ("X-PDP-Reason: " ++ reason ++ crlf) "").
Definition at_limit : tunnel_env :=
  TunnelEnv (Ok tt) (Ok tt) [Ok (http "503 Service Unavailable" "" "")] (Ok tt) (Ok tt) (Ok tt) [].
Definition mib (n : nat) : list (res string) := replicate n (Ok (String.concat "" (replicate 1024 (String.concat "" (replicate 64 "0123456789abcdef"))))).
Definition big_s (n : nat) : tunnel_env :=
  TunnelEnv (Ok tt) (Ok tt) [Ok (http "200 OK" "" "")] (Ok tt) (Ok tt) (Ok tt) (Ok (http "200 OK" "" "") :: mib n ++ [Ok ""])%list.
Definition client_s (big : nat) (rebind2 : string) (drip_body : string) : client_env := {|
  cv_nonce := "n"; cv_rebind_ip := "198.51.100.9"; cv_allowed := served_s "" ""; cv_neverseen := blocked_s "UPSTREAM_CERT_INVALID:name";
  cv_evil := blocked_s "OUT_OF_SCOPE"; cv_sni := blocked_s "SNI_MISMATCH:a!=b"; cv_host := blocked_s "HOST_HEADER_MISMATCH:a!=b";
  cv_method := blocked_s "METHOD_DENIED:DELETE"; cv_redirect := tunnel_s (http "302 Found" ("Location: /ok" ++ crlf) "");
  cv_badcert := blocked_s "UPSTREAM_CERT_INVALID:self"; cv_rebind1 := served_s "" ""; cv_rebind2 := blocked_s rebind2;
  cv_credential := served_s "" AUTH_PRESENT; cv_foreign := blocked_s "CREDENTIAL_WRONG_PROGRAM"; cv_big := big_s big; cv_elapsed := "0.4";
  cv_control := served_s "" ""; cv_hammer := [served_s "" ""; at_limit]; cv_probes := [at_limit; served_s "" ""];
  cv_drip := served_s ("Content-Length: 100" ++ crlf) drip_body; cv_seen := 1; cv_joined := 2 |}%nat.
Definition score (r : res (list dict * option dict * dict)) : option (val * val) :=
  match r with Ok (_, _, f) => Some (dget_or "passed" VNull f, dget_or "total" VNull f) | Raise _ => None end.
(** Two megabytes delivered score the whole suite; without them PP15 fails, and a
    block for another reason or another address, or a stream that never delivered
    a byte, costs its own row. *)
Lemma whole_score : score (main (H := toy) (client_s 2 "IP_NOT_AUTHORIZED:198.51.100.9" "abc")) = Some (VInt 17, VInt 17).
Proof. vm_compute. reflexivity. Qed.
Example unattributed_block_scores_nothing :
  map (fun c => score (main (H := toy) c))
    [ client_s 0 "IP_NOT_AUTHORIZED:198.51.100.9" "abc"; client_s 0 "OUT_OF_SCOPE" "abc"; client_s 0 "IP_NOT_AUTHORIZED:10.0.0.1" "abc";
      client_s 0 "IP_NOT_AUTHORIZED:198.51.100.9" "" ]
  = [ Some (VInt 16, VInt 17); Some (VInt 15, VInt 17); Some (VInt 15, VInt 17); Some (VInt 15, VInt 17) ].
Proof. vm_compute. reflexivity. Qed.
Lemma client_rows_attributed_witness : exists rows advisory file,
  main (H := toy) (client_s 2 "IP_NOT_AUTHORIZED:198.51.100.9" "abc") = Ok (rows, advisory, file) /\
  shows (H := toy) true (blocked_s "IP_NOT_AUTHORIZED:198.51.100.9") (rebound "198.51.100.9").
Proof.
  pose proof whole_score as Hs.
  destruct (main (client_s 2 "IP_NOT_AUTHORIZED:198.51.100.9" "abc")) as [[[rows adv] file]|x] eqn:E; [|discriminate Hs].
  exists rows, adv, file. split; [reflexivity|].
  assert (dget_or "passed" VNull file = dget_or "total" VNull file) as Hp by (cbn [score] in Hs; congruence).
  pose proof (proj1 (client_rows_attributed (H := toy) _ _ _ _ E) Hp) as (_ & _ & _ & _ & _ & _ & _ & _ & _ & Hr & _). exact Hr.
Defined.
