(* ===== verification/Ca.v ===== *)
(** * The interception certificate authority ([src/pep/ca.py])

    [InterceptionCA]: the root it creates or finds, and [leaf_for], which mints a
    leaf per host on first use and keeps it on disk and in a cache.  The files
    are a finite map from paths; openssl is the class [Openssl], and what the
    code relies on of it is the class [OpensslOk]. *)

From S2P Require Import Prelude.
From S2P Require Import PyStr.
From S2P Require Import PyDyn.
From S2P Require Import IpAddr.
From S2P Require Import Hash.
From S2P Require Import AuditLog.
Open Scope Z_scope.

(** ** Files *)

Record file := File { f_content : string; f_mode : Z }.
Abbreviation fs := (gmap string file).
Definition exists_ (p : string) (f : fs) : bool := bool_decide (is_Some (f !! p)).
(** [os.path.join]. *)
Definition path_join (a b : string) : string :=
  if startswith "/" b then b else if String.eqb a "" || endswith "/" a then a ++ b else a ++ "/" ++ b.
(** What the system answers: directories, [open(p, 'w')] and the write to it, [chmod]
    and [unlink]; the mode a new file gets. *)
Record os_env := OsEnv {
  oe_mkdir : string -> option exn; oe_open : string -> option exn; oe_write : string -> option exn;
  oe_chmod : string -> option exn; oe_unlink : string -> option exn; oe_mode : Z }.
(** [A] may raise and has changed the files by then. *)
Abbreviation io A := (fs -> fs * res A).
Definition iret {A} (a : A) : io A := fun f => (f, Ok a).
Definition ithrow {A} (x : exn) : io A := fun f => (f, Raise x).
Definition ibind {A B} (m : io A) (k : A -> io B) : io B :=
  fun f => let '(f1, r) := m f in match r with Ok a => k a f1 | Raise x => (f1, Raise x) end.
Notation "x <=- m ;; k" := (ibind m (fun x => k)) (at level 20, m at level 99, k at level 200) : py_scope.
Notation "m ;;= k" := (ibind m (fun _ => k)) (at level 60, k at level 200, right associativity) : py_scope.

Definition FileNotFound (p : string) : exn := PyExn "FileNotFoundError" p.
Definition chmod (e : os_env) (p : string) (m : Z) : io unit := fun f =>
  match oe_chmod e p with
  | Some x => (f, Raise x)
  | None => match f !! p with
            | Some x => (<[p := File (f_content x) m]> f, Ok tt)
            | None => (f, Raise (FileNotFound p))
            end
  end.
(** A file written anew keeps its mode; a failed write leaves it empty. *)
Definition write_file (e : os_env) (p content : string) : io unit := fun f =>
  match oe_open e p with
  | Some x => (f, Raise x)
  | None =>
      let mode := match f !! p with Some x => f_mode x | None => oe_mode e end in
      match oe_write e p with
      | Some x => (<[p := File "" mode]> f, Raise x)
      | None => (<[p := File content mode]> f, Ok tt)
      end
  end.
(** [try: os.unlink(p) except OSError: pass]. *)
Definition unlink_quietly (e : os_env) (p : string) : io unit := fun f =>
  match oe_unlink e p with
  | Some x => (f, if os_error x then Ok tt else Raise x)
  | None => (delete p f, Ok tt)
  end.
Definition makedirs (e : os_env) (p : string) : io unit :=
  match oe_mkdir e p with Some x => ithrow x | None => iret tt end.

(** ** openssl *)

(** [openssl args] is what running the command does to the files, with the
    return code and standard error; [requests csr key] and [certifies crt key ext]
    read what the files hold. *)
Class Openssl := {
  openssl : list string -> io (Z * string);
  requests : string -> string -> Prop;
  certifies : string -> string -> string -> Prop }.

Definition CAError (m : string) : exn := PyExn "CAError" m.
Definition O600 : Z := 384.
Definition O644 : Z := 420.

(** ** [InterceptionCA] *)

Record ca := InterceptionCA { ca_dir : string; leaf_dir : string; ca_cn : string; ca_cache : gmap string (string * string) }.
Definition ca_key (c : ca) : string := path_join (ca_dir c) "ca.key".
Definition ca_crt (c : ca) : string := path_join (ca_dir c) "ca.crt".
Definition ca_cert_path : ca -> string := ca_crt.
Definition root_args (key crt cn : string) : list string :=
  [ "openssl"; "req"; "-x509"; "-newkey"; "rsa:3072"; "-nodes"; "-days"; "1825"; "-keyout"; key; "-out"; crt;
    "-subj"; "/CN=" ++ cn; "-addext"; "basicConstraints=critical,CA:TRUE,pathlen:0";
    "-addext"; "keyUsage=critical,keyCertSign,cRLSign" ].
Definition request_args (key csr host : string) : list string :=
  [ "openssl"; "req"; "-newkey"; "rsa:2048"; "-nodes"; "-keyout"; key; "-out"; csr; "-subj"; "/CN=" ++ host ].
Definition sign_args (csr cacrt cakey crt ext : string) : list string :=
  [ "openssl"; "x509"; "-req"; "-in"; csr; "-CA"; cacrt; "-CAkey"; cakey; "-CAcreateserial"; "-days"; "397";
    "-out"; crt; "-extfile"; ext ].

Definition san_for (host : string) : string :=
  match ip_address host with Some _ => "IP:" ++ host | None => "DNS:" ++ host end.
Definition extensions (host : string) : string :=
  "subjectAltName=" ++ san_for host ++ String newline "extendedKeyUsage=serverAuth" ++
  String newline "basicConstraints=critical,CA:FALSE" ++ String newline "".
Definition safe (host : string) : string := replace "/" "_" (replace ":" "_" host).
Definition leaf_path (c : ca) (host suffix : string) : string := path_join (leaf_dir c) (safe host ++ suffix).

Section Ca.
Context `{Openssl}.

Definition ensure_ca (e : os_env) (c : ca) : io unit := fun f =>
  if exists_ (ca_key c) f && exists_ (ca_crt c) f then chmod e (ca_key c) O600 f else
  (r <=- openssl (root_args (ca_key c) (ca_crt c) (ca_cn c));;
   if negb (r.1 =? 0) then ithrow (CAError ("CA generation failed: " ++ take 200 r.2)) else
   chmod e (ca_key c) O600;;= chmod e (ca_crt c) O644) f.
(** [__init__]. *)
Definition init (e : os_env) (cadir leafdir cn : string) : io ca :=
  let c := InterceptionCA cadir leafdir cn ∅ in
  makedirs e cadir;;= makedirs e leafdir;;= ensure_ca e c;;= iret c.

(** The minting of a leaf that is not on disk. *)
Definition mint (e : os_env) (c : ca) (host : string) : io unit :=
  let key := leaf_path c host ".key" in
  let crt := leaf_path c host ".crt" in
  let csr := leaf_path c host ".csr" in
  let ext := leaf_path c host ".ext" in
  r <=- openssl (request_args key csr host);;
  if negb (r.1 =? 0) then ithrow (CAError ("leaf key/csr failed for " ++ host ++ ": " ++ take 200 r.2)) else
  write_file e ext (extensions host);;=
  s <=- openssl (sign_args csr (ca_crt c) (ca_key c) crt ext);;
  unlink_quietly e csr;;= unlink_quietly e ext;;=
  if negb (s.1 =? 0) then ithrow (CAError ("leaf signing failed for " ++ host ++ ": " ++ take 200 s.2)) else
  chmod e key O600;;= chmod e crt O644.
(** [leaf_for]; the lock makes it one step. *)
Definition leaf_for (e : os_env) (host : string) (c : ca) : io (ca * (string * string)) := fun f =>
  match ca_cache c !! host with
  | Some hit => (f, Ok (c, hit))
  | None =>
      let key := leaf_path c host ".key" in
      let crt := leaf_path c host ".crt" in
      (ibind (if exists_ key f && exists_ crt f then iret tt else mint e c host) (fun _ =>
       iret (InterceptionCA (ca_dir c) (leaf_dir c) (ca_cn c) (<[host := (crt, key)]> (ca_cache c)), (crt, key)))) f
  end.
End Ca.

(** ** What the code relies on

    Each command writes the files it is told to and no other, but for the serial
    number kept beside the CA certificate; a return code of zero means the
    outputs are there and of the right make.  Of what a command that fails leaves
    in its outputs nothing is said. *)
Definition serial_of (cacrt : string) : string := take (String.length cacrt - 4) cacrt ++ ".srl".
Class OpensslOk `{Openssl} := {
  root_made : forall key crt cn f f' m, openssl (root_args key crt cn) f = (f', Ok (0, m)) ->
    is_Some (f' !! key) /\ is_Some (f' !! crt);
  request_only : forall key csr host f f' r p, openssl (request_args key csr host) f = (f', r) ->
    p <> key -> p <> csr -> f' !! p = f !! p;
  request_made : forall key csr host f f' m, key <> csr -> openssl (request_args key csr host) f = (f', Ok (0, m)) ->
    exists k q, f' !! key = Some k /\ f' !! csr = Some q /\ requests (f_content q) (f_content k);
  sign_only : forall csr cacrt cakey crt ext f f' r p, openssl (sign_args csr cacrt cakey crt ext) f = (f', r) ->
    p <> crt -> p <> serial_of cacrt -> f' !! p = f !! p;
  sign_made : forall csr cacrt cakey crt ext f f' m q k x, openssl (sign_args csr cacrt cakey crt ext) f = (f', Ok (0, m)) ->
    f !! csr = Some q -> requests (f_content q) k -> f !! ext = Some x ->
    exists l, f' !! crt = Some l /\ certifies (f_content l) k (f_content x) }.
