(* ===== verification/CaProps.v ===== *)
(** * What a leaf certificate certifies

    Whatever the system's calls answer, a leaf handed out certifies the host it
    was asked for, and keeps doing so, as long as the hosts asked for are plain:
    without the character a colon is replaced by, and without a slash; unless a
    signing for that host failed and left a certificate file behind, which the
    next request finds and hands out. *)

From S2P Require Import Prelude.
From S2P Require Import PyStr.
From S2P Require Import PyDyn.
From S2P Require Import IpAddr.
From S2P Require Import Hash.
From S2P Require Import AuditLog.
From S2P Require Import Addressing.
From S2P Require Import Ca.
Open Scope Z_scope.

(** ** Names and paths *)

Fixpoint smap (f : ascii -> ascii) (s : string) : string :=
  match s with EmptyString => EmptyString | String c s' => String (f c) (smap f s') end.
Definition swap (c d x : ascii) : ascii := if ascii_dec c x then d else x.
Lemma replace_char c d s : replace (String c "") (String d "") s = smap (swap c d) s.
Proof.
  unfold replace. assert (forall m t, (String.length t < m)%nat ->
    replace_fuel m (String c "") (String d "") t = smap (swap c d) t) as Hm; [|apply Hm; lia].
  induction m as [|m IH]; intros t Ht; [lia|]. destruct t as [|x t]; [done|]. cbn in Ht |- *. unfold swap at 1.
  destruct (ascii_dec c x); [replace (String.prefix "" t) with true by (by destruct t)|]; cbn; by rewrite IH by lia.
Qed.
Definition safe_char (x : ascii) : ascii := swap "/" "_" (swap ":" "_" x).
Lemma safe_smap h : safe h = smap safe_char h.
Proof. unfold safe. rewrite !replace_char. induction h as [|c h IH]; cbn; [done|]. by rewrite IH. Qed.
Lemma safe_char_slash x : safe_char x <> "/"%char.
Proof. unfold safe_char, swap. repeat destruct (ascii_dec _ _); try done; congruence. Qed.

(** A host whose safe name is its own. *)
Definition plain_char (c : ascii) : bool := negb (Ascii.eqb c "_") && negb (Ascii.eqb c "/").
Definition plain_host (h : string) : bool := str_all plain_char h.
Lemma safe_inj h : forall h', plain_host h = true -> plain_host h' = true -> safe h = safe h' -> h = h'.
Proof.
  intros h'. rewrite !safe_smap. revert h'. induction h as [|c h IH]; intros [|d h'] Hh Hh' E; try done. cbn in *.
  injection E as Ec E. apply andb_true_iff in Hh as [Hc Hh], Hh' as [Hd Hh'].
  rewrite (IH h') by done. f_equal. unfold plain_char in *. apply andb_true_iff in Hc as [Hc1 Hc2], Hd as [Hd1 Hd2].
  apply negb_true_iff, Ascii.eqb_neq in Hc1, Hc2, Hd1, Hd2. unfold safe_char, swap in Ec.
  repeat destruct (ascii_dec _ _); congruence.
Qed.

Lemma append_cancel a x y : a ++ x = a ++ y -> x = y.
Proof. induction a as [|c a IH]; cbn; [done|]. intros [= E]. auto. Qed.
Lemma append_inj_len x : forall y s t, String.length s = String.length t -> x ++ s = y ++ t -> x = y /\ s = t.
Proof.
  induction x as [|c x IH]; intros [|d y] s t Hl E; cbn in E.
  - done.
  - apply (f_equal String.length) in E. cbn in E. rewrite length_append in E. lia.
  - apply (f_equal String.length) in E. cbn in E. rewrite length_append in E. lia.
  - injection E as -> E. by destruct (IH _ _ _ Hl E) as [-> ->].
Qed.
Definition slashed (a : string) : string := if String.eqb a "" || endswith "/" a then a else a ++ "/".
Definition suffix (s : string) : Prop := exists a b c, s = String "." (String a (String b (String c ""))).
Lemma leaf_path_eq c h s : suffix s -> leaf_path c h s = slashed (leaf_dir c) ++ (safe h ++ s).
Proof.
  intros (x & y & z & ->). unfold leaf_path, path_join, slashed.
  assert (startswith "/" (safe h ++ String "." (String x (String y (String z "")))) = false) as ->.
  { rewrite safe_smap. unfold startswith. destruct h as [|d h]; [done|]. cbn [smap String.append String.prefix].
    pose proof (safe_char_slash d). by destruct (ascii_dec "/" (safe_char d)). }
  destruct (_ || _); [done|]. by rewrite append_assoc.
Qed.
Lemma leaf_path_inj c h h' s t : suffix s -> suffix t -> leaf_path c h s = leaf_path c h' t -> safe h = safe h' /\ s = t.
Proof.
  intros Hs Ht. rewrite !leaf_path_eq by done. intros E%append_cancel. apply append_inj_len in E; [done|].
  by destruct Hs as (? & ? & ? & ->), Ht as (? & ? & ? & ->).
Qed.
Lemma leaf_path_serial c h s p : suffix s -> s <> ".srl" -> leaf_path c h s <> serial_of p.
Proof.
  intros Hs Hn. rewrite leaf_path_eq by done. unfold serial_of. rewrite <- append_assoc. intros E.
  apply append_inj_len in E as [_ E]; [done|]. by destruct Hs as (? & ? & ? & ->).
Qed.
Ltac is_suffix := by do 3 eexists.
(** Two paths of one directory differ by their suffixes or by their safe names. *)
Ltac distinct :=
  match goal with
  | |- leaf_path _ _ _ <> serial_of _ => apply leaf_path_serial; [is_suffix|done]
  | |- leaf_path _ _ _ <> leaf_path _ _ _ =>
      let E := fresh in intros E; apply leaf_path_inj in E as [? E]; [|is_suffix|is_suffix]; first [discriminate E|congruence]
  end.

Section Props.
Context `{OpensslOk}.

(** ** One leaf *)

Definition key_of (c : ca) (h : string) : string := leaf_path c h ".key".
Definition crt_of (c : ca) (h : string) : string := leaf_path c h ".crt".
Ltac far := unfold key_of, crt_of; distinct.
(** The files of [h] are a certificate for [h] and its key. *)
Definition made (c : ca) (h : string) (f : fs) : Prop :=
  exists x k, f !! crt_of c h = Some x /\ f !! key_of c h = Some k /\ certifies (f_content x) (f_content k) (extensions h).
Definition private (c : ca) (h : string) (f : fs) : Prop := exists k, f !! key_of c h = Some k /\ f_mode k = O600.
(** [chmod] works, and [unlink] fails only as the system fails. *)
Definition calm (e : os_env) : Prop :=
  (forall p, oe_chmod e p = None) /\ forall p x, oe_unlink e p = Some x -> os_error x = true.

Lemma made_text c h f f' : made c h f -> f_content <$> f' !! crt_of c h = f_content <$> f !! crt_of c h ->
  f_content <$> f' !! key_of c h = f_content <$> f !! key_of c h -> made c h f'.
Proof.
  intros (x & k & Hx & Hk & Hc). rewrite Hx, Hk. intros (x' & Ex & Ec)%fmap_Some (k' & Ek & Ed)%fmap_Some.
  exists x', k'. by rewrite <- Ec, <- Ed.
Qed.
Lemma chmod_text e p m f f' r q : chmod e p m f = (f', r) -> f_content <$> f' !! q = f_content <$> f !! q.
Proof.
  unfold chmod. destruct (oe_chmod e p); [by intros [= <- <-]|].
  destruct (f !! p) as [x|] eqn:E; intros [= <- <-]; [|done].
  destruct (decide (p = q)) as [<-|]; [by rewrite lookup_insert_eq, E|by rewrite lookup_insert_ne].
Qed.
Lemma chmod_mode e p m f f' : chmod e p m f = (f', Ok tt) -> f_mode <$> f' !! p = Some m.
Proof.
  unfold chmod. destruct (oe_chmod e p); [done|]. destruct (f !! p); intros [= <-]. by rewrite lookup_insert_eq.
Qed.
Lemma chmod_other e p m f f' r q : chmod e p m f = (f', r) -> p <> q -> f' !! q = f !! q.
Proof.
  unfold chmod. destruct (oe_chmod e p); [by intros [= <- <-]|].
  destruct (f !! p); intros [= <- <-] Hn; [|done]. by rewrite lookup_insert_ne.
Qed.
Lemma unlink_other e p f f' r q : unlink_quietly e p f = (f', r) -> p <> q -> f' !! q = f !! q.
Proof.
  unfold unlink_quietly. destruct (oe_unlink e p); intros [= <- <-] Hn; [done|]. by rewrite lookup_delete_ne.
Qed.
Lemma write_other e p s f f' r q : write_file e p s f = (f', r) -> p <> q -> f' !! q = f !! q.
Proof.
  unfold write_file. destruct (oe_open e p); [by intros [= <- <-]|].
  destruct (oe_write e p); intros [= <- <-] Hn; by rewrite lookup_insert_ne.
Qed.
Lemma ibind_inv {A B} (m : io A) (k : A -> io B) f f' r : ibind m k f = (f', r) ->
  exists f1 r1, m f = (f1, r1) /\
    match r1 with Ok a => k a f1 = (f', r) | Raise x => f' = f1 /\ r = Raise x end.
Proof.
  unfold ibind. destruct (m f) as [f1 [a|x]]; intros E; eexists _, _; (split; [reflexivity|]); [exact E|]. by injection E as <- <-.
Qed.
Ltac step H f r E := apply ibind_inv in H as (f & r & E & H).

(** The tail of a minting: temporary files, and permissions. *)
Definition tidy (e : os_env) (c : ca) (h : string) (s : Z * string) : io unit :=
  unlink_quietly e (leaf_path c h ".csr");;= unlink_quietly e (leaf_path c h ".ext");;=
  if negb (s.1 =? 0) then ithrow (CAError ("leaf signing failed for " ++ h ++ ": " ++ take 200 s.2)) else
  chmod e (key_of c h) O600;;= chmod e (crt_of c h) O644.
Definition temporary (c : ca) (h p : string) : Prop := p = leaf_path c h ".csr" \/ p = leaf_path c h ".ext".
Lemma tidy_text e c h s f f' r q : tidy e c h s f = (f', r) -> ~ temporary c h q ->
  f_content <$> f' !! q = f_content <$> f !! q.
Proof.
  unfold tidy, temporary. intros Ht Hq. step Ht f1 r1 E1.
  assert (f1 !! q = f !! q) as Hq1 by (eapply unlink_other; [exact E1|naive_solver]).
  destruct r1; [|destruct Ht as [-> _]; by rewrite Hq1].
  step Ht f2 r2 E2. assert (f2 !! q = f !! q) as Hq2 by (rewrite <- Hq1; eapply unlink_other; [exact E2|naive_solver]).
  destruct r2; [|destruct Ht as [-> _]; by rewrite Hq2].
  destruct (negb _); [injection Ht as <- _; by rewrite Hq2|].
  step Ht f3 r3 E3. apply (chmod_text _ _ _ _ _ _ q) in E3. rewrite <- Hq2, <- E3.
  destruct r3; [|by destruct Ht as [-> _]]. by apply (chmod_text _ _ _ _ _ _ q) in Ht.
Qed.
Lemma tidy_other e c h s f f' r q : tidy e c h s f = (f', r) -> ~ temporary c h q -> q <> key_of c h -> q <> crt_of c h ->
  f' !! q = f !! q.
Proof.
  unfold tidy, temporary. intros Ht Hq Hk Hc. step Ht f1 r1 E1.
  assert (f1 !! q = f !! q) as <- by (eapply unlink_other; [exact E1|naive_solver]).
  destruct r1; [|by destruct Ht as [-> _]]. step Ht f2 r2 E2.
  assert (f2 !! q = f1 !! q) as <- by (eapply unlink_other; [exact E2|naive_solver]).
  destruct r2; [|by destruct Ht as [-> _]]. destruct (negb _); [by injection Ht as <- _|].
  step Ht f3 r3 E3. apply (chmod_other _ _ _ _ _ _ q) in E3; [|done]. rewrite <- E3.
  destruct r3; [|by destruct Ht as [-> _]]. by apply (chmod_other _ _ _ _ _ _ q) in Ht.
Qed.
Lemma tidy_private e c h s f f' r : calm e -> tidy e c h s f = (f', r) -> s.1 = 0 -> made c h f -> private c h f' /\ r = Ok tt.
Proof.
  intros [Hch Hun] Ht Hs (x & k & Hx & Hk & _). unfold tidy in Ht.
  assert (forall p g g' t, unlink_quietly e p g = (g', t) -> t = Ok tt) as Hu.
  { intros p g g' t. unfold unlink_quietly. destruct (oe_unlink e p) as [y|] eqn:E; [rewrite (Hun _ _ E)|]; by intros [= _ <-]. }
  step Ht f1 r1 E1. rewrite (Hu _ _ _ _ E1) in Ht. apply (unlink_other _ _ _ _ _ (key_of c h)) in E1 as K1; [|far].
  apply (unlink_other _ _ _ _ _ (crt_of c h)) in E1; [|far].
  step Ht f2 r2 E2. rewrite (Hu _ _ _ _ E2) in Ht. apply (unlink_other _ _ _ _ _ (key_of c h)) in E2 as K2; [|far].
  apply (unlink_other _ _ _ _ _ (crt_of c h)) in E2; [|far].
  rewrite Hs in Ht. cbn in Ht. step Ht f3 r3 E3. unfold chmod in E3, Ht. rewrite Hch in E3, Ht.
  rewrite K2, K1, Hk in E3. injection E3 as <- <-.
  assert (crt_of c h <> key_of c h) as Hn by far.
  rewrite lookup_insert_ne, E2, E1, Hx in Ht by done. injection Ht as <- <-. split; [|done].
  exists (File (f_content k) O600). split; [|done]. by rewrite lookup_insert_ne, lookup_insert_eq.
Qed.

(** A minting up to its signing. *)
Definition signing (e : os_env) (c : ca) (h : string) : io (Z * string) :=
  r <=- openssl (request_args (key_of c h) (leaf_path c h ".csr") h);;
  if negb (r.1 =? 0) then ithrow (CAError ("leaf key/csr failed for " ++ h ++ ": " ++ take 200 r.2)) else
  write_file e (leaf_path c h ".ext") (extensions h);;=
  openssl (sign_args (leaf_path c h ".csr") (ca_crt c) (ca_key c) (crt_of c h) (leaf_path c h ".ext")).
Lemma mint_signing e c h f : mint e c h f = ibind (signing e c h) (tidy e c h) f.
Proof.
  unfold mint, signing, ibind, ithrow. fold (key_of c h) (crt_of c h). destruct (openssl _ f) as [f1 [r|x]]; [|done].
  destruct (negb _); [done|]. destruct (write_file _ _ _ f1) as [f2 [[]|x]]; [|done]. by destruct (openssl _ f2) as [f3 [s|x]].
Qed.
(** A signing that fails and leaves a certificate file. *)
Definition residue (e : os_env) (c : ca) (h : string) (f : fs) : bool :=
  let '(f1, r) := signing e c h f in
  negb (match r with Ok (rc, _) => rc =? 0 | Raise _ => false end) && exists_ (crt_of c h) f1.

(** What one minting does. *)
Lemma signing_spec e c h f f1 r1 : signing e c h f = (f1, r1) ->
  (forall m, r1 = Ok (0, m) -> made c h f1) /\ (forall p, p <> key_of c h -> p <> crt_of c h -> ~ temporary c h p -> p <> serial_of (ca_crt c) -> f1 !! p = f !! p).
Proof.
  unfold signing, temporary. intros Hs. step Hs f2 r2 E2. pose proof (fun p => request_only _ _ _ _ _ _ p E2) as H2.
  destruct r2 as [[rc m]|x]; [|destruct Hs as [-> ->]; split; [done|intros; by rewrite H2 by naive_solver]]. cbn [fst snd] in Hs.
  destruct (Z.eqb_spec rc 0) as [->|]; cbn [negb] in Hs; [|injection Hs as <- <-; split; [done|intros; by rewrite H2 by naive_solver]].
  destruct (request_made (key_of c h) (leaf_path c h ".csr") _ _ _ _ ltac:(far) E2) as (k & q & Hk & Hq & Hrq).
  step Hs f3 r3 E3. pose proof (fun p => write_other _ _ _ _ _ _ p E3) as H3.
  destruct r3 as [[]|x]; [|destruct Hs as [-> ->]; split; [done|intros; by rewrite H3, H2 by naive_solver]].
  pose proof (fun p => sign_only _ _ _ _ _ _ _ _ p Hs) as H4. split; [|intros; by rewrite H4, H3, H2 by naive_solver].
  intros m0 ->. assert (exists y, f3 !! leaf_path c h ".ext" = Some y /\ f_content y = extensions h) as (y & Hy & Ey).
  { unfold write_file in E3. destruct (oe_open e _); [done|]. destruct (oe_write e _); [done|]. injection E3 as <-.
    rewrite lookup_insert_eq. by eexists. }
  rewrite <- H3 in Hq by far. destruct (sign_made _ _ _ _ _ _ _ _ _ _ _ Hs Hq Hrq Hy) as (l & Hl & Hcert). rewrite Ey in Hcert.
  exists l, k. split_and!; [done| |done]. rewrite H4, H3 by far. done.
Qed.
Lemma mint_spec e c h f f' r : residue e c h f = false -> mint e c h f = (f', r) ->
  (is_Some (f' !! crt_of c h) -> made c h f') /\ (r = Ok tt -> is_Some (f' !! crt_of c h)) /\
  (calm e -> is_Some (f' !! crt_of c h) -> private c h f').
Proof.
  intros Hn Hm. rewrite mint_signing in Hm. step Hm f1 r1 E1. destruct (signing_spec _ _ _ _ _ _ E1) as [Hmade _].
  assert ((forall m, r1 <> Ok (0, m)) -> f1 !! crt_of c h = None) as Hnone.
  { intros Hr. unfold residue, exists_ in Hn. rewrite E1 in Hn. destruct (f1 !! crt_of c h) as [x|]; [|done].
    rewrite bool_decide_true, andb_true_r in Hn by by eexists. destruct r1 as [[rc m]|]; [|done].
    apply negb_false_iff, Z.eqb_eq in Hn as ->. by destruct (Hr m). }
  destruct r1 as [[rc m]|x].
  2: { destruct Hm as [-> ->]. rewrite Hnone by done. split_and!; [by intros [? [=]]|done|by intros _ [? [=]]]. }
  assert (forall p, p = key_of c h \/ p = crt_of c h -> f_content <$> f' !! p = f_content <$> f1 !! p) as Ht.
  { intros p Hp. apply (tidy_text _ _ _ _ _ _ _ _ Hm). unfold temporary. intros [E|E]; destruct Hp as [->| ->]; contradict E; far. }
  destruct (decide (rc = 0)) as [->|Hrc].
  - specialize (Hmade m eq_refl). assert (made c h f') as Hm' by (eapply made_text; [exact Hmade|apply Ht; by right|apply Ht; by left]).
    split_and!; [done| |]; [intros _; destruct Hm' as (x & _ & Hx & _); by eexists|].
    intros Hcalm _. by destruct (tidy_private _ _ _ _ _ _ _ Hcalm Hm eq_refl Hmade).
  - assert (f' !! crt_of c h = None) as ->.
    { assert (f_content <$> f' !! crt_of c h = None) as E; [|by destruct (f' !! crt_of c h)].
      rewrite Ht by (by right). by rewrite Hnone by (intros m0 [= E _]; congruence). }
    split_and!; [by intros [? [=]]| |by intros _ [? [=]]]. intros ->. unfold tidy in Hm. cbn [fst] in Hm.
    destruct (Z.eqb_spec rc 0) as [|_]; [done|]. cbn [negb] in Hm. step Hm g1 t1 G1. destruct t1; [|by destruct Hm].
    step Hm g2 t2 G2. destruct t2; [|by destruct Hm]. discriminate Hm.
Qed.
Definition touched (c : ca) (h p : string) : Prop :=
  p = key_of c h \/ p = crt_of c h \/ temporary c h p \/ p = serial_of (ca_crt c).
Lemma mint_other e c h f f' r p : mint e c h f = (f', r) -> ~ touched c h p -> f' !! p = f !! p.
Proof.
  unfold touched. intros Hm Hp. rewrite mint_signing in Hm. step Hm f1 r1 E1. destruct (signing_spec _ _ _ _ _ _ E1) as [_ Ho].
  rewrite <- (Ho p) by naive_solver. destruct r1 as [s|]; [|by destruct Hm as [-> _]].
  apply (tidy_other _ _ _ _ _ _ _ _ Hm); naive_solver.
Qed.

(** ** A history of requests *)

(** What the directory and the cache hold; [quiet] says that the environment is calm,
    [sound] which hosts no failed signing leaves a file for. *)
Record stocked (quiet : Prop) (sound : string -> Prop) (c : ca) (f : fs) : Prop := {
  st_made : forall h, plain_host h = true -> sound h -> is_Some (f !! crt_of c h) -> made c h f;
  st_private : quiet -> forall h, plain_host h = true -> sound h -> is_Some (f !! crt_of c h) -> private c h f;
  st_cache : forall h p, ca_cache c !! h = Some p ->
    plain_host h = true /\ p = (crt_of c h, key_of c h) /\ (sound h -> is_Some (f !! crt_of c h)) }.

(** A minting for another plain host leaves the files of this one. *)
Lemma mint_elsewhere e c h h' f f' r : plain_host h = true -> plain_host h' = true -> h' <> h -> mint e c h f = (f', r) ->
  f' !! crt_of c h' = f !! crt_of c h' /\ f' !! key_of c h' = f !! key_of c h'.
Proof.
  intros Hh Hh' Hn Hm. assert (safe h' <> safe h) as Hs by (intros E; apply Hn; by apply safe_inj).
  assert (forall s, suffix s -> s <> ".srl" -> ~ touched c h (leaf_path c h' s)) as Ht.
  { intros s Hx Hy [E|[E|[[E|E]|E]]]; try (apply leaf_path_inj in E as [? _]; [congruence|done|is_suffix]).
    by apply leaf_path_serial in E. }
  split; (apply (mint_other _ _ _ _ _ _ _ Hm), Ht; [is_suffix|done]).
Qed.
Lemma mint_stocked quiet sound e c h f f' r : (quiet -> calm e) -> plain_host h = true -> stocked quiet sound c f ->
  ca_cache c !! h = None -> (sound h -> f !! crt_of c h = None /\ residue e c h f = false) -> mint e c h f = (f', r) ->
  stocked quiet sound c f' /\ (r = Ok tt -> sound h -> made c h f') /\
  forall h', sound h' -> is_Some (f !! crt_of c h') -> plain_host h' = true -> is_Some (f' !! crt_of c h').
Proof.
  intros Hq Hh [Hmade Hpriv Hcache] Hnc Hn Hm.
  assert (sound h -> (is_Some (f' !! crt_of c h) -> made c h f') /\ (r = Ok tt -> is_Some (f' !! crt_of c h)) /\
    (calm e -> is_Some (f' !! crt_of c h) -> private c h f')) as Hs by (intros [_ Hr]%Hn; by apply (mint_spec _ _ _ _ _ _ Hr Hm)).
  assert (forall h', h' <> h -> plain_host h' = true -> f' !! crt_of c h' = f !! crt_of c h' /\ f' !! key_of c h' = f !! key_of c h') as Hel
    by (intros h' Hd Hh'; by apply (mint_elsewhere _ _ _ _ _ _ _ Hh Hh' Hd Hm)).
  assert (forall h', sound h' -> is_Some (f !! crt_of c h') -> h' <> h) as Hne
    by (intros h' Hs' [x Hx] ->; destruct (Hn Hs') as [E _]; congruence).
  split; [split|split].
  - intros h' Hh' Hs' Hx. destruct (decide (h' = h)) as [->|Hd]; [by apply Hs|].
    destruct (Hel h' Hd Hh') as [Ec Ek]. rewrite Ec in Hx.
    eapply made_text; [apply Hmade; done|by rewrite Ec|by rewrite Ek].
  - intros Hqt h' Hh' Hs' Hx. destruct (decide (h' = h)) as [->|Hd]; [apply Hs; auto|].
    destruct (Hel h' Hd Hh') as [Ec Ek]. rewrite Ec in Hx.
    destruct (Hpriv Hqt h' Hh' Hs' Hx) as (k & Hk & Hmk). exists k. by rewrite Ek.
  - intros h' p Hp. destruct (Hcache h' p Hp) as (Hh' & -> & Hx). split_and!; [done..|]. intros Hs'.
    destruct (Hel h') as [Ec _]; [congruence|done|]. rewrite Ec. by apply Hx.
  - intros Hr Hs'. apply Hs; [done|]. by apply Hs.
  - intros h' Hs' Hx Hh'. destruct (Hel h' (Hne _ Hs' Hx) Hh') as [Ec _]. by rewrite Ec.
Qed.
(** The same authority, whatever its cache. *)
Definition same_ca (c c' : ca) : Prop := ca_dir c' = ca_dir c /\ leaf_dir c' = leaf_dir c.
(** A request that mints, and whose signing fails and leaves a file. *)
Definition mints (c : ca) (h : string) (f : fs) : bool :=
  bool_decide (ca_cache c !! h = None) && negb (exists_ (key_of c h) f && exists_ (crt_of c h) f).
Definition spoils (e : os_env) (c : ca) (h : string) (f : fs) : bool := mints c h f && residue e c h f.
Lemma leaf_for_stocked quiet sound e c h f f' r : (quiet -> calm e) -> plain_host h = true -> stocked quiet sound c f ->
  (sound h -> spoils e c h f = false) -> leaf_for e h c f = (f', r) ->
  match r with
  | Ok (c', p) => same_ca c c' /\ stocked quiet sound c' f' /\ p = (crt_of c h, key_of c h) /\ (sound h -> is_Some (f' !! crt_of c h))
  | Raise _ => stocked quiet sound c f'
  end /\ forall h', sound h' -> is_Some (f !! crt_of c h') -> plain_host h' = true -> is_Some (f' !! crt_of c h').
Proof.
  intros Hq Hh Hst Hsp Hl. unfold leaf_for in Hl. unfold spoils, mints in Hsp. destruct (ca_cache c !! h) as [hit|] eqn:Ec.
  { injection Hl as <- <-. destruct (st_cache _ _ _ _ Hst _ _ Ec) as (_ & -> & Hx). by split. }
  fold (key_of c h) (crt_of c h) in Hl.
  assert (forall g, stocked quiet sound c g -> (sound h -> is_Some (g !! crt_of c h)) ->
    stocked quiet sound (InterceptionCA (ca_dir c) (leaf_dir c) (ca_cn c) (<[h := (crt_of c h, key_of c h)]> (ca_cache c))) g) as Hadd.
  { intros g [Hm Hp Hc] Hx. split; [exact Hm|exact Hp|]. cbn [ca_cache]. intros h' p.
    destruct (decide (h = h')) as [<-|Hn]; [rewrite lookup_insert_eq; by intros [= <-]|].
    rewrite lookup_insert_ne by done. apply Hc. }
  apply ibind_inv in Hl as (f1 & r1 & E1 & Hl).
  destruct (exists_ (key_of c h) f && exists_ (crt_of c h) f) eqn:Ex.
  - injection E1 as <- <-. injection Hl as <- <-. apply andb_true_iff in Ex as [_ Ex%bool_decide_eq_true].
    by split_and!; auto.
  - assert (sound h -> f !! crt_of c h = None /\ residue e c h f = false) as Hn.
    { intros Hs. split; [|specialize (Hsp Hs); by rewrite bool_decide_true in Hsp]. destruct (f !! crt_of c h) as [x|] eqn:Ef; [|done]. exfalso.
      destruct (st_made _ _ _ _ Hst h Hh Hs) as (y & k & _ & Hk & _); [rewrite Ef; by eexists|].
      unfold exists_ in Ex. rewrite Ef, Hk in Ex. done. }
    destruct (mint_stocked quiet sound e c h f f1 r1 Hq Hh Hst Ec Hn E1) as (Hs1 & Hok & Hkeep).
    destruct r1 as [[]|x]; [|destruct Hl as [-> ->]; by split]. injection Hl as <- <-.
    assert (sound h -> is_Some (f1 !! crt_of c h)) as Hx by (intros Hs; destruct (Hok eq_refl Hs) as (x & k & Hx & _); by eexists).
    by split_and!; auto.
Qed.

(** The certificates handed out to a sequence of requests; one that raises hands out
    nothing and changes nothing but files. *)
Fixpoint answers (calls : list (os_env * string)) (c : ca) (f : fs) : fs * list (string * (string * string)) :=
  match calls with
  | [] => (f, [])
  | (e, h) :: rest =>
      let '(f1, r) := leaf_for e h c f in
      match r with
      | Ok (c1, p) => let '(f2, l) := answers rest c1 f1 in (f2, (h, p) :: l)
      | Raise _ => answers rest c f1
      end
  end.
(** Among these requests one for [h] fails to sign and leaves a certificate file. *)
Fixpoint spoilt (h : string) (calls : list (os_env * string)) (c : ca) (f : fs) : bool :=
  match calls with
  | [] => false
  | (e, h') :: rest => (String.eqb h' h && spoils e c h f) ||
      let '(f1, r) := leaf_for e h' c f in spoilt h rest (match r with Ok (c1, _) => c1 | Raise _ => c end) f1
  end.
Lemma answers_stocked quiet sound calls : forall c f f' l, (quiet -> Forall (fun eh => calm eh.1) calls) ->
  Forall (fun eh => plain_host eh.2 = true) calls -> stocked quiet sound c f -> (forall h, sound h -> spoilt h calls c f = false) ->
  answers calls c f = (f', l) ->
  (forall h, plain_host h = true -> sound h -> is_Some (f !! crt_of c h) -> is_Some (f' !! crt_of c h) /\ made c h f' /\ (quiet -> private c h f')) /\
  forall h p, (h, p) ∈ l -> plain_host h = true /\ p = (crt_of c h, key_of c h) /\ (sound h -> made c h f' /\ (quiet -> private c h f')).
Proof.
  induction calls as [|[e h] calls IH]; intros c f f' l Hq Hp Hst Hsp Ha; cbn in Ha.
  - injection Ha as <- <-. split; [|by intros ? ? ?%not_elem_of_nil]. intros h Hh Hs Hx. split_and!; [done|by apply Hst|].
    intros Hqt. by eapply st_private.
  - apply Forall_cons in Hp as [Hh Hp]. cbn in Hh.
    assert (quiet -> calm e) as Hce by (intros Hqt; by apply Hq, Forall_cons in Hqt as [? _]).
    assert (quiet -> Forall (fun eh => calm eh.1) calls) as Hq' by (intros Hqt; by apply Hq, Forall_cons in Hqt as [_ ?]).
    cbn [spoilt] in Hsp.
    assert (sound h -> spoils e c h f = false) as Hsh by (intros Hs; specialize (Hsp h Hs); rewrite String.eqb_refl in Hsp; by apply orb_false_iff in Hsp as [? _]).
    destruct (leaf_for e h c f) as [f1 r] eqn:E1.
    assert (forall b, sound b -> spoilt b calls (match r with Ok (c1, _) => c1 | Raise _ => c end) f1 = false) as Hrest.
    { intros b Hb. specialize (Hsp b Hb). apply orb_false_iff in Hsp as [_ Hsp]. by rewrite ?E1 in Hsp. }
    destruct (leaf_for_stocked quiet sound _ _ _ _ _ _ Hce Hh Hst Hsh E1) as [Hr Hkeep].
    destruct r as [[c1 p]|x].
    + destruct Hr as ([Ed El] & Hst1 & -> & Hx). destruct (answers calls c1 f1) as [f2 l2] eqn:E2. injection Ha as <- <-.
      destruct (IH _ _ _ _ Hq' Hp Hst1 Hrest E2) as [H1 H2].
      assert (forall b, crt_of c1 b = crt_of c b) as Ec by (intros b; unfold crt_of, leaf_path; by rewrite El).
      assert (forall b, key_of c1 b = key_of c b) as Ek by (intros b; unfold key_of, leaf_path; by rewrite El).
      unfold made, private in *. setoid_rewrite Ec in H1. setoid_rewrite Ek in H1. setoid_rewrite Ec in H2. setoid_rewrite Ek in H2.
      split; [eauto|]. intros b p [E|Hb]%elem_of_cons; [|by apply H2]. injection E as -> ->.
      split_and!; [done..|]. intros Hs. destruct (H1 h Hh Hs (Hx Hs)) as (_ & ? & ?). by split.
    + destruct (IH _ _ _ _ Hq' Hp Hr Hrest Ha) as [H1 H2]. split; [eauto|done].
Qed.

(** C14: the interception authority certifies what it is asked for. After any sequence
    of requests for plain hosts, over a leaf directory that was empty, whatever
    directories, opens, writes, permissions and openssl answer on the way: every
    pair of paths handed out is the host's own; and unless a signing for that very
    host failed and left a certificate file behind, the pair still holds a
    certificate of exactly that host's name, with the private key it certifies. A
    request that fails hands out nothing. If permissions can be set, every such
    key is readable by its owner alone, and the root's always is. *)
Theorem leaves_certify e0 cadir leafdir cn calls f0 f1 c f2 l : init e0 cadir leafdir cn f0 = (f1, Ok c) ->
  (forall h, f1 !! crt_of c h = None) -> Forall (fun eh => plain_host eh.2 = true) calls -> answers calls c f1 = (f2, l) ->
  (exists k, f1 !! ca_key c = Some k /\ f_mode k = O600) /\
  forall h p, (h, p) ∈ l -> p = (crt_of c h, key_of c h) /\
    (spoilt h calls c f1 = false -> made c h f2 /\ (Forall (fun eh => calm eh.1) calls -> private c h f2)).
Proof.
  intros Hi Hnew Hp Ha. assert (ca_cache c = ∅ /\ exists k, f1 !! ca_key c = Some k /\ f_mode k = O600) as [Hc Hroot].
  { unfold init in Hi. apply ibind_inv in Hi as (g1 & r1 & _ & Hi). destruct r1; [|by destruct Hi].
    apply ibind_inv in Hi as (g2 & r2 & _ & Hi). destruct r2; [|by destruct Hi].
    apply ibind_inv in Hi as (g3 & r3 & E3 & Hi). destruct r3 as [[]|]; [|by destruct Hi]. injection Hi as <- <-. split; [done|].
    set (c := InterceptionCA cadir leafdir cn ∅) in *. unfold ensure_ca in E3.
    assert (forall g g' p, chmod e0 p O600 g = (g', Ok tt) -> exists k, g' !! p = Some k /\ f_mode k = O600) as Hch.
    { intros g g' p (k & Hk & Hm)%chmod_mode%fmap_Some. by exists k. }
    destruct (_ && _); [by eapply Hch|]. apply ibind_inv in E3 as (g4 & r4 & _ & E3). destruct r4 as [s|]; [|by destruct E3].
    destruct (negb _); [done|]. apply ibind_inv in E3 as (g5 & r5 & E5 & E3). destruct r5 as [[]|]; [|by destruct E3].
    destruct (Hch _ _ _ E5) as (k & Hk & Hm). exists k. split; [|done].
    rewrite (chmod_other _ _ _ _ _ _ (ca_key c) E3); [done|]. unfold ca_crt, ca_key, path_join.
    change (startswith "/" "ca.crt") with false. change (startswith "/" "ca.key") with false.
    destruct (_ || _); intros E%append_cancel; [done|]. by apply append_cancel in E. }
  split; [done|].
  assert (stocked (Forall (fun eh => calm eh.1) calls) (fun h => spoilt h calls c f1 = false) c f1) as Hst.
  { split; [intros h _ _ [x Hx]|intros _ h _ _ [x Hx]|intros h p Hx; by rewrite Hc, lookup_empty in Hx]; by rewrite Hnew in Hx. }
  intros h p Hin. destruct (answers_stocked _ _ _ _ _ _ _ (fun q => q) Hp Hst (fun _ q => q) Ha) as [_ H2].
  by destruct (H2 h p Hin) as (_ & ? & ?).
Qed.
End Props.

(** ** A reliable tool, and a run *)

Definition arg (n : nat) (args : list string) : string := nth n args "".
Definition toy_openssl (args : list string) : io (Z * string) := fun f =>
  if String.eqb (arg 1 args) "x509" then
    match f !! arg 4 args, f !! arg 15 args with
    | Some q, Some x => (<[arg 13 args := File ("CRT:" ++ f_content q ++ f_content x) O644]> f, Ok (0, ""))
    | _, _ => (f, Ok (1, "no such file"))
    end
  else if String.eqb (arg 2 args) "-x509" then
    (<[arg 11 args := File "ROOT" O644]> (<[arg 9 args := File "ROOT KEY" O644]> f), Ok (0, ""))
  else let key := "KEY " ++ arg 10 args in
    (<[arg 8 args := File ("CSR:" ++ key) O644]> (<[arg 6 args := File key O644]> f), Ok (0, "")).
#[export] Instance toy_tool : Openssl := {|
  openssl := toy_openssl; requests q k := q = "CSR:" ++ k; certifies x k e := x = "CRT:" ++ ("CSR:" ++ k) ++ e |}.
#[export] Instance toy_tool_ok : OpensslOk.
Proof.
  split; cbn; unfold toy_openssl; cbn.
  - intros key crt cn f f' m [= <- _]. split; [|by rewrite lookup_insert_eq].
    destruct (decide (crt = key)) as [->|]; [by rewrite lookup_insert_eq|]. by rewrite lookup_insert_ne, lookup_insert_eq.
  - intros key csr host f f' r p [= <- _] Hk Hc. by rewrite !lookup_insert_ne.
  - intros key csr host f f' m Hn [= <- _]. eexists _, _. rewrite lookup_insert_ne, !lookup_insert_eq by done. by split_and!.
  - intros csr ? ? crt ext f f' r p Hs Hc _. destruct (f !! csr), (f !! ext); injection Hs as <- _; try done.
    by rewrite lookup_insert_ne.
  - intros csr ? ? crt ext f f' m q k x Hs Hq Hk Hx. rewrite Hq, Hx in Hs. injection Hs as <- _. rewrite lookup_insert_eq.
    eexists. split; [done|]. cbn. by rewrite Hk.
Qed.

Definition os_ok : os_env := OsEnv (fun _ => None) (fun _ => None) (fun _ => None) (fun _ => None) (fun _ => None) O644.
Definition os_full : os_env :=
  OsEnv (fun _ => None) (fun _ => None) (fun _ => Some (PyExn "OSError" "No space left on device")) (fun _ => None) (fun _ => None) O644.
Definition ca_ex : ca := InterceptionCA "/ca" "/leaf" "Strix PEP Interception CA" ∅.
Definition fs_ex : fs := (init os_ok "/ca" "/leaf" "Strix PEP Interception CA" ∅).1.
Lemma fs_ex_leaf h : fs_ex !! crt_of ca_ex h = None.
Proof.
  assert (fs_ex = <["/ca/ca.key" := File "ROOT KEY" O600]> {[ "/ca/ca.crt" := File "ROOT" O644 ]}) as -> by (vm_compute; reflexivity).
  unfold crt_of. rewrite leaf_path_eq by is_suffix. rewrite lookup_insert_ne by done. by rewrite lookup_singleton_ne.
Qed.
Definition calls_ex : list (os_env * string) :=
  [(os_ok, "allowed.lab"); (os_full, "slow.lab"); (os_ok, "2001:db8::1"); (os_ok, "slow.lab"); (os_ok, "allowed.lab")].
(** The full disk costs one request; the next one mints. *)
Example answers_ex : (answers calls_ex ca_ex fs_ex).2.*1 = ["allowed.lab"; "2001:db8::1"; "slow.lab"; "allowed.lab"].
Proof. vm_compute. reflexivity. Qed.
Lemma leaves_certify_witness :
  made ca_ex "slow.lab" (answers calls_ex ca_ex fs_ex).1 /\ private ca_ex "slow.lab" (answers calls_ex ca_ex fs_ex).1.
Proof.
  destruct (answers calls_ex ca_ex fs_ex) as [f2 l] eqn:E.
  assert (("slow.lab", (crt_of ca_ex "slow.lab", key_of ca_ex "slow.lab")) ∈ l) as Hin.
  { replace l with (answers calls_ex ca_ex fs_ex).2 by (by rewrite E). apply (list_elem_of_lookup_2 _ 2). vm_compute. reflexivity. }
  destruct (leaves_certify os_ok "/ca" "/leaf" "Strix PEP Interception CA" calls_ex ∅ fs_ex ca_ex f2 l) as [_ Hl].
  - unfold fs_ex, ca_ex. vm_compute. reflexivity.
  - apply fs_ex_leaf.
  - repeat constructor.
  - exact E.
  - destruct (Hl _ _ Hin) as [_ Hs]. destruct Hs as [Hm Hp]; [vm_compute; reflexivity|]. split; [exact Hm|]. apply Hp. repeat constructor; by intros ? ? [=].
Defined.

(** Two canonical hosts may share their files: the second is then handed the
    certificate of the first. *)
Definition shared_calls : list (os_env * string) := [(os_ok, "2001:db8::1"); (os_ok, "2001_db8__1")].
Example shared_leaf :
  canonical_host (H := {| idna _ := None |}) "2001:db8::1" = Some "2001:db8::1" /\
  canonical_host (H := {| idna _ := None |}) "2001_db8__1" = Some "2001_db8__1" /\
  (answers shared_calls ca_ex fs_ex).2 =
    [("2001:db8::1", ("/leaf/2001_db8__1.crt", "/leaf/2001_db8__1.key"));
     ("2001_db8__1", ("/leaf/2001_db8__1.crt", "/leaf/2001_db8__1.key"))] /\
  f_content <$> (answers shared_calls ca_ex fs_ex).1 !! "/leaf/2001_db8__1.crt" =
    Some ("CRT:CSR:KEY /CN=2001:db8::1" ++ extensions "2001:db8::1").
Proof. split_and!; vm_compute; reflexivity. Qed.
(** A leaf whose permissions could not be set is handed out all the same the next time. *)
Definition os_locked : os_env :=
  OsEnv (fun _ => None) (fun _ => None) (fun _ => None) (fun _ => Some (PyExn "PermissionError" "")) (fun _ => None) O644.
Example locked_leaf :
  (answers [(os_locked, "allowed.lab"); (os_ok, "allowed.lab")] ca_ex fs_ex).2.*1 = ["allowed.lab"] /\
  f_mode <$> (answers [(os_locked, "allowed.lab"); (os_ok, "allowed.lab")] ca_ex fs_ex).1 !! "/leaf/allowed.lab.key" = Some O644.
Proof. split; vm_compute; reflexivity. Qed.
(** A signing that fails half way leaves what it has written of the certificate;
    the next request for the host finds the file and hands it out. *)
Definition torn_openssl (args : list string) : io (Z * string) := fun f =>
  if String.eqb (arg 1 args) "x509" then (<[arg 13 args := File "-----BEGIN" O644]> f, Ok (1, "write error")) else toy_openssl args f.
Definition torn_tool : Openssl := {|
  openssl := torn_openssl; requests q k := q = "CSR:" ++ k; certifies x k e := x = "CRT:" ++ ("CSR:" ++ k) ++ e |}.
Example torn_leaf :
  let run := answers (H := torn_tool) [(os_ok, "allowed.lab"); (os_ok, "allowed.lab")] ca_ex fs_ex in
  run.2 = [("allowed.lab", ("/leaf/allowed.lab.crt", "/leaf/allowed.lab.key"))] /\
  f_content <$> run.1 !! "/leaf/allowed.lab.crt" = Some "-----BEGIN" /\
  spoilt (H := torn_tool) "allowed.lab" [(os_ok, "allowed.lab")] ca_ex fs_ex = true.
Proof. split_and!; vm_compute; reflexivity. Qed.
