(* ===== verification/Inventory.v ===== *)
(** * The audit inventory ([src/pep/audit_inventory.py])

    The identifiers the auditor requires, read off its syntax tree, those the
    artifacts carry and those a scan of the sources sees, and the manifest written
    from them, which pins the verifiers' digests for E5. *)

From S2P Require Import Prelude.
From S2P Require Import PyStr.
From S2P Require Import Json.
From S2P Require Import PyDyn.
From S2P Require Import IpAddr.
From S2P Require Import Hash.
From S2P Require Import Gateway.
From S2P Require Import PyAst.
Open Scope Z_scope.

(** ** Sorting *)

Fixpoint insert_by {A} (le : A -> A -> bool) (x : A) (l : list A) : list A :=
  match l with [] => [x] | y :: l' => if le x y then x :: l else y :: insert_by le x l' end.
Fixpoint sort_by {A} (le : A -> A -> bool) (l : list A) : list A :=
  match l with [] => [] | x :: l' => insert_by le x (sort_by le l') end.
(** [sorted(set(l))]. *)
Definition sorted_set (l : list string) : list string := sort_by String.leb (remove_dups l).
(** A dict that keeps the order of first insertion. *)
Fixpoint aset {A} (k : string) (v : A) (l : list (string * A)) : list (string * A) :=
  match l with [] => [(k, v)] | (k', v') :: l' => if String.eqb k k' then (k, v) :: l' else (k', v') :: aset k v l' end.

(** ** The contract ([contract_sets]) *)

(** [ast.literal_eval] on constants, tuples, lists and sets; of other literals it
    is not asked. *)
Fixpoint literal_eval (t : ast) : res val :=
  match t with
  | ANode c fs =>
      if String.eqb c "Constant" then
        match field_in "value" fs with Some (AVal v) => Ok v | _ => Raise (ValErr "malformed node") end
      else if mem_str c ["Tuple"; "List"; "Set"] then
        (fix go (fs : list (string * ast)) : res val :=
           match fs with
           | [] => Raise (AttrError "elts")
           | (k, AList l) :: fs' => if String.eqb k "elts" then vs <- rmap literal_eval l;; Ok (VList vs) else go fs'
           | _ :: fs' => go fs'
           end) fs
      else Raise (ValErr "malformed node")
  | _ => Raise (ValErr "malformed node")
  end.
Definition as_int (v : val) : res Z :=
  match v with
  | VInt n => Ok n
  | VBool b => Ok (if b then 1 else 0)
  | _ => Raise (TypeError "cannot be interpreted as an integer")
  end.
(** [range(a, b, step)]. *)
Definition range_of (a b step : Z) : list Z :=
  let n := if 0 <? step then (b - a + step - 1) / step else (a - b - step - 1) / (- step) in
  map (fun i => a + Z.of_nat i * step) (seq 0 (Z.to_nat n)).
Definition range_args (args : list val) : res (list val) :=
  zs <- rmap as_int args;;
  match zs with
  | [b] => Ok (map VInt (range_of 0 b 1))
  | [a; b] => Ok (map VInt (range_of a b 1))
  | [a; b; s] => if s =? 0 then Raise (ValErr "range() arg 3 must not be zero") else Ok (map VInt (range_of a b s))
  | _ => Raise (TypeError "range")
  end.
Definition str_constants (elts : list ast) : list string :=
  flat_map (fun e => if String.eqb (cls_of e) "Constant" then match str_attr "value" e with Some s => [s] | None => [] end else []) elts.
(** The members of a set comprehension over a range or a literal. *)
Definition comprehended (pref : string) (value : ast) : res (list string) :=
  match list_attr "generators" value with
  | [] => Raise (PyExn "IndexError" "list index out of range")
  | gen :: _ =>
      match attr "iter" gen with
      | None => Raise (AttrError "iter")
      | Some it =>
          l <- (if String.eqb (cls_of it) "Call" && bool_decide ((attr "func" it ≫= str_attr "id") = Some "range")
                then args <- rmap literal_eval (list_attr "args" it);; range_args args
                else v <- literal_eval it;; v_iter v);;
          Ok (map (fun i => pref ++ py_str i) l)
      end
  end.
Definition SETS : list string := ["REQUIRED_A"; "REQUIRED_B"; "STUDY_B"].
Definition id_le (x y : (string * Z) * string) : bool :=
  if String.eqb x.1.1 y.1.1 then x.1.2 <=? y.1.2 else String.leb x.1.1 y.1.1.
(** [sorted(vals, key=lambda x: (x[:1], int(x[1:])))]. *)
Definition sorted_ids (vals : list string) : res (list string) :=
  keyed <- rmap (fun x => n <- py_int (drop 1 x);; Ok ((take 1 x, n), x)) vals;;
  Ok (map snd (sort_by id_le keyed)).
Definition assigned (name : string) (value : ast) : res (list string) :=
  vals <- (if String.eqb (cls_of value) "Set" then Ok (str_constants (list_attr "elts" value))
           else if String.eqb (cls_of value) "SetComp"
           then comprehended (if String.eqb name "REQUIRED_A" then "A" else "B") value
           else Ok []);;
  sorted_ids vals.
Fixpoint assignments (body : list ast) (out : list (string * list string)) : res (list (string * list string)) :=
  match body with
  | [] => Ok out
  | node :: rest =>
      match list_attr "targets" node with
      | [target] =>
          let name := default "" (str_attr "id" target) in
          if String.eqb (cls_of node) "Assign" && mem_str name SETS then
            match attr "value" node with
            | Some value => vals <- assigned name value;; assignments rest (aset name vals out)
            | None => Raise (AttrError "value")
            end
          else assignments rest out
      | _ => assignments rest out
      end
  end.
(** The constants that [chk] is called with; one that is no string has no place in
    the report and raises. *)
Definition check_ids (tree : ast) : res (list string) :=
  vs <- rmap (fun n => match n with
                       | AVal (VStr s) => Ok s
                       | _ => Raise (TypeError "not a string")
                       end)
    (flat_map (fun n =>
       if String.eqb (cls_of n) "Call" && bool_decide ((attr "func" n ≫= str_attr "id") = Some "chk")
       then match list_attr "args" n with
            | a :: _ => if String.eqb (cls_of a) "Constant" then [default ANone (attr "value" a)] else []
            | [] => []
            end
       else []) (walk tree));;
  Ok (sorted_set vs).
Section Inventory.
(** [ast.parse]. *)
Variable parse : string -> option ast.
Definition contract_sets (src : string) : res (list (string * list string)) :=
  match parse src with
  | None => Raise (PyExn "SyntaxError" "")
  | Some tree =>
      out <- assignments (list_attr "body" tree) [];;
      e <- check_ids tree;;
      Ok (aset "EVIDENCE_CHECKS" e out)
  end.

(** ** The artifacts ([runtime_ids]) *)

(** The ids of one file, [None] if it cannot be read as JSON. *)
Definition file_ids (file : option val) (field : string) : res (list val) :=
  match file with
  | None => Ok []
  | Some v =>
      a <- v_get field v;; b <- v_get "rows" v;; c <- v_get "results" v;;
      rows <- v_iter (v_or a (v_or b (v_or c (VList []))));;
      Ok (flat_map (fun r => match r with
                             | VDict d => if truthy (fld "id" d) then [fld "id" d] else []
                             | _ => []
                             end) rows)
  end.
(** A key only when there are ids; [ids] are used as strings from here on. *)
Definition keep_ids (key : string) (got : list val) (out : list (string * list string)) : res (list (string * list string)) :=
  l <- rmap (fun v => match v with VStr s => Ok s | _ => Raise (TypeError "sequence item: expected str instance") end) got;;
  Ok (match l with [] => out | _ => aset key l out end).
Definition runtime_ids (acceptance layerb results : option val) : res (list (string * list string)) :=
  a <- file_ids acceptance "layer_a";; b <- file_ids acceptance "layer_b";;
  c <- file_ids layerb "layer_a";; d <- file_ids results "layer_a";;
  out <- keep_ids "layer_a" a [];; out <- keep_ids "layer_b" b out;;
  out <- keep_ids "layer_b_raw" c out;; keep_ids "ipv4" d out.

(** ** The scan of the sources ([static_ids]) *)

(** What follows the text [p], if the text starts with it. *)
Definition after (p s : string) : option string := if startswith p s then Some (drop (String.length p) s) else None.
Fixpoint digits_of (s : string) : string * string :=
  match s with
  | EmptyString => ("", "")
  | String c s' => if is_dec c then let '(a, b) := digits_of s' in (String c a, b) else ("", s)
  end.
Definition quote : string := String "034" "".
(** [rec\(\s*"A",\s*"(A\d+)"], or without the first argument, at the head of a text. *)
Definition row_at (first : option string) (letters s : string) : option (string * string) :=
  s ← after "rec(" s;
  let s := lstrip c_isspace s in
  s ← match first with Some f => lstrip c_isspace <$> after (quote ++ f ++ quote ++ ",") s | None => Some s end;
  s ← after (quote ++ letters) s;
  let '(ds, rest) := digits_of s in
  if String.eqb ds "" then None else rest ← after quote rest; Some (letters ++ ds, rest).
(** [re.findall]; each step consumes. *)
Fixpoint find_rows (n : nat) (first : option string) (letters s : string) : list string :=
  match n, s with
  | S n', String _ s' =>
      match row_at first letters s with
      | Some (id, rest) => id :: find_rows n' first letters rest
      | None => find_rows n' first letters s'
      end
  | _, _ => []
  end.
Definition scans : list (string * (option string * string)) :=
  [("ipv6_acceptance.py", (Some "A", "A")); ("ipv6_transport.py", (None, "B")); ("pep_client.py", (None, "PP"))].
Definition static_ids (sources : string -> option string) : list (string * list string) :=
  flat_map (fun fp => match sources fp.1 with
                      | Some src => [(fp.1, sorted_set (find_rows (String.length src) fp.2.1 fp.2.2 src))]
                      | None => []
                      end) scans.

(** ** The manifest ([main]) *)

Definition verifier_names : list string := ["verify_layerb_audit.py"; "verify_pp18.py"; "verify_b7_evidence.py"].
(** The files as they are read: the auditor's source, the artifacts, the scanned
    sources, the verifiers' bytes. *)
Record inventory_env := InventoryEnv {
  iv_auditor : string; iv_acceptance : option val; iv_layerb : option val; iv_results : option val;
  iv_sources : string -> option string; iv_verifiers : string -> res string }.
(** The identifiers of each list that no scan sees. *)
Definition blind_spots (lists sta : list (string * list string)) : list (string * list string) :=
  let flat := flat_map snd sta in
  flat_map (fun kv => match List.filter (fun i => negb (mem_str i flat) && negb (startswith "E" i)) kv.2 with
                      | [] => []
                      | miss => [(kv.1, miss)]
                      end) lists.
Definition strs (l : list string) : val := VList (map VStr l).
Definition lists_val (l : list (string * list string)) : val := VDict (map (fun kv => (kv.1, strs kv.2)) l).
Context `{Digest}.
Definition main (e : inventory_env) : res dict :=
  con <- contract_sets (iv_auditor e);;
  run <- runtime_ids (iv_acceptance e) (iv_layerb e) (iv_results e);;
  let sta := static_ids (iv_sources e) in
  pins <- rmap (fun n => bytes <- iv_verifiers e n;; Ok (n, VStr (sha256 bytes))) verifier_names;;
  Ok [ ("required_ids", strs (sorted_set (flat_map snd (con ++ run)%list)));
       ("contract", lists_val con);
       ("verifier_sha256", VDict pins);
       ("runtime", lists_val run);
       ("static_blind_spots", lists_val (blind_spots (con ++ run)%list sta)) ].
End Inventory.
