(* ===== verification/InventoryProps.v ===== *)
(** * What the inventory lists and pins

    The manifest lists every identifier of the contract and of the artifacts, and
    pins each verifier to the digest E5 computes, unless the file has a carriage
    return. *)

From S2P Require Import Prelude.
From S2P Require Import PyStr.
From S2P Require Import Json.
From S2P Require Import PyDyn.
From S2P Require Import IpAddr.
From S2P Require Import Hash.
From S2P Require Import AuditLog.
From S2P Require Import AuditProps.
From S2P Require Import Gateway.
From S2P Require Import B7.
From S2P Require Import PyAst.
From S2P Require Import SourceAudit.
From S2P Require Import GateAudit.
From S2P Require Import SourceProps.
From S2P Require Import Inventory.
Open Scope Z_scope.

(** ** Sorting *)

Lemma insert_by_perm {A} (le : A -> A -> bool) x l : insert_by le x l ≡ₚ x :: l.
Proof.
  induction l as [|y l IH]; cbn; [done|]. destruct (le x y); [done|]. rewrite IH. apply Permutation_swap.
Qed.
Lemma sort_by_perm {A} (le : A -> A -> bool) l : sort_by le l ≡ₚ l.
Proof. induction l as [|x l IH]; cbn; [done|]. by rewrite insert_by_perm, IH. Qed.
Lemma sorted_set_spec l : NoDup (sorted_set l) /\ forall i, i ∈ sorted_set l <-> i ∈ l.
Proof.
  unfold sorted_set. split; [rewrite sort_by_perm; apply NoDup_remove_dups|]. intros i. by rewrite sort_by_perm, elem_of_remove_dups.
Qed.

(** ** Text and bytes *)

Lemma utf8_decode_inv n : forall s t, (String.length s <= n)%nat -> utf8_decode false s = Some t -> utf8 t = s.
Proof.
  induction n as [|n IH]; intros [|c s] t Hn; cbn in Hn |- *; try (intros [= <-]; done); [lia|].
  destruct (is_ascii c) eqn:Ec.
  - intros (t' & Ht & ->)%fmap_Some. cbn [utf8]. rewrite Ec. f_equal. apply IH; [lia|done].
  - destruct s as [|d s]; [done|]. destruct (in_range 194 195 c && in_range 128 191 d) eqn:Er; [|done].
    intros (t' & Ht & ->)%fmap_Some. cbn in Hn. unfold in_range in Er. bools. pose proof (IH s t' ltac:(lia) Ht) as Hs.
    assert (code (chr ((code c - 192) * 64 + (code d - 128))) = (code c - 192) * 64 + (code d - 128))%N as Hc by (apply code_chr; lia).
    cbn [utf8]. unfold is_ascii. rewrite Hc. destruct (N.ltb_spec ((code c - 192) * 64 + (code d - 128)) 128); [lia|].
    rewrite (N.add_comm (_ * 64)), N.div_add, N.Div0.mod_add, N.div_small, N.mod_small by lia.
    replace (192 + (0 + (code c - 192)))%N with (code c) by lia. replace (128 + (code d - 128))%N with (code d) by lia.
    by rewrite !chr_code, Hs.
Qed.
Definition no_return (s : string) : bool := str_all (fun c => negb (Ascii.eqb c "013")) s.
Lemma newlines_id s : no_return s = true -> newlines s = s.
Proof.
  induction s as [|c s IH]; cbn; [done|]. intros [Hc%negb_true_iff Hs]%andb_true_iff. rewrite Hc. f_equal. auto.
Qed.
Lemma newlines_no_return n : forall s, (String.length s <= n)%nat -> no_return (newlines s) = true.
Proof.
  induction n as [|n IH]; intros [|c s] Hn; cbn in Hn |- *; try done; [lia|].
  destruct (Ascii.eqb c "013") eqn:Ec.
  - cbn. destruct s as [|d s]; [done|]. cbn in Hn. destruct (Ascii.eqb d newline); apply IH; cbn; lia.
  - cbn. rewrite Ec. apply IH. lia.
Qed.
Lemma utf8_returns t : no_return (utf8 t) = no_return t.
Proof.
  unfold no_return. induction t as [|c t IH]; cbn [utf8]; [done|]. destruct (is_ascii c) eqn:Ec; cbn [str_all]; rewrite IH; [done|].
  unfold is_ascii in Ec. apply N.ltb_ge in Ec. pose proof (code_lt c) as Hlt.
  assert (forall m, (14 <= m < 256)%N -> Ascii.eqb (chr m) "013" = false) as Hm.
  { intros m Hm. apply Ascii.eqb_neq. intros E. apply (f_equal code) in E. rewrite code_chr in E by lia. vm_compute in E. lia. }
  assert (Ascii.eqb c "013" = false) as ->.
  { apply Ascii.eqb_neq. intros ->. vm_compute in Ec. done. }
  assert (code c / 64 < 4)%N by (apply N.Div0.div_lt_upper_bound; cbn; lia).
  pose proof (N.mod_lt (code c) 64 ltac:(done)) as Hmod. generalize dependent (code c mod 64)%N. generalize dependent (code c / 64)%N. intros q Hq r Hr.
  rewrite (Hm (192 + q)%N), (Hm (128 + r)%N) by lia. done.
Qed.
(** Reading a file as text keeps its bytes exactly when it has no carriage return. *)
Lemma read_source_utf8 bytes src : read_source bytes = Some src ->
  if no_return bytes then utf8 src = bytes else utf8 src <> bytes.
Proof.
  intros (t & Ht & ->)%fmap_Some. apply (utf8_decode_inv _ _ _ (Nat.le_refl _)) in Ht as <-. rewrite utf8_returns.
  destruct (no_return t) eqn:En; [by rewrite newlines_id|]. intros E. apply (f_equal no_return) in E. rewrite !utf8_returns in E.
  rewrite (newlines_no_return _ _ (Nat.le_refl _)) in E. congruence.
Qed.

Section Props.
Context `{Digest} (parse : string -> option ast).
Hypothesis parse_node : forall t tree, parse t = Some tree -> is_node tree = true.

(** ** The manifest *)

Definition listed (i : string) (l : list (string * list string)) : Prop := exists k v, (k, v) ∈ l /\ i ∈ v.
Lemma listed_iff i l : i ∈ flat_map snd l <-> listed i l.
Proof.
  rewrite elem_of_flat_map. unfold listed. split; [intros ([k v] & ? & ?); eauto|]. intros (k & v & ? & ?). by exists (k, v).
Qed.
Lemma blind_spots_spec lists sta k i : listed i lists -> (exists v, (k, v) ∈ lists /\ i ∈ v) ->
  listed i sta \/ startswith "E" i = true \/ exists miss, (k, miss) ∈ blind_spots lists sta /\ i ∈ miss.
Proof.
  intros _ (v & Hv & Hi). destruct (mem_str i (flat_map snd sta)) eqn:Em; [left; by apply listed_iff, mem_str_spec|].
  destruct (startswith "E" i) eqn:Es; [by right; left|]. right; right.
  set (f := fun i => negb (mem_str i (flat_map snd sta)) && negb (startswith "E" i)).
  assert (i ∈ List.filter f v) as Hf.
  { apply list_elem_of_In, filter_In. split; [by apply list_elem_of_In|]. unfold f. by rewrite Em, Es. }
  exists (List.filter f v). split; [|done]. unfold blind_spots. apply elem_of_flat_map. exists (k, v). split; [done|].
  cbn [fst snd]. fold f. destruct (List.filter f v); [by apply not_elem_of_nil in Hf|by left].
Qed.
Lemma pins_get vs pins base bytes : rmap (fun n => b <- vs n;; Ok (n, VStr (sha256 b))) verifier_names = Ok pins ->
  base ∈ verifier_names -> vs base = Ok bytes -> v_get base (VDict pins) = Ok (VStr (sha256 bytes)).
Proof.
  intros Hp Hb Hv. unfold verifier_names in *. cbn [rmap] in Hp.
  apply res_bind_Ok in Hp as (x & Hx & Hp). apply res_bind_Ok in Hx as (b1 & H1 & [= <-]).
  apply res_bind_Ok in Hp as (l1 & Hx & [= <-]). apply res_bind_Ok in Hx as (y & Hy & Hx). apply res_bind_Ok in Hy as (b2 & H2 & [= <-]).
  apply res_bind_Ok in Hx as (l2 & Hx & [= <-]). apply res_bind_Ok in Hx as (z & Hz & Hx). apply res_bind_Ok in Hz as (b3 & H3 & [= <-]).
  apply res_bind_Ok in Hx as (l3 & [= <-] & [= <-]).
  repeat (apply elem_of_cons in Hb as [->|Hb]; [cbn; congruence|]). by apply not_elem_of_nil in Hb.
Qed.

(** C31: the inventory leaves nothing out. The manifest that is written lists, each
    once, exactly the identifiers of the auditor's contract and of the artifacts;
    each of them is seen by the scan of the sources, is a check of the auditor, or is
    listed among the blind spots; and for a verifier that is UTF-8 text, the
    auditor's E5 with this manifest accepts it exactly when its source is sound, if
    the file has no carriage return, and otherwise only on a collision of SHA-256. *)
Theorem inventory_complete e d : main parse e = Ok d ->
  (exists con run ids spots,
    contract_sets parse (iv_auditor e) = Ok con /\ runtime_ids (iv_acceptance e) (iv_layerb e) (iv_results e) = Ok run /\
    fld "required_ids" d = strs ids /\ fld "static_blind_spots" d = lists_val spots /\
    NoDup ids /\ (forall i, i ∈ ids <-> listed i (con ++ run)) /\
    forall k v i, (k, v) ∈ (con ++ run)%list -> i ∈ v ->
      listed i (static_ids (iv_sources e)) \/ startswith "E" i = true \/ exists miss, (k, miss) ∈ spots /\ i ∈ miss) /\
  forall base bytes src, base ∈ verifier_names -> iv_verifiers e base = Ok bytes -> read_source bytes = Some src ->
    if no_return bytes
    then verifier_good parse (fld "verifier_sha256" d) base (Some src) = Ok true <->
         exists tree, parse src = Some tree /\ sound_source base src tree
    else verifier_good parse (fld "verifier_sha256" d) base (Some src) = Ok true ->
         utf8 src <> bytes /\ sha256 (utf8 src) = sha256 bytes.
Proof.
  unfold main. intros Hm. apply res_bind_Ok in Hm as (con & Hcon & Hm). apply res_bind_Ok in Hm as (run & Hrun & Hm).
  apply res_bind_Ok in Hm as (pins & Hpins & [= <-]). split.
  - destruct (sorted_set_spec (flat_map snd (con ++ run)%list)) as [Hnd Hin].
    exists con, run, (sorted_set (flat_map snd (con ++ run)%list)), (blind_spots (con ++ run)%list (static_ids (iv_sources e))).
    split_and!; try done.
    + intros i. by rewrite Hin, listed_iff.
    + intros k v i Hk Hi. apply (blind_spots_spec _ _ k i); [by exists k, v|by exists v].
  - intros base bytes src Hb Hv Hr. pose proof (pins_get _ _ _ _ Hpins Hb Hv) as Hget. pose proof (read_source_utf8 _ _ Hr) as Hu.
    match goal with |- context [fld "verifier_sha256" ?x] => change (fld "verifier_sha256" x) with (VDict pins) end.
    destruct (no_return bytes).
    + rewrite verifier_good_iff by done. rewrite Hget, Hu. naive_solver.
    + rewrite verifier_good_iff by done. rewrite Hget. intros (tree & _ & _ & [= E]). by split.
Qed.
End Props.

(** ** A run, evaluated *)

Definition const (v : val) : ast := ANode "Constant" [("value", AVal v); ("kind", ANone)].
Definition name (s : string) : ast := ANode "Name" [("id", AVal (VStr s))].
Definition assign (n : string) (v : ast) : ast := ANode "Assign" [("targets", AList [name n]); ("value", v)].
Definition range_comp (a b : Z) : ast :=
  ANode "SetComp" [("generators", AList [ANode "comprehension" [("iter",
    ANode "Call" [("func", name "range"); ("args", AList [const (VInt a); const (VInt b)])])]])].
Definition chk_call (s : string) : ast := ANode "Expr" [("value", ANode "Call" [("func", name "chk"); ("args", AList [const (VStr s)])])].
(** The shape of the auditor: A1 to A3, B1, B10 and B2 as a literal set, two checks. *)
Definition auditor_ex : ast := ANode "Module" [("body", AList
  [ assign "REQUIRED_A" (range_comp 1 4);
    assign "REQUIRED_B" (ANode "Set" [("elts", AList [const (VStr "B10"); const (VStr "B1"); const (VStr "B2")])]);
    ANode "FunctionDef" [("body", AList [chk_call "E7"; chk_call "E1"; chk_call "E7"])] ])].
Definition parse_ex (src : string) : option ast :=
  if String.eqb src "auditor" then Some auditor_ex else if String.eqb src source_ex then Some member_ex else None.
Lemma inventory_parse_node t tree : parse_ex t = Some tree -> is_node tree = true.
Proof. unfold parse_ex. destruct (String.eqb t "auditor"); [by intros [= <-]|]. destruct (String.eqb t _); [by intros [= <-]|done]. Qed.
Definition row (id : string) : val := VDict [("id", VStr id)].
Definition env_ex (verifiers : string -> res string) : inventory_env := InventoryEnv "auditor"
  (Some (VDict [("layer_a", VList [row "A1"; row "A2"; row "A11"])])) None (Some (VDict [("results", VList [row "PP1"; VNull])]))
  (fun f => if String.eqb f "ipv6_acceptance.py" then Some ("rec( " ++ quote ++ "A" ++ quote ++ ",  " ++ quote ++ "A1" ++ quote ++ ", x)")
            else None) verifiers.
Definition env_ok : inventory_env := env_ex (fun n => if String.eqb n "verify_pp18.py" then Ok source_ex else Ok "").
(** The ids that only a loop produces are blind spots. *)
Example blind_ex :
  match main (H := toy) parse_ex env_ok with
  | Ok d => (fld "required_ids" d, fld "static_blind_spots" d)
  | Raise _ => (VNull, VNull)
  end =
  (strs ["A1"; "A11"; "A2"; "A3"; "B1"; "B10"; "B2"; "E1"; "E7"; "PP1"],
   lists_val [("REQUIRED_A", ["A2"; "A3"]); ("REQUIRED_B", ["B1"; "B2"; "B10"]); ("layer_a", ["A2"; "A11"]);
              ("ipv4", ["PP1"])]).
Proof. vm_compute. reflexivity. Qed.
Lemma inventory_complete_witness : exists d, main (H := toy) parse_ex env_ok = Ok d /\
  verifier_good (H := toy) parse_ex (fld "verifier_sha256" d) "verify_pp18.py" (Some source_ex) = Ok true.
Proof.
  destruct (main (H := toy) parse_ex env_ok) as [d|x] eqn:E; [|vm_compute in E; discriminate E]. exists d. split; [reflexivity|].
  pose proof (proj2 (inventory_complete (H := toy) parse_ex inventory_parse_node env_ok d E) "verify_pp18.py" source_ex source_ex
    ltac:(is_in) eq_refl ltac:(vm_compute; reflexivity)) as Hx.
  change (no_return source_ex) with true in Hx. cbv beta iota in Hx. apply Hx. exists member_ex. split; [vm_compute; reflexivity|].
  assert (verifier_good (H := toy) (fun _ => Some member_ex) pins_ex "verify_pp18.py" (Some source_ex) = Ok true) as Hg
    by (vm_compute; reflexivity).
  apply verifier_good_iff in Hg as (t & [= <-] & Hs & _); [exact Hs|]. by intros ? ? [= <-].
Defined.
