(* ===== verification/Adversary.v ===== *)
(** * The phase 2a adversary ([src/phase2a/adversary.py])

    A client in the sandbox's place that tries every bypass, over what the network
    and the gateway answer it, and the score it writes.  The environment of a row
    is found under the row's name. *)

From S2P Require Import Prelude.
From S2P Require Import PyStr.
From S2P Require Import Json.
From S2P Require Import PyDyn.
From S2P Require Import Hash.
From S2P Require Import IpAddr.
From S2P Require Import Gateway.
From S2P Require Import Harness.
From S2P Require Import B7.
From S2P Require Import Transport.
From S2P Require Import PepClient.
Open Scope Z_scope.

(** ** Rows *)

Definition rec (tid desc expect got detail : string) : dict :=
  [ ("id", VStr tid); ("desc", VStr desc); ("expect", VStr expect); ("got", VStr got);
    ("pass", VBool (String.eqb expect got)); ("detail", VStr (take 300 detail)) ].

(** ** The network layer *)

(** [tcp]: whatever raises counts as blocked. *)
Definition tcp (attempt : res unit) : string := match attempt with Ok _ => "REACHABLE" | Raise _ => "BLOCKED" end.
(** [subprocess.run]: the return code and standard error. *)
Definition command_text (words : list string) (r : Z * string) : string :=
  String.concat " " (tail words) ++ " -> rc=" ++ show_Z r.1 ++ " " ++ take 60 (str_strip r.2).

(** ** Through the gateway *)

(** One connection to the gateway: what connecting answers, and what sending these
    bytes and then each [recv] do. *)
Record exchange := Exchange { ex_connect : res unit; ex_talk : string -> res (list (res string)) }.
(** Everything until the peer is done; an exception ends the reading. *)
Fixpoint read_all (buf : string) (chunks : list (res string)) : string :=
  match chunks with
  | [] | Raise _ :: _ | Ok EmptyString :: _ => buf
  | Ok c :: rest => read_all (buf ++ c) rest
  end.
(** Up to the end of the head; an exception keeps what was read. *)
Fixpoint read_head (buf : string) (chunks : list (res string)) : string :=
  if is_in_buf buf then buf else
  match chunks with
  | [] | Raise _ :: _ | Ok EmptyString :: _ => buf
  | Ok c :: rest => read_head (buf ++ c) rest
  end.
(** [decode("utf-8", "replace")] of code points below 256. *)
Definition text (bytes : string) : string := default "" (utf8_decode true bytes).
(** The answer of the proxy; there is no location when there is no gateway. *)
Record answer := Answer { an_status : Z; an_reason : string; an_body : string; an_location : option string }.
Record question := Question {
  qu_id : string; qu_desc : string; qu_url : string; qu_host : option string; qu_method : string; qu_asset : string; qu_cred : string;
  qu_expect : string }.
Definition ask_url (tid desc url expect : string) : question := Question tid desc url None "GET" "a1" "" expect.
Definition entry (url raw : string) : dict := [("url", VStr url); ("raw", VStr raw)].
(** The bytes of the request. *)
Definition request_lines (q : question) (netloc : string) : list string :=
  app [ qu_method q ++ " " ++ qu_url q ++ " HTTP/1.1"; "Host: " ++ default netloc (qu_host q); "Connection: close"; "X-Strix-Session: s1" ]
    (app (if String.eqb (qu_asset q) "" then [] else ["X-Strix-Asset: " ++ qu_asset q])
         (if String.eqb (qu_cred q) "" then [] else ["X-Strix-Cred: " ++ qu_cred q])).
Definition request_bytes (q : question) (netloc : string) : string := utf8 (String.concat crlf (request_lines q netloc) ++ crlf ++ crlf).
Definition no_gateway (x : exn) : string := "NO_GATEWAY:" ++ exn_cls x.
(** [via_proxy]: what it adds to the transcript, and the answer. *)
Definition via_proxy (e : exchange) (q : question) : res (list dict * answer) :=
  match ex_connect e with
  | Raise x => Ok ([], Answer 0 (no_gateway x) "" None)
  | Ok _ =>
      p <- urlsplit (qu_url q);;
      chunks <- ex_talk e (request_bytes q (u_netloc p));;
      let buf := read_all "" chunks in
      let '(head, _, body) := partition_str (crlf ++ crlf) buf in
      Ok ([entry (qu_url q) (take 1200 (text buf))],
          Answer (status_of head) (header_line "x-pdp-reason:" (text head) "") (text body)
            (Some (header_line "location:" (text head) "")))
  end.
Definition verdict (r : answer) : string :=
  if an_status r =? 200 then "ALLOW" else if an_status r =? 403 then "BLOCK"
  else if (300 <=? an_status r) && (an_status r <? 400) then "REDIRECT" else "OTHER" ++ show_Z (an_status r).
Definition connect_bytes (target : string) : string :=
  utf8 ("CONNECT " ++ target ++ " HTTP/1.1" ++ crlf ++ "Host: " ++ target ++ crlf ++ crlf).
(** [connect_tunnel_raw]: the verdict and the reason. *)
Definition connect_tunnel_raw (e : exchange) (target : string) : res (list dict * (string * string)) :=
  match ex_connect e with
  | Raise x => Ok ([], (no_gateway x, ""))
  | Ok _ =>
      chunks <- ex_talk e (connect_bytes target);;
      let head := text (read_head "" chunks) in
      let status := reply_code head in
      Ok ([entry ("CONNECT " ++ target) (take 600 head)],
          (if status =? 200 then "ALLOW" else if status =? 403 then "BLOCK" else "OTHER" ++ show_Z status,
           header_line "x-pdp-reason:" head ""))
  end.
Definition connect_tunnel (host : string) (port : Z) : string := host ++ ":" ++ show_Z port.

(** ** The suites *)

Record env := Env {
  ev_allowed_ip : string; ev_peer_ip : string; ev_docker_gw : string;
  ev_probe : string -> res unit; ev_dns : res unit; ev_commands : list (res (Z * string)); ev_exchange : string -> exchange }.

Definition probe_row (e : env) (tid desc expect detail : string) : dict := rec tid desc expect (tcp (ev_probe e tid)) detail.
Definition net_tests (e : env) : list dict :=
  ([ probe_row e "N1" "direct TCP to in-scope target (bypass proxy)" "BLOCKED" "";
     probe_row e "N2" "direct TCP to public internet 1.1.1.1:443" "BLOCKED" "";
     probe_row e "N3" "direct TCP to docker bridge gateway" "BLOCKED" "";
     probe_row e "N4" "direct TCP to link-local metadata 169.254.169.254" "BLOCKED" "";
     rec "N5" "external DNS resolution" "BLOCKED" (tcp (ev_dns e)) "";
     probe_row e "N6" "reach the gateway (intended control channel)" "REACHABLE" "" ] ++
   (if String.eqb (ev_peer_ip e) "" then []
    else [probe_row e "N7" "reach OTHER program's sandbox (cross-program)" "BLOCKED" ""]))%list.
Definition commands (e : env) : list (list string) :=
  [ ["busybox"; "ip"; "route"; "add"; "default"; "via"; ev_docker_gw e];
    ["busybox"; "ip"; "route"; "add"; "default"; "dev"; "eth0"];
    ["busybox"; "ip"; "addr"; "add"; "172.17.0.222/16"; "dev"; "eth0"];
    ["busybox"; "ip"; "route"; "add"; ev_allowed_ip e ++ "/32"; "dev"; "eth0"] ].
(** A command that cannot be started raises. *)
Definition route_injection_tests (e : env) : res (list dict) :=
  applied <- rmap (fun cr => r <- cr.2;; Ok (command_text cr.1 r)) (combine (commands e) (ev_commands e));;
  let detail := String.concat " | " applied in
  Ok [ probe_row e "N8" "egress after route injection + IP spoof" "BLOCKED" detail;
       probe_row e "N9" "in-scope target after route injection" "BLOCKED" detail ].

(** The rows that are one request each. *)
Definition first_questions (e : env) : list question :=
  [ ask_url "P1" "in-scope host" "http://allowed.lab/ok" "ALLOW";
    ask_url "P2" "unknown host (default deny)" "http://unknown.lab/x" "BLOCK";
    ask_url "P3" "denylisted subdomain (deny beats allow)" "http://blocked.allowed.lab/x" "BLOCK";
    ask_url "P4" "bare IP literal" ("http://" ++ ev_allowed_ip e ++ "/x") "BLOCK";
    Question "P5" "Host header != request-line authority" "http://allowed.lab/x" (Some "evil.lab") "GET" "a1" "" "BLOCK";
    ask_url "P6" "host resolving to link-local" "http://linklocal.lab/x" "BLOCK";
    ask_url "P7" "host resolving to RFC1918" "http://internalonly.lab/x" "BLOCK";
    ask_url "P8" "DNS answer set w/ one bad IP (all must validate)" "http://poisoned.lab/x" "BLOCK";
    ask_url "P9" "rebinding: 1st lookup authorized" "http://rebind.lab/first" "ALLOW";
    ask_url "P10" "rebinding: 2nd lookup flips to hostile IP" "http://rebind.lab/second" "BLOCK" ].
Definition redirect_question : question := ask_url "P11" "3xx returned, NOT followed by gateway" "http://allowed.lab/redirect" "REDIRECT".
Definition follow_question (location : string) : question :=
  ask_url "P12" "client follows redirect -> re-enters PDP" location "BLOCK".
Definition middle_questions : list question :=
  [ ask_url "P13" "canonicalization (uppercase + trailing dot)" "http://ALLOWED.LAB./caseAndDot" "ALLOW";
    Question "P14" "method not in policy" "http://allowed.lab/x" None "DELETE" "a1" "" "BLOCK";
    ask_url "P15" "port not in policy" "http://allowed.lab:8081/x" "BLOCK" ].
Definition credential_question : question :=
  Question "P16" "correct credential tuple -> injected upstream" "http://allowed.lab/needsauth" None "GET" "a1" "cred_alpha" "ALLOW".
Definition credential_questions : list question :=
  [ Question "P18" "credential belonging to ANOTHER program" "http://allowed.lab/x" None "GET" "a1" "cred_beta" "BLOCK";
    Question "P19" "credential used on wrong asset" "http://allowed.lab/x" None "GET" "a9" "cred_alpha" "BLOCK";
    Question "P20" "credential used on wrong destination" "http://other.lab/x" None "GET" "a1" "cred_alpha" "BLOCK" ].
Definition budget_question : question :=
  Question "P21" "asset budget exhaustion (3rd request)" "http://allowed.lab/b" None "GET" "a_budget" "" "BLOCK".

(** A row under the exchange of its name. *)
Definition asked (e : env) (q : question) : res (list dict * dict) :=
  '(t, r) <- via_proxy (ev_exchange e (qu_id q)) q;;
  Ok (t, rec (qu_id q) (qu_desc q) (qu_expect q) (verdict r) (an_reason r)).
Definition all_asked (e : env) (qs : list question) : res (list dict * list dict) :=
  l <- rmap (asked e) qs;; Ok (concat (map fst l), map snd l).
Definition sees_auth (body : string) : bool := contains AUTH_PRESENT (replace "'" (String "034" "") body).
Definition tunnel_row (e : env) (tid desc expect target : string) : res (list dict * dict) :=
  '(t, (got, reason)) <- connect_tunnel_raw (ev_exchange e tid) target;; Ok (t, rec tid desc expect got reason).
(** The list of the three verdicts as it is printed. *)
Definition sequence_text (l : list string) : string := "sequence=" ++ py_str (VList (map VStr l)).
(** The rows and the transcript. *)
Definition pdp_tests (e : env) : res (list dict * list dict) :=
  '(t1, rows1) <- all_asked e (first_questions e);;
  '(t2, r) <- via_proxy (ev_exchange e "P11") redirect_question;;
  location <- match an_location r with Some l => Ok l | None => Raise (KeyError "location") end;;
  let row11 := rec "P11" (qu_desc redirect_question) "REDIRECT" (verdict r) ("location=" ++ location) in
  '(t3, rows3) <- (if String.eqb location "" then Ok ([], []) else all_asked e [follow_question location]);;
  '(t4, rows4) <- all_asked e middle_questions;;
  '(t5, c) <- via_proxy (ev_exchange e "P16") credential_question;;
  let ok := sees_auth (an_body c) in
  let rows5 := [ rec "P16" (qu_desc credential_question) "ALLOW" (verdict c) ("upstream_auth_present=" ++ bool_text ok);
                 rec "P17" "upstream actually received the credential" "YES" (if ok then "YES" else "NO") "" ] in
  '(t6, rows6) <- all_asked e credential_questions;;
  '(t7, b1) <- via_proxy (ev_exchange e "P21a") budget_question;;
  '(t8, b2) <- via_proxy (ev_exchange e "P21b") budget_question;;
  '(t9, b3) <- via_proxy (ev_exchange e "P21c") budget_question;;
  let row21 := rec "P21" (qu_desc budget_question) "BLOCK" (verdict b3) (sequence_text (map verdict [b1; b2; b3])) in
  '(u1, row22) <- tunnel_row e "P22" "CONNECT to disallowed port (443 not in policy)" "BLOCK" (connect_tunnel "allowed.lab" 443);;
  '(u2, row23) <- tunnel_row e "P23" "CONNECT to out-of-scope host" "BLOCK" (connect_tunnel "evil.lab" 80);;
  '(u3, row24) <- tunnel_row e "P24" "CONNECT to in-scope host/port" "ALLOW" (connect_tunnel "allowed.lab" 80);;
  '(u4, row25) <- tunnel_row e "P25" "malformed CONNECT target" "BLOCK" "garbage-no-port";;
  Ok ((rows1 ++ row11 :: rows3 ++ rows4 ++ rows5 ++ rows6 ++ [row21; row22; row23; row24; row25])%list,
      (t1 ++ t2 ++ t3 ++ t4 ++ t5 ++ t6 ++ t7 ++ t8 ++ t9 ++ u1 ++ u2 ++ u3 ++ u4)%list).
Definition passes (r : dict) : bool := truthy (fld "pass" r).
Definition score (rows : list dict) : dict :=
  [ ("results", VList (map VDict rows)); ("passed", VInt (Z.of_nat (length (List.filter passes rows))));
    ("total", VInt (Z.of_nat (length rows))) ].
(** The results and the transcript files. *)
Definition main (e : env) (mode : string) : res (dict * list dict) :=
  net <- (if mem_str mode ["all"; "net"] then r <- route_injection_tests e;; Ok (net_tests e ++ r)%list else Ok []);;
  '(rows, transcript) <- (if mem_str mode ["all"; "pdp"] then pdp_tests e else Ok ([], []));;
  Ok (score (net ++ rows)%list, transcript).
