(* ===== verification/AdversaryTls.v ===== *)
(** * The phase 2b adversary ([src/phase2b/adversary_tls.py])

    A client in the sandbox's place that tries to defeat the interception, over
    what the network, TLS and the gateway answer it, and the score it writes. *)

From S2P Require Import Prelude.
From S2P Require Import PyStr.
From S2P Require Import Json.
From S2P Require Import PyDyn.
From S2P Require Import Hash.
From S2P Require Import IpAddr.
From S2P Require Import Gateway.
From S2P Require Import Harness.
From S2P Require Import Transport.
From S2P Require Import PepClient.
From S2P Require Import Adversary.
Open Scope Z_scope.

(** ** One tunnel *)

(** The arguments of [tunnel], by their defaults. *)
Record call := Call {
  ca_host : string; ca_port : Z; ca_sni : option string; ca_verify : bool; ca_check : bool; ca_http : option string;
  ca_path : string; ca_method : string; ca_cred : string; ca_asset : string }.
Definition to (host : string) : call := Call host 443 None true true None "/ok" "GET" "" "a1".
Definition path (p : string) (c : call) : call :=
  Call (ca_host c) (ca_port c) (ca_sni c) (ca_verify c) (ca_check c) (ca_http c) p (ca_method c) (ca_cred c) (ca_asset c).
Definition cred (x : string) (c : call) : call :=
  Call (ca_host c) (ca_port c) (ca_sni c) (ca_verify c) (ca_check c) (ca_http c) (ca_path c) (ca_method c) x (ca_asset c).
(** [sni or host], [http_host or host]. *)
Definition or_host (o : option string) (host : string) : string :=
  match o with Some s => if String.eqb s "" then host else s | None => host end.
(** What goes out: the CONNECT, how the handshake names and checks the peer, and the
    request inside TLS. *)
Record sent := Sent { sn_connect : string; sn_name : string; sn_verify : bool; sn_check : bool; sn_request : string }.
Definition connect_lines (c : call) : list string :=
  let target := ca_host c ++ ":" ++ show_Z (ca_port c) in
  app ["CONNECT " ++ target ++ " HTTP/1.1"; "Host: " ++ target]
    (app (if String.eqb (ca_asset c) "" then [] else ["X-Strix-Asset: " ++ ca_asset c])
         (if String.eqb (ca_cred c) "" then [] else ["X-Strix-Cred: " ++ ca_cred c])).
Definition sends (c : call) : sent :=
  Sent (utf8 (String.concat crlf (connect_lines c) ++ crlf ++ crlf)) (or_host (ca_sni c) (ca_host c))
    (ca_verify c) (ca_check c && ca_verify c)
    (utf8 (ca_method c ++ " " ++ ca_path c ++ " HTTP/1.1" ++ crlf ++ "Host: " ++ or_host (ca_http c) (ca_host c) ++ crlf ++
           "Connection: close" ++ crlf ++ crlf)).
(** The dictionary [out]. *)
Record tls_seen := TlsSeen {
  ts_connect : Z; ts_reason : string; ts_tls : option string; ts_status : Z; ts_body : string; ts_error : string; ts_location : string }.
Definition tls_seen0 : tls_seen := TlsSeen 0 "" None 0 "" "" "".
Definition with_error (x : string) (o : tls_seen) : tls_seen :=
  TlsSeen (ts_connect o) (ts_reason o) (ts_tls o) (ts_status o) (ts_body o) x (ts_location o).
(** What the tunnel that sends this meets, and the version its handshake agrees on. *)
Record tls_tunnel := TlsTunnel { tt_env : tunnel_env; tt_version : string }.
Definition tls_entry (host stage raw : string) : dict := [("host", VStr host); ("stage", VStr stage); ("raw", VStr raw)].
(** Everything read inside TLS, and the exception that ended it. *)
Fixpoint read_data (data : string) (chunks : list (res string)) : string * option exn :=
  match chunks with
  | [] | Ok EmptyString :: _ => (data, None)
  | Raise x :: _ => (data, Some x)
  | Ok c :: rest => read_data (data ++ c) rest
  end.
(** The observation and the transcript's entries. *)
Definition tunnel (e : sent -> tls_tunnel) (c : call) : res (list dict * tls_seen) :=
  let te := tt_env (e (sends c)) in
  match te_connect te with Raise x => Ok ([], with_error (no_gateway x) tls_seen0) | Ok _ =>
  _ <- te_send te;;
  match read_reply "" (te_recv te) with Raise x => Ok ([], with_error (exn_cls x) tls_seen0) | Ok head =>
  let o := TlsSeen (reply_code head) (header_line "x-pdp-reason:" head "") None 0 "" "" "" in
  if negb (ts_connect o =? 200) then Ok ([tls_entry (ca_host c) "connect" (take 400 head)], o) else
  _ <- te_context te;;
  match te_wrap te with Raise x => Ok ([], with_error ("TLS:" ++ exn_cls x ++ ":" ++ take 80 (exn_msg x)) o) | Ok _ =>
  let sent := match te_request te with Raise x => "SEND:" ++ exn_cls x | Ok _ => "" end in
  let o := TlsSeen (ts_connect o) (ts_reason o) (Some (tt_version (e (sends c)))) 0 "" sent "" in
  match read_data "" (te_response te) with
  | (EmptyString, Some x) => Ok ([], with_error ("IO:" ++ exn_cls x) o)
  | (data, _) =>
      let txt := text data in
      Ok ([tls_entry (ca_host c) "tunnel" (take 900 txt)],
          TlsSeen (ts_connect o) (header_line "x-pdp-reason:" txt (ts_reason o)) (ts_tls o) (reply_code txt)
            (partition_str (crlf ++ crlf) txt).2 sent (header_line "location:" txt ""))
  end end end end.
Definition v (o : tls_seen) : string :=
  if startswith "NO_GATEWAY" (ts_error o) then "NOGW"
  else if ts_connect o =? 403 then "BLOCK"
  else if startswith "TLS" (ts_error o) then "TLSFAIL"
  else if ts_status o =? 403 then "BLOCK"
  else if ts_status o =? 200 then "ALLOW"
  else if (300 <=? ts_status o) && (ts_status o <? 400) then "REDIRECT"
  else "OTHER" ++ show_Z (ts_status o).

(** ** The rows that are no tunnel *)

(** T21: connecting, the two sends and the two receives. *)
Record garbage := Garbage {
  ga_connect : res unit; ga_send : res unit; ga_first : res string; ga_bytes : res unit; ga_second : res string }.
Definition garbage_outcome (g : garbage) : string :=
  match (_ <- ga_connect g;; _ <- ga_send g;; _ <- ga_first g;; ga_bytes g) with
  | Raise _ => "CLEAN_CLOSE"
  | Ok _ => match ga_second g with Raise _ => "CLEAN_CLOSE" | Ok r => if String.eqb r "" then "CLEAN_CLOSE" else "DATA" end
  end.
(** The first line of the name. *)
Definition first_header (name txt : string) : string :=
  match findb (fun ln => startswith name (str_lower ln)) (split_str crlf txt) with
  | Some ln => str_strip (partition ":" ln).2
  | None => ""
  end.
Definition plain_bytes : string :=
  "GET http://allowed.lab/ok HTTP/1.1" ++ crlf ++ "Host: allowed.lab" ++ crlf ++ "Connection: close" ++ crlf ++ crlf.
(** T22: the status and the reason. *)
Definition plaintext (e : exchange) : Z * string :=
  match (_ <- ex_connect e;; chunks <- ex_talk e plain_bytes;;
         raw <- match chunks with [] => Ok "" | r :: _ => r end;;
         st <- (if contains " " raw then match second_word raw with Some w => py_int (VStr w) | None => Ok 0 end else Ok 0);;
         Ok (st, first_header "x-pdp-reason:" raw)) with
  | Ok r => r
  | Raise x => (0, exn_cls x)
  end.
(** T24: the thread's result, [None] when it raised or is still running. *)
Definition killed (r : option tls_seen) : bool :=
  match r with Some o => negb (String.eqb (ts_error o) "") || (ts_status o =? 0) | None => true end.
Definition slow_detail (r : option tls_seen) : string :=
  match r with Some o => if String.eqb (ts_error o) "" then show_Z (ts_status o) else ts_error o | None => "None" end.

(** ** The suite ([main]) *)

Record env := Env {
  at_key : bool; at_ca : bool; at_probe : string -> res unit; at_tunnel : string -> sent -> tls_tunnel;
  at_garbage : garbage; at_plain : exchange; at_slow : option (sent -> tls_tunnel) }.
Definition exists_text (b : bool) : string := if b then "PRESENT" else "ABSENT".
Definition opt_text (o : option string) : string := match o with Some s => s | None => "None" end.
(** A row of one tunnel that asks for a verdict and tells the reason. *)
Definition tunnel_row (e : env) (tid desc : string) (c : call) (expect : string) : res (list dict * dict) :=
  '(t, o) <- tunnel (at_tunnel e tid) c;; Ok (t, rec tid desc expect (v o) (ts_reason o)).
(** The calls of the rows. *)
Definition wrong_sni : call := Call "allowed.lab" 443 (Some "evil.lab") true false None "/ok" "GET" "" "a1".
Definition wrong_host : call := Call "allowed.lab" 443 None true true (Some "evil.lab") "/ok" "GET" "" "a1".
Definition delete : call := Call "allowed.lab" 443 None true true None "/ok" "DELETE" "" "a1".
Definition redirected : call := path "/redirect" (to "allowed.lab").
Definition followed : call := path "/pwned" (to "evil.lab").
Definition first_look : call := path "/first" (to "rebind.lab").
Definition second_look : call := path "/second" (to "rebind.lab").
Definition with_alpha : call := cred "cred_alpha" (path "/needsauth" (to "allowed.lab")).
Definition with_beta : call := cred "cred_beta" (to "allowed.lab").
Definition elsewhere : call := cred "cred_alpha" (to "other.lab").
Definition slow_stream : call := path "/slow" (to "slow.lab").
(** The thread of T24, as it is found at the end. *)
Definition slow_call (o : option (sent -> tls_tunnel)) : list dict * option tls_seen :=
  match o with
  | None => ([], None)
  | Some t => match tunnel t slow_stream with Ok (entries, r) => (entries, Some r) | Raise _ => ([], None) end
  end.
Definition confinement_rows (e : env) : list dict :=
  [ rec "T1" "gateway CA PRIVATE KEY present in sandbox" "ABSENT" (exists_text (at_key e)) "";
    rec "T2" "sandbox holds only the public CA cert" "PRESENT" (exists_text (at_ca e)) "";
    rec "T3" "control plane on gateway EGRESS ip" "BLOCKED" (tcp (at_probe e "T3")) "";
    rec "T4" "control plane port on gateway INTERNAL ip" "BLOCKED" (tcp (at_probe e "T4")) "";
    rec "T5" "PEP port (the one allowed path)" "REACHABLE" (tcp (at_probe e "T5")) "" ].
Definition tunnel_rows (e : env) : res (list dict * list dict) :=
  '(t6, o6) <- tunnel (at_tunnel e "T6") (to "allowed.lab");;
  let rows6 := [ rec "T6" "HTTPS via CONNECT is intercepted and allowed" "ALLOW" (v o6) (opt_text (ts_tls o6));
                 rec "T7" "gateway cert chains to the sandbox-trusted CA" "VERIFIED"
                   (match ts_tls o6 with Some s => if String.eqb s "" then "FAILED" else "VERIFIED" | None => "FAILED" end) "" ] in
  '(t8, r8) <- tunnel_row e "T8" "CONNECT to out-of-scope host" (to "evil.lab") "BLOCK";;
  '(t9, r9) <- tunnel_row e "T9" "SNI != CONNECT authority" wrong_sni "BLOCK";;
  '(t10, r10) <- tunnel_row e "T10" "HTTP Host != canonical host (inside TLS)" wrong_host "BLOCK";;
  '(t11, r11) <- tunnel_row e "T11" "method policy enforced INSIDE the tunnel" delete "BLOCK";;
  '(t12, o12) <- tunnel (at_tunnel e "T12") redirected;;
  let r12 := rec "T12" "3xx returned, not auto-followed" "REDIRECT" (v o12) (ts_location o12) in
  '(t13, rows13) <- (if String.eqb (ts_location o12) "" then Ok ([], [])
                     else '(t, r) <- tunnel_row e "T13" "following redirect re-enters PDP -> denied" followed "BLOCK";; Ok (t, [r]));;
  '(t14, r14) <- tunnel_row e "T14" "upstream cert signed by untrusted CA" (to "badcert.lab") "BLOCK";;
  '(t15, r15) <- tunnel_row e "T15" "rebind: 1st lookup authorized" first_look "ALLOW";;
  '(t16, r16) <- tunnel_row e "T16" "rebind: 2nd lookup flips -> denied" second_look "BLOCK";;
  '(t17, o17) <- tunnel (at_tunnel e "T17") with_alpha;;
  let rows17 := [ rec "T17" "authorized credential injected upstream" "ALLOW" (v o17) "";
                  rec "T18" "upstream received it" "YES" (if contains AUTH_PRESENT (ts_body o17) then "YES" else "NO") "" ] in
  '(t19, r19) <- tunnel_row e "T19" "credential from another program" with_beta "BLOCK";;
  '(t20, r20) <- tunnel_row e "T20" "credential on wrong destination" elsewhere "BLOCK";;
  Ok ((t6 ++ t8 ++ t9 ++ t10 ++ t11 ++ t12 ++ t13 ++ t14 ++ t15 ++ t16 ++ t17 ++ t19 ++ t20)%list,
      (rows6 ++ [r8; r9; r10; r11; r12] ++ rows13 ++ [r14; r15; r16] ++ rows17 ++ [r19; r20])%list).
Definition malformed_rows (e : env) : res (list dict * list dict) :=
  let '(st, rsn) := plaintext (at_plain e) in
  '(t23, o23) <- tunnel (at_tunnel e "T23") (to "allowed.lab");;
  Ok (t23,
      [ rec "T21" "non-TLS bytes after CONNECT (no crash)" "CLEAN_CLOSE" (garbage_outcome (at_garbage e)) "";
        rec "T22" "plaintext HTTP through the TLS-only PEP" "BLOCK" (if st =? 403 then "BLOCK" else "OTHER" ++ show_Z st) rsn;
        rec "T23" "gateway still serving after malformed input" "ALLOW" (v o23) "" ]).
(** The results and the transcript files. *)
Definition main (e : env) : res (dict * list dict) :=
  '(t, rows) <- tunnel_rows e;;
  '(t', rows') <- malformed_rows e;;
  let '(t24, slow) := slow_call (at_slow e) in
  let r24 := rec "T24" "live in-flight connection torn down by STOP_ALL" "TERMINATED"
               (if killed slow then "TERMINATED" else "SURVIVED") (slow_detail slow) in
  Ok (score (confinement_rows e ++ rows ++ rows' ++ [r24])%list, (t ++ t' ++ t24)%list).
