(* ===== verification/AdversaryProps.v ===== *)
(** * What the adversaries' scores say

    A complete score is exactly the conjunction of the observations its rows ask
    for; some of them are weaker than their descriptions. *)

From S2P Require Import Prelude.
From S2P Require Import PyStr.
From S2P Require Import Json.
From S2P Require Import PyDyn.
From S2P Require Import Hash.
From S2P Require Import Gateway.
From S2P Require Import Harness.
From S2P Require Import Transport.
From S2P Require Import TransportProps.
From S2P Require Import PepClient.
From S2P Require Import PepClientProps.
From S2P Require Import Adversary.
From S2P Require Import AdversaryTls.
Open Scope Z_scope.

(** ** Scores *)

Lemma passes_rec tid desc expect got detail : passes (rec tid desc expect got detail) = true <-> got = expect.
Proof. change (String.eqb expect got = true <-> got = expect). rewrite String.eqb_eq. split; congruence. Qed.
Lemma filter_all {A} (p : A -> bool) l : length (List.filter p l) = length l <-> forallb p l = true.
Proof.
  assert (forall k : list A, (length (List.filter p k) <= length k)%nat) as Hle.
  { induction k as [|x k IH]; [done|]. cbn. destruct (p x); cbn; lia. }
  induction l as [|x l IH]; [done|]. cbn. specialize (Hle l). destruct (p x); cbn [length andb]; [rewrite <- IH; lia|]. split; [lia|done].
Qed.
(** Everything passed. *)
Definition full (file : dict) : Prop := fld "passed" file = fld "total" file.
Lemma score_full rows : full (score rows) <-> forallb passes rows = true.
Proof.
  rewrite <- filter_all. change (VInt (Z.of_nat (length (List.filter passes rows))) = VInt (Z.of_nat (length rows)) <->
    length (List.filter passes rows) = length rows). split; [by intros [= ?%Nat2Z.inj]|by intros ->].
Qed.
Lemma tcp_blocked r : tcp r = "BLOCKED" <-> is_ok r = false.
Proof. by destruct r. Qed.
Lemma tcp_reachable r : tcp r = "REACHABLE" <-> is_ok r = true.
Proof. by destruct r. Qed.
Ltac rows H := repeat (apply res_bind_Ok in H as ([? ?] & ? & H)).

(** ** Phase 2a *)

(** The proxy's verdict on a question, and the gateway's on a CONNECT. *)
Definition answers (e : Adversary.env) (tid : string) (q : question) (P : answer -> Prop) : Prop :=
  exists t r, via_proxy (ev_exchange e tid) q = Ok (t, r) /\ P r.
Definition told (verdict : string) (r : answer) : Prop := Adversary.verdict r = verdict.
Definition as_expected (e : Adversary.env) (q : question) : Prop := answers e (qu_id q) q (told (qu_expect q)).
Definition connects (e : Adversary.env) (tid target expect : string) : Prop :=
  exists t reason, connect_tunnel_raw (ev_exchange e tid) target = Ok (t, (expect, reason)).
Lemma asked_pass e q t r : asked e q = Ok (t, r) -> passes r = true <-> as_expected e q.
Proof.
  unfold asked. intros ([t' a] & Hv & [= <- <-])%res_bind_Ok. rewrite passes_rec. unfold as_expected, answers, told. rewrite Hv.
  split; [intros E; by exists t', a|by intros (? & ? & [= <- <-] & E)].
Qed.
Lemma all_asked_pass e qs t l : all_asked e qs = Ok (t, l) -> forallb passes l = true <-> Forall (as_expected e) qs.
Proof.
  unfold all_asked. intros (rs & Hr & [= _ <-])%res_bind_Ok. apply rmap_Forall2 in Hr. rewrite Forall_forall, forallb_elem_of.
  induction Hr as [|q [t' r] qs rs Hq Hr IH]; cbn; [split; by intros ? ? ?%not_elem_of_nil|].
  setoid_rewrite elem_of_cons. pose proof (asked_pass _ _ _ _ Hq) as Hp. naive_solver.
Qed.
Lemma one_asked_pass e (b : bool) q t l : (if b then Ok ([], []) else all_asked e [q]) = Ok (t, l) ->
  forallb passes l = true <-> (b = false -> as_expected e q).
Proof.
  destruct b; [intros [= _ <-]; by split|]. intros Ha%all_asked_pass. rewrite Ha, Forall_singleton. split; auto.
Qed.
Lemma tunnel_row_pass e tid desc expect target t r : Adversary.tunnel_row e tid desc expect target = Ok (t, r) ->
  passes r = true <-> connects e tid target expect.
Proof.
  unfold Adversary.tunnel_row. intros ([t' [got reason]] & Hv & [= <- <-])%res_bind_Ok. rewrite passes_rec. unfold connects. rewrite Hv.
  split; [intros ->; by exists t', reason|by intros (? & ? & [= _ -> _])].
Qed.
Lemma answers_iff e tid q t r P : via_proxy (ev_exchange e tid) q = Ok (t, r) -> answers e tid q P <-> P r.
Proof. intros Hv. unfold answers. rewrite Hv. split; [by intros (? & ? & [= <- <-] & ?)|]. intros. by exists t, r. Qed.
Lemma pdp_tests_pass e rows t : pdp_tests e = Ok (rows, t) -> forallb passes rows = true <->
  Forall (as_expected e) (first_questions e ++ middle_questions ++ credential_questions) /\
  answers e "P11" redirect_question (fun r => told "REDIRECT" r /\
    forall l, an_location r = Some l -> l <> "" -> as_expected e (follow_question l)) /\
  answers e "P16" credential_question (fun r => told "ALLOW" r /\ sees_auth (an_body r) = true) /\
  answers e "P21c" budget_question (told "BLOCK") /\
  connects e "P22" "allowed.lab:443" "BLOCK" /\ connects e "P23" "evil.lab:80" "BLOCK" /\
  connects e "P24" "allowed.lab:80" "ALLOW" /\ connects e "P25" "garbage-no-port" "BLOCK".
Proof.
  unfold pdp_tests. intros Hp. apply res_bind_Ok in Hp as ([t1 rows1] & H1 & Hp). apply res_bind_Ok in Hp as ([t2 r11] & H2 & Hp).
  apply res_bind_Ok in Hp as (loc & Hl & Hp). destruct (an_location r11) as [l|] eqn:El; [injection Hl as <-|done].
  apply res_bind_Ok in Hp as ([t3 rows3] & H3 & Hp). apply res_bind_Ok in Hp as ([t4 rows4] & H4 & Hp).
  apply res_bind_Ok in Hp as ([t5 r16] & H5 & Hp). apply res_bind_Ok in Hp as ([t6 rows6] & H6 & Hp).
  apply res_bind_Ok in Hp as ([t7 b1] & _ & Hp). apply res_bind_Ok in Hp as ([t8 b2] & _ & Hp).
  apply res_bind_Ok in Hp as ([t9 b3] & H9 & Hp). apply res_bind_Ok in Hp as ([u1 row22] & K1 & Hp).
  apply res_bind_Ok in Hp as ([u2 row23] & K2 & Hp). apply res_bind_Ok in Hp as ([u3 row24] & K3 & Hp).
  apply res_bind_Ok in Hp as ([u4 row25] & K4 & Hp). injection Hp as <- _.
  rewrite !Forall_app, <- (all_asked_pass _ _ _ _ H1), <- (all_asked_pass _ _ _ _ H4), <- (all_asked_pass _ _ _ _ H6).
  apply one_asked_pass in H3. apply tunnel_row_pass in K1, K2, K3, K4.
  cbn [connect_tunnel] in K1, K2, K3, K4. unfold connect_tunnel in K1, K2, K3.
  change ("allowed.lab" ++ ":" ++ show_Z 443) with "allowed.lab:443" in K1. change ("evil.lab" ++ ":" ++ show_Z 80) with "evil.lab:80" in K2.
  change ("allowed.lab" ++ ":" ++ show_Z 80) with "allowed.lab:80" in K3.
  rewrite <- K1, <- K2, <- K3, <- K4, (answers_iff _ _ _ _ _ _ H2), (answers_iff _ _ _ _ _ _ H5), (answers_iff _ _ _ _ _ _ H9).
  rewrite forallb_app, !andb_true_iff. cbn [forallb]. rewrite !andb_true_iff, !forallb_app, !andb_true_iff, H3. cbn [forallb].
  rewrite !andb_true_iff, !passes_rec. unfold told. rewrite (forallb_app _ rows6). cbn [forallb].
  rewrite !andb_true_iff, passes_rec, yes_iff by done.
  assert ((forall l0, an_location r11 = Some l0 -> l0 <> "" -> as_expected e (follow_question l0)) <->
    (String.eqb l "" = false -> as_expected e (follow_question l))) as ->; [|tauto].
  rewrite El, String.eqb_neq. naive_solver.
Qed.

(** A run in the mode that tries everything scores all its rows exactly when: no
    direct connection, no name resolution and no connection to another sandbox comes
    about, before or after the routes and addresses that were tried; the gateway
    answers; every request is answered as its row expects, the redirect's target
    included; the credential is seen upstream; the third request of the budget is
    blocked; and the four CONNECTs are decided as expected. *)
Theorem adversary_score_exact e file t : Adversary.main e "all" = Ok (file, t) -> full file <->
  (forall n, n ∈ ["N1"; "N2"; "N3"; "N4"; "N8"; "N9"] -> is_ok (ev_probe e n) = false) /\ is_ok (ev_dns e) = false /\
  is_ok (ev_probe e "N6") = true /\ (ev_peer_ip e <> "" -> is_ok (ev_probe e "N7") = false) /\
  Forall (as_expected e) (first_questions e ++ middle_questions ++ credential_questions) /\
  answers e "P11" redirect_question (fun r => told "REDIRECT" r /\
    forall l, an_location r = Some l -> l <> "" -> as_expected e (follow_question l)) /\
  answers e "P16" credential_question (fun r => told "ALLOW" r /\ sees_auth (an_body r) = true) /\
  answers e "P21c" budget_question (told "BLOCK") /\
  connects e "P22" "allowed.lab:443" "BLOCK" /\ connects e "P23" "evil.lab:80" "BLOCK" /\
  connects e "P24" "allowed.lab:80" "ALLOW" /\ connects e "P25" "garbage-no-port" "BLOCK".
Proof.
  unfold Adversary.main. cbn [mem_str existsb String.eqb Ascii.eqb Bool.eqb orb]. intros Hm.
  apply res_bind_Ok in Hm as (net & Hn & Hm). apply res_bind_Ok in Hn as (inj & Hi & Hn).
  assert (net = net_tests e ++ inj)%list as -> by congruence. clear Hn.
  apply res_bind_Ok in Hm as ([rows tr] & Hp & Hm). assert (file = score ((net_tests e ++ inj) ++ rows)%list) as -> by congruence.
  unfold route_injection_tests in Hi.
  apply res_bind_Ok in Hi as (applied & _ & Hi).
  assert (inj = [probe_row e "N8" "egress after route injection + IP spoof" "BLOCKED" (String.concat " | " applied);
    probe_row e "N9" "in-scope target after route injection" "BLOCKED" (String.concat " | " applied)]) as -> by congruence.
  rewrite score_full, !forallb_app, !andb_true_iff, (pdp_tests_pass _ _ _ Hp). unfold net_tests, probe_row.
  rewrite forallb_app, andb_true_iff. cbn [forallb]. rewrite !andb_true_iff, !passes_rec, !tcp_blocked, tcp_reachable.
  assert (forallb passes (if String.eqb (ev_peer_ip e) "" then [] else [rec "N7" "reach OTHER program's sandbox (cross-program)" "BLOCKED" (tcp (ev_probe e "N7")) ""]) = true
    <-> (ev_peer_ip e <> "" -> is_ok (ev_probe e "N7") = false)) as ->.
  { destruct (String.eqb_spec (ev_peer_ip e) "") as [E|E]; cbn [forallb]; [by split|]. rewrite andb_true_r, passes_rec, tcp_blocked. naive_solver. }
  assert ((forall n, n ∈ ["N1"; "N2"; "N3"; "N4"; "N8"; "N9"] -> is_ok (ev_probe e n) = false) <->
    Forall (fun n => is_ok (ev_probe e n) = false) ["N1"; "N2"; "N3"; "N4"; "N8"; "N9"]) as -> by (by rewrite Forall_forall).
  rewrite !Forall_cons, Forall_nil. tauto.
Qed.

(** ** Phase 2b *)

Definition sees (e : AdversaryTls.env) (tid : string) (c : call) (P : tls_seen -> Prop) : Prop :=
  exists t o, AdversaryTls.tunnel (at_tunnel e tid) c = Ok (t, o) /\ P o.
Definition judged (verdict : string) (o : tls_seen) : Prop := AdversaryTls.v o = verdict.
(** What T24 takes for a torn-down stream: no result, an error of any kind or no
    status. *)
Definition torn_down (o : option (sent -> tls_tunnel)) : Prop :=
  match o with
  | Some t => forall l r, AdversaryTls.tunnel t slow_stream = Ok (l, r) -> ts_error r <> "" \/ ts_status r = 0
  | None => True
  end.
Lemma sees_iff e tid c t o P : AdversaryTls.tunnel (at_tunnel e tid) c = Ok (t, o) -> sees e tid c P <-> P o.
Proof. intros Hv. unfold sees. rewrite Hv. split; [by intros (? & ? & [= <- <-] & ?)|]. intros. by exists t, o. Qed.
Lemma tls_row_pass e tid desc c expect t r : AdversaryTls.tunnel_row e tid desc c expect = Ok (t, r) ->
  passes r = true <-> sees e tid c (judged expect).
Proof.
  unfold AdversaryTls.tunnel_row. intros ([t' o] & Hv & [= <- <-])%res_bind_Ok. by rewrite passes_rec, (sees_iff _ _ _ _ _ _ Hv).
Qed.
Lemma torn_down_iff o : (if killed (slow_call o).2 then "TERMINATED" else "SURVIVED") = "TERMINATED" <-> torn_down o.
Proof.
  assert (forall b : bool, (if b then "TERMINATED" else "SURVIVED") = "TERMINATED" <-> b = true) as -> by (by intros []).
  unfold slow_call, torn_down. destruct o as [t|]; [|done]. destruct (AdversaryTls.tunnel t slow_stream) as [[l r]|x]; cbn.
  - rewrite orb_true_iff, negb_true_iff, String.eqb_neq, Z.eqb_eq. split; [by intros Hx ? ? [= <- <-]|]. intros Hx. by apply (Hx l r).
  - by split.
Qed.
Lemma present_iff b : exists_text b = "PRESENT" <-> b = true.
Proof. by destruct b. Qed.
Lemma absent_iff b : exists_text b = "ABSENT" <-> b = false.
Proof. by destruct b. Qed.
Lemma verified_iff o : (match o with Some s => if String.eqb s "" then "FAILED" else "VERIFIED" | None => "FAILED" end) = "VERIFIED" <->
  exists s, o = Some s /\ s <> "".
Proof.
  destruct o as [s|]; [|split; [done|by intros (? & [=] & _)]]. destruct (String.eqb_spec s ""); [|naive_solver]. naive_solver.
Qed.
Lemma tunnel_rows_pass e t rows : tunnel_rows e = Ok (t, rows) -> forallb passes rows = true <->
  sees e "T6" (to "allowed.lab") (fun o => judged "ALLOW" o /\ exists s, ts_tls o = Some s /\ s <> "") /\
  Forall (fun r => sees e r.1 r.2 (judged "BLOCK"))
    [("T8", to "evil.lab"); ("T9", wrong_sni); ("T10", wrong_host); ("T11", delete); ("T14", to "badcert.lab");
     ("T16", second_look); ("T19", with_beta); ("T20", elsewhere)] /\
  sees e "T12" redirected (fun o => judged "REDIRECT" o /\ (ts_location o <> "" -> sees e "T13" followed (judged "BLOCK"))) /\
  sees e "T15" first_look (judged "ALLOW") /\
  sees e "T17" with_alpha (fun o => judged "ALLOW" o /\ contains AUTH_PRESENT (ts_body o) = true).
Proof.
  unfold tunnel_rows. intros Hp. apply res_bind_Ok in Hp as ([t6 o6] & H6 & Hp). apply res_bind_Ok in Hp as ([t8 r8] & K8 & Hp).
  apply res_bind_Ok in Hp as ([t9 r9] & K9 & Hp). apply res_bind_Ok in Hp as ([t10 r10] & K10 & Hp).
  apply res_bind_Ok in Hp as ([t11 r11] & K11 & Hp). apply res_bind_Ok in Hp as ([t12 o12] & H12 & Hp).
  apply res_bind_Ok in Hp as ([t13 rows13] & H13 & Hp). apply res_bind_Ok in Hp as ([t14 r14] & K14 & Hp).
  apply res_bind_Ok in Hp as ([t15 r15] & K15 & Hp). apply res_bind_Ok in Hp as ([t16 r16] & K16 & Hp).
  apply res_bind_Ok in Hp as ([t17 o17] & H17 & Hp). apply res_bind_Ok in Hp as ([t19 r19] & K19 & Hp).
  apply res_bind_Ok in Hp as ([t20 r20] & K20 & Hp).
  match type of Hp with Ok (_, ?x) = _ => assert (rows = x) as -> by congruence end.
  apply tls_row_pass in K8, K9, K10, K11, K14, K15, K16, K19, K20.
  assert (forallb passes rows13 = true <-> (ts_location o12 <> "" -> sees e "T13" followed (judged "BLOCK"))) as H13'.
  { destruct (String.eqb_spec (ts_location o12) "") as [E|E]; [injection H13 as _ <-; by split|].
    apply res_bind_Ok in H13 as ([t13' r13] & K13 & [= _ <-]). apply tls_row_pass in K13. cbn [forallb]. rewrite andb_true_r, K13. split; [by intros Hs _|]. intros Hs. exact (Hs E). }
  rewrite (sees_iff _ _ _ _ _ _ H6), (sees_iff _ _ _ _ _ _ H12), (sees_iff _ _ _ _ _ _ H17).
  rewrite !Forall_cons, Forall_nil. cbn [fst snd]. rewrite <- K8, <- K9, <- K10, <- K11, <- K14, <- K15, <- K16, <- K19, <- K20.
  rewrite <- H13', <- verified_iff. unfold judged.
  rewrite !forallb_app, !andb_true_iff. cbn [forallb]. rewrite !andb_true_iff, !passes_rec, yes_iff by done.
  split; intros; destruct_and?; split_and?; done.
Qed.

(** The score of the interception's adversary. A run that ends passes all its rows
    exactly when: no private key and the public certificate are in the sandbox, the
    control plane is out of reach and the gateway is not; the in-scope tunnel is
    intercepted under the trusted certificate and allowed; the eight hostile tunnels
    are blocked, whatever the reason told; the redirect is relayed, and its target
    blocked if one was told; the rebound name is first allowed; the injected credential
    is seen upstream; garbage closes the connection, plain HTTP is answered 403 and
    the gateway still serves; and the slow stream has no result, an error or no status,
    which a stream that never began has too. *)
Theorem tls_score_exact e file t : AdversaryTls.main e = Ok (file, t) -> full file <->
  (at_key e = false /\ at_ca e = true /\ is_ok (at_probe e "T3") = false /\ is_ok (at_probe e "T4") = false /\ is_ok (at_probe e "T5") = true) /\
  sees e "T6" (to "allowed.lab") (fun o => judged "ALLOW" o /\ exists s, ts_tls o = Some s /\ s <> "") /\
  Forall (fun r => sees e r.1 r.2 (judged "BLOCK"))
    [("T8", to "evil.lab"); ("T9", wrong_sni); ("T10", wrong_host); ("T11", delete); ("T14", to "badcert.lab");
     ("T16", second_look); ("T19", with_beta); ("T20", elsewhere)] /\
  sees e "T12" redirected (fun o => judged "REDIRECT" o /\ (ts_location o <> "" -> sees e "T13" followed (judged "BLOCK"))) /\
  sees e "T15" first_look (judged "ALLOW") /\
  sees e "T17" with_alpha (fun o => judged "ALLOW" o /\ contains AUTH_PRESENT (ts_body o) = true) /\
  garbage_outcome (at_garbage e) = "CLEAN_CLOSE" /\ (plaintext (at_plain e)).1 = 403 /\
  sees e "T23" (to "allowed.lab") (judged "ALLOW") /\ torn_down (at_slow e).
Proof.
  unfold AdversaryTls.main. intros Hm. apply res_bind_Ok in Hm as ([t1 rows1] & H1 & Hm). apply tunnel_rows_pass in H1.
  apply res_bind_Ok in Hm as ([t2 rows2] & H2 & Hm). pose proof (torn_down_iff (at_slow e)) as Ht.
  destruct (slow_call (at_slow e)) as [t24 slow]. cbn [snd] in Ht.
  match type of Hm with Ok (score ?x, _) = _ => assert (file = score x) as -> by congruence end.
  unfold malformed_rows in H2. destruct (plaintext (at_plain e)) as [st rsn].
  apply res_bind_Ok in H2 as ([t23 o23] & H23 & H2). injection H2 as _ <-.
  rewrite score_full, !forallb_app, !andb_true_iff, H1. unfold confinement_rows. cbn [forallb fst].
  rewrite (sees_iff _ _ _ _ _ _ H23), !andb_true_iff, !passes_rec, Ht, !tcp_blocked, tcp_reachable, present_iff, absent_iff.
  assert ((if st =? 403 then "BLOCK" else "OTHER" ++ show_Z st) = "BLOCK" <-> st = 403) as -> by (destruct (Z.eqb_spec st 403); [done|split; done]).
  unfold judged. tauto.
Qed.

(** ** A run, evaluated *)

Definition tls_s (e : tunnel_env) (s : sent) : tls_tunnel := TlsTunnel e "TLSv1.3".
Definition unreached : tunnel_env :=
  TunnelEnv (Raise (PyExn "ConnectionRefusedError" "")) (Ok tt) [] (Ok tt) (Ok tt) (Ok tt) [].
Definition tls_env (block : tunnel_env) (slow : option (sent -> tls_tunnel)) : AdversaryTls.env := {|
  at_key := false; at_ca := true;
  at_probe := fun n => if String.eqb n "T5" then Ok tt else Raise (PyExn "PermissionError" "");
  at_tunnel := fun n => tls_s (
    if mem_str n ["T6"; "T15"; "T23"] then served_s "" ""
    else if String.eqb n "T12" then tunnel_s (http "302 Found" ("Location: https://evil.lab/pwned" ++ crlf) "")
    else if String.eqb n "T17" then served_s "" AUTH_PRESENT else block);
  at_garbage := Garbage (Ok tt) (Ok tt) (Ok "HTTP/1.1 200 OK") (Ok tt) (Ok "");
  at_plain := Exchange (Ok tt) (fun _ => Ok [Ok (http "403 Forbidden" ("X-PDP-Reason: PLAINTEXT" ++ crlf) "")]); at_slow := slow |}.
Definition tls_score (e : AdversaryTls.env) : option (val * val) :=
  match AdversaryTls.main e with Ok (f, _) => Some (fld "passed" f, fld "total" f) | Raise _ => None end.
(** A stream that never reached the gateway counts as torn down; a local refusal
    counts as the boundary's; any reason for a block will do. *)
Example weak_rows : map tls_score
    [ tls_env (blocked_s "OUT_OF_SCOPE") (Some (tls_s unreached)); tls_env (blocked_s "OUT_OF_SCOPE") None;
      tls_env (blocked_s "OUT_OF_SCOPE") (Some (tls_s (served_s "" "")));  tls_env (served_s "" "") None ] =
  [ Some (VInt 24, VInt 24); Some (VInt 24, VInt 24); Some (VInt 23, VInt 24); Some (VInt 15, VInt 24) ].
Proof. vm_compute. reflexivity. Qed.
Lemma tls_score_exact_witness : exists file t, AdversaryTls.main (tls_env (blocked_s "SNI_MISMATCH") None) = Ok (file, t) /\
  sees (tls_env (blocked_s "SNI_MISMATCH") None) "T15" first_look (judged "ALLOW").
Proof.
  destruct (AdversaryTls.main (tls_env (blocked_s "SNI_MISMATCH") None)) as [[file t]|x] eqn:E; [|vm_compute in E; discriminate E].
  exists file, t. split; [reflexivity|].
  assert (full file) as Hf by (unfold full; vm_compute in E; injection E as <- _; vm_compute; reflexivity).
  pose proof (proj1 (tls_score_exact _ _ _ E) Hf) as (_ & _ & _ & _ & Hs & _). exact Hs.
Defined.
