(* ===== verification/Targets.v ===== *)
(** * The targets of the harnesses ([src/phase2a/target_srv.py], [src/phase2b/target_https.py])

    The servers behind the gateways, which report what reached them.  A handler is
    the list of what it does to its connection and how it ends; what the
    connection answers to each step is an argument. *)

From S2P Require Import Prelude.
From S2P Require Import PyStr.
From S2P Require Import Json.
From S2P Require Import PyDyn.
From S2P Require Import Hash.
From S2P Require Import IpAddr.
From S2P Require Import Harness.
From S2P Require Import PepClient.
Open Scope Z_scope.

(** ** Connections *)

(** What of a request a handler reads. *)
Record request := Request { rq_path : string; rq_host : option string; rq_auth : option string }.
Inductive out := OStatus (n : Z) | OHeader (k v : string) | OEnd | OBody (b : string) | OFlush | OSleep.
(** [end_headers], the body's writes in their order, and [flush]; a failed write
    sends nothing. *)
Record sock := Sock { so_end : res unit; so_write : nat -> res unit; so_flush : res unit }.
Definition handled : Type := list out * res unit.
Definition headed (s : sock) (status : Z) (headers : dict) (rest : handled) : handled :=
  let head := OStatus status :: map (fun kv => OHeader kv.1 (py_str kv.2)) headers in
  match so_end s with
  | Raise x => (head, Raise x)
  | Ok _ => ((head ++ OEnd :: rest.1)%list, rest.2)
  end.
Definition is_sent (r : res unit) (o : out) : list out := if is_ok r then [o] else [].

(** ** The report *)

Section Targets.
Context `{Digest}.

(** [json.dumps] of a flat dict. *)
Definition dumps_flat (d : dict) : string :=
  "{" ++ String.concat ", " (map (fun kv => print_str kv.1 ++ ": " ++ print kv.2) d) ++ "}".
Definition opt_val (o : option string) : val := match o with Some s => VStr s | None => VNull end.
(** [bool(auth)]. *)
Definition given (auth : option string) : option string :=
  match auth with Some a => if String.eqb a "" then None else Some a | None => None end.
Definition is_given (auth : option string) : bool := match given auth with Some _ => true | None => false end.
Definition fingerprint (auth : option string) : val := opt_val ((fun a => take 12 (sha256 (utf8 a))) <$> given auth).
Definition report (name : string) (r : request) : dict :=
  [ ("target", VStr name); ("path", VStr (rq_path r)); ("host_header_seen", opt_val (rq_host r));
    ("auth_present", VBool (is_given (rq_auth r))); ("auth_fingerprint", fingerprint (rq_auth r)) ].
Definition body (name : string) (r : request) : string := dumps_flat (report name r).
Definition answer (s : sock) (name : string) (r : request) : handled :=
  let b := body name r in
  headed s 200 [("Content-Type", VStr "application/json"); ("Content-Length", VInt (Z.of_nat (String.length b)))]
    (is_sent (so_write s 0) (OBody b), so_write s 0).
Definition redirect (s : sock) (location : string) : handled :=
  headed s 302 [("Location", VStr location); ("Content-Length", VStr "0")] ([], Ok tt).

(** ** Phase 2a *)

(** [_common], the handler of both methods. *)
Definition common (s : sock) (name location : string) (r : request) : handled :=
  if startswith "/redirect" (rq_path r) then redirect s location else answer s name r.

(** ** Phase 2b *)

Record env := Env { te_name : string; te_location : string; te_big : string; te_drip_total : string; te_drip_head : string }.
Fixpoint chars (c : ascii) (n : nat) : string := match n with O => "" | S m => String c (chars c m) end.
(** [block[:w]] for the next block, until everything or a write fails. *)
Fixpoint blocks (fuel : nat) (write : nat -> res unit) (i : nat) (sent n : Z) : list out :=
  match fuel with
  | O => []
  | S f =>
      if sent <? n then
        let w := Z.min 65536 (n - sent) in
        match write i with
        | Raise _ => []
        | Ok _ => OBody (chars "A" (Z.to_nat w)) :: blocks f write (S i) (sent + w) n
        end
      else []
  end.
Definition big_fuel (n : Z) : nat := S (Z.to_nat (n / 65536)).
Definition stream_headers (n : Z) : dict := [("Content-Type", VStr "application/octet-stream"); ("Content-Length", VInt n)].
Definition big (s : sock) (n : Z) : handled := headed s 200 (stream_headers n) (blocks (big_fuel n) (so_write s) 0 0 n, Ok tt).
(** A part of the body, a pause and the rest. *)
Definition drip (s : sock) (n head : Z) : handled :=
  headed s 200 (stream_headers n)
    (match so_write s 0 with
     | Raise _ => []
     | Ok _ =>
         OBody (chars "D" (Z.to_nat head)) ::
         match so_flush s with
         | Raise _ => []
         | Ok _ => OFlush :: OSleep :: is_sent (so_write s 1) (OBody (chars "D" (Z.to_nat (n - head))))
         end
     end, Ok tt).
Definition slow (s : sock) : handled :=
  headed s 200 [("Content-Type", VStr "text/plain"); ("Content-Length", VStr "16")]
    (OSleep :: is_sent (so_write s 0) (OBody "slow-body-done!!"), Ok tt).
(** [do_GET] and [do_POST]. *)
Definition do_GET (e : env) (s : sock) (r : request) : handled :=
  if startswith "/redirect" (rq_path r) then redirect s (te_location e)
  else if startswith "/big" (rq_path r) then
    match py_int (VStr (te_big e)) with Ok n => big s n | Raise x => ([], Raise x) end
  else if startswith "/drip" (rq_path r) then
    match (n <- py_int (VStr (te_drip_total e));; h <- py_int (VStr (te_drip_head e));; Ok (n, h)) with
    | Ok (n, h) => drip s n h
    | Raise x => ([], Raise x)
    end
  else if startswith "/slow" (rq_path r) then slow s
  else answer s (te_name e) r.

(** The listener: both families, or IPv4 alone if the system refuses that. *)
Inductive family := DualStack | Ipv4Only (why : exn).
Definition listen (chain dual v4 wrap : res unit) : res family :=
  _ <- chain;;
  f <- match dual with
       | Ok _ => Ok DualStack
       | Raise x => if os_error x then _ <- v4;; Ok (Ipv4Only x) else Raise x
       end;;
  _ <- wrap;; Ok f.
End Targets.

(** The bytes of the body that went out. *)
Definition body_of (l : list out) : string :=
  String.concat "" (flat_map (fun o => match o with OBody b => [b] | _ => [] end) l).
Definition body_size (l : list out) : Z := Z.of_nat (String.length (body_of l)).

(** ** Streams *)

Lemma chars_length c n : String.length (chars c n) = n.
Proof. induction n as [|n IH]; [done|]. cbn. by rewrite IH. Qed.
Lemma body_of_cons o l : body_of (o :: l) = (match o with OBody b => b | _ => "" end) ++ body_of l.
Proof.
  unfold body_of. cbn [flat_map]. destruct o; try done. cbn [app]. destruct (flat_map _ l) as [|x r]; cbn; [by rewrite append_nil_r|done].
Qed.
Lemma body_size_cons b l : body_size (OBody b :: l) = Z.of_nat (String.length b) + body_size l.
Proof. unfold body_size. rewrite body_of_cons, length_append. lia. Qed.
Lemma headed_body s st h rest : body_of (headed s st h rest).1 = if is_ok (so_end s) then body_of rest.1 else "".
Proof.
  unfold headed. destruct (so_end s); cbn [is_ok fst app]; rewrite body_of_cons; cbn [String.append];
    induction h as [|kv h IH]; try done; cbn [map app]; by rewrite body_of_cons.
Qed.
Lemma blocks_size write fuel : forall i sent n, 0 <= sent -> n - sent <= 65536 * Z.of_nat fuel ->
  body_size (blocks fuel write i sent n) <= Z.max 0 (n - sent) /\
  ((forall j, is_ok (write j) = true) -> body_size (blocks fuel write i sent n) = Z.max 0 (n - sent)).
Proof.
  induction fuel as [|f IH]; intros i sent n Hs Hf; cbn [blocks]; [unfold body_size; cbn; lia|].
  destruct (Z.ltb_spec sent n); [|unfold body_size; cbn; lia].
  destruct (write i) as [[]|x] eqn:Ew.
  - rewrite !body_size_cons, !chars_length, !Z2Nat.id by lia.
    destruct (IH (S i) (sent + Z.min 65536 (n - sent)) n) as [Hle Heq]; [lia|lia|]. split; [lia|]. intros Hw. rewrite (Heq Hw). lia.
  - split; [unfold body_size; cbn; lia|]. intros Hw. specialize (Hw i). by rewrite Ew in Hw.
Qed.
(** The large body has exactly the announced length when nothing fails, and never
    more than it: the fuel covers every block. *)
Theorem big_exact s n : 0 <= n -> body_size (big s n).1 <= n /\
  (is_ok (so_end s) = true -> (forall j, is_ok (so_write s j) = true) -> body_size (big s n).1 = n).
Proof.
  intros Hn. unfold big. pose proof (headed_body s 200 (stream_headers n) (blocks (big_fuel n) (so_write s) 0 0 n, Ok tt)) as Hb.
  unfold body_size in *. rewrite Hb. destruct (blocks_size (so_write s) (big_fuel n) 0 0 n) as [Hle Heq]; [lia| |].
  { unfold big_fuel. pose proof (Z.div_mod n 65536). pose proof (Z.mod_pos_bound n 65536). pose proof (Z.div_pos n 65536). lia. }
  unfold body_size in *. cbn [fst]. destruct (is_ok (so_end s)); [|cbn; split; [lia|done]]. split; [lia|]. intros _ Hw. rewrite (Heq Hw). lia.
Qed.
Lemma big_exact_witness : body_size (big (Sock (Ok tt) (fun _ => Ok tt) (Ok tt)) 65537).1 = 65537.
Proof. refine (proj2 (big_exact (Sock (Ok tt) (fun _ => Ok tt) (Ok tt)) 65537 _) _ _); [lia|reflexivity|reflexivity]. Defined.

(** ** What the report shows of a credential *)

(** The end of a key and the start of a true value. *)
Definition true_key : string := String "t" (String dquote ": t").
Lemma contains_spec p s : contains p s = true <-> exists a b, s = a ++ p ++ b.
Proof.
  split.
  - induction s as [|c s IH]; cbn [contains]; rewrite orb_true_iff.
    + intros [(t & ->)%prefix_spec|[=]]. by exists "", t.
    + intros [(t & Ht)%prefix_spec|(a & b & ->)%IH]; [by exists "", t|by exists (String c a), b].
  - intros (a & b & ->). induction a as [|c a IH].
    + change ("" ++ p ++ b) with (p ++ b). destruct p as [|d p]; [by destruct b|]. cbn [contains].
      apply orb_true_iff. left. exact (prefix_append (String d p) b).
    + cbn [String.append contains]. by rewrite IH, orb_true_r.
Qed.
Lemma esc_char_head c : exists d t, esc_char c = String d t /\ d <> dquote.
Proof. all_ascii c; eexists _, _; (split; [reflexivity|discriminate]). Qed.
Lemma esc_true_key l x r : x <> ":"%char -> contains true_key (esc l ++ String dquote (String x r)) = contains true_key (String dquote (String x r)).
Proof.
  intros Hx. assert (forall k, exists d t, esc k ++ String dquote (String x r) = String d t /\ (d = dquote -> t = String x r)) as Hhead.
  { intros [|c k]; [by exists dquote, (String x r)|]. destruct (esc_char_head c) as (d & t & Ht & Hd). cbn [esc]. rewrite Ht.
    by eexists d, _. }
  induction l as [|c l IH]; [done|]. cbn [esc]. rewrite append_assoc, <- IH. destruct (Hhead l) as (d & t & Ht & Hd). rewrite Ht.
  assert (contains true_key (String "t" (String d t)) = contains true_key (String d t)) as Hc.
  { change (contains true_key (String "t" (String d t))) with (String.prefix true_key (String "t" (String d t)) || contains true_key (String d t)).
    unfold true_key at 1. cbn [String.prefix String.append]. destruct (ascii_dec "t" "t"); [|done].
    destruct (ascii_dec dquote d) as [E|]; [|done]. rewrite (Hd (eq_sym E)). cbn [String.prefix]. by destruct (ascii_dec ":" x); [congruence|]. }
  all_ascii c; try done; try reflexivity; exact Hc.
Qed.

Section Shown.
Context `{Digest}.
Lemma contains_true_key_step c s : c <> "t"%char -> contains true_key (String c s) = contains true_key s.
Proof. intros Hc. cbn [contains true_key String.prefix]. destruct (ascii_dec "t" c); [congruence|done]. Qed.
Lemma body_text name r : exists h f, body name r =
  (String "{" (print_str "target") ++ ": " ++ String dquote (esc name ++ String dquote (String "," (" " ++ print_str "path" ++ ": " ++
   String dquote (esc (rq_path r) ++ String dquote (String "," (" " ++ print_str "host_header_seen" ++ ": " ++ h ++ String "," (" " ++
   print_str "auth_present" ++ ": " ++ (if is_given (rq_auth r) then "true" else "false") ++ ", " ++ print_str "auth_fingerprint" ++ ": " ++ f)))))))) /\
  (h = "null" \/ exists s, h = print_str s) /\ (f = "null}" \/ exists s, f = print_str s ++ "}").
Proof.
  exists (print (opt_val (rq_host r))), (print (fingerprint (rq_auth r)) ++ "}"). split; [|split].
  - unfold body, dumps_flat, report. cbn [map fst snd String.concat print]. unfold print_str. 
    destruct (is_given (rq_auth r)); repeat (progress (rewrite ?append_assoc; cbn [String.append])); reflexivity.
  - destruct (rq_host r) as [s|]; [right; by exists s|by left].
  - unfold fingerprint. destruct (given (rq_auth r)) as [s|]; [right; by eexists|by left].
Qed.
Lemma contains_true_key_t c s : c <> dquote -> contains true_key (String "t" (String c s)) = contains true_key (String c s).
Proof.
  intros Hc. change (contains true_key (String "t" (String c s))) with
    (String.prefix true_key (String "t" (String c s)) || contains true_key (String c s)).
  unfold true_key at 1. cbn [String.prefix]. destruct (ascii_dec "t" "t"); [|done]. by destruct (ascii_dec dquote c); [congruence|].
Qed.
Lemma contains_true_key_end d s : d <> "t"%char ->
  contains true_key (String "t" (String dquote (String ":" (String " " (String d s))))) = contains true_key (String d s).
Proof.
  intros Hd. change (contains true_key (String "t" (String dquote (String ":" (String " " (String d s)))))) with
    (String.prefix true_key (String "t" (String dquote (String ":" (String " " (String d s))))) ||
     contains true_key (String dquote (String ":" (String " " (String d s))))).
  rewrite !contains_true_key_step by done.
  unfold true_key at 1. cbn [String.prefix String.append]. destruct (ascii_dec "t" "t"), (ascii_dec dquote dquote), (ascii_dec ":" ":"), (ascii_dec " " " "); try done.
  by destruct (ascii_dec "t" d); [congruence|].
Qed.
Ltac scan := repeat first
  [ rewrite contains_true_key_step by discriminate | rewrite contains_true_key_t by discriminate
  | rewrite contains_true_key_end by discriminate | rewrite esc_true_key by discriminate ].
Lemma quoted_true_key s r : contains true_key (print_str s ++ String "," r) = contains true_key r.
Proof.
  unfold print_str. repeat (progress (rewrite ?append_assoc; cbn [String.append])). scan. reflexivity.
Qed.
Lemma prefix_contains p s : String.prefix p s = true -> contains p s = true.
Proof. intros Hp. destruct s; cbn [contains]; by rewrite Hp. Qed.
Lemma contains_cons p c s : contains p s = true -> contains p (String c s) = true.
Proof. intros Hc. cbn [contains]. by rewrite Hc, orb_true_r. Qed.
Lemma contains_app p a s : contains p s = true -> contains p (a ++ s) = true.
Proof. intros Hc. induction a as [|c a IH]; [done|]. by apply contains_cons. Qed.
Lemma contains_part p q a b s : q = a ++ p ++ b -> contains q s = true -> contains p s = true.
Proof.
  intros -> (x & y & ->)%contains_spec. apply contains_spec. exists (x ++ a), (b ++ y). by rewrite !append_assoc.
Qed.

(** The adversary's search for a credential in the report finds it exactly when a
    non-empty one reached the target, whatever the target's name, the path and the
    host: a quote inside a text is escaped, and the pattern's are not. *)
Theorem report_shows_credential name r : contains AUTH_PRESENT (body name r) = is_given (rq_auth r).
Proof.
  destruct (body_text name r) as (h & f & -> & Hh & Hf). destruct (is_given (rq_auth r)).
  - repeat first [ apply (prefix_contains AUTH_PRESENT); reflexivity | apply contains_cons | apply contains_app].
  - match goal with |- ?b = false => destruct b eqn:Hc; [|done] end.
    apply (contains_part true_key _ (String dquote "auth_presen") "rue") in Hc; [|reflexivity]. rewrite <- Hc. clear Hc.
    change (print_str "target") with (String dquote ("target" ++ String dquote "")).
    change (print_str "path") with (String dquote ("path" ++ String dquote "")).
    change (print_str "host_header_seen") with (String dquote ("host_header_seen" ++ String dquote "")).
    change (print_str "auth_present") with (String dquote ("auth_present" ++ String dquote "")).
    change (print_str "auth_fingerprint") with (String dquote ("auth_fingerprint" ++ String dquote "")).
    assert (forall k, contains true_key (h ++ String "," k) = contains true_key k) as Hk.
    { intros k. destruct Hh as [->|[s ->]]; [cbn [String.append]; by scan|apply quoted_true_key]. }
    destruct Hf as [->|[s ->]]; cbn [String.append]; scan; rewrite Hk; unfold print_str; cbn [String.append]; rewrite ?append_assoc; cbn [String.append]; by scan.
Qed.
(** The adversary of phase 2a takes single quotes for double ones first, and a path
    may hold them. *)
Example report_fooled : contains AUTH_PRESENT (replace "'" (String dquote "") (body "t" (Request "/'auth_present': true" None None))) = true.
Proof. vm_compute. reflexivity. Qed.
(** Nothing of a credential but twelve digits of its digest is in the report. *)
Theorem report_hides_credential name path host a b : a <> "" -> b <> "" -> take 12 (sha256 (utf8 a)) = take 12 (sha256 (utf8 b)) ->
  body name (Request path host (Some a)) = body name (Request path host (Some b)).
Proof.
  intros Ha%String.eqb_neq Hb%String.eqb_neq Hs. unfold body, report, fingerprint, is_given, given. cbn [rq_path rq_host rq_auth].
  by rewrite Ha, Hb; cbn [fmap option_fmap option_map]; rewrite Hs.
Qed.
End Shown.
