(* ===== verification/Udp.v ===== *)
(** * The UDP fixtures of B7 ([src/pep/b7_udp_sender.py], [src/pep/b7_udp_receiver.py])

    The sender of one nonce and the receiver's log, over what the sockets, the clock
    and the files answer; the log is what the B7 verifier reads back. *)

From S2P Require Import Prelude.
From S2P Require Import PyStr.
From S2P Require Import Json.
From S2P Require Import JsonFacts.
From S2P Require Import PyDyn.
From S2P Require Import B7.
Open Scope Z_scope.

(** ** The receiver *)

(** What a record's way to the disk answers: everything, no file, the first bytes only,
    or everything but the synchronisation. *)
Inductive sink := SinkOk | NoOpen (x : exn) | Short (n : nat) (x : exn) | NoSync (x : exn).
Definition nl : string := String "010" "".
(** [emit]: the log afterwards, and the exception. *)
Definition emit (ts : Z) (s : sink) (log : string) (record : dict) : string * res unit :=
  let line := dumps (VDict (dupdate [("ts_ns", VInt ts)] record)) ++ nl in
  match s with
  | SinkOk => (log ++ line, Ok tt)
  | NoOpen x => (log, Raise x)
  | Short n x => (log ++ take n line, Raise x)
  | NoSync x => (log ++ line, Raise x)
  end.
(** [decode("ascii", "replace")]: the replacement character is written 255. *)
Fixpoint ascii_replace (s : string) : string :=
  match s with EmptyString => "" | String c s' => String (if is_ascii c then c else chr 255) (ascii_replace s') end.

Inductive arrival := Timeout | Datagram (payload src_ip : string) (src_port : Z) | SocketError (x : exn).
(** One turn of the loop: the clock it compares, what arrives, and the record's
    time stamp and way to the disk. *)
Record turn := Turn { tu_now : Z; tu_arrival : arrival; tu_ts : Z; tu_sink : sink }.
Record args := Args { ar_run_id : string; ar_bind : string; ar_port : Z; ar_timeout : Z }.
Definition ready_record (a : args) : dict :=
  [ ("event", VStr "READY"); ("run_id", VStr (ar_run_id a)); ("bind", VStr (ar_bind a)); ("port", VInt (ar_port a));
    ("protocol", VStr "udp") ].
(** [recvfrom(4096)] cuts the datagram. *)
Definition received (payload : string) : string := take 4096 payload.
Definition datagram_record (a : args) (payload ip : string) (port : Z) : dict :=
  let data := received payload in
  [ ("event", VStr "DATAGRAM"); ("run_id", VStr (ar_run_id a)); ("nonce", VStr (ascii_replace data)); ("src_ip", VStr ip);
    ("src_port", VInt port); ("dst_ip", VStr (ar_bind a)); ("dst_port", VInt (ar_port a));
    ("bytes", VInt (Z.of_nat (String.length data))); ("protocol", VStr "udp") ].
(** The loop: the log, and [None] while it still runs. The clock of a turn is read
    before [recvfrom], so the last datagram may come up to one receive timeout
    after the deadline, and what is still queued then is never read. *)
Fixpoint serve (a : args) (deadline : Z) (turns : list turn) (log : string) : string * option (res Z) :=
  match turns with
  | [] => (log, None)
  | t :: rest =>
      if negb (tu_now t <? deadline) then (log, Some (Ok 0)) else
      match tu_arrival t with
      | Timeout => serve a deadline rest log
      | SocketError x => (log, Some (Raise x))
      | Datagram payload ip port =>
          match emit (tu_ts t) (tu_sink t) log (datagram_record a payload ip port) with
          | (log', Raise x) => (log', Some (Raise x))
          | (log', Ok _) => serve a deadline rest log'
          end
      end
  end.
(** [main]: the socket, the first record and the ready file come before the clock. *)
Record start := Start { st_socket : res unit; st_ts : Z; st_sink : sink; st_ready : res unit; st_now : Z }.
Definition ready_text (a : args) : string := ar_run_id a ++ " " ++ ar_bind a ++ " " ++ show_Z (ar_port a) ++ nl.
Definition receiver_main (a : args) (s : start) (turns : list turn) (log : string) : string * option (res Z) :=
  match st_socket s with
  | Raise x => (log, Some (Raise x))
  | Ok _ =>
      match emit (st_ts s) (st_sink s) log (ready_record a) with
      | (log', Raise x) => (log', Some (Raise x))
      | (log', Ok _) =>
          match st_ready s with
          | Raise x => (log', Some (Raise x))
          | Ok _ => serve a (st_now s + ar_timeout a) turns log'
          end
      end
  end.

(** ** The sender *)

Record send_env := SendEnv {
  se_ts : Z; se_socket : res unit; se_sendto : string -> res Z; se_name : res (string * Z); se_name' : res (string * Z);
  se_close : res unit; se_write : res unit }.
Definition encode_ascii (s : string) : res string := if str_all is_ascii s then Ok s else Raise UnicodeEncodeError.
Definition unsent (e : send_env) (role target : string) (port : Z) (nonce : string) : dict :=
  [ ("ts_ns", VInt (se_ts e)); ("role", VStr role); ("protocol", VStr "udp"); ("dst_ip", VStr target); ("dst_port", VInt port);
    ("nonce", VStr nonce); ("attempted", VBool false); ("bytes", VInt 0); ("error", VStr "") ].
(** Sending, up to the dictionary that records it. *)
Definition sending (e : send_env) (nonce : string) : res dict :=
  _ <- se_socket e;; payload <- encode_ascii nonce;; n <- se_sendto e payload;;
  name <- se_name e;; name' <- se_name' e;;
  Ok [("attempted", VBool true); ("bytes", VInt n); ("src_ip", VStr name.1); ("src_port", VInt name'.2)].
Definition outcome (e : send_env) (role target : string) (port : Z) (nonce : string) : dict :=
  let out := unsent e role target port nonce in
  match sending e nonce with
  | Raise x => dset "error" (VStr (exn_cls x)) out
  | Ok d =>
      let out := dupdate out d in
      match se_close e with Raise x => dset "error" (VStr (exn_cls x)) out | Ok _ => out end
  end.
(** The output file and the exit code. *)
Definition sender_main (e : send_env) (role target : string) (port : Z) (nonce : string) : res (dict * Z) :=
  let out := outcome e role target port nonce in
  _ <- se_write e;;
  Ok (out, if truthy (fld "attempted" out) && py_eqb (fld "bytes" out) (VInt (Z.of_nat (String.length nonce))) then 0 else 1).

(** ** The log reads back *)

Lemma ascii_utf8_decode b s : str_all is_ascii s = true -> utf8_decode b s = Some s.
Proof. induction s as [|c s IH]; [done|]. cbn. intros [-> Hs]%andb_true_iff. by rewrite (IH Hs). Qed.
Lemma ascii_utf8 s : str_all is_ascii s = true -> utf8 s = s.
Proof. induction s as [|c s IH]; [done|]. cbn. intros [-> Hs]%andb_true_iff. by rewrite (IH Hs). Qed.
Lemma ascii_replace_id s : str_all is_ascii s = true -> ascii_replace s = s.
Proof. induction s as [|c s IH]; [done|]. cbn. intros [-> Hs]%andb_true_iff. by rewrite (IH Hs). Qed.
Lemma printable_ascii c : printable c = true -> is_ascii c = true.
Proof. all_ascii c; done. Qed.
Lemma printable_line c : printable c = true -> line_end c = false.
Proof. all_ascii c; done. Qed.
Lemma rev_line_cons c acc : str_rev (String c acc) = str_rev acc ++ String c "".
Proof.
  unfold str_rev. cbn [String.list_ascii_of_string rev]. induction (rev (String.list_ascii_of_string acc)) as [|d l IH]; [done|].
  cbn. by rewrite IH.
Qed.
Lemma str_lines_line line rest : forall acc, str_all printable line = true ->
  str_lines acc (line ++ nl ++ rest) = (str_rev acc ++ line) :: str_lines "" rest.
Proof.
  induction line as [|c line IH]; intros acc Hl.
  - cbn [String.append nl str_lines]. cbn. rewrite append_nil_r. by destruct rest.
  - cbn in Hl. apply andb_true_iff in Hl as [Hc Hl]. cbn [String.append str_lines]. rewrite (printable_line _ Hc), (IH _ Hl), rev_line_cons.
    by rewrite append_assoc.
Qed.
(** A log of whole records, and the nonces it holds. *)
Definition lines_of (ds : list dict) : string := String.concat "" (map (fun d => dumps (VDict d) ++ nl) ds).
Definition nonce_of (d : dict) : list string := match dget "nonce" d with Some (VStr s) => [s] | _ => [] end.
Definition sound (d : dict) : Prop := wf (VDict d).
Lemma lines_of_cons d ds : lines_of (d :: ds) = dumps (VDict d) ++ nl ++ lines_of ds.
Proof.
  unfold lines_of. cbn [map]. rewrite <- append_assoc.
  assert (forall a l, String.concat "" (a :: l) = a ++ String.concat "" l) as Hc by (intros a [|b l]; cbn; [by rewrite append_nil_r|done]).
  by rewrite Hc.
Qed.
Lemma lines_of_app l k : lines_of (l ++ k) = lines_of l ++ lines_of k.
Proof. induction l as [|d l IH]; [done|]. cbn [app]. by rewrite !lines_of_cons, IH, !append_assoc. Qed.
Lemma dumps_printable v : str_all printable (dumps v) = true.
Proof. apply print_printable. Qed.
Lemma nonce_parsed d : sound d -> exists v, v_get "nonce" (canon (VDict d)) = Ok v /\ match v with VStr s => [s] | _ => [] end = nonce_of d.
Proof.
  intros Hd. inversion Hd as [| | | | | |? Hn _]; subst. change (canon (VDict d)) with (VDict (canon_d d)).
  unfold v_get, v_get_or, dget_or. rewrite dget_canon_d by done. eexists; split; [reflexivity|]. unfold nonce_of.
  destruct (dget "nonce" d) as [[]|]; reflexivity.
Qed.
Lemma lines_of_ascii ds : str_all is_ascii (lines_of ds) = true.
Proof.
  induction ds as [|d ds IH]; [done|]. rewrite lines_of_cons, !str_all_append, IH.
  by rewrite (str_all_impl _ _ _ printable_ascii (dumps_printable (VDict d))).
Qed.
Lemma nonces_lines ds : Forall sound ds -> nonces (lines_of ds) = Ok (flat_map nonce_of ds).
Proof.
  intros Hd. unfold nonces, read_text. rewrite ascii_utf8_decode by apply lines_of_ascii. cbn [rbind].
  assert (exists vs, rmap (fun line => match loads (utf8 line) with Some v => v_get "nonce" v | None => Raise JSONDecodeError end)
            (str_lines "" (lines_of ds)) = Ok vs /\ flat_map (fun v => match v with VStr s => [s] | _ => [] end) vs = flat_map nonce_of ds) as (vs & -> & <-); [|done].
  induction Hd as [|d ds Hd _ (vs & IH & E)]; [by exists []|]. rewrite lines_of_cons, str_lines_line by apply dumps_printable.
  destruct (nonce_parsed d Hd) as (v & Hv & En). exists (v :: vs). cbn [rmap String.append]. change (str_rev "") with "". cbn [String.append].
  rewrite ascii_utf8 by apply (str_all_impl _ _ _ printable_ascii), dumps_printable. rewrite loads_dumps by exact Hd. rewrite Hv, IH. cbn [rbind flat_map].
  by rewrite En, E.
Qed.
Definition entry (ts : Z) (record : dict) : dict := dupdate [("ts_ns", VInt ts)] record.
Lemma sound_entry d : NoDup (dkeys d) -> Forall (fun kv => wf kv.2) d -> sound d.
Proof. by constructor. Qed.
Ltac record_sound := apply sound_entry; [apply (bool_decide_unpack _); vm_compute; exact I|repeat constructor].
Lemma ready_sound ts a : sound (entry ts (ready_record a)).
Proof. record_sound. Qed.
Lemma datagram_sound ts a p ip port : sound (entry ts (datagram_record a p ip port)).
Proof. record_sound. Qed.

(** The turns whose clock is before the deadline, and what arrives in them. *)
Fixpoint within (deadline : Z) (turns : list turn) : list turn :=
  match turns with [] => [] | t :: rest => if tu_now t <? deadline then t :: within deadline rest else [] end.
Definition payloads (turns : list turn) : list string :=
  flat_map (fun t => match tu_arrival t with Datagram p _ _ => [p] | _ => [] end) turns.
Definition heard (p : string) : string := ascii_replace (received p).
(** The loop has not failed. *)
Definition unharmed (r : option (res Z)) : Prop := match r with Some (Raise _) => False | _ => True end.
Lemma emit_lines ts s ds d log : emit ts s (lines_of ds) d = (log, Ok tt) -> log = lines_of (ds ++ [entry ts d]).
Proof. destruct s; intros [= <-]. rewrite lines_of_app, lines_of_cons. cbn [lines_of map String.concat]. by rewrite append_nil_r. Qed.
Lemma serve_lines a deadline turns : forall ds log r, Forall sound ds -> serve a deadline turns (lines_of ds) = (log, r) -> unharmed r ->
  exists ds', log = lines_of (ds ++ ds') /\ Forall sound ds' /\ flat_map nonce_of ds' = map heard (payloads (within deadline turns)).
Proof.
  induction turns as [|t rest IH]; intros ds log r Hd Hs Hr; cbn [serve within] in *.
  - injection Hs as <- <-. exists []. by rewrite app_nil_r.
  - destruct (tu_now t <? deadline); cbn [negb] in Hs; [|injection Hs as <- <-; exists []; by rewrite app_nil_r].
    destruct (tu_arrival t) as [|p ip port|x] eqn:Ea; [| |by injection Hs as <- <-].
    + destruct (IH ds log r Hd Hs Hr) as (ds' & ? & ? & Hf). exists ds'. split_and?; try done. by cbn [payloads flat_map]; rewrite Ea.
    + destruct (emit (tu_ts t) (tu_sink t) (lines_of ds) (datagram_record a p ip port)) as [log' [[]|x]] eqn:Ee; [|by injection Hs as <- <-].
      apply emit_lines in Ee as ->. set (d := entry (tu_ts t) (datagram_record a p ip port)) in *.
      assert (sound d) as Hsd by apply datagram_sound.
      destruct (IH (ds ++ [d])%list log r) as (ds' & -> & Hd' & Hf); [by apply Forall_app_2; [|apply Forall_singleton]|done|done|].
      exists (d :: ds'). rewrite <- app_assoc. split_and?; [done|by constructor|]. cbn [flat_map payloads]. rewrite Ea. cbn [map app].
      by rewrite Hf.
Qed.

(** A receiver that starts an empty log and does not fail leaves a log in which the
    verifier reads exactly the datagrams that arrived before the deadline, in their
    order. *)
Theorem receiver_log_exact a s turns log r : receiver_main a s turns "" = (log, r) -> st_socket s = Ok tt -> st_ready s = Ok tt ->
  unharmed r -> nonces log = Ok (map heard (payloads (within (st_now s + ar_timeout a) turns))).
Proof.
  unfold receiver_main. intros Hm Hk Hy Hr. rewrite Hk in Hm. destruct (emit (st_ts s) (st_sink s) "" (ready_record a)) as [log' [[]|x]] eqn:Ee;
    [|by injection Hm as <- <-]. rewrite Hy in Hm. apply (emit_lines _ _ []) in Ee as ->. cbn [app] in Hm.
  set (d := entry (st_ts s) (ready_record a)) in *. assert (sound d) as Hsd by apply ready_sound.
  apply serve_lines in Hm as (ds & -> & Hd & Hf); [|by apply Forall_singleton|done].
  rewrite nonces_lines by by apply Forall_app_2; [apply Forall_singleton|]. by rewrite flat_map_app, <- Hf.
Qed.

Lemma take_short n s : (String.length s <= n)%nat -> take n s = s.
Proof. revert s. induction n as [|n IH]; intros [|c s] Hn; cbn in *; [done|lia|done|]. by rewrite IH by lia. Qed.
Lemma take_all n s : (String.length (take n s) < n)%nat -> take n s = s.
Proof. revert s. induction n as [|n IH]; intros s Hn; [lia|]. destruct s as [|c s]; [done|]. cbn in *. by rewrite IH by lia. Qed.
Lemma ascii_replace_inj t : forall u, str_all is_ascii u = true -> ascii_replace t = u -> t = u.
Proof.
  induction t as [|c t IH]; intros u Hu Ht; cbn in Ht; [done|]. subst u. cbn [str_all] in Hu. apply andb_true_iff in Hu as [Hc Hu].
  rewrite (IH _ Hu eq_refl) at 1. by destruct (is_ascii c) eqn:Ec; [|vm_compute in Hc].
Qed.
Lemma heard_ascii n p : str_all is_ascii n = true -> (String.length n < 4096)%nat -> heard p = n <-> p = n.
Proof.
  unfold heard, received. intros Ha Hl. split.
  - intros He%(ascii_replace_inj _ _ Ha). rewrite <- He. symmetry. apply take_all. by rewrite He.
  - intros ->. rewrite take_short by lia. by apply ascii_replace_id.
Qed.

(** C34: what the receiver's log says about a nonce. For a receiver that comes up
    (socket and ready file), starts from an empty log and ends without an
    exception or still runs, and an ASCII nonce of less than 4096 bytes, the
    verifier sees the nonce in the log exactly when [recvfrom] returned a datagram
    with it as payload in a turn whose clock, read before [recvfrom], was before
    the deadline, all earlier turns' too. A datagram that arrives during that last
    turn counts, one still queued in the kernel at the end does not. *)
Theorem seen_means_delivered a s turns log r n l : receiver_main a s turns "" = (log, r) -> st_socket s = Ok tt -> st_ready s = Ok tt ->
  unharmed r -> str_all is_ascii n = true -> (String.length n < 4096)%nat -> nonces log = Ok l ->
  seen (VStr n) l = Ok true <-> n ∈ payloads (within (st_now s + ar_timeout a) turns).
Proof.
  intros Hm Hk Hy Hr Ha Hl Hn. rewrite (receiver_log_exact _ _ _ _ _ Hm Hk Hy Hr) in Hn. injection Hn as <-.
  unfold seen. cbn [hashable]. assert (forall b, Ok b = Ok true <-> b = true) as -> by (intros b; split; [by intros [=]|by intros ->]).
  rewrite mem_str_spec, list_elem_of_fmap. split.
  - intros (p & He & Hp). by rewrite <- (proj1 (heard_ascii _ _ Ha Hl) (eq_sym He)).
  - intros Hp. exists n. split; [symmetry; by apply heard_ascii|done].
Qed.

Lemma py_eqb_int a b : py_eqb (VInt a) (VInt b) = (a =? b).
Proof. cbn. unfold num_eqb. cbn. rewrite ?Z.mul_1_r. done. Qed.
(** The sender exits with 0 exactly when the whole nonce was handed to the network
    and the socket told its name; that closing it failed does not matter. *)
Theorem sender_exit_exact e role target port nonce out c : sender_main e role target port nonce = Ok (out, c) ->
  c = 0 <-> str_all is_ascii nonce = true /\ se_socket e = Ok tt /\ se_sendto e nonce = Ok (Z.of_nat (String.length nonce)) /\
            is_ok (se_name e) = true /\ is_ok (se_name' e) = true.
Proof.
  unfold sender_main. destruct (se_write e) as [[]|x]; [|done]. cbn [rbind]. intros [= _ Hc]. rewrite <- Hc. clear Hc.
  unfold outcome, sending, encode_ascii.
  destruct (se_socket e) as [[]|x]; cbn [rbind]; [|split; [done|by intros (_ & [=] & _)]].
  destruct (str_all is_ascii nonce); cbn [rbind]; [|split; [done|by intros ([=] & _)]].
  destruct (se_sendto e nonce) as [n|x]; cbn [rbind]; [|split; [done|by intros (_ & _ & [=] & _)]].
  destruct (se_name e) as [[ip p]|x]; cbn [rbind is_ok]; [|split; [done|by intros (_ & _ & _ & [=] & _)]].
  destruct (se_name' e) as [[ip' p']|x]; cbn [rbind is_ok]; [|split; [done|by intros (_ & _ & _ & _ & [=])]].
  assert (forall o, fld "attempted" o = VBool true -> fld "bytes" o = VInt n ->
    ((if truthy (fld "attempted" o) && py_eqb (fld "bytes" o) (VInt (Z.of_nat (String.length nonce))) then 0 else 1) = 0) <->
    n = Z.of_nat (String.length nonce)) as Hb.
  { intros o -> ->. cbn [truthy andb]. rewrite py_eqb_int. destruct (Z.eqb_spec n (Z.of_nat (String.length nonce))); split; done. }
  rewrite Hb by (destruct (se_close e); reflexivity). split; [intros ->; done|by intros (_ & _ & [= ->] & _)].
Qed.

(** ** A run, evaluated *)

Definition args_s : args := Args "run-1" "fd00::1" 9000 45.
Definition turns_s : list turn :=
  [ Turn 1 Timeout 0 SinkOk; Turn 2 (Datagram "c1" "fd00::2" 40000) 7 SinkOk; Turn 46 (Datagram "late" "fd00::2" 40000) 8 SinkOk ].
Definition start_s : start := Start (Ok tt) 5 SinkOk (Ok tt) 0.
Definition log_s : string := (receiver_main args_s start_s turns_s "").1.
Lemma receiver_log_exact_witness : nonces log_s = Ok ["c1"].
Proof. exact (receiver_log_exact args_s start_s turns_s log_s (Some (Ok 0)) eq_refl eq_refl eq_refl I). Defined.
Lemma seen_means_delivered_witness : "c1" ∈ payloads (within (st_now start_s + ar_timeout args_s) turns_s).
Proof.
  exact (proj1 (seen_means_delivered args_s start_s turns_s log_s (Some (Ok 0)) "c1" ["c1"] eq_refl eq_refl eq_refl I eq_refl
    (proj1 (Nat.ltb_lt 2 4096) eq_refl) eq_refl) eq_refl).
Defined.
Definition send_s (n : Z) : send_env := SendEnv 1 (Ok tt) (fun _ => Ok n) (Ok ("fd00::2", 40000)) (Ok ("fd00::2", 40000)) (Raise (ValErr "")) (Ok tt).
Lemma sender_exit_exact_witness : exists out c, sender_main (send_s 2) "control" "fd00::1" 9000 "c1" = Ok (out, c) /\ c = 0.
Proof.
  exists (outcome (send_s 2) "control" "fd00::1" 9000 "c1"), 0. split; [reflexivity|].
  apply (sender_exit_exact (send_s 2) "control" "fd00::1" 9000 "c1" (outcome (send_s 2) "control" "fd00::1" 9000 "c1") 0 eq_refl).
  split_and?; reflexivity.
Defined.
