(* ===== verification/Records.v ===== *)
(** * Checks of kept records ([src/governance/exercises/verify_tabletop.py], [src/verify_f01_candidate.py])

    The verifier of the tabletop record, and the replay of the evidence auditor on
    the evidence of one run, over what the files and the auditor's processes answer. *)

From S2P Require Import Prelude.
From S2P Require Import PyStr.
From S2P Require Import Json.
From S2P Require Import PyDyn.
From S2P Require Import Hash.
From S2P Require Import AuditProps.
From S2P Require Import B7.
From S2P Require Import Ca.
Open Scope Z_scope.

Section Records.
Context `{Digest}.

(** ** The tabletop record *)

Definition REQUIRED_STAGES : list string :=
  [ "detect"; "stop"; "contain"; "assess_authorization"; "preserve_evidence"; "notify"; "eradicate"; "recover"; "review" ].
(** The stage of a step that passed. *)
Definition passed_stage (step : val) : res (list val) :=
  status <- v_index "status" step;;
  if py_eqb status (VStr "PASS") then
    s <- v_index "stage" step;; if hashable s then Ok [s] else Raise (TypeError "unhashable type")
  else Ok [].
Definition observed_stages (result : val) : res (list val) :=
  steps <- v_index "steps" result;; l <- v_iter steps;; stages <- rmap passed_stage l;;
  Ok (concat stages).
Definition checks (event_bytes : string) (event result : val) : res (list (string * bool)) :=
  stages <- observed_stages result;;
  a <- v_index "simulation" event;; b <- v_index "contains_real_credentials" event;;
  c <- v_index "contains_third_party_data" event;; d <- v_index "external_effect_occurred" event;;
  e <- v_index "source_event_sha256" result;; f <- v_index "live_actions_executed" result;;
  Ok [ ("simulation_only", is_true a); ("no_real_credentials", is_false b); ("no_third_party_data", is_false c);
       ("no_external_effect", is_false d); ("evidence_hash_matches", py_eqb (VStr (sha256 event_bytes)) e);
       ("all_response_stages_passed", forallb (fun s => existsb (py_eqb (VStr s)) stages) REQUIRED_STAGES);
       ("record_declares_no_live_actions", is_false f) ].
(** [main]: the exit code. *)
Definition tabletop_main (event_bytes : string) (record : string) : res Z :=
  event <- read_json event_bytes;; result <- read_json record;;
  l <- checks event_bytes event result;;
  Ok (if forallb snd l then 0 else 1).

(** ** The replay *)

Record proc := Proc { pr_exit : Z; pr_stdout : string; pr_stderr : string }.
(** The repository's root, the directory two above it, and the interpreter. *)
Record place := Place { pl_root : string; pl_outputs : string; pl_python : string }.
Definition AssertionError (m : string) : exn := PyExn "AssertionError" m.
Definition RID : string := "run-5e0e09247a8cdd40567015c3ba884314".
Definition BASELINE : string := "C:/Users/L/VBox/strix-pipeline".
Definition audit_dir (p : place) : string := path_join (pl_outputs p) "audit_2026_09_10".
Definition measurement (p : place) : string := path_join (path_join (audit_dir p) "measurement") ("track-a-measurement-" ++ RID).
Definition replay_args (p : place) (source collected : string) : list string :=
  [ pl_python p; path_join source "pep/audit_gate_evidence.py"; "--acceptance"; path_join collected "ipv6_acceptance.json";
    "--layerb"; path_join collected "ipv6_layerb.json"; "--audit"; path_join (measurement p) "control/audit.jsonl"; "--run-id"; RID;
    "--v4"; path_join collected "pep_results.json"; "--b7-evidence"; path_join collected "b7_evidence.json" ].
Record outside := Outside {
  ou_mkdir : res unit; ou_run : list string -> res proc; ou_write : string -> string -> res unit; ou_text : string -> res string; ou_bytes : string -> res string }.
Definition replay (o : outside) (p : place) (name source collected : string) (expected : Z) : res dict :=
  proc <- ou_run o (replay_args p source collected);;
  let log := pr_stdout proc ++ pr_stderr proc in
  _ <- ou_write o (name ++ ".txt") log;;
  let marker := contains "RESULT: CERTIFIED" (pr_stdout proc) in
  if negb (pr_exit proc =? expected) then Raise (AssertionError name) else
  if negb (Bool.eqb marker (expected =? 0)) then Raise (AssertionError name) else
  Ok [ ("name", VStr name); ("exit", VInt (pr_exit proc)); ("expected_exit", VInt expected); ("certified_marker", VBool marker);
       ("log_sha256", VStr (sha256 (utf8 log))) ].
Definition collected (p : place) : string := path_join (measurement p) "collected".
Definition without_raw (p : place) : string := path_join (audit_dir p) "evidence_without_raw".
Definition cases (p : place) : list (string * string * string * Z) :=
  [ ("baseline_complete", BASELINE, collected p, 0);
    ("baseline_missing_raw_negative_control", BASELINE, without_raw p, 0);
    ("candidate_complete", pl_root p, collected p, 0);
    ("candidate_missing_raw", pl_root p, without_raw p, 1) ].
(** The baseline's files whose digest is not the manifest's. *)
Definition changed (o : outside) (kv : string * val) : res bool :=
  bytes <- ou_bytes o (path_join BASELINE kv.1);; Ok (negb (py_eqb (VStr (sha256 bytes)) kv.2)).
(** The script: the report it writes last, whose indentation is not modelled. *)
Definition f01_main (o : outside) (p : place) : res dict :=
  _ <- ou_mkdir o;;
  results <- rmap (fun c => replay o p c.1.1.1 c.1.1.2 c.1.2 c.2) (cases p);;
  text <- ou_text o (path_join (pl_root p) "C6_BASELINE_MANIFEST.json");;
  manifest <- match loads (utf8 text) with Some v => Ok v | None => Raise JSONDecodeError end;;
  files <- v_index "files" manifest;; items <- v_items files;;
  bad <- rmap (changed o) items;;
  if existsb (fun b => b) bad then Raise (AssertionError "bad") else
  candidate <- ou_bytes o (path_join (pl_root p) "pep/verify_b7_evidence.py");;
  let report := [ ("scope", VStr "offline replay, not fresh acquisition or release"); ("results", VList (map VDict results));
                  ("original_baseline_files_unchanged", VInt (Z.of_nat (length items)));
                  ("candidate_verifier_sha256", VStr (sha256 candidate)) ] in
  _ <- ou_write o "f01-replay-results.json" (print (VDict report));;
  Ok report.
End Records.

(** ** What an accepted record says *)

Lemma dindex_Ok k d v : dindex d k = Ok v <-> dget k d = Some v.
Proof. unfold dindex. destruct (dget k d); split; by intros [= ->]. Qed.
Lemma v_index_Ok k v x : v_index k v = Ok x <-> exists d, v = VDict d /\ dget k d = Some x.
Proof. destruct v; cbn [v_index]; rewrite ?dindex_Ok; split; try done; try (by intros (? & [=] & _)); [by eauto|by intros (? & [= <-] & ?)]. Qed.
Lemma is_true_iff v : is_true v = true <-> v = VBool true.
Proof. destruct v as [|[]| | | | |]; split; try done. Qed.
Lemma is_false_iff v : is_false v = true <-> v = VBool false.
Proof. destruct v as [|[]| | | | |]; split; try done. Qed.
Lemma str_eq s v : py_eqb (VStr s) v = true -> v = VStr s.
Proof. destruct v as [| | |[]| | |]; cbn; try done. by intros ->%String.eqb_eq. Qed.
Lemma eq_str v s : py_eqb v (VStr s) = true -> v = VStr s.
Proof. destruct v as [| | |[]| | |]; cbn; try done. by intros ->%String.eqb_eq. Qed.
(** A step of the record that passed the stage. *)
Definition passes_stage (s : string) (step : val) : Prop :=
  exists d, step = VDict d /\ dget "status" d = Some (VStr "PASS") /\ dget "stage" d = Some (VStr s).

Section Means.
Context `{Digest}.
Lemma observed_means result stages s : observed_stages result = Ok stages -> existsb (py_eqb (VStr s)) stages = true ->
  exists r l, result = VDict r /\ dget "steps" r = Some (VList l) /\ exists step, step ∈ l /\ passes_stage s step.
Proof.
  unfold observed_stages. intros (steps & (r & -> & Hs)%v_index_Ok & (l & Hl & (ss & Hr & [= <-])%res_bind_Ok)%res_bind_Ok)%res_bind_Ok.
  intros (v & Hv & Hx)%existsb_elem_of. apply str_eq in Hx as ->. apply rmap_Forall2 in Hr.
  apply list_elem_of_In, in_concat in Hv as (k & Hk%list_elem_of_In & Hv%list_elem_of_In).
  apply list_elem_of_lookup in Hk as (i & Hi). destruct (Forall2_lookup_r _ _ _ _ _ Hr Hi) as (step & Hstep & Hp).
  apply list_elem_of_lookup_2 in Hstep. unfold passed_stage in Hp. apply res_bind_Ok in Hp as (st & (d & -> & Hd)%v_index_Ok & Hp).
  destruct (py_eqb st (VStr "PASS")) eqn:Est; [|injection Hp as <-; by apply not_elem_of_nil in Hv].
  apply eq_str in Est as ->. apply res_bind_Ok in Hp as (x & (d' & [= <-] & Hx)%v_index_Ok & Hp).
  destruct (hashable x); [|done]. injection Hp as <-. apply list_elem_of_singleton in Hv as <-.
  exists r. destruct steps as [| | | |str|m|m]; try done; cbn in Hl; injection Hl as <-.
  - apply list_elem_of_fmap in Hstep as (? & [=] & _).
  - exists m. split_and?; [done..|]. exists (VDict d). split; [done|]. by exists d.
  - apply list_elem_of_fmap in Hstep as (? & [=] & _).
Qed.

(** An accepted tabletop record describes a simulation with no real credentials, data
    or effects, whose event file is the hashed one, and every required stage passed. *)
Theorem tabletop_means event_bytes record : tabletop_main event_bytes record = Ok 0 -> exists e r steps,
  read_json event_bytes = Ok (VDict e) /\ read_json record = Ok (VDict r) /\
  dget "simulation" e = Some (VBool true) /\
  (forall k, k ∈ ["contains_real_credentials"; "contains_third_party_data"; "external_effect_occurred"] -> dget k e = Some (VBool false)) /\
  dget "live_actions_executed" r = Some (VBool false) /\ dget "source_event_sha256" r = Some (VStr (sha256 event_bytes)) /\
  dget "steps" r = Some (VList steps) /\ forall s, s ∈ REQUIRED_STAGES -> exists step, step ∈ steps /\ passes_stage s step.
Proof.
  unfold tabletop_main. intros (ev & He & (re & Hr & (l & Hc & Hm)%res_bind_Ok)%res_bind_Ok)%res_bind_Ok.
  destruct (forallb snd l) eqn:Ha; [|done]. clear Hm. unfold checks in Hc. remember REQUIRED_STAGES as required eqn:Ereq.
  apply res_bind_Ok in Hc as (stages & Hs & Hc). apply res_bind_Ok in Hc as (a & (e & -> & H1)%v_index_Ok & Hc).
  apply res_bind_Ok in Hc as (b & (? & [= <-] & H2)%v_index_Ok & Hc). apply res_bind_Ok in Hc as (c & (? & [= <-] & H3)%v_index_Ok & Hc).
  apply res_bind_Ok in Hc as (d & (? & [= <-] & H4)%v_index_Ok & Hc). apply res_bind_Ok in Hc as (h & (r & -> & H5)%v_index_Ok & Hc).
  apply res_bind_Ok in Hc as (f & (? & [= <-] & H6)%v_index_Ok & Hc). injection Hc as <-. cbn [forallb snd] in Ha.
  rewrite !andb_true_iff in Ha. destruct Ha as (->%is_true_iff & ->%is_false_iff & ->%is_false_iff & ->%is_false_iff & ->%str_eq & Hst & ->%is_false_iff & _).
  assert (forall s, s ∈ required -> existsb (py_eqb (VStr s)) stages = true) as Hall by (intros s Hin; by apply (proj1 (forallb_elem_of _ _) Hst)).
  destruct (observed_means _ _ _ Hs (Hall "detect" ltac:(rewrite Ereq; is_in))) as (r' & steps & [= <-] & Hsteps & _).
  exists e, r, steps. split_and?; try done.
  - intros k Hk. repeat (apply elem_of_cons in Hk as [->|Hk]; [done|]). by apply not_elem_of_nil in Hk.
  - intros s Hin. destruct (observed_means _ _ _ Hs (Hall s Hin)) as (r' & steps' & [= <-] & Hsteps' & Hstep).
    rewrite Hsteps in Hsteps'. by injection Hsteps' as <-.
Qed.

(** A report of the replay exists only if the auditor's four runs ended as expected,
    each marked certified exactly when it ended with 0, and every file of the baseline
    still has the digest of its manifest. *)
Definition ended (o : outside) (p : place) (c : string * string * string * Z) : Prop :=
  exists pr, ou_run o (replay_args p c.1.1.2 c.1.2) = Ok pr /\ pr_exit pr = c.2 /\
    (contains "RESULT: CERTIFIED" (pr_stdout pr) = true <-> c.2 = 0).
Definition unchanged (o : outside) (kv : string * val) : Prop :=
  exists bytes, ou_bytes o (path_join BASELINE kv.1) = Ok bytes /\ kv.2 = VStr (sha256 bytes).
Theorem replay_means o p report : f01_main o p = Ok report -> Forall (ended o p) (cases p) /\
  exists text files items, ou_text o (path_join (pl_root p) "C6_BASELINE_MANIFEST.json") = Ok text /\
    loads (utf8 text) = Some (VDict files) /\ dget "files" files = Some (VDict items) /\ Forall (unchanged o) items.
Proof.
  unfold f01_main. intros (_ & _ & (results & Hr & (text & Ht & (m & Hm & (fs & (files & -> & Hf)%v_index_Ok & (items & Hi &
    (bad & Hb & Hrest)%res_bind_Ok)%res_bind_Ok)%res_bind_Ok)%res_bind_Ok)%res_bind_Ok)%res_bind_Ok)%res_bind_Ok. split.
  - apply rmap_Forall2 in Hr. apply Forall_forall. intros c Hc. apply list_elem_of_lookup in Hc as (i & Hc).
    destruct (Forall2_lookup_l _ _ _ _ _ Hr Hc) as (row & _ & Hrow). unfold replay in Hrow.
    apply res_bind_Ok in Hrow as (pr & Hpr & Hrow). exists pr. split; [done|]. apply res_bind_Ok in Hrow as (_ & _ & Hrow).
    destruct (Z.eqb_spec (pr_exit pr) c.2) as [->|]; [|done]. cbn [negb] in Hrow. split; [done|].
    destruct (contains "RESULT: CERTIFIED" (pr_stdout pr)), (Z.eqb_spec c.2 0); done.
  - destruct (loads (utf8 text)) as [v|] eqn:El; [|done]. injection Hm as ->. destruct fs as [| | | | | |its]; try done. injection Hi as ->.
    exists text, files, items. split_and?; [done..|]. apply rmap_Forall2 in Hb.
    destruct (existsb (fun b => b) bad) eqn:Ebad; [done|]. apply Forall_forall. intros kv Hkv. apply list_elem_of_lookup in Hkv as (i & Hkv).
    destruct (Forall2_lookup_l _ _ _ _ _ Hb Hkv) as (b & Hbi & Hch). unfold changed in Hch. apply res_bind_Ok in Hch as (bytes & Hby & [= Hb']).
    exists bytes. split; [done|]. apply str_eq. destruct b.
    + assert (existsb (fun b => b) bad = true); [|congruence]. apply existsb_elem_of. exists true. split; [by apply list_elem_of_lookup_2 in Hbi|done].
    + by apply negb_false_iff in Hb'.
Qed.
End Means.

(** ** Evaluated *)

#[local] Existing Instance toy.
Definition event_s : string := print (VDict
  [ ("simulation", VBool true); ("contains_real_credentials", VBool false); ("contains_third_party_data", VBool false);
    ("external_effect_occurred", VBool false) ]).
Definition record_s : string := print (VDict
  [ ("steps", VList (map (fun s => VDict [("stage", VStr s); ("status", VStr "PASS")]) REQUIRED_STAGES));
    ("source_event_sha256", VStr (sha256 event_s)); ("live_actions_executed", VBool false) ]).
Lemma tabletop_s : tabletop_main event_s record_s = Ok 0.
Proof. vm_compute. reflexivity. Qed.
Lemma tabletop_means_witness : exists r, read_json record_s = Ok (VDict r).
Proof. destruct (tabletop_means event_s record_s tabletop_s) as (_ & r & _ & _ & Hr & _). exists r. exact Hr. Defined.
Definition place_s : place := Place "/repo" "/out" "python".
Definition outside_s : outside := {|
  ou_mkdir := Ok tt; ou_run := fun a => Ok (if mem_str "/repo/pep/audit_gate_evidence.py" a && mem_str (path_join (without_raw place_s) "b7_evidence.json") a
                         then Proc 1 "RESULT: NOT CERTIFIED" "" else Proc 0 "RESULT: CERTIFIED" "");
  ou_write := fun _ _ => Ok tt; ou_text := fun _ => Ok (print (VDict [("files", VDict [("README.md", VStr (sha256 "x"))])]));
  ou_bytes := fun _ => Ok "x" |}.
Lemma replay_s : is_ok (f01_main outside_s place_s) = true.
Proof. vm_compute. reflexivity. Qed.
Lemma replay_means_witness : Forall (ended outside_s place_s) (cases place_s).
Proof.
  destruct (f01_main outside_s place_s) as [report|x] eqn:E; [exact (proj1 (replay_means outside_s place_s report E))|].
  pose proof replay_s as Hs. rewrite E in Hs. discriminate Hs.
Defined.
