(* ===== verification/Relay.v ===== *)
(** * The harnesses' byte relay, start and control plane

    [_relay] of [src/phase2a/policy_gw.py]: two pumps over two sockets as a step
    relation, one thread each.  The order in which both harnesses start, and the
    control plane of [src/phase2b/policy_gw_tls.py]. *)

From S2P Require Import Prelude.
From S2P Require Import PyStr.

(** ** Pumps *)

(** A socket: what the peer will still send, as [recv] will cut it, an empty chunk
    being its end; what was delivered to the peer; is it shut down? *)
Record side := Side { sd_in : list string; sd_out : string; sd_shut : bool }.
Inductive phase := Reading | Writing (data : string) | Closing | ClosingDst | Ended.
Definition consume (rest : list string) (s : side) : side := Side rest (sd_out s) (sd_shut s).
(** Nothing is sent on a socket that is shut down. *)
Definition deliver (data : string) (s : side) : side :=
  if sd_shut s then s else Side (sd_in s) (sd_out s ++ data) (sd_shut s).
(** A socket whose [shutdown] raises is not connected any more. *)
Definition shutdown (s : side) : side := Side (sd_in s) (sd_out s) true.
(** One step of [pump(src, dst)].  [recv] may fail at any time, and what was received
    before a shutdown may still be read; a failing [sendall] has sent a part. *)
Inductive pump (src dst : side) : phase -> side -> side -> phase -> Prop :=
| pump_chunk c rest : sd_in src = c :: rest -> c <> "" -> pump src dst Reading (consume rest src) dst (Writing c)
| pump_eof rest : sd_in src = "" :: rest -> pump src dst Reading src dst Closing
| pump_shut : sd_in src = [] -> sd_shut src = true -> pump src dst Reading src dst Closing
| pump_recv_fails : pump src dst Reading src dst Closing
| pump_sent data : sd_shut dst = false -> pump src dst (Writing data) src (deliver data dst) Reading
| pump_send_fails data n : pump src dst (Writing data) src (deliver (take n data) dst) Closing
| pump_close : pump src dst Closing (shutdown src) dst ClosingDst
| pump_close_dst : pump src dst ClosingDst src (shutdown dst) Ended.

(** [_relay(a, b)]: the thread pumps from [a] to [b], the caller from [b] to [a]. *)
Record state := State { st_a : side; st_b : side; st_up : phase; st_down : phase }.
Inductive step (s : state) : state -> Prop :=
| step_up a b p : pump (st_a s) (st_b s) (st_up s) a b p -> step s (State a b p (st_down s))
| step_down a b p : pump (st_b s) (st_a s) (st_down s) b a p -> step s (State a b (st_up s) p).
Definition start (ia ib : list string) : state := State (Side ia "" false) (Side ib "" false) Reading Reading.
(** The caller returns when its own pump has ended; joining the thread is bounded. *)
Definition returned (s : state) : Prop := st_down s = Ended.

(** ** The start of the harnesses *)

(** [main] of phase 2a: the directory of the log, then the listener. *)
Definition main (makedirs bind : res unit) : res unit := _ <- makedirs;; bind.
(** [main] of phase 2b: the watcher and the control plane run before the listener is
    bound; [control_plane]'s own bind fails in its thread alone. *)
Inductive started := Watcher | ControlPlane | Pep.
Definition main_tls (control pep : res unit) : list started * res unit :=
  (app [Watcher] (app (if is_ok control then [ControlPlane] else []) (if is_ok pep then [Pep] else [])), pep).
(** [_Control.do_GET]: the status, the length and the body, whatever is asked. *)
Definition control_body : string :=
  String "{" (String "034" ("control_plane" ++ String "034" (":" ++ String "034" ("ok" ++ String "034" "}")))).
Definition control_reply (path : string) : Z * nat * string := (200%Z, String.length control_body, control_body).

(** ** The relay is faithful *)

Definition joined (l : list string) : string := foldr String.append "" l.
(** What the pump holds: read, and not yet delivered. *)
Definition held (p : phase) : string := match p with Writing d => d | _ => "" end.
Definition running (p : phase) : bool := match p with Reading | Writing _ => true | _ => false end.
(** Everything of [supply] is delivered, held or to come; a pump that stopped has
    delivered a prefix. *)
Definition accounts (supply : list string) (src dst : side) (p : phase) : Prop :=
  if running p then joined supply = sd_out dst ++ held p ++ joined (sd_in src)
  else exists rest, joined supply = sd_out dst ++ rest.
Lemma accounts_prefix supply src dst p : accounts supply src dst p -> exists rest, joined supply = sd_out dst ++ rest.
Proof. unfold accounts. destruct (running p); [intros ->; by eexists|done]. Qed.
Lemma take_prefix n s : exists r, s = take n s ++ r.
Proof.
  revert s. induction n as [|n IH]; intros s; [by exists s|]. destruct s as [|c s]; [by exists ""|]. destruct (IH s) as (r & Hr).
  exists r. cbn. by rewrite <- Hr.
Qed.
Lemma pump_accounts supply src dst p src' dst' p' : pump src dst p src' dst' p' ->
  accounts supply src dst p -> accounts supply src' dst' p'.
Proof.
  intros Hp Ha. pose proof (accounts_prefix _ _ _ _ Ha) as Hpre. unfold accounts in *.
  destruct Hp as [c rest E _|rest E|E _| |d Hs|d n| |]; cbn [running held sd_out sd_in consume shutdown] in *; try exact Hpre.
  - by rewrite Ha, E.
  - unfold deliver. rewrite Hs. cbn. by rewrite Ha, append_assoc.
  - unfold deliver. destruct (sd_shut dst); [exact Hpre|]. cbn. destruct (take_prefix n d) as (r & Hr). 
    exists (r ++ joined (sd_in src)). by rewrite Ha, append_assoc, <- (append_assoc (take n d)), <- Hr.
Qed.
(** The other pump delivers to [src] and reads from [dst]: this one's account is not
    touched. *)
Lemma pump_other supply src dst p q src' dst' q' : pump dst src q dst' src' q' ->
  accounts supply src dst p -> accounts supply src' dst' p.
Proof.
  assert (forall d s, sd_in (deliver d s) = sd_in s) as Hin by (intros d s; unfold deliver; by destruct (sd_shut s)).
  intros Hp Ha. unfold accounts in *. destruct Hp; cbn [consume shutdown sd_out sd_in] in *; rewrite ?Hin; exact Ha.
Qed.
Lemma step_accounts ia ib s s' : step s s' ->
  accounts ia (st_a s) (st_b s) (st_up s) /\ accounts ib (st_b s) (st_a s) (st_down s) ->
  accounts ia (st_a s') (st_b s') (st_up s') /\ accounts ib (st_b s') (st_a s') (st_down s').
Proof.
  intros [a b p Hp|a b p Hp] [Hu Hd]; cbn [st_a st_b st_up st_down]; split;
    first [eapply pump_accounts; [exact Hp|done]|eapply pump_other; [exact Hp|done]].
Qed.
(** In every interleaving of the two pumps, and whatever fails, each peer has received
    a prefix of what the other sent: nothing is reordered, invented or duplicated. *)
Theorem relay_faithful ia ib s : rtc step (start ia ib) s ->
  (exists r, joined ia = sd_out (st_b s) ++ r) /\ (exists r, joined ib = sd_out (st_a s) ++ r).
Proof.
  intros Hs. assert (accounts ia (st_a s) (st_b s) (st_up s) /\ accounts ib (st_b s) (st_a s) (st_down s)) as [Hu Hd].
  { assert (accounts ia (st_a (start ia ib)) (st_b (start ia ib)) (st_up (start ia ib)) /\
      accounts ib (st_b (start ia ib)) (st_a (start ia ib)) (st_down (start ia ib))) as H0 by done.
    induction Hs as [s|s s1 s2 Hstep _ IH]; [exact H0|]. apply IH. by eapply step_accounts. }
  split; by eapply accounts_prefix.
Qed.

(** ** The relay ends *)

(** An upper bound on the steps a pump has left. *)
Definition phase_left (p : phase) : nat := match p with Reading => 3 | Writing _ => 4 | Closing => 2 | ClosingDst => 1 | Ended => 0 end.
Definition left (s : state) : nat :=
  2 * (length (sd_in (st_a s)) + length (sd_in (st_b s))) + phase_left (st_up s) + phase_left (st_down s).
Lemma pump_left src dst p src' dst' p' : pump src dst p src' dst' p' ->
  2 * (length (sd_in src') + length (sd_in dst')) + phase_left p' < 2 * (length (sd_in src) + length (sd_in dst)) + phase_left p.
Proof.
  assert (forall d s, sd_in (deliver d s) = sd_in s) as Hin by (intros d s; unfold deliver; by destruct (sd_shut s)).
  intros [c rest E _|rest E|E _| |d Hs|d n| |]; cbn [consume shutdown sd_in phase_left]; rewrite ?Hin, ?E; cbn [length]; lia.
Qed.
(** Whatever the schedule and the failures, the relay of two finite streams takes at
    most two steps a chunk and six more, and then both sides are shut down. *)
Theorem relay_ends ia ib n s : nsteps step n (start ia ib) s -> n <= 2 * (length ia + length ib) + 6.
Proof.
  intros Hn. assert (forall m a b, nsteps step m a b -> m + left b <= left a) as Hm.
  { intros m a b Hs. induction Hs as [|m a b c [a' b' p Hp|a' b' p Hp] _ IH]; [lia| |]; apply pump_left in Hp; unfold left in *;
      cbn [st_a st_b st_up st_down] in *; lia. }
  specialize (Hm _ _ _ Hn). unfold left in Hm at 2. cbn in Hm. lia.
Qed.
(** Both pumps have ended: both sockets are shut down.  One has: nothing is delivered
    any more in either direction. *)
Definition shut_after (s : state) : Prop :=
  (st_up s = Ended \/ st_down s = Ended -> sd_shut (st_a s) = true /\ sd_shut (st_b s) = true) /\
  (st_up s = ClosingDst -> sd_shut (st_a s) = true) /\ (st_down s = ClosingDst -> sd_shut (st_b s) = true).
Lemma deliver_shut d s : sd_shut (deliver d s) = sd_shut s.
Proof. unfold deliver. by destruct (sd_shut s) eqn:E. Qed.
Lemma step_shut s s' : step s s' -> shut_after s -> shut_after s'.
Proof.
  unfold shut_after. intros [a b p Hp|a b p Hp]; cbn [st_a st_b st_up st_down]; destruct Hp;
    cbn [consume shutdown sd_shut]; rewrite ?deliver_shut; intuition (first [discriminate|congruence]).
Qed.
Lemma reachable_shut ia ib s : rtc step (start ia ib) s -> shut_after s.
Proof.
  intros Hs. assert (shut_after (start ia ib)) as Hi by (unfold shut_after; cbn; naive_solver).
  induction Hs as [s|s s1 s2 Hstep _ IH]; [exact Hi|]. apply IH. by eapply step_shut.
Qed.
Lemma step_quiet s s' : step s s' -> sd_shut (st_a s) = true -> sd_shut (st_b s) = true ->
  sd_shut (st_a s') = true /\ sd_shut (st_b s') = true /\ sd_out (st_a s') = sd_out (st_a s) /\ sd_out (st_b s') = sd_out (st_b s).
Proof.
  intros [a b p Hp|a b p Hp] Ha Hb; destruct Hp; cbn [st_a st_b consume shutdown sd_shut sd_out]; unfold deliver;
    rewrite ?Ha, ?Hb; cbn; split_and?; first [done|congruence].
Qed.
(** When one pump has ended, or the caller has returned, nothing is delivered in either
    direction any more. *)
Theorem relay_quiet ia ib s s' : rtc step (start ia ib) s -> st_up s = Ended \/ returned s -> rtc step s s' ->
  sd_out (st_a s') = sd_out (st_a s) /\ sd_out (st_b s') = sd_out (st_b s).
Proof.
  intros (Hsh & _)%reachable_shut He Hs. destruct (Hsh He) as [Ha Hb]. clear Hsh He.
  induction Hs as [s|s s1 s2 Hstep _ IH]; [done|]. destruct (step_quiet _ _ Hstep Ha Hb) as (Ha' & Hb' & <- & <-). by apply IH.
Qed.

(** ** A run *)

Ltac pump_step := first [eapply pump_chunk; [reflexivity|discriminate]|by eapply pump_sent|by eapply pump_eof|by eapply pump_shut|
  apply pump_close|apply pump_close_dst].
Ltac up := eapply rtc_l; [apply step_up; cbn [st_a st_b st_up st_down start]; pump_step|cbn [st_down st_up st_a st_b start]].
Definition request_s : state := State (Side [""] "" true) (Side [] "GET" true) Ended Reading.
Lemma request_run : rtc step (start ["GET"; ""] []) request_s.
Proof. do 5 up. apply rtc_refl. Qed.
Lemma relay_faithful_witness : exists r, joined ["GET"; ""] = "GET" ++ r.
Proof. exact (proj1 (relay_faithful ["GET"; ""] [] request_s request_run)). Defined.
Lemma relay_quiet_witness : sd_out (st_b request_s) = "GET".
Proof. exact (eq_sym (proj2 (relay_quiet ["GET"; ""] [] request_s request_s request_run (or_introl eq_refl) (rtc_refl _ _)))). Defined.
Lemma relay_ends_witness : 0 <= 2 * (length ["GET"; ""] + length ([] : list string)) + 6.
Proof. exact (relay_ends ["GET"; ""] [] 0 (start ["GET"; ""] []) (nsteps_O step _)). Defined.
