(* ===== verification/BudgetBound.v ===== *)
(** * How far the phase 2a budget is overshot

    The harness checks a budget in one critical section and charges it in another.
    The counter passes its cap by at most the number of threads less one, and by no
    more however many requests they serve. *)

From S2P Require Import Prelude.
From S2P Require Import PyStr.
From S2P Require Import Json.
From S2P Require Import PyDyn.
From S2P Require Import Hash.
From S2P Require Import IpAddr.
From S2P Require Import Addressing.
From S2P Require Import Pdp.
From S2P Require Import Conc.
From S2P Require Import Harness.
From S2P Require Import HarnessFacts.
From S2P Require Import Scenario.
From S2P Require Import HarnessProps.
Open Scope Z_scope.

(** ** Threads that charge only after a check *)

Section Discipline.
(** The counter, and the number a check compares it to. *)
Variables (key : string) (cap : Z).

(** [disciplined fl Q p]: each step of [p] leaves the counter alone, or, after a check
    that saw it below the cap, charges it once; [fl] tells that such a check is
    unspent, and [Q] what it is at the end. *)
Fixpoint disciplined (fl : bool) {A} (Q : bool -> res A -> Prop) (p : hthread A) : Prop :=
  match p with
  | Ret a => Q fl (Ok a)
  | Throw e => Q fl (Raise e)
  | Atom f k => forall w, exists fl', disciplined fl' Q (k (f w).2) /\
      ((spend key (f w).1 = spend key w /\ (fl' = true -> fl = true \/ spend key w < cap)) \/
       (fl = true /\ fl' = false /\ spend key (f w).1 = spend key w + 1))
  | Wait c k => forall b, disciplined fl Q (k b)
  end.
Lemma disciplined_bind {A B} (p : hthread A) (g : A -> hthread B) (Q : bool -> res B -> Prop) : forall fl,
  disciplined fl (fun fl' r => match r with Ok a => disciplined fl' Q (g a) | Raise e => Q fl' (Raise e) end) p ->
  disciplined fl Q (pbind p g).
Proof.
  induction p as [a|e|C f k IH|c k IH]; intros fl Hp; cbn in *; auto.
  intros w. destruct (Hp w) as (fl' & Hk & Hs). exists fl'. auto.
Qed.
Lemma disciplined_catch {A} (p : hthread A) h (Q : bool -> res A -> Prop) : forall fl,
  disciplined fl (fun fl' r => match r with Ok a => Q fl' (Ok a) | Raise e => disciplined fl' Q (h e) end) p ->
  disciplined fl Q (pcatch p h).
Proof.
  induction p as [a|e|C f k IH|c k IH]; intros fl Hp; cbn in *; auto.
  intros w. destruct (Hp w) as (fl' & Hk & Hs). exists fl'. auto.
Qed.
Lemma disciplined_mono {A} (p : hthread A) (Q Q' : bool -> res A -> Prop) : forall fl,
  disciplined fl Q p -> (forall fl' r, Q fl' r -> Q' fl' r) -> disciplined fl Q' p.
Proof.
  induction p as [a|e|C f k IH|c k IH]; intros fl Hp HQ; cbn in *; auto.
  intros w. destruct (Hp w) as (fl' & Hk & Hs). exists fl'. auto.
Qed.
(** Steps that leave the counter alone. *)
Definition uncharged (w w' : hworld) : Prop := spend key w' = spend key w.
Lemma disciplined_always {A} (p : hthread A) (Q : bool -> res A -> Prop) fl : always uncharged p -> (forall r, Q fl r) -> disciplined fl Q p.
Proof.
  intros Hp HQ. induction p as [a|e|C f k IH|c k IH]; cbn in *; auto.
  intros w. destruct (Hp w) as [Hu Hk]. exists fl. split; [auto|]. left. split; [exact Hu|auto].
Qed.
Lemma disciplined_of_res {A B} (r : res A) (g : A -> hthread B) (Q : bool -> res B -> Prop) fl : (forall e, r = Raise e -> Q fl (Raise e)) ->
  (forall a, r = Ok a -> disciplined fl Q (g a)) -> disciplined fl Q (pbind (of_res r) g).
Proof. destruct r; cbn; auto. Qed.

(** ** A pool of them *)

Definition anything {A} : bool -> res A -> Prop := fun _ _ => True.
Definition flagged (l : list bool) : Z := Z.of_nat (length (List.filter (fun b => b) l)).
Lemma flagged_cons b l : flagged (b :: l) = (if b then 1 else 0) + flagged l.
Proof. unfold flagged. destruct b; cbn [List.filter length]; lia. Qed.
Lemma flagged_insert (l : list bool) (i : nat) (b b' : bool) : l !! i = Some b -> flagged (<[i := b']> l) = flagged l - (if b then 1 else 0) + (if b' then 1 else 0).
Proof.
  revert i. induction l as [|x l IH]; intros [|i] Hi; [done..| |].
  - injection Hi as ->. change (<[0%nat := b']> (b :: l)) with (b' :: l). rewrite !flagged_cons. lia.
  - change (<[S i := b']> (x :: l)) with (x :: <[i := b']> l). rewrite !flagged_cons, (IH i Hi). lia.
Qed.
Lemma flagged_bound l : 0 <= flagged l <= Z.of_nat (length l).
Proof.
  induction l as [|b l IH]; [done|]. rewrite flagged_cons. cbn [length]. destruct b; lia.
Qed.
(** The counter and the checks that are still unspent. *)
Definition within_bound (start : Z) (cfg : list (hthread unit) * hworld) : Prop := exists flags,
  Forall2 (fun fl p => disciplined fl anything p) flags cfg.1 /\
  spend key cfg.2 + flagged flags <= Z.max start (cap - 1 + Z.of_nat (length cfg.1)).
Lemma step_within start cfg cfg' : pool_step cfg cfg' -> within_bound start cfg -> within_bound start cfg'.
Proof.
  intros [ts i p p' w w' Hi Hs] (flags & Hf & Hb). cbn [fst snd] in *.
  destruct (Forall2_lookup_r _ _ _ _ _ Hf Hi) as (fl & Hfl & Hp).
  assert (exists fl', disciplined fl' anything p' /\
    ((spend key w' = spend key w /\ (fl' = true -> fl = true \/ spend key w < cap)) \/
     (fl = true /\ fl' = false /\ spend key w' = spend key w + 1))) as (fl' & Hp' & Hw).
  { destruct Hs as [B f k w|c k w Hc|c k w Hc]; cbn in Hp; [apply Hp|exists fl; split; [apply Hp|auto]..]. }
  exists (<[i := fl']> flags). cbn [fst snd]. split; [by apply Forall2_insert|]. rewrite (flagged_insert _ _ _ _ Hfl), length_insert.
  pose proof (flagged_insert _ _ _ fl' Hfl) as Hn. pose proof (flagged_bound (<[i := fl']> flags)) as Hl.
  rewrite length_insert, (Forall2_length _ _ _ Hf) in Hl. destruct Hw as [[-> Hc]|(-> & -> & ->)]; [|lia].
  destruct fl'; [|destruct fl; lia]. destruct (Hc eq_refl) as [->|Hlt]; [lia|]. lia.
Qed.
Lemma reach_within start cfg cfg' : reach cfg cfg' -> within_bound start cfg -> within_bound start cfg'.
Proof. induction 1 as [|c1 c2 c3 Hs _ IH]; [done|]. intros Hw. apply IH. by eapply step_within. Qed.
Lemma start_within ts w : Forall (fun p => disciplined false anything p) ts -> within_bound (spend key w) (ts, w).
Proof.
  intros Ht. exists (map (fun _ => false) ts). cbn [fst snd]. split.
  - induction Ht as [|p ts Hp _ IH]; constructor; auto.
  - assert (flagged (map (fun _ : hthread unit => false) ts) = 0) as ->; [|lia].
    unfold flagged. clear Ht. by induction ts as [|p ts IH].
Qed.
Lemma bound_spent start ts w : within_bound start (ts, w) -> spend key w <= Z.max start (cap - 1 + Z.of_nat (length ts)).
Proof. intros (flags & _ & Hb). pose proof (flagged_bound flags). cbn [fst snd] in Hb. lia. Qed.
End Discipline.

(** ** The harness's threads *)

Section Harness.
Context `{Digest} `{Idna}.
(** A program, a bound of the caps its requests read, and the requests. *)
Variables (pid : string) (cap : Z) (clients : list hclient).
Hypothesis plain : contains "/" pid = false.
Hypothesis capped : forall c policy program, c ∈ clients -> hc_policy c = Ok policy ->
  find_program (hc_ip c) policy = Ok (HGo (pid, program)) ->
  exists v z, v_get_or "max_requests" (VInt 0) program = Ok v /\ py_int v = Ok z /\ z <= cap.
Abbreviation disc fl p := (disciplined pid cap fl anything p).
Abbreviation quiet_p := (always (uncharged pid)).

Lemma asset_key_other p a : asset_key p a <> pid.
Proof.
  intros E. assert (contains "/" pid = true); [|congruence]. rewrite <- E. change (asset_key p a) with (p ++ String "/" a). clear E.
  induction p as [|c p IH]; [by destruct a|]. cbn [String.append contains]. by rewrite IH, orb_true_r.
Qed.
Lemma spend_bump k w : spend pid (bump k w) = spend pid w + (if String.eqb k pid then 1 else 0).
Proof.
  unfold spend, bump. cbn [hw_spend]. destruct (String.eqb_spec k pid) as [->|Hne]; [by rewrite lookup_insert_eq|].
  rewrite lookup_insert_ne by done. lia.
Qed.
Lemma spend_charge p a w : spend pid (charge p a w) = spend pid w + (if String.eqb p pid then 1 else 0).
Proof.
  unfold charge. destruct (String.eqb a ""); rewrite ?spend_bump; [done|].
  assert (String.eqb (asset_key p a) pid = false) as -> by (apply String.eqb_neq, asset_key_other). lia.
Qed.
(** A check that passes saw the counter below the cap. *)
Lemma checked program asset w : (exists v z, v_get_or "max_requests" (VInt 0) program = Ok v /\ py_int v = Ok z /\ z <= cap) ->
  check_budget pid program asset w = Ok (HGo tt) -> spend pid w < cap.
Proof.
  intros (v & z & Hv & Hz & Hle). unfold check_budget. rewrite Hv. cbn [rbind]. rewrite Hz. cbn [rbind].
  destruct (Z.leb_spec z (spend pid w)); [done|]. lia.
Qed.

Lemma hsignal_quiet e : quiet_p (hsignal e).
Proof. by apply always_atomic. Qed.
Lemma quiet_resolve host policy : quiet_p (resolve host policy).
Proof.
  unfold resolve. apply always_bind; [apply always_of_res|]. intros entry. destruct (is_sequence entry); [|apply always_of_res].
  apply always_bind; [by apply always_atomic|]. intros n. apply always_bind; [by apply always_atomic|]. intros _. apply always_of_res.
Qed.
Ltac quiet := repeat first [exact I|apply always_bind; [|intros ?]|apply always_catch; [|intros ?]|apply always_of_res|apply hsignal_quiet|apply quiet_resolve].
Lemma quiet_deny c d url m : quiet_p (hdeny_reply c d url m).
Proof. unfold hdeny_reply, audit. quiet. Qed.
Lemma quiet_forward c d m u host port : quiet_p (forward c d m u host port).
Proof.
  unfold forward. apply always_bind; [apply always_of_res|]. intros n.
  apply always_bind; [destruct (n =? 0); [exact I|apply always_of_res]|]. intros payload. cbv zeta.
  apply always_bind; [unfold exchange; quiet|].
  intros [resp|e]; [unfold audit; quiet|apply quiet_deny].
Qed.

(** What [pdp] owes at its end: nothing if its check did not concern the program. *)
Lemma disciplined_pdp c policy killed now q fl : c ∈ clients -> hc_policy c = Ok policy -> hq_src q = hc_ip c ->
  disc fl (pdp policy killed now q).
Proof.
  intros Hc Hp Hsrc. unfold pdp. destruct killed; [done|].
  apply disciplined_of_res; [done|]. intros [d|[p program]] Hfind; [done|]. apply disciplined_of_res; [done|]. intros [d|[]] _; [done|].
  cbn [atomic_res pbind disciplined]. intros w. exists (match check_budget p program (hq_asset q) w with Ok (HGo _) => String.eqb p pid | _ => false end).
  split; [|left; split; [done|]].
  - cbn [snd fst]. destruct (check_budget p program (hq_asset q) w) as [[d|[]]|e] eqn:Hb; cbn [of_res pbind disciplined]; try done.
    apply disciplined_of_res; [done|]. intros [d|host] _; [done|].
    apply disciplined_bind. apply disciplined_always; [destruct (hq_pinned q); [done|apply quiet_resolve]|]. intros [answers|e]; [|done].
    apply disciplined_of_res; [done|]. intros [d|pinned] _; [done|]. apply disciplined_of_res; [done|]. intros [d|[]] _; [done|].
    apply disciplined_of_res; [done|]. intros [d|secret] _; [done|].
    cbn [atomic pbind disciplined]. intros w1. exists false. split; [done|]. cbn [fst]. unfold hemit.
    change (spend pid (HWorld _ _ _)) with (spend pid (charge p (hq_asset q) w1)). rewrite spend_charge.
    destruct (String.eqb p pid); [by right|left; split; [lia|done]].
  - destruct (check_budget p program (hq_asset q) w) as [[d|[]]|e] eqn:Hb; try done. intros ->%String.eqb_eq.
    right. eapply checked; [|exact Hb]. rewrite Hsrc in Hfind. by eapply capped.
Qed.
Lemma disciplined_dispatch m c fl : c ∈ clients -> disc fl (dispatch m c).
Proof.
  intros Hc. unfold dispatch. destruct (String.eqb m "CONNECT").
  - unfold do_CONNECT. apply disciplined_of_res; [done|]. intros policy Hp. destruct (rpartition ":" (hc_url c)) as [[host sep] p].
    destruct (_ || _); [by apply disciplined_always; [apply quiet_deny|]|]. apply disciplined_of_res; [done|]. intros port _.
    apply disciplined_bind. eapply disciplined_mono; [by eapply disciplined_pdp|]. intros fl' [d|e] _; [|done].
    apply disciplined_always; [|done]. destruct (negb (hd_allow d)); [apply quiet_deny|]. unfold audit. quiet.
    destruct (hc_connect c); [quiet|apply quiet_deny].
  - unfold proxy. apply disciplined_of_res; [done|]. intros policy Hp. apply disciplined_of_res; [done|]. intros u _.
    destruct (_ || _); [by apply disciplined_always; [apply quiet_deny|]|].
    destruct (negb _); [by apply disciplined_always; [apply quiet_deny|]|]. apply disciplined_of_res; [done|]. intros port _.
    destruct (split_brain _ _); [by apply disciplined_always; [apply quiet_deny|]|].
    apply disciplined_bind. eapply disciplined_mono; [by eapply disciplined_pdp|]. intros fl' [d|e] _; [|done].
    apply disciplined_always; [|done]. destruct (negb (hd_allow d)); [apply quiet_deny|apply quiet_forward].
Qed.
(** The requests of one connection, one after the other; an exception ends it. *)
Fixpoint session (l : list (string * hclient)) : hthread unit :=
  match l with [] => Ret tt | mc :: l' => dispatch mc.1 mc.2;;; session l' end.
Lemma disciplined_session l : forall fl, Forall (fun mc => mc.2 ∈ clients) l -> disc fl (session l).
Proof.
  induction l as [|mc l IH]; intros fl Hl; [done|]. apply Forall_cons in Hl as [Hc Hl]. cbn [session]. apply disciplined_bind.
  eapply disciplined_mono; [by apply disciplined_dispatch|]. intros fl' [[]|e] _; [by apply IH|done].
Qed.

(** C21: the overshoot of a budget. Take a program whose id holds no slash (an id
    that does may share its counter with another program's asset), and requests
    whose policies all give it a cap of at most [cap]. In every schedule of [n]
    connections, of any number of these requests each, what the program has
    spent never exceeds the larger of what it had spent before and
    [cap] + [n] - 1. *)
Theorem budget_overshoot (sessions : list (list (string * hclient))) w ts w' :
  Forall (Forall (fun mc => mc.2 ∈ clients)) sessions -> reach (map session sessions, w) (ts, w') ->
  spend pid w' <= Z.max (spend pid w) (cap - 1 + Z.of_nat (length sessions)).
Proof.
  intros Hs Hr. assert (within_bound pid cap (spend pid w) (map session sessions, w)) as Hw.
  { apply start_within. clear Hr. induction Hs as [|l ls Hl _ IH]; constructor; [by apply disciplined_session|done]. }
  apply (reach_within _ _ _ _ _ Hr), bound_spent in Hw.
  assert (length ts = length sessions) as Hlen; [|by rewrite Hlen in Hw].
  assert (forall c1 c2 : list (hthread unit) * hworld, reach c1 c2 -> length c2.1 = length c1.1) as Hl.
  { induction 1 as [|c1 c2 c3 [? i p p' x y _ _] _ IH]; [done|]. rewrite IH. cbn. by rewrite length_insert. }
  specialize (Hl _ _ Hr). cbn [fst] in Hl. by rewrite Hl, length_map.
Qed.
End Harness.

(** ** Evaluated *)

Definition sessions_h : list (list (string * hclient)) := [[("GET", client_h)]; [("GET", client_h)]].
(** Both requests check before either charges: the bound is reached. *)
Definition overshot_h : hworld :=
  let '(p, w) := exec_n 1 (session [("GET", client_h)]) hworld0 in
  (exec p (exec (session [("GET", client_h)]) w).1).1.
Lemma overshot_reach : exists ts, reach (map session sessions_h, hworld0) (ts, overshot_h).
Proof.
  pose proof (exec_n_reach 1 (session [("GET", client_h)]) (map session sessions_h) 0 hworld0 eq_refl) as R1.
  unfold overshot_h in *. destruct (exec_n 1 _ _) as [p w]. cbn [fst snd] in R1. eexists. etrans; [exact R1|].
  etrans; [exact (exec_reach (session [("GET", client_h)]) [p; session [("GET", client_h)]] 1%nat w eq_refl)|].
  exact (exec_reach p [p; of_res (exec (session [("GET", client_h)]) w).2] 0%nat _ eq_refl).
Qed.
Example overshot : spend "p" overshot_h = 2.
Proof. vm_compute. reflexivity. Qed.
Lemma capped_h c policy program : c ∈ [client_h] -> hc_policy c = Ok policy -> find_program (hc_ip c) policy = Ok (HGo ("p", program)) ->
  exists v z, v_get_or "max_requests" (VInt 0) program = Ok v /\ py_int v = Ok z /\ z <= 1.
Proof.
  intros ->%list_elem_of_singleton [= <-] Hf. assert (program = program_h) as ->; [|by exists (VInt 1), 1].
  assert (find_program (hc_ip client_h) policy_h = Ok (HGo ("p", program_h))) as E by (vm_compute; reflexivity). congruence.
Qed.
Lemma budget_overshoot_witness : spend "p" overshot_h <= 2.
Proof.
  destruct overshot_reach as [ts Hr].
  refine (budget_overshoot "p" 1 [client_h] eq_refl capped_h sessions_h hworld0 ts overshot_h _ Hr).
  repeat constructor.
Defined.
(** An asset of one program and a program of that name share a counter, here and at
    the production decision point. *)
Example shared_counter : asset_key "a" "b" = "a/b" /\ spend "a/b" (charge "a" "b" hworld0) = 1 /\ Pdp.asset_key "a" "b" = Some "a/b".
Proof. split_and!; reflexivity. Qed.
