(* ===== verification/Conform.v ===== *)
(** * What the gateway writes, the verifier reads

    [conforms] is the schema of [VerifyE10.schema_error] on a record as a handler
    hands it to the log, before the log stamps it.  A record that conforms is
    accepted once stamped, as long as no registered secret occurs in it.  Then
    each record of the gateway conforms, under the conditions its fields have. *)

From S2P Require Import Prelude.
From S2P Require Import PyStr.
From S2P Require Import Json.
From S2P Require Import JsonFacts.
From S2P Require Import PyDyn.
From S2P Require Import Hash.
From S2P Require Import AuditLog.
From S2P Require Import Addressing.
From S2P Require Import Resolver.
From S2P Require Import Lifecycle.
From S2P Require Import Pdp.
From S2P Require Import Conc.
From S2P Require Import World.
From S2P Require Import Registry.
From S2P Require Import Gateway.
From S2P Require Import Startup.
From S2P Require Import VerifyE10.
Open Scope Z_scope.

(** ** The type of a field, one field at a time *)

Inductive field_type := TStr | TOptStr | TInt | TBool | TStrs | TPin | TAny.
Definition type_of (k : string) : field_type :=
  if mem_str k STRING_FIELDS then TStr
  else if String.eqb k "sni" then TOptStr
  else if mem_str k int_fields then TInt
  else if mem_str k bool_fields then TBool
  else if mem_str k list_fields then TStrs
  else if String.eqb k "pin" then TPin
  else TAny.
Definition has_type (t : field_type) (v : val) : bool :=
  match t with
  | TStr => is_strv v
  | TOptStr => is_none v || is_strv v
  | TInt => match v with VInt z => 0 <=? z | _ => false end
  | TBool => is_bool v
  | TStrs => match v with VList l => forallb is_strv l | _ => false end
  | TPin => pin_ok v
  | TAny => match v with VList _ | VDict _ => false | _ => true end
  end.
Definition typed (kv : string * val) : Prop := has_type (type_of kv.1) kv.2 = true.

(** Such a value is printed and read back as it is. *)
Lemma strings_canon l : forallb is_strv l = true -> map canon l = l /\ Forall wf l /\ existsb walk l = false.
Proof.
  induction l as [|v l IH]; cbn [forallb map existsb]; [by repeat split|]. intros [Hv Hl]%andb_true_iff. destruct (IH Hl) as (-> & Hw & ->).
  destruct v; try done. split_and!; [done| |done]. by repeat constructor.
Qed.
Lemma typed_plain k v : typed (k, v) -> canon v = v /\ wf v /\ walk v = false.
Proof.
  unfold typed. cbn [fst snd]. destruct (type_of k); cbn [has_type]; try (destruct v; try done; intros _; by repeat split; constructor).
  - destruct v as [| | | | |l|]; try done. intros Hl. destruct (strings_canon l Hl) as (E & W & N). cbn [canon walk]. rewrite E. split_and!; [done| |done]. by constructor.
  - destruct v as [| | | | |[|[] [|[] [|[] []]]]|]; try done. intros _. split_and!; [done| |done]. repeat constructor.
Qed.

(** No field is in two of the groups. *)
Lemma group_types :
  forallb (fun k => match type_of k with TStr => true | _ => false end) STRING_FIELDS &&
  forallb (fun k => match type_of k with TInt => true | _ => false end) int_fields &&
  forallb (fun k => match type_of k with TBool => true | _ => false end) bool_fields &&
  forallb (fun k => match type_of k with TStrs => true | _ => false end) list_fields = true.
Proof. vm_compute. reflexivity. Qed.
Lemma dget_Some_in k v d : dget k d = Some v -> (k, v) ∈ d.
Proof.
  induction d as [|[k' v'] d IH]; cbn; [done|]. destruct (String.eqb_spec k k') as [->|]; [intros [= ->]; by left|].
  intros Hd. right. by apply IH.
Qed.
Definition types_known (r : dict) : Prop := forall k v, dget k r = Some v -> typed (k, v).
Lemma typed_known r : Forall typed r -> types_known r.
Proof. intros Hr k v Hk%dget_Some_in. rewrite Forall_forall in Hr. exact (Hr _ Hk). Qed.
Lemma typed_group p t r l : types_known r -> (forall k, k ∈ l -> type_of k = t) ->
  (forall v, has_type t v = p v) -> forallb (present_ok p r) l = true.
Proof.
  intros Hr Hl Hp. apply forallb_elem_of. intros k Hk. unfold present_ok.
  destruct (dget k r) as [v|] eqn:E; [|done]. specialize (Hr _ _ E). unfold typed in Hr. cbn [fst snd] in Hr. by rewrite (Hl k Hk), Hp in Hr.
Qed.
Lemma typed_ok r : types_known r -> types_ok r = true.
Proof.
  intros Hr. pose proof group_types as G. rewrite !andb_true_iff, !forallb_elem_of in G. destruct G as [[[H H2] H1] H0].
  unfold types_ok. rewrite !andb_true_iff. split_and!.
  - eapply (typed_group _ TStr); [done|intros k Hk; specialize (H k Hk); by destruct (type_of k)|done].
  - assert (forallb (present_ok (fun v => is_none v || is_strv v) r) ["sni"] = true) as E; [|by apply andb_true_iff in E as [? _]].
    eapply (typed_group _ TOptStr); [done|by intros k ->%list_elem_of_singleton|done].
  - eapply (typed_group _ TInt); [done|intros k Hk; specialize (H2 k Hk); by destruct (type_of k)|done].
  - eapply (typed_group _ TBool); [done|intros k Hk; specialize (H1 k Hk); by destruct (type_of k)|done].
  - eapply (typed_group _ TStrs); [done|intros k Hk; specialize (H0 k Hk); by destruct (type_of k)|done].
  - assert (forallb (present_ok pin_ok r) ["pin"] = true) as E; [|by apply andb_true_iff in E as [? _]].
    eapply (typed_group _ TPin); [done|by intros k ->%list_elem_of_singleton|done].
Qed.

(** ** Conformance *)

Definition conforms (e : dict) : Prop := exists d required allowed,
  dget "decision" e = Some (VStr d) /\ schema d = Some (required, allowed) /\
  forallb (fun k => dmem k e) required = true /\
  forallb (fun k => mem_str k COMMON || mem_str k allowed) (dkeys e) = true /\
  Forall typed e /\ bool_decide (NoDup (dkeys e)) = true /\ values_ok d e = true.

(** The conditions on values read no field the log stamps. *)
Definition stamped_keys : list string := ["ts"; "run_id"; "prev"].
Lemma values_same d e r : (forall k, k ∉ stamped_keys -> dget k r = dget k e) -> values_ok d r = values_ok d e.
Proof.
  intros Hk.
  assert (forall k, mem_str k stamped_keys = false -> dget k r = dget k e) as Hg.
  { intros k Hm. apply Hk. intros Hin%mem_str_spec. congruence. }
  unfold values_ok, intent_ok, int_of, str_of, fld, dget_or, dmem. cbn [forallb].
  rewrite !Hg by reflexivity. reflexivity.
Qed.
(** The record the log makes of an entry: the same but for the three fields it
    stamps, and no more fields than those. *)
Definition like (r e : dict) : Prop := forall k, mem_str k stamped_keys = false -> dget k r = dget k e.
Record stamped_in (run_id : string) (r e : dict) : Prop := {
  si_like : like r e;
  si_keys : forall k, k ∈ dkeys r -> k ∈ stamped_keys \/ k ∈ dkeys e;
  si_walk : walk (VDict e) = false -> walk (VDict r) = false;
  si_run : dget "run_id" r = Some (VStr run_id);
  si_ts : exists ts, dget "ts" r = Some ts /\ is_number ts = true /\ isfinite ts = Ok true;
  si_prev : exists prev, dget "prev" r = Some (VStr prev) /\ is_hex64 prev = true }.
(** It is accepted when the entry conforms. *)
Theorem stamped_fits run_id r e : conforms e -> run_id <> "" -> stamped_in run_id r e -> schema_error r = Ok None.
Proof.
  intros (d & req & all & Hd & Hs & Hreq & Hkeys & Hty & _ & Hval) Hrun [L K _ R (ts & T & Hnum & Hfin) (prev & P & Hprev)].
  assert (forall k, k ∉ stamped_keys -> dget k r = dget k e) as Hg.
  { intros k Hk. apply L. apply not_true_iff_false. by rewrite mem_str_spec. }
  assert (forall k, dmem k e = true -> dmem k r = true) as Hm.
  { intros k He. destruct (mem_str k stamped_keys) eqn:Ek; [|unfold dmem in *; by rewrite L].
    apply mem_str_spec in Ek. unfold dmem. repeat (apply elem_of_cons in Ek as [->|Ek]; [by rewrite ?T, ?R, ?P|]). by apply not_elem_of_nil in Ek. }
  unfold schema_error. cbv zeta.
  assert (fld "decision" r = VStr d) as ->.
  { unfold fld, dget_or. by rewrite L, Hd. }
  cbn [hashable negb]. rewrite Hs.
  assert (existsb (fun k => negb (dmem k r)) req = false) as ->.
  { apply not_true_iff_false. rewrite existsb_elem_of. intros (k & Hk & Hn).
    rewrite forallb_elem_of in Hreq. by rewrite (Hm k (Hreq k Hk)) in Hn. }
  assert (existsb (fun k => negb (mem_str k COMMON || mem_str k all)) (dkeys r) = false) as ->.
  { apply not_true_iff_false. rewrite existsb_elem_of. intros (k & Hk & Hn). rewrite forallb_elem_of in Hkeys.
    apply K in Hk as [Hk|Hk]; [|by rewrite (Hkeys k Hk) in Hn].
    repeat (apply elem_of_cons in Hk as [->|Hk]; [done|]). by apply not_elem_of_nil in Hk. }
  cbn [orb]. unfold chain_metadata_ok.
  assert (fld "run_id" r = VStr run_id) as -> by (unfold fld, dget_or; by rewrite R).
  assert (fld "ts" r = ts) as -> by (unfold fld, dget_or; by rewrite T).
  assert (dget_or "prev" (VStr "") r = VStr prev) as -> by (unfold dget_or; by rewrite P).
  cbn [is_strv truthy py_str]. rewrite (proj2 (String.eqb_neq _ _) Hrun), Hnum, Hfin, Hprev. cbn [negb orb andb rbind].
  rewrite (values_same d e r Hg), Hval, typed_ok; [done|].
  intros k v Hk. destruct (mem_str k stamped_keys) eqn:Ek; [|rewrite L in Hk by done; by apply (typed_known e Hty)].
  apply mem_str_spec in Ek. repeat (apply elem_of_cons in Ek as [->|Ek]; [rewrite ?T, ?R, ?P in Hk; injection Hk as <-; try done; by destruct ts|]). by apply not_elem_of_nil in Ek.
Qed.

Lemma keys_dset k v d x : x ∈ dkeys (dset k v d) -> x = k \/ x ∈ dkeys d.
Proof. rewrite dkeys_dset. destruct (dmem k d); [by right|]. rewrite elem_of_app, list_elem_of_singleton. tauto. Qed.
Lemma walk_dset k v d : walk (VDict d) = false -> mem_str (str_lower k) forbidden = false -> walk v = false ->
  walk (VDict (dset k v d)) = false.
Proof.
  intros Hd Hk Hv. cbn [walk] in *. apply orb_false_iff in Hd as [H1 H2]. apply orb_false_iff.
  induction d as [|[k' v'] d IH]; cbn [dset existsb fst snd] in *; [by rewrite Hk, Hv|].
  apply orb_false_iff in H1 as [H1 H1']. apply orb_false_iff in H2 as [H2 H2'].
  destruct (String.eqb_spec k k') as [->|]; cbn [existsb fst snd].
  - by rewrite Hk, Hv, H1', H2'.
  - rewrite H1, H2. cbn [orb]. by apply IH.
Qed.

(** No registered secret occurs in the record: the log writes it as it is. *)
Definition clean (secrets : list string) (e : dict) : Prop :=
  map (fun kv => (kv.1, scrub secrets kv.2)) e = e.

(** The record the log writes is one of those. *)
Lemma stamp_stamps `{Digest} io e l : clean (l_redact l) e -> is_hex64 (l_prev l) = true -> is_number (io_time io) = true ->
  isfinite (io_time io) = Ok true -> stamped_in (l_run_id l) (stamp io e l) e.
Proof.
  intros Hcl Hprev Hnum Hfin. unfold stamp. rewrite Hcl. split.
  - intros k Hk. rewrite !dget_dset_ne; [done|..]; intros ->; discriminate Hk.
  - intros k Hk. repeat (apply keys_dset in Hk as [->|Hk]; [left; unfold stamped_keys; set_solver|]). by right.
  - intros He. repeat apply walk_dset; try done; try (vm_compute; reflexivity). by destruct (io_time io).
  - by rewrite !dget_dset.
  - exists (io_time io). by rewrite !dget_dset.
  - exists (l_prev l). by rewrite !dget_dset.
Qed.
Theorem stamped_accepted `{Digest} io e l : conforms e -> clean (l_redact l) e ->
  l_run_id l <> "" -> is_hex64 (l_prev l) = true -> is_number (io_time io) = true -> isfinite (io_time io) = Ok true ->
  schema_error (stamp io e l) = Ok None.
Proof. intros. by eapply stamped_fits, stamp_stamps. Qed.

(** ** Fields and values *)

Lemma ty_str k s : type_of k = TStr -> typed (k, VStr s).
Proof. intros E. unfold typed. cbn. by rewrite E. Qed.
Lemma ty_any k s : type_of k = TAny -> typed (k, VStr s).
Proof. intros E. unfold typed. cbn. by rewrite E. Qed.
Lemma ty_bool k b : type_of k = TBool -> typed (k, VBool b).
Proof. intros E. unfold typed. cbn. by rewrite E. Qed.
Lemma ty_int k z : type_of k = TInt -> 0 <= z -> typed (k, VInt z).
Proof. intros E Hz. unfold typed. cbn. rewrite E. by apply Z.leb_le. Qed.
Lemma ty_strs k l : type_of k = TStrs -> typed (k, str_list l).
Proof. intros E. unfold typed. cbn. rewrite E. cbn. by induction l. Qed.
Lemma ty_sni (o : option string) : typed ("sni", opt_val VStr o).
Proof. by destruct o. Qed.
Lemma ty_pin p : 1 <= pin_port p <= 65535 -> typed ("pin", pin_val p).
Proof. intros []. unfold typed. cbn. apply andb_true_iff. split; by apply Z.leb_le. Qed.
Ltac key := vm_compute; reflexivity.
Ltac field := lazymatch goal with
  | |- typed (_, VStr _) => first [apply ty_str; key | apply ty_any; key]
  | |- typed (_, VBool _) => apply ty_bool; key
  | |- typed (_, VInt _) => apply ty_int; [key|lia]
  | |- typed (_, str_list _) => apply ty_strs; key
  | |- typed (_, opt_val VStr _) => apply ty_sni
  | |- typed (_, pin_val _) => apply ty_pin; assumption
  end.
Ltac fields := repeat (apply Forall_cons; split; [cbn [fst snd]; field|]); apply Forall_nil; exact I.

(** The condition on the reason, and those of each decision. *)
Definition reasoned (e : dict) : Prop := py_str (dget_or "reason" (VStr "") e) <> "".
Definition quiet_decisions : list string :=
  [CANCEL_ACK; CANCEL_DRAIN_TIMEOUT; RUN_CLOSED].
Lemma values_quiet d e : d ∈ quiet_decisions -> values_ok d e = true.
Proof. unfold quiet_decisions. intros Hd. repeat (apply elem_of_cons in Hd as [->|Hd]; [reflexivity|]). by apply not_elem_of_nil in Hd. Qed.
Lemma reason_true e : reasoned e -> negb (String.eqb (py_str (dget_or "reason" (VStr "") e)) "") = true.
Proof. intros Hr. by apply negb_true_iff, String.eqb_neq. Qed.
Definition reason_only : list string := ["BLOCKED_BY_POLICY"; "CONNECTION_TERMINATED"; "KILL_SWITCH"; "STARTUP"; "STARTUP_DEGRADED"].
Lemma values_reason d e : d ∈ reason_only -> reasoned e -> values_ok d e = true.
Proof.
  intros Hd Hr%reason_true. unfold reason_only in Hd. unfold values_ok. rewrite Hr.
  repeat (apply elem_of_cons in Hd as [->|Hd]; [reflexivity|]). by apply not_elem_of_nil in Hd.
Qed.
Lemma values_seq d e : d ∈ [PERMIT; PERMIT_RELEASED; CANCEL_LINEARIZED] -> 0 < int_of "lifecycle_seq" e -> values_ok d e = true.
Proof.
  intros Hd Hs%Z.ltb_lt. unfold values_ok. rewrite Hs.
  repeat (apply elem_of_cons in Hd as [->|Hd]; [reflexivity|]). by apply not_elem_of_nil in Hd.
Qed.
Lemma values_requested e : 0 < int_of "lifecycle_seq" e -> reasoned e -> values_ok CANCEL_REQUESTED e = true.
Proof. intros Hs%Z.ltb_lt Hr%reason_true. unfold values_ok. by rewrite Hs, Hr. Qed.
Lemma values_attempted e : 0 < int_of "permit_seq" e -> values_ok ATTEMPTED e = true.
Proof. intros Hs%Z.ltb_lt. unfold values_ok. by rewrite Hs. Qed.
Lemma values_unknown e : 0 < int_of "permit_seq" e -> reasoned e -> values_ok UNKNOWN e = true.
Proof. intros Hs%Z.ltb_lt Hr%reason_true. unfold values_ok. by rewrite Hs, Hr. Qed.
Lemma values_completed e : 0 < int_of "permit_seq" e -> is_hex64 (str_of "response_hash" e) = true -> values_ok COMPLETED e = true.
Proof. intros Hs%Z.ltb_lt Hh. unfold values_ok. by rewrite Hs, Hh. Qed.
Lemma values_dropped d e : d ∈ [FAILED; CANCELLED] -> (dmem "permit_seq" e = true -> 0 < int_of "permit_seq" e) -> reasoned e ->
  values_ok d e = true.
Proof.
  intros Hd Hs Hr%reason_true. unfold values_ok. rewrite Hr.
  assert ((if dmem "permit_seq" e then 0 <? int_of "permit_seq" e else true) = true) as E.
  { destruct (dmem "permit_seq" e); [by apply Z.ltb_lt, Hs|done]. }
  repeat (apply elem_of_cons in Hd as [->|Hd]; [cbn; by destruct (dmem "permit_seq" e); cbn; rewrite ?E|]).
  by apply not_elem_of_nil in Hd.
Qed.
Lemma values_allow e : str_of "request_hash_semantics" e = "sanitized-intent-v2" ->
  is_hex64 (py_str (dget_or "request_hash" (VStr "") e)) = true ->
  is_hex64 (py_str (dget_or "response_hash" (VStr "") e)) = true -> values_ok "ALLOW" e = true.
Proof. intros H1 H2 H3. unfold values_ok. by rewrite H1, H2, H3. Qed.
Lemma values_auth e : intent_ok e = true -> 0 < int_of "lifecycle_seq" e -> values_ok AUTH e = true.
Proof. intros Hi Hs%Z.ltb_lt. unfold values_ok. by rewrite Hi, Hs. Qed.

(** ** The records *)

Ltac conf := do 3 eexists; split; [reflexivity|]; split; [reflexivity|];
  split; [vm_compute; reflexivity|]; split; [vm_compute; reflexivity|]; split; [fields|]; split; [vm_compute; reflexivity|].
Ltac of_list := repeat (first [by left|right]).

Section Records.
Context `{Digest} `{Idna}.

Lemma c_deny reason url method src who : reason <> "" -> conforms (deny_record reason url method src who).
Proof.
  intros Hr. unfold deny_record. destruct who as [[c s]|]; [destruct (String.eqb _ _)|]; cbn [app blocked ids];
    (conf; apply values_reason; [by left|exact Hr]).
Qed.
Lemma c_deny_tls reason url method c s : reason <> "" -> conforms (deny_tls_record reason url method c s).
Proof. intros Hr. unfold deny_tls_record, blocked, ids. conf. apply values_reason; [by left|exact Hr]. Qed.
Lemma c_malformed label c s : conforms (malformed_record label c s).
Proof. unfold malformed_record, ids. conf. by apply values_reason; [by left|]. Qed.
Lemma c_hello c s e : conforms (hello_record c s e).
Proof. unfold hello_record, ids. conf. by apply values_reason; [by left|]. Qed.
Lemma c_refusal reason c s : reason <> "" -> conforms (refusal_record reason c s).
Proof. intros Hr. unfold refusal_record, blocked, ids. conf. apply values_reason; [by left|exact Hr]. Qed.
Lemma c_cert t e : 1 <= pin_port (t_pin t) <= 65535 -> conforms (cert_record t e).
Proof. intros Hp. unfold cert_record. conf. by apply values_reason; [by left|]. Qed.
Lemma c_terminated t e n : exn_cls e <> "" -> 0 <= n -> 1 <= pin_port (t_pin t) <= 65535 -> conforms (terminated_record t e n).
Proof. intros He Hn Hp. unfold terminated_record. conf. apply values_reason; [right; by left|exact He]. Qed.

(** A grant: its epoch and its number. *)
Definition numbered (g : grant) : Prop := 0 <= g_epoch g /\ 0 < g_seq g.
Lemma c_permit a id e g gen b : numbered g -> 0 <= e -> conforms (permit_record a id e g gen b).
Proof. intros [_ Hg] He. unfold permit_record. conf. apply values_seq; [by left|exact Hg]. Qed.
Lemma c_release g id t : numbered g -> 0 < rt_seq t -> conforms (release_record g id t).
Proof. intros [He Hg] Ht. unfold release_record. conf. apply values_seq; [of_list|exact Ht]. Qed.
Lemma c_attempt g id ip port : numbered g -> 0 <= port ->
  conforms (attempt_record g id [("pin_ip", VStr ip); ("pin_port", VInt port)]).
Proof. intros [He Hg] Hp. unfold attempt_record, dupdate. cbn [foldl dset String.eqb Ascii.eqb Bool.eqb fst snd]. conf. by apply values_attempted. Qed.

(** An outcome, for a permit or for the attempt whose intent is known. *)
Definition commits (gi : gmap string dict) (a : string) : Prop :=
  exists i e, gi !! a = Some i /\ dget_or "epoch" VNull i = VInt e /\ 0 <= e.
Lemma c_dropped gi a id outcome reason : commits gi a -> outcome ∈ [FAILED; CANCELLED] -> reason <> "" ->
  conforms (settle_record gi (OfId a) id outcome [("reason", VStr reason)]).
Proof.
  intros (i & e & Hi & He & Hz) Ho Hr. unfold settle_record. rewrite Hi, He.
  repeat (apply elem_of_cons in Ho as [->|Ho]; [cbn; conf; apply values_dropped; [of_list|done|exact Hr]|]).
  by apply not_elem_of_nil in Ho.
Qed.
Lemma c_cancelled gi g id reason : numbered g -> reason <> "" ->
  conforms (settle_record gi (OfPermit g) id CANCELLED [("reason", VStr reason)]).
Proof. intros [He Hg] Hr. unfold settle_record. cbn. conf. apply values_dropped; [of_list|done|exact Hr]. Qed.
Lemma c_unknown gi g id reason : numbered g -> reason <> "" ->
  conforms (settle_record gi (OfPermit g) id UNKNOWN [("reason", VStr reason)]).
Proof. intros [He Hg] Hr. unfold settle_record. cbn. conf. by apply values_unknown. Qed.
Lemma c_unknown_bytes gi g id reason n : numbered g -> reason <> "" -> 0 <= n ->
  conforms (settle_record gi (OfPermit g) id UNKNOWN [("reason", VStr reason); ("bytes_streamed", VInt n)]).
Proof. intros [He Hg] Hr Hn. unfold settle_record. cbn. conf. by apply values_unknown. Qed.
Lemma c_completed gi g id status body n : numbered g -> 0 <= status -> 0 <= n ->
  conforms (settle_record gi (OfPermit g) id COMPLETED
    [("upstream_status", VInt status); ("response_hash", VStr (sha256 body)); ("streamed_bytes", VInt n)]).
Proof. intros [He Hg] Hs Hn. unfold settle_record. cbn. conf. apply values_completed; [done|apply sha256_hex]. Qed.
Lemma c_allow t r : 0 <= rl_status r -> 1 <= pin_port (t_pin t) <= 65535 -> is_hex64 (t_digest t) = true ->
  conforms (allow_record t r).
Proof.
  intros Hs Hp Hd. unfold allow_record. assert (0 <= total r) by (unfold total; lia).
  conf. apply values_allow; [done|exact Hd|apply sha256_hex].
Qed.

(** The intent: what its identity and its pin must be. *)
Definition pin_fine (p : pin) : Prop :=
  mem_str (pin_family p) ["ipv4"; "ipv6"] = true /\ pin_ip p <> "" /\ 1 <= pin_port p <= 65535.
Record intent_fine (a : intent_args) (p : pin) : Prop := {
  if_pin : ia_pin a = Some p /\ pin_fine p;
  if_epoch : 0 <= ia_epoch a;
  if_named : Forall (fun s => s <> "")
    [ ia_attempt a; ia_conn_id a; ia_program a; ia_generation a; ia_budget a; str_upper (ia_method a); ia_host a ] }.
Lemma or_none_ne s : or_none s <> "".
Proof. unfold or_none. by destruct (String.eqb_spec s ""). Qed.
Lemma digest_ok m h p n : is_digest (request_intent_digest m h p n) = true.
Proof.
  unfold is_digest, request_intent_digest. generalize (sha256_hex (utf8 (intent_canon m h p n))).
  generalize (sha256 (utf8 (intent_canon m h p n))). intros x Hx. change (drop 7 ("sha256:" ++ x)) with x.
  rewrite Hx, andb_true_r. unfold startswith. cbn. by destruct x.
Qed.
Lemma c_intent a p seq : intent_fine a p -> 0 < seq -> conforms (dset "lifecycle_seq" (VInt seq) (sanitized_intent a)).
Proof.
  intros [[Hp (Hfam & Hip & Hport)] He Hn] Hs. destruct a as [run c at' ep pr gen m h path pn cred bud n]. cbn in Hp, He, Hn. subst pn.
  repeat (apply Forall_cons in Hn as [? Hn]). clear Hn. unfold sanitized_intent. cbn [opt_val ia_run_id ia_conn_id ia_attempt ia_epoch ia_program ia_generation ia_method ia_host ia_path ia_pin ia_credential ia_budget ia_body_len].
  generalize (digest_ok m h path n). generalize (request_intent_digest m h path n). intros dg Hdg. cbn [dset String.eqb Ascii.eqb Bool.eqb].
  conf. apply values_auth; [|exact Hs]. unfold intent_ok. rewrite !andb_true_iff. split_and!; [done| |exact Hfam|apply Z.leb_le, Hport..|].
  2: exact Hdg.
  apply forallb_elem_of. intros k Hk. apply negb_true_iff, String.eqb_neq.
  repeat (apply elem_of_cons in Hk as [->|Hk]; [first [assumption|apply or_none_ne]|]). by apply not_elem_of_nil in Hk.
Qed.

(** The start. *)
Lemma c_startup env li families : 0 <= se_max env -> 0 <= se_port env -> conforms (startup_record env li families).
Proof. intros ? ?. unfold startup_record. conf. by apply values_reason; [of_list|]. Qed.
Lemma c_degraded e port : 0 <= port -> conforms (degraded_record e port).
Proof. intros ?. unfold degraded_record. conf. by apply values_reason; [of_list|]. Qed.

(** The cancellation. *)
Record cancel_fine (t : cancel_tr) : Prop := {
  cn_epochs : 0 <= ct_cancelled_epoch t /\ 0 <= ct_new_epoch t; cn_seq : 0 < ct_seq t; cn_inflight : 0 <= ct_inflight t }.
Lemma c_requested t : cancel_fine t -> conforms (requested_record t).
Proof. intros [[? ?] ? ?]. unfold requested_record. conf. by apply values_requested. Qed.
Lemma c_linearized t : cancel_fine t -> conforms (linearized_record t).
Proof. intros [[? ?] ? ?]. unfold linearized_record. conf. by apply values_seq; [of_list|]. Qed.
Lemma c_closed t : cancel_fine t -> conforms (closed_record t).
Proof. intros [[? ?] ? ?]. unfold closed_record. conf. by apply values_quiet; of_list. Qed.
Record drained_fine (s : drained_state) : Prop := {
  df_counts : 0 <= dr_effects s /\ 0 <= dr_producers s /\ 0 <= dr_epoch s;
  df_last : exists t, dr_transition s = Some t /\ cancel_fine t }.
Lemma c_kill torn snap s : drained_fine s -> conforms (kill_record torn snap s).
Proof.
  intros [(? & ? & ?) (t & Ht & [? ? ?])]. unfold kill_record, common. rewrite Ht. cbn. conf. by apply values_reason; [of_list|].
Qed.
Lemma c_timeout s : drained_fine s -> conforms (timeout_record s).
Proof.
  intros [(? & ? & ?) (t & Ht & [? ? ?])]. unfold timeout_record, common. rewrite Ht. cbn. conf. by apply values_quiet; of_list.
Qed.
Lemma c_ack s : drained_fine s -> conforms (ack_record s).
Proof.
  intros [(? & ? & ?) (t & Ht & [? ? ?])]. unfold ack_record, common. rewrite Ht. cbn. conf. by apply values_quiet; of_list.
Qed.
End Records.
