(* ===== verification/ConformProps.v ===== *)
(** * Every record of the running gateway is one the verifier reads

    In every schedule of handlers and watchers, each durable record has the
    schema of the closed-run verifier, under what the policy, the clients and
    the upstreams have to respect for it. *)

From S2P Require Import Prelude.
From S2P Require Import HarnessFacts.
From S2P Require Import PyStr.
From S2P Require Import Json.
From S2P Require Import JsonFacts.
From S2P Require Import PyDyn.
From S2P Require Import Hash.
From S2P Require Import AuditLog.
From S2P Require Import AuditProps.
From S2P Require Import IpAddr.
From S2P Require Import IpFacts.
From S2P Require Import Addressing.
From S2P Require Import AddressProps.
From S2P Require Import Resolver.
From S2P Require Import Lifecycle.
From S2P Require Import LifecycleFacts.
From S2P Require Import Pdp.
From S2P Require Import PdpProps.
From S2P Require Import Conc.
From S2P Require Import World.
From S2P Require Import Registry.
From S2P Require Import Gateway.
From S2P Require Import System.
From S2P Require Import SystemFacts.
From S2P Require Import SystemProps.
From S2P Require Import VerifyE10.
From S2P Require Import Conform.
From S2P Require Import Scenario.
Open Scope Z_scope.

(** ** What the decision point gives the records *)

(** A policy names its programs, allows ports and methods that exist. *)
Record sane_policy (policy : val) : Prop := {
  sp_named : forall src program, program_for_source src policy = Ok (VStr "", program) -> program = VNull;
  sp_ports : forall src pid program ports z, program_for_source src policy = Ok (pid, program) ->
    v_get "allowed_ports" program = Ok ports -> v_in (VInt z) (v_or ports (VList [])) = Ok true -> 1 <= z <= 65535;
  sp_methods : forall src pid program ms, program_for_source src policy = Ok (pid, program) ->
    v_get "allowed_methods" program = Ok ms -> v_in (VStr "") (v_or ms (VList [])) <> Ok true }.

Section Decisions.
Context `{Idna}.
(** The codec does not encode a name as the empty text. *)
Hypothesis idna_ne : forall h, idna h <> Some "".

Lemma show_ip_ne a : show_ip a <> "".
Proof.
  destruct a as [n|n sc]; [apply show_v4_ne|]. destruct (show_v6_colon n) as (x & y & E).
  cbn [show_ip]. destruct sc; rewrite E; by destruct x.
Qed.
Lemma canonical_host_ne raw h : canonical_host raw = Some h -> h <> "".
Proof.
  unfold canonical_host. destruct (String.eqb raw ""); [done|]. set (f := rstrip_dots _).
  destruct (String.eqb f "") eqn:Ef; [done|]. cbn [orb]. destruct (_ || contains "\" f); [done|].
  destruct (contains ":" f).
  - destruct (ip_address f); [|done]. intros [= <-]. apply show_ip_ne.
  - destruct (str_all _ f).
    + unfold canonical_quad. destruct (_ && _); [|done]. destruct (existsb _ _); [done|].
      destruct (ipv4_address f) as [a|]; [|done]. intros [= <-]. apply show_ip_ne.
    + unfold encode_idna. destruct (all_ascii f); [|intros E ->; by apply (idna_ne f)].
      intros [= <-] E. by rewrite E in Ef.
Qed.

(** Every decision has a reason. *)
Definition reasons {A} (m : res (flow A)) : Prop := forall d, m = Ok (Done d) -> d_reason d <> "".
Lemma reasons_bind {A B} (m : res (flow A)) (k : A -> res (flow B)) :
  reasons m -> (forall x, reasons (k x)) -> reasons (x <~ m;; k x).
Proof. intros Hm Hk d [E|(x & _ & E)]%flow_Done; [by apply Hm|by apply (Hk x)]. Qed.
Lemma reasons_res {A B} (m : res A) (k : A -> res (flow B)) : (forall x, reasons (k x)) -> reasons (x <- m;; k x).
Proof. intros Hk d (x & _ & E)%res_bind_Ok. by apply (Hk x). Qed.
Lemma reasons_deny {A} r p rs : r <> "" -> reasons (Ok (Done (deny r p rs)) : res (flow A)).
Proof. by intros Hr d [= <-]. Qed.
Lemma reasons_go {A} (x : A) : reasons (Ok (Go x)).
Proof. by intros d. Qed.
Lemma reasons_raise {A} e : reasons (Raise e : res (flow A)).
Proof. by intros d. Qed.
Lemma reasons_stop b r p rs : r <> "" -> reasons (Ok (stop_if b (deny r p rs))).
Proof. intros Hr. unfold stop_if. destruct b; [by apply reasons_deny|apply reasons_go]. Qed.
Lemma reject_answer_ne fam l ex r : reject_answer fam l ex = Some r -> r <> "".
Proof. induction l as [|a l IH]; cbn; [done|]. destruct (v_ok _); [done|]. by intros [= <-]. Qed.
Lemma choose_ne rs families r : choose rs families = inr r -> r <> "".
Proof. unfold choose. destruct (rs_v6 rs), (rs_v4 rs); repeat case_match; intros [= <-]; done. Qed.
Ltac reasons := repeat (first
  [ apply reasons_go | apply reasons_raise | apply reasons_deny; discriminate | apply reasons_stop; discriminate
  | apply reasons_bind; [|intros ?] | apply reasons_res; intros ?
  | match goal with |- reasons (if ?b then _ else _) => destruct b eqn:? end
  | match goal with |- reasons (match ?m with _ => _ end) => destruct m eqn:? end ]).
Lemma resolved_reasons pid program families ex port a : reasons (decide_resolved pid program families ex port a).
Proof.
  unfold decide_resolved. reasons;
    apply reasons_deny; first [by eapply reject_answer_ne | by eapply choose_ne].
Qed.
Lemma static_reasons policy now resolve q : reasons (decide_static policy now resolve q).
Proof.
  unfold decide_static, decide_program, decide_checked, decide_authorization, decide_destination, decide_pinned, decide_credential.
  reasons; apply resolved_reasons.
Qed.
Lemma decide_reason policy killed now resolve q b b' d : PDP.decide policy killed now resolve q b = (b', Ok d) -> d_reason d <> "".
Proof.
  unfold PDP.decide, PDP.conclude. destruct policy as [pol|e]; [|by intros [= <- <-]]. destruct killed; [by intros [= <- <-]|].
  destruct (decide_static pol now resolve q) as [[d'|ap]|e] eqn:Es; [intros [= <- <-]; by apply (static_reasons _ _ _ _ _ Es)| |done].
  unfold decide_budget. destruct (q_pin q).
  - cbn. destruct (generation_of _ _) as [g|e]; cbn; by intros [= <- <-].
  - destruct (budget_specs _ _ _) as [specs|e]; [|done]. destruct (reserve specs b) as [b1 [[k|]|e]]; cbn; [|destruct (generation_of _ _)|];
      intros [= <- <-]; [by case_match|done].
Qed.

Lemma append_ne a c s : a ++ String c s <> "".
Proof. by destruct a. Qed.
Lemma py_str_ne v : py_str v = "" -> v = VStr "".
Proof.
  destruct v as [|[]|z|[m k|neg|]|s|l|d]; try done; cbn [py_str py_repr].
  - intros E. destruct (parse_show_Z z) as [_ Hz]. rewrite E in Hz. done.
  - cbn [print_float]. intros E. destruct (m <? 0); [done|]. by apply append_ne in E.
  - by destruct neg.
  - by intros ->.
  - by destruct l.
  - by destruct d as [|[k x] d].
Qed.
Lemma generation_ne policy rec g : generation_of policy rec = Ok g -> g <> "".
Proof.
  unfold generation_of. destruct (v_get _ policy) as [v|]; [|done]. cbn [rbind]. destruct (py_eqb v VNull || py_eqb v (VStr "")) eqn:E.
  - destruct (v_get_or _ _ rec); [|done]. by intros [= <-].
  - intros [= <-] ->%py_str_ne. done.
Qed.

(** What an allowing decision fixes for the records of its attempt. *)
Record favourable (q : request) (d : decision) (p : pin) (pid : string) : Prop := {
  fv_pin : d_pin d = Some p;
  fv_program : d_program d = Some pid /\ pid <> "";
  fv_bindings : detail "policy_generation" d <> "" /\ detail "budget_binding" d <> "";
  fv_method : str_upper (q_method q) <> "";
  fv_fine : q_pin q = None -> pin_fine p }.
Lemma decide_favourable policy killed now resolve q b b' d : (forall pol, policy = Ok pol -> sane_policy pol) ->
  PDP.decide policy killed now resolve q b = (b', Ok d) -> d_allow d = true -> exists p pid, favourable q d p pid.
Proof.
  intros Hpol [[_ Hd]|(pol & ap & g & -> & -> & Hs & Hb & Hg & Hr)]%decide_cases Ha; [by rewrite (Hd d eq_refl) in Ha|].
  injection Hr as ->. destruct (Hpol pol eq_refl) as [Hn Hports Hmeths].
  pose proof Hs as [Hc Hbr]%decide_static_Go. pose proof (ck_source _ _ _ _ _ Hc) as Hsrc.
  exists (ap_pin ap), (ap_program ap). split; cbn; try done.
  - split; [done|]. intros E. rewrite E in Hsrc. apply Hn in Hsrc.
    destruct (ck_port _ _ _ _ _ Hc) as (ports & Hp & _). by rewrite Hsrc in Hp.
  - split; [by apply (generation_ne _ _ _ Hg)|done].
  - destruct (ck_method _ _ _ _ _ Hc) as [[-> _]|(ms & Hms & Hm)]; [done|]. intros E. rewrite E in Hm. by apply (Hmeths _ _ _ _ Hsrc Hms).
  - intros Hq. unfold bound_or_resolved in Hbr. rewrite Hq in Hbr.
    destruct Hbr as (rs & fams & ex & ip & fam & _ & _ & Hch & Hp & _). destruct (ck_port _ _ _ _ _ Hc) as (ports & Hpo & Hin).
    split_and!.
    + rewrite Hp. by apply choose_inl in Hch as [_ [(-> & _)|(-> & _)]].
    + destruct (ck_address _ _ _ _ _ Hc) as (_ & exs & _ & _ & Hok). intros E. by rewrite E in Hok.
    + rewrite Hp. by eapply Hports.
    + rewrite Hp. by eapply Hports.
Qed.
End Decisions.

(** ** A logic for the records of a thread

    The invariant [fit] is what the values of the records are read from; the rely
    and the guarantee are that an outcome of [terminate_all], once remembered,
    stays.  [yields P p]: [p] keeps them, and what it returns satisfies [P]. *)

Section Threads.
Context `{Digest} `{Idna}.

Record fit (w : world) : Prop := {
  ft_run : run_inv (w_run w);
  ft_producers : 0 <= g_producers (w_reg w);
  ft_last : forall r, g_last (w_reg w) = Some r -> cancel_fine (cr_transition r);
  ft_permits : forall a p, w_permits w !! a = Some p -> numbered (po_grant p);
  ft_trace : forall e, EvRecord e ∈ w_trace w -> conforms e }.
Definition known (w : world) : Prop := is_Some (g_last (w_reg w)).
Definition remembers (_ : nat) (w w' : world) : Prop := known w -> known w'.
Abbreviation okf := (ok remembers remembers fit).
Definition outcome_is {A} (P : A -> Prop) (r : res A) : Prop := match r with Ok a => P a | Raise _ => True end.
Definition yields {A} (P : A -> Prop) (p : thread A) : Prop := forall i w, okf i (fun r _ => outcome_is P r) p w.
Definition any {A} (_ : A) : Prop := True.

Lemma y_ret {A} (P : A -> Prop) a : P a -> yields P (Ret a).
Proof. by intros Ha i w. Qed.
Lemma y_throw {A} (P : A -> Prop) e : yields P (Throw e).
Proof. by intros i w. Qed.
Lemma y_of_res {A} (P : A -> Prop) r : outcome_is P r -> yields P (of_res r).
Proof. destruct r; intros Hr; [by apply (y_ret P)|apply y_throw]. Qed.
Lemma y_weaken {A} (P Q : A -> Prop) p : yields P p -> (forall a, P a -> Q a) -> yields Q p.
Proof. intros Hp HQ i w. eapply ok_weaken; [apply Hp|]. intros [a|e] _; [apply HQ|done]. Qed.
Lemma y_bind {A B} (P : A -> Prop) (Q : B -> Prop) p g : yields P p -> (forall a, P a -> yields Q (g a)) -> yields Q (pbind p g).
Proof. intros Hp Hg i w. apply ok_bind. eapply ok_weaken; [apply Hp|]. intros [a|e] w1 Ha; [by apply Hg|done]. Qed.
Lemma y_then {A B} (Q : B -> Prop) (p : thread A) g : yields any p -> (forall a, yields Q (g a)) -> yields Q (pbind p g).
Proof. intros Hp Hg. eapply y_bind; [exact Hp|]. auto. Qed.
Lemma y_catch {A} (P : A -> Prop) p h : yields P p -> (forall e, yields P (h e)) -> yields P (pcatch p h).
Proof. intros Hp Hh i w. apply ok_catch. eapply ok_weaken; [apply Hp|]. intros [a|e] w1 Ha; [done|apply Hh]. Qed.
Lemma y_finally {A} (P : A -> Prop) p q : yields P p -> yields any q -> yields P (pfinally p q).
Proof.
  intros Hp Hq i w. apply ok_finally. eapply ok_weaken; [apply Hp|]. intros r w1 Hr.
  eapply ok_weaken; [apply Hq|]. by intros [] w2 _.
Qed.
Lemma y_atomic {A} (P : A -> Prop) (f : world -> world * A) :
  (forall w, fit w -> fit (f w).1 /\ (known w -> known (f w).1) /\ P (f w).2) -> yields P (atomic f).
Proof. intros Hf i w w1 _ Hi. destruct (Hf w1 Hi) as (? & ? & ?). done. Qed.
Lemma y_atomic_res {A} (P : A -> Prop) (f : world -> world * res A) :
  (forall w, fit w -> fit (f w).1 /\ (known w -> known (f w).1) /\ outcome_is P (f w).2) -> yields P (atomic_res f).
Proof. intros Hf i w w1 _ Hi. destruct (Hf w1 Hi) as (? & ? & Ho). split_and!; [done..|]. by destruct (f w1).2. Qed.
Lemma y_drain c : yields any (drain c).
Proof. by intros i w w1 _ _ b _. Qed.
(** What is remembered is still remembered at the end of a thread. *)
Lemma ok_known {A} i (Q : res A -> world -> Prop) p : forall w, okf i Q p w -> known w -> okf i (fun r w' => Q r w' /\ known w') p w.
Proof.
  induction p as [a|e|B f k IH|c k IH]; intros w Hp Hk; cbn in *; [done|done| |].
  - intros w1 Hr Hi. destruct (Hp w1 Hr Hi) as (Hg & Hi' & Hk'). split_and!; [done..|]. apply IH; [done|]. by apply Hg, Hr.
  - intros w1 Hr Hi b Hb. apply IH; [by apply Hp|by apply Hr].
Qed.

(** ** The steps *)

Lemma fit_emit e w : fit w -> (forall d, e = EvRecord d -> conforms d) -> fit (emit e w).
Proof.
  intros [] He. split; cbn; try done. intros d [Hd|Hd%list_elem_of_singleton]%elem_of_app; [auto|]. by apply He.
Qed.
Lemma y_signal e : is_record e = false -> yields any (signal e).
Proof. intros Hr. apply y_atomic. intros w Hw. split_and!; [|done|done]. apply fit_emit; [done|]. by intros d ->. Qed.
Lemma y_write e : conforms e -> yields any (audit_write e).
Proof.
  intros He. apply y_atomic_res. intros w Hw. unfold do_write. destruct (write _ _ _) as [l r].
  assert (fit (tick (set_log l w))) by (destruct Hw; by split).
  destruct r as [t|x]; cbn; split_and!; try done. apply fit_emit; [done|]. by intros d [= <-].
Qed.
Lemma y_seal e : conforms e -> yields any (audit_seal e).
Proof.
  intros He. apply y_atomic_res. intros w Hw. unfold do_seal. destruct (seal_with _ _ _) as [l r].
  assert (fit (tick (set_log l w))) by (destruct Hw; by split).
  destruct r as [t|x]; cbn; split_and!; try done. apply fit_emit; [done|]. by intros d [= <-].
Qed.
Lemma y_healthy : yields any audit_healthy.
Proof. by apply y_atomic. Qed.
Lemma y_run_id : yields any audit_run_id.
Proof. by apply y_atomic. Qed.
Lemma y_add_secret s : yields any (audit_add_secret s).
Proof. apply y_atomic. intros w []. by split_and!. Qed.
Lemma y_add_mixed : yields any audit_add_mixed.
Proof. apply y_atomic. intros w []. by split_and!. Qed.
Lemma y_new_conn id : yields any (new_conn id).
Proof. apply y_atomic. intros w []. by split_and!. Qed.
Lemma y_conn {A} c (d : A) f : yields any (on_conn c d f).
Proof. apply y_atomic. intros w Hw. destruct (w_conns w !! c) as [x|]; [|done]. destruct (f x). destruct Hw. by split_and!. Qed.
Lemma y_run {A} (P : A -> Prop) (f : run -> run * A) : (forall r, run_inv r -> run_inv (f r).1 /\ P (f r).2) -> yields P (on_run f).
Proof.
  intros Hf. apply y_atomic. intros w []. specialize (Hf (w_run w) ft_run0). destruct (f (w_run w)) as [r a].
  destruct Hf. by split_and!.
Qed.
Lemma y_reg {A} (P : A -> Prop) (f : registry -> registry * A) :
  (forall g, 0 <= g_producers g -> 0 <= g_producers (f g).1 /\ g_last (f g).1 = g_last g /\ P (f g).2) -> yields P (on_reg f).
Proof.
  intros Hf. apply y_atomic. intros w []. specialize (Hf (w_reg w) ft_producers0). destruct (f (w_reg w)) as [g a]. cbn [fst snd] in *.
  destruct Hf as (Hp & Hl & Ha). unfold known. cbn. rewrite Hl. split_and!; [|done|done]. split; cbn; try done. by rewrite Hl.
Qed.
End Threads.

(** ** The operations *)

Ltac yrun := apply y_run; intros r Hr.
Ltac yreg := apply y_reg; intros g Hg.

Section Operations.
Context `{Digest} `{Idna}.

Lemma y_epoch : yields (fun e => 0 <= e) run_epoch.
Proof. yrun. split; [done|]. cbn. rewrite (ri_epoch _ Hr). by destruct (r_cancelled r). Qed.
Lemma y_inflight : yields (fun n => 0 <= n) run_inflight_count.
Proof. yrun. split; [done|]. cbn. unfold inflight_count. lia. Qed.
Lemma y_authorize a e : yields (fun s => forall n, s = Some n -> 0 < n) (on_run (authorize a e)).
Proof.
  yrun. split; [by apply authorize_inv|]. unfold authorize. destruct (_ || _); [done|]. cbn. intros n [= <-].
  pose proof (ri_seq _ Hr). lia.
Qed.
Lemma y_cancel now : yields cancel_fine (on_run (cancel now)).
Proof.
  yrun. split; [by apply cancel_inv|]. unfold cancel. pose proof (ri_seq _ Hr). pose proof (ri_epoch _ Hr).
  destruct (r_cancellation r) as [t|] eqn:E; cbn.
  - destruct (ri_cancelled_at _ Hr t E) as (E1 & E2 & E3 & _ & E5). unfold inflight_count in E5. split; cbn; lia.
  - unfold inflight_count. split; cbn; destruct (r_cancelled r); lia.
Qed.
Lemma fit_permit a p r w : fit w -> run_inv r -> numbered (po_grant p) -> fit (set_permit a p (set_run r w)).
Proof.
  intros [] Hr Hp. split; cbn; try done. intros b q. destruct (decide (a = b)) as [->|Hne].
  - rewrite lookup_insert_eq. by intros [= <-].
  - rewrite lookup_insert_ne by done. apply ft_permits0.
Qed.
Lemma fit_set_permit a p w : fit w -> numbered (po_grant p) -> fit (set_permit a p w).
Proof. intros Hw Hp. destruct w. by apply (fit_permit a p _ _ Hw (ft_run _ Hw)). Qed.
Lemma y_issue a e c gen b : 0 <= e -> yields (fun g => forall g', g = Some g' -> numbered g') (atomic (do_issue a e c gen b)).
Proof.
  intros He. apply y_atomic. intros w Hw. unfold do_issue. set (terminal := match w_conns w !! c with Some _ => _ | None => _ end).
  pose proof (issue_inv a e terminal gen b _ (ft_run _ Hw)) as Hi. pose proof (ri_seq _ (ft_run _ Hw)) as Hs.
  assert (forall g, (issue_permit a e terminal gen b (w_run w)).2 = Some g -> numbered g) as Hg.
  { unfold issue_permit. intros g. repeat case_match; try done. intros [= <-]. split; cbn; lia. }
  destruct (issue_permit _ _ _ _ _ _) as [r [g|]]; cbn [fst snd] in *.
  - split_and!; [|done|by intros g' [= <-]; apply Hg]. by apply fit_permit; [| |apply Hg].
  - split_and!; [|done|done]. destruct Hw. by split.
Qed.
Lemma y_bind_release a id : yields any (bind_durable_release a id).
Proof.
  apply y_atomic_res. intros w Hw. destruct (w_permits w !! a) as [p|] eqn:E; [|by split_and!].
  destruct (po_released p), (po_bound p); split_and!; try done. apply fit_set_permit; [done|]. exact (ft_permits _ Hw a p E).
Qed.
Lemma y_set_error a e : yields any (set_release_error a e).
Proof.
  apply y_atomic. intros w Hw. destruct (w_permits w !! a) as [p|] eqn:E; [|by split_and!].
  split_and!; try done. apply fit_set_permit; [done|]. exact (ft_permits _ Hw a p E).
Qed.
Definition releasable (x : released) : Prop :=
  match x with Now p t => numbered (po_grant p) /\ (forall tr, t = Some tr -> 0 < rt_seq tr) | Already _ _ => True end.
Lemma y_do_release a : yields releasable (atomic (do_release a)).
Proof.
  apply y_atomic. intros w Hw. unfold do_release. destruct (w_permits w !! a) as [p|] eqn:E; [|by split_and!].
  destruct (po_released p); [by split_and!|]. pose proof (ft_permits _ Hw a p E) as Hp.
  pose proof (release_inv (g_attempt (po_grant p)) _ (ft_run _ Hw)) as Hi. pose proof (ri_seq _ (ft_run _ Hw)) as Hs.
  assert (forall tr, (release (g_attempt (po_grant p)) (w_run w)).2 = Some tr -> 0 < rt_seq tr) as Ht.
  { unfold release. intros tr. case_match; [|done]. intros [= <-]. cbn. lia. }
  destruct (release _ _) as [r t]; cbn [fst snd] in *. split_and!; [|done|done]. by apply fit_permit.
Qed.
Lemma y_permit_release a : yields any (permit_release a).
Proof.
  unfold permit_release. eapply y_bind; [apply y_do_release|]. intros [[e|] t|p t] Hx; [apply y_throw|by apply y_ret|].
  destruct Hx as [Hp Ht]. destruct t as [tr|], (po_bound p) as [id|]; try by apply y_ret.
  apply y_catch.
  - apply y_then; [|intros _; by apply y_ret]. apply y_write, c_release; [done|by apply Ht].
  - intros e. apply y_then; [apply y_set_error|intros _; apply y_throw].
Qed.
Lemma y_abandon a : yields any (abandon_undurable a).
Proof. unfold abandon_undurable. eapply y_bind; [apply y_do_release|]. intros ? _. by apply y_ret. Qed.
Lemma y_settle gi r id outcome e : conforms (settle_record gi r id outcome e) -> yields any (settle gi r id outcome e).
Proof.
  intros Hc. unfold settle. apply y_catch; [|intros ?; by apply y_ret]. apply y_then; [by apply y_write|intros _; by apply y_ret].
Qed.
Lemma y_attempt g id ip port : numbered g -> 0 <= port ->
  yields any (mark_attempted g id [("pin_ip", VStr ip); ("pin_port", VInt port)]).
Proof.
  intros Hg Hp. unfold mark_attempted. apply y_catch; [|intros ?; apply y_throw].
  apply y_then; [by apply y_write, c_attempt|intros _; by apply y_ret].
Qed.
Lemma y_commit a epoch ia p : intent_fine ia p -> ia_epoch ia = epoch -> 0 <= epoch ->
  yields (fun gi => commits gi a) (commit_intent ∅ a epoch (sanitized_intent ia)).
Proof.
  intros Hia He Hz. unfold commit_intent. apply y_then; [apply y_healthy|]. intros h. destruct (negb h); [apply y_throw|].
  eapply y_bind; [apply y_authorize|]. intros [seq|] Hs; [|apply y_throw]. apply y_then.
  - apply y_catch; [|intros ?; apply y_throw]. apply y_then; [|intros _; by apply y_ret].
    apply y_write. eapply c_intent; [exact Hia|by apply Hs].
  - intros _. apply y_ret. eexists _, epoch. split; [apply lookup_insert_eq|]. split; [|done].
    unfold dget_or. rewrite dget_dset_ne by done. cbn. by rewrite He.
Qed.
Lemma y_acquire gi a epoch c id gen b : 0 <= epoch ->
  yields (fun g => forall g', g = Some g' -> numbered g') (acquire_permit gi a epoch c id gen b).
Proof.
  intros He. unfold acquire_permit. destruct (gi !! a) as [i|]; [|by apply y_ret]. destruct (negb _); [by apply y_ret|].
  eapply y_bind; [by apply y_issue|]. intros [g|] Hg; [|by apply y_ret]. specialize (Hg g eq_refl). apply y_then; [|intros _; apply y_then].
  - apply y_catch; [|intros ?; apply y_then; [apply y_abandon|intros _; apply y_throw]].
    apply y_then; [by apply y_write, c_permit|intros _; by apply y_ret].
  - apply y_bind_release.
  - intros _. apply y_ret. by intros g' [= <-].
Qed.

(** The answers of the decision point. *)
Definition answered (q : request) (d : decision) : Prop :=
  d_reason d <> "" /\ (d_allow d = true -> exists p pid, favourable q d p pid).
Lemma y_ask a e q : (forall pol, pe_policy e = Ok pol -> sane_policy pol) -> yields (answered q) (ask a e q).
Proof.
  intros Hpol. unfold ask. apply y_atomic_res. intros w Hw.
  destruct (PDP.decide _ _ _ _ _ _) as [b [d|x]] eqn:E; cbn; (assert (fit (set_budgets b w)) as Hf by (destruct Hw; by split)).
  - split_and!; [by apply fit_emit|done|]. split; [by eapply decide_reason|]. intros Ha. by eapply decide_favourable.
  - by split_and!.
Qed.
End Operations.

(** ** The handler *)

(** What a client has to be: ids that are not empty, policies that are sane, an
    upstream whose status line is no negative number. *)
Record sane_client (c : client) : Prop := {
  sc_ids : cl_conn_id c <> "" /\ cl_attempt c <> "";
  sc_policy : forall e pol, e ∈ [cl_pdp_connect c; cl_pdp_request c; cl_pdp_recheck c] -> pe_policy e = Ok pol -> sane_policy pol;
  sc_status : forall t rest chunk, cl_relay c = t :: rest -> rt_recv t = Ok chunk -> 0 <= Gateway.status_of chunk;
  sc_named : forall t e, t ∈ cl_relay c -> rt_recv t = Raise e \/ rt_client t = Raise e -> exn_cls e <> "" }.

Section Handler.
Context `{Digest} `{Idna}.
Hypothesis idna_ne : forall h, idna h <> Some "".

Lemma y_deny_plain reason url method src code who : reason <> "" -> yields any (deny_plain reason url method src code who).
Proof.
  intros Hr. unfold deny_plain. apply y_then; [by apply y_signal|]. intros _.
  apply y_then; [by apply y_write, c_deny|intros _; by apply y_ret].
Qed.
Lemma y_deny_tls reason url method c s : reason <> "" -> yields any (deny_tls reason url method c s).
Proof.
  intros Hr. unfold deny_tls. apply y_then; [by apply y_signal|]. intros _.
  apply y_then; [by apply y_write, c_deny_tls|intros _; by apply y_ret].
Qed.

(** The tunnel the permit is asked for in. *)
Record sane_tunnel (t : tunnel) : Prop := {
  st_client : sane_client (t_client t);
  st_pinned : pin_fine (t_pin t);
  st_hash : is_hex64 (t_digest t) = true;
  st_epoch : 0 <= t_epoch t;
  st_intents : commits (t_intents t) (cl_attempt (t_client t)) }.
Lemma y_refuse t reason : reason <> "" -> yields any (refuse t reason).
Proof. apply y_deny_tls. Qed.
Lemma y_settle_t t r outcome e : conforms (settle_record (t_intents t) r (cl_conn_id (t_client t)) outcome e) ->
  yields any (settle_t t r outcome e).
Proof. apply y_settle. Qed.
Lemma y_dropped t outcome reason : sane_tunnel t -> outcome ∈ [FAILED; CANCELLED] -> reason <> "" ->
  yields any (settle_t t (OfId (cl_attempt (t_client t))) outcome [("reason", VStr reason)]).
Proof. intros Ht Ho Hr. by apply y_settle_t, c_dropped; [apply st_intents| |]. Qed.
Lemma y_unknown t g reason : numbered g -> reason <> "" -> yields any (settle_t t (OfPermit g) UNKNOWN [("reason", VStr reason)]).
Proof. intros Hg Hr. by apply y_settle_t, c_unknown. Qed.

Lemma relay_sane turns first status body :
  (forall t e, t ∈ turns -> rt_recv t = Raise e \/ rt_client t = Raise e -> exn_cls e <> "") ->
  0 <= status -> (first = true -> forall t rest chunk, turns = t :: rest -> rt_recv t = Ok chunk -> 0 <= Gateway.status_of chunk) ->
  let r := relay turns first status body in
  0 <= rl_status r /\ forall e, rl_failed r = Some e -> exn_cls e <> "".
Proof.
  revert first status body. induction turns as [|t turns IH]; intros first status body Hn Hs Hf; [by split|]. cbn [relay].
  destruct (rt_late t); [split; [done|by intros e [= <-]]|].
  destruct (rt_recv t) as [[|x chunk]|e] eqn:E.
  - by split.
  - assert (0 <= (if first then Gateway.status_of (String x chunk) else status)) as Hs'.
    { destruct first; [by eapply Hf|done]. }
    destruct (rt_client t) as [u|e] eqn:Ec.
    + apply IH; [|done|done]. intros t' e Ht. apply Hn. by right.
    + split; [done|]. intros e' [= <-]. eapply (Hn t e); [by left|by right].
  - split; [done|]. intros e' [= <-]. eapply (Hn t e); [by left|by left].
Qed.
Lemma y_relay t g : sane_tunnel t -> numbered g -> yields any (inside_relay t g).
Proof.
  intros Ht Hg. destruct Ht as [[_ _ Hst Hna] (_ & _ & Hport) Hd _ _]. unfold inside_relay.
  destruct (relay_sane (cl_relay (t_client t)) true 0 "" Hna (Z.le_refl 0) (fun _ => Hst)) as [Hs He].
  set (r := relay _ _ _ _) in *. assert (0 <= total r) as Hn by (unfold total; lia).
  destruct (rl_failed r) as [e|]; (apply y_then; [|intros _; apply y_then; [|intros _; by apply y_ret]]).
  - apply y_settle_t, c_unknown_bytes; [done|by apply He|done].
  - apply y_write, c_terminated; [by apply He|done|done].
  - by apply y_settle_t, c_completed.
  - by apply y_write, c_allow.
Qed.
Lemma y_send t g : sane_tunnel t -> numbered g -> yields any (inside_send t g).
Proof.
  intros Ht Hg. unfold inside_send. apply y_then; [by apply y_signal|]. intros _.
  destruct (cl_up_send _) as [u|e]; [by apply y_relay|]. apply y_then; [by apply y_unknown|intros _; by apply y_refuse].
Qed.
Lemma y_connect_failed t g e : sane_tunnel t -> numbered g -> yields any (connect_failed t g e).
Proof.
  intros Ht Hg. destruct Ht as [_ (_ & _ & Hport) _ _ _]. unfold connect_failed.
  destruct (String.eqb _ _); [|destruct (String.eqb _ _)]; (apply y_then; [by apply y_unknown|intros _]); try by apply y_refuse.
  apply y_then; [by apply y_write, c_cert|intros _; by apply y_refuse].
Qed.
Lemma y_connect t g : sane_tunnel t -> numbered g -> yields any (inside_connect t g).
Proof.
  intros Ht Hg. unfold inside_connect. apply y_then; [by apply y_signal|]. intros _. apply y_then.
  - apply y_catch; [|intros e; apply y_then; [by apply y_connect_failed|intros _; by apply y_ret]].
    do 2 (apply y_then; [by apply y_of_res; destruct (_ : res unit)|intros _]).
    apply y_then; [apply y_conn|]. intros []; cbn [negb]; [by apply y_ret|].
    apply y_then; [by apply y_unknown|intros _]. apply y_then; [by apply y_refuse|intros _; by apply y_ret].
  - intros []; [by apply y_send|by apply y_ret].
Qed.
Lemma y_permitted t g : sane_tunnel t -> numbered g -> yields any (inside_permitted t g).
Proof.
  intros Ht Hg. unfold inside_permitted. apply y_then; [apply y_conn|]. intros [].
  - apply y_then; [|intros _; by apply y_refuse]. by apply y_settle_t, c_cancelled.
  - pose proof (st_pinned t Ht) as (_ & _ & Hport). apply y_then.
    + apply y_catch; [|intros e; destruct (String.eqb _ _); [by apply y_ret|apply y_throw]].
      apply y_then; [apply y_attempt; [done|lia]|intros _; by apply y_ret].
    + intros [e|]; [by apply y_refuse|by apply y_connect].
Qed.
Lemma y_effect t gen b : sane_tunnel t -> yields any (inside_effect t gen b).
Proof.
  intros Ht. unfold inside_effect. destruct (cl_socket _) as [u|e].
  - apply y_then; [apply y_conn|]. intros []; cbn [negb].
    + eapply (y_bind (fun r => forall g, r = inl (Some g) -> numbered g)).
      * apply y_catch; [|intros e; destruct (String.eqb _ _); [by apply y_ret|apply y_throw]].
        eapply y_bind; [by apply y_acquire, st_epoch|]. intros g Hg. apply y_ret. intros g' [= ->]. by apply Hg.
      * intros [[g|]|e] Hg; [|..|by apply y_refuse].
        -- apply y_finally; [by apply y_permitted; [|apply Hg]|]. apply y_then; [apply y_permit_release|intros _; by apply y_ret].
        -- apply y_then; [apply y_dropped; [done|right; by left|done]|intros _; by apply y_refuse].
    + apply y_then; [apply y_dropped; [done|right; by left|done]|intros _; by apply y_refuse].
  - apply y_then; [apply y_dropped; [done|by left|done]|intros _; by apply y_refuse].
Qed.

Lemma y_try_ask a e q : (forall pol, pe_policy e = Ok pol -> sane_policy pol) ->
  yields (fun r : decision + exn => forall d, r = inl d -> answered q d)
    (pcatch (d <-- ask a e q;; Ret (inl d)) (fun x => Ret (inr x))).
Proof.
  intros Hpol. apply y_catch; [|intros x; by apply y_ret]. eapply y_bind; [by apply y_ask|].
  intros d Hd. apply y_ret. by intros d' [= <-].
Qed.
Lemma y_recheck t port gen b : sane_tunnel t -> yields any (inside_recheck t port gen b).
Proof.
  intros Ht. unfold inside_recheck. eapply y_bind.
  { apply y_try_ask. intros pol. apply (sc_policy _ (st_client t Ht)). right; right; by left. }
  intros [d|e] Hd.
  - destruct (recheck_fails _ _ _ _).
    + apply y_then; [apply y_dropped; [done|by left|done]|intros _; by apply y_refuse].
    + apply y_then; [|intros _; by apply y_effect]. apply y_of_res. by destruct (cl_up_context _).
  - apply y_then; [apply y_dropped; [done|by left|done]|intros _; by apply y_refuse].
Qed.

(** The state of the connection once its CONNECT is decided. *)
Record sane_state (s : conn_state) (p : pin) : Prop := {
  ss_pin : cs_pin s = Some p /\ pin_fine p; ss_program : cs_program s <> ""; ss_host : cs_canonical s <> "" }.
Lemma y_inside_commit c s port hd label p d : sane_client c -> sane_state s p ->
  detail "policy_generation" d <> "" -> detail "budget_binding" d <> "" -> str_upper (h_method hd) <> "" ->
  yields any (inside_commit c s port hd label p d).
Proof.
  intros Hc [[Hp Hfine] Hprog Hhost] Hgen Hbud Hm. unfold inside_commit. eapply y_bind; [apply y_epoch|]. intros epoch He.
  destruct (_ || _); [by apply y_deny_tls|]. apply y_then; [apply y_run_id|]. intros run.
  eapply (y_bind (fun r => forall gi, r = inl gi -> commits gi (cl_attempt c))).
  - apply y_catch; [|intros e; destruct (mem_str _ _); [by apply y_ret|apply y_throw]]. eapply y_bind.
    + apply (y_commit _ epoch _ p); [|done|done]. destruct (sc_ids _ Hc). split; [done|done|]. unfold intent_of. cbn.
      repeat (apply Forall_cons; split; [done|]). by apply Forall_nil.
    + intros gi Hgi. apply y_ret. by intros gi' [= <-].
  - intros [gi|e] Hgi; [|by apply y_deny_tls]. apply y_recheck. split; [done|done| |done|by apply Hgi].
    exact (sha256_hex (utf8 (intent_canon _ _ _ _))).
Qed.
Lemma y_request c s port label p hd : sane_client c -> sane_state s p -> yields any (inside_request c s port label p hd).
Proof.
  intros Hc Hs. unfold inside_request. destruct (negb _); [by apply y_deny_tls|]. eapply y_bind.
  { apply y_try_ask. intros pol. apply (sc_policy _ Hc). right; by left. }
  intros [d|e] Hd; [|by apply y_deny_tls]. destruct (Hd d eq_refl) as [Hr Ha].
  destruct (d_allow d) eqn:E; cbn [negb]; [|by apply y_deny_tls].
  destruct (Ha eq_refl) as (p' & pid & [_ _ [Hg Hb] Hm _]). apply y_then.
  - unfold add_secret_of. destruct (negb _); [by apply y_ret|]. destruct (d_secret d); first [apply y_add_mixed|apply y_add_secret|apply y_throw].
  - intros _. by apply y_inside_commit.
Qed.
Lemma y_inside c s port p : sane_client c -> sane_state s p -> yields any (inside c s port p).
Proof.
  intros Hc Hs. unfold inside. destruct (match cl_sni c with Some _ => _ | None => false end); [by apply y_deny_tls|].
  apply y_then; [by apply y_of_res; destruct (read_head _)|]. intros [hd|]; [by apply y_request|].
  apply y_then; [by apply y_write, c_malformed|intros _; by apply y_ret].
Qed.
Lemma y_connect_tls c s port p : sane_client c -> sane_state s p -> yields any (connect_tls c s port p).
Proof.
  intros Hc Hs. unfold connect_tls. destruct (cl_leaf c) as [u|e].
  - apply y_then; [by apply y_of_res; destruct (cl_established c)|]. intros _.
    destruct (cl_load_chain c) as [u'|e]; [|by apply y_deny_plain]. apply y_then; [apply y_conn|]. intros _.
    apply y_then; [by apply y_of_res; destruct (cl_settimeout c)|]. intros _. destruct (cl_handshake c) as [u''|e].
    + apply y_then; [apply y_conn|]. intros []; cbn [negb]; [by apply y_inside|by apply y_ret].
    + destruct (os_error e); [|apply y_throw]. apply y_then; [by apply y_write, c_hello|intros _; by apply y_ret].
  - destruct (String.eqb _ _); [by apply y_deny_plain|apply y_throw].
Qed.
Lemma y_flow c s host port : sane_client c -> yields any (connect_flow c s host port).
Proof.
  intros Hc. unfold connect_flow. eapply y_bind.
  { apply y_try_ask. intros pol. apply (sc_policy _ Hc). by left. }
  intros [d|e] Hd; [|by apply y_deny_plain]. destruct (Hd d eq_refl) as [Hr Ha].
  destruct (d_allow d) eqn:E; cbn [negb]; [|by apply y_deny_plain].
  destruct (Ha eq_refl) as (p & pid & [Hp [Hpr Hne] _ _ Hf]). rewrite Hp, Hpr. specialize (Hf eq_refl).
  destruct (canonical_host host) as [canon|] eqn:Eh; [|apply y_throw]. apply y_connect_tls; [done|].
  split; [done|exact Hne|]. by eapply canonical_host_ne.
Qed.
Lemma y_close c obj : yields any (close_connection c obj).
Proof.
  unfold close_connection. apply y_then; [apply y_conn|intros _]. apply y_then; [by yreg|intros _].
  yreg. unfold release_slot. by destruct (_ <? _).
Qed.
Lemma y_do_CONNECT c : sane_client c -> yields any (do_CONNECT c).
Proof.
  intros Hc. unfold do_CONNECT. destruct (rpartition _ _) as [[host sep] p]. destruct (_ || _); [apply y_then; [by apply y_deny_plain|intros _; by apply y_ret]|].
  apply y_then; [by apply y_of_res; destruct (py_int p)|]. intros port. apply y_then.
  { yreg. unfold acquire. by destruct (_ <? _). }
  intros []; cbn [negb]; [|apply y_then; [by apply y_deny_plain|intros _; by apply y_ret]]. apply y_then; [apply y_new_conn|]. intros obj.
  apply y_then; [|intros _; by apply y_ret]. apply y_finally; [|apply y_close]. apply y_catch.
  - apply y_then; [yreg; unfold add; by destruct (g_killed g)|]. intros []; cbn [negb]; [by apply y_flow|].
    apply y_then; [by apply y_write, c_refusal|intros _; by apply y_ret].
  - intros e. apply y_then; [by apply y_write, c_refusal|intros _; by apply y_ret].
Qed.
Lemma y_dispatch cmds : (forall c, Connect c ∈ cmds -> sane_client c) -> yields any (dispatch cmds).
Proof.
  induction cmds as [|[c|m p s] cmds IH]; intros Hc; cbn [dispatch]; [by apply y_ret| |].
  - apply y_then; [apply y_do_CONNECT, Hc; by left|]. intros []; [by apply y_ret|]. apply IH. intros d Hin. apply Hc. by right.
  - apply y_then; [unfold do_other; destruct (String.eqb _ _); by apply y_deny_plain|]. intros _. apply IH.
    intros c Hin. apply Hc. by right.
Qed.
Lemma y_handle cmds : (forall c, Connect c ∈ cmds -> sane_client c) -> yields any (handle cmds).
Proof.
  intros Hc. unfold handle. apply y_then.
  { yreg. unfold begin_producer. destruct (_ || _); cbn; split_and!; try done. lia. }
  intros []; cbn [negb]; [|by apply y_ret]. apply y_finally; [by apply y_dispatch|]. unfold end_producing.
  apply y_atomic_res. intros w []. unfold end_producer. destruct (g_producers (w_reg w) <=? 0) eqn:E; bools; cbn; split_and!; try done;
    split; cbn; try done. lia.
Qed.
End Handler.

(** ** The watcher *)

Section Watcher.
Context `{Digest} `{Idna}.

Lemma y_for_each {A B} (f : A -> thread B) l : (forall x, yields any (f x)) -> yields any (for_each f l).
Proof.
  intros Hf. induction l as [|x l IH]; cbn [for_each]; [by apply y_ret|].
  apply y_then; [apply Hf|]. intros y. apply y_then; [exact IH|]. intros ys. by apply y_ret.
Qed.
(** [learns p]: when [p] returns, an outcome is remembered. *)
Definition learns {A} (p : thread A) : Prop :=
  forall i w, ok remembers remembers fit i (fun r w' => match r with Ok _ => known w' | Raise _ => True end) p w.
Lemma learns_after {A B} (P : A -> Prop) (p : thread A) (g : A -> thread B) :
  yields P p -> (forall a, P a -> learns (g a)) -> learns (pbind p g).
Proof. intros Hp Hg i w. apply ok_bind. eapply ok_weaken; [apply Hp|]. intros [a|e] w1 Ha; [by apply Hg|done]. Qed.
Lemma learns_before {A B} (p : thread A) (g : A -> thread B) : learns p -> (forall a, yields any (g a)) -> learns (pbind p g).
Proof.
  intros Hp Hg i w. apply ok_bind. eapply ok_weaken; [apply Hp|]. intros [a|e] w1 Hk; [|done].
  eapply ok_weaken; [by apply ok_known; [apply Hg|]|]. by intros [b|e] w2 [_ ?].
Qed.
Lemma learns_last r : cancel_fine (cr_transition r) -> learns (on_reg_ (set_last r)).
Proof.
  intros Hr i w w1 _ []. split_and!; [by eexists| |by eexists]. split; cbn; try done. by intros r' [= <-].
Qed.
Lemma learns_terminate e : learns (terminate_all e (Some record_linearization)).
Proof.
  unfold terminate_all. eapply learns_after; [apply y_cancel|]. intros t Ht.
  eapply (learns_after any); [by yreg|]. intros victims _.
  eapply (learns_after any).
  { apply y_for_each. intros x. apply y_then; [apply y_conn|]. intros ?. by apply y_ret. }
  intros retained _. eapply (learns_after any).
  { apply y_for_each. intros x. apply y_then; [apply y_conn|]. intros ?. apply y_then; [apply y_conn|]. intros ?. by apply y_ret. }
  intros torn _. eapply (learns_after any).
  { unfold stop_listener. destruct (ke_stop e); [|by apply y_ret]. apply y_then; [by apply y_signal|]. intros _. by apply y_ret. }
  intros started _. eapply (learns_after any).
  { apply y_catch; [|intros ?; by apply y_ret]. apply y_then; [|intros _; by apply y_ret]. unfold record_linearization.
    apply y_then; [by apply y_write, c_requested|intros _]. apply y_then; [by apply y_write, c_linearized|intros _]. by apply y_ret. }
  intros durable _. eapply (learns_after any); [apply y_drain|]. intros drained _.
  eapply learns_after; [apply y_inflight|]. intros remaining _.
  apply learns_before; [by apply learns_last|]. intros _.
  apply y_then; [|intros ids; by apply y_ret]. apply y_for_each. intros c. apply y_conn.
Qed.
Lemma y_certify torn snap s durable : drained_fine s -> yields any (certify torn snap s durable).
Proof.
  intros Hs. unfold certify. destruct (negb durable); [apply y_throw|]. apply y_then; [apply y_healthy|].
  intros []; cbn [negb]; [|apply y_throw]. apply y_then; [by apply y_write, c_kill|]. intros _. destruct (negb (quiescent s)).
  - apply y_then; [by apply y_write, c_timeout|intros _; by apply y_ret].
  - apply y_then; [by apply y_write, c_ack|]. intros _. destruct (df_last _ Hs) as (t & -> & Ht).
    apply y_then; [by apply y_seal, c_closed|intros _; by apply y_ret].
Qed.
(** Reading what is remembered. *)
Lemma ok_read {B} (k : option cancel_result -> thread B) i w : known w ->
  (forall r, cancel_fine (cr_transition r) -> yields any (k (Some r))) ->
  ok remembers remembers fit i (fun r _ => outcome_is any r) (pbind (on_reg (fun g => (g, g_last g))) k) w.
Proof.
  intros Hk Hg w1 Hr Hi. destruct (Hr Hk) as [r Hlast]. cbn. split_and!; [by intros ?|by destruct Hi; split|].
  rewrite Hlast. by apply Hg, (ft_last _ Hi).
Qed.
Lemma y_cancel_and_quiesce e : yields any (cancel_and_quiesce e).
Proof.
  intros i w. unfold cancel_and_quiesce. apply ok_bind. eapply ok_weaken; [apply learns_terminate|].
  intros [[torn snap]|x] w1 Hk; [|done]. apply ok_read; [done|]. intros r Hr.
  apply y_then; [apply y_drain|]. intros _. eapply y_bind; [apply y_inflight|]. intros effects Heff.
  eapply (y_bind (fun n => 0 <= n)); [by yreg|]. intros producers Hp. eapply y_bind; [apply y_epoch|]. intros epoch He.
  cbv zeta. cbn [fmap option_fmap option_map]. apply y_catch; [|intros ?; by apply y_ret].
  apply y_then; [|intros ?; by apply y_ret]. apply y_certify. split; [done|]. by eexists.
Qed.
End Watcher.

(** ** The system *)

Section System.
Context `{Digest} `{Idna}.

Definition sane (s : system) : Prop :=
  forall a cmds c, (a, Handler cmds) ∈ s -> Connect c ∈ cmds -> sane_client c.
(** The start has written conforming records only. *)
Definition announced (w : world) : Prop := unused w /\ forall e, EvRecord e ∈ w_trace w -> conforms e.
Lemma announced_fit w : announced w -> fit w.
Proof.
  intros [[Hr Hp _ (n & Hn & Hg)] Ht]. split; [rewrite Hr; apply run_inv0|by rewrite Hg|by rewrite Hg|rewrite Hp|done].
  intros a p. by rewrite lookup_empty.
Qed.
Lemma reach_fit s w0 ts w : (forall h, idna h <> Some "") -> sane s -> announced w0 -> reach (start s w0) (ts, w) -> fit w.
Proof.
  intros Hidna Hs Hann%announced_fit Hr. apply (pool_invariant remembers fit (threads s) ts w0 w); [intros i w1 Hk; exact Hk| |intros i j w1 w2 Hij; exact Hij|exact Hann| |exact Hr].
  { intros i w1 w2 w3 H12 H23 Hk. by apply H23, H12. }
  intros i p ([name role] & -> & Hin)%list_elem_of_fmap. cbn.
  eapply ok_weaken; [|by intros ? ? _]. destruct role as [cmds|e]; cbn [role_thread].
  - apply y_handle; [done|]. intros c. by eapply Hs.
  - apply y_then; [apply y_cancel_and_quiesce|]. intros _. by apply y_ret.
Qed.

(** C7: what the gateway writes, the verifier reads. In every schedule of handlers
    and kill watchers, with every behaviour of storage, network and TLS, every durable
    record has the schema of the closed-run verifier once the log has stamped it: as
    long as connection and attempt ids are not empty, the policies name their programs
    and allow ports from 1 to 65535, the upstreams' status is not negative, and no
    registered secret occurs in the record. No record of the gateway's own makes a run
    malformed. *)
Theorem records_conform s w0 ts w e io l' : (forall h, idna h <> Some "") -> sane s -> announced w0 ->
  reach (start s w0) (ts, w) -> EvRecord e ∈ w_trace w ->
  clean (l_redact l') e -> l_run_id l' <> "" -> is_hex64 (l_prev l') = true ->
  is_number (io_time io) = true -> isfinite (io_time io) = Ok true ->
  schema_error (stamp io e l') = Ok None.
Proof. intros Hidna Hs Hann Hr He. apply stamped_accepted. exact (ft_trace _ (reach_fit _ _ _ _ Hidna Hs Hann Hr) e He). Qed.
End System.

(** ** The evaluated run *)

Definition nets_ex : dict := [("10.0.0.0/8", VStr "p"); ("fd00::/8", VStr "p")].
Lemma match_nets_ex a : match_network a policy_ex nets_ex = Ok (VNull, VNull) \/ match_network a policy_ex nets_ex = Ok (VStr "p", prog_ex).
Proof.
  unfold nets_ex. cbn [match_network]. destruct (ip_network "10.0.0.0/8") as [n1|]; [destruct (in_net a n1); [by right|]|];
    (destruct (ip_network "fd00::/8") as [n2|]; [destruct (in_net a n2); [by right|]|]); by left.
Qed.
Lemma policy_ex_programs src pid program : program_for_source src policy_ex = Ok (pid, program) ->
  (pid = VNull /\ program = VNull) \/ (pid = VStr "p" /\ program = prog_ex).
Proof.
  unfold program_for_source. destruct (source_addr src) as [a|]; [|intros [= <- <-]; by left].
  change (match_network a policy_ex nets_ex = Ok (pid, program) -> (pid = VNull /\ program = VNull) \/ (pid = VStr "p" /\ program = prog_ex)).
  destruct (match_nets_ex a) as [->| ->]; intros [= <- <-]; [by left|by right].
Qed.
Lemma policy_ex_sane : sane_policy policy_ex.
Proof.
  split.
  - intros src program [[E _]|[E _]]%policy_ex_programs; discriminate E.
  - intros src pid program ports z [[_ ->]|[_ ->]]%policy_ex_programs; [done|]. intros [= <-].
    change (Ok (num_eqb (z, 0%nat) (443, 0%nat) || false) = Ok true -> 1 <= z <= 65535).
    rewrite orb_false_r. unfold num_eqb. cbn. rewrite ?Z.mul_1_r. intros [= E%Z.eqb_eq]. lia.
  - intros src pid program ms [[_ ->]|[_ ->]]%policy_ex_programs; [done|]. by intros [= <-].
Qed.
Lemma client_ex_sane : sane_client client_ex.
Proof.
  split; cbn.
  - done.
  - intros e pol He. assert (e = env_ex) as -> by (repeat (apply elem_of_cons in He as [->|He]; [done|]); by apply not_elem_of_nil in He).
    cbn. intros [= <-]. apply policy_ex_sane.
  - intros t rest chunk [= <- <-]. cbn. intros [= <-]. by vm_compute.
  - intros t e ->%list_elem_of_singleton. by intros [?|?].
Qed.
Lemma system_ex_sane : sane system_ex.
Proof.
  intros a cmds c [E|[E|[]%not_elem_of_nil]%elem_of_cons]%elem_of_cons; [|discriminate E].
  injection E as -> ->. intros Hc%list_elem_of_singleton. injection Hc as ->. apply client_ex_sane.
Qed.
(** The record of the relayed request. *)
Definition allow_ex : dict :=
  match w_trace w_closed !! 9%nat with Some (EvRecord e) => e | _ => [] end.
Lemma allow_ex_written : EvRecord allow_ex ∈ w_trace w_closed.
Proof. apply (list_elem_of_lookup_2 _ 9). vm_compute. reflexivity. Qed.
Lemma records_conform_witness : schema_error (stamp io0 allow_ex l_empty) = Ok None.
Proof.
  refine (records_conform system_ex w_ex ts_closed w_closed allow_ex io0 l_empty _ system_ex_sane _ reach_both
    allow_ex_written _ _ _ eq_refl eq_refl).
  - done.
  - split; [apply (bt_unused _ _ boot_ex)|]. by intros e He%not_elem_of_nil.
  - vm_compute. reflexivity.
  - discriminate.
  - vm_compute. reflexivity.
Defined.
