(* ===== verification/Accepted.v ===== *)
(** * The verifier on the records of a handler

    One lemma per record: at the stage its attempt is in, the validation goes on,
    moves that attempt alone and owns the record's number.  [linked] ties the
    state of the validation to the numbers the run has given out. *)

From S2P Require Import Prelude.
From S2P Require Import PyStr.
From S2P Require Import Json.
From S2P Require Import JsonFacts.
From S2P Require Import Hash.
From S2P Require Import AuditLog.
From S2P Require Import AuditFacts.
From S2P Require Import Lifecycle.
From S2P Require Import PyDyn.
From S2P Require Import Addressing.
From S2P Require Import Resolver.
From S2P Require Import Pdp.
From S2P Require Import Conc.
From S2P Require Import World.
From S2P Require Import Registry.
From S2P Require Import Gateway.
From S2P Require Import VerifyE10.
From S2P Require Import VerifyE10Facts.
From S2P Require Import Conform.
Open Scope Z_scope.

(** ** A record and what the log writes of it *)

Definition stamped (r e : dict) : Prop := like r e /\ (walk (VDict e) = false -> walk (VDict r) = false).
Lemma stamped_like r e : stamped r e -> like r e.
Proof. by intros []. Qed.
Lemma stamped_in_stamped run_id r e : stamped_in run_id r e -> stamped r e.
Proof. by intros []. Qed.
Section Like.
Context (r e : dict) (L : like r e).
Lemma like_fld k : mem_str k stamped_keys = false -> fld k r = fld k e.
Proof. intros Hk. unfold fld, dget_or. by rewrite L. Qed.
Lemma like_int k : mem_str k stamped_keys = false -> int_of k r = int_of k e.
Proof. intros Hk. unfold int_of. by rewrite like_fld. Qed.
Lemma like_str k : mem_str k stamped_keys = false -> str_of k r = str_of k e.
Proof. intros Hk. unfold str_of. by rewrite like_fld. Qed.
Lemma like_dmem k : mem_str k stamped_keys = false -> dmem k r = dmem k e.
Proof. intros Hk. unfold dmem. by rewrite L. Qed.
Lemma like_aid : aid_of r = aid_of e.
Proof. unfold aid_of, dget_or. by rewrite L. Qed.
Lemma like_decision : decision_of r = decision_of e.
Proof. by apply like_str. Qed.
End Like.
Lemma like_same k r e q f : like r e -> like q f -> mem_str k stamped_keys = false -> same k r q = same k e f.
Proof. intros Hr Hq Hk. unfold same. by rewrite (like_fld r e Hr k Hk), (like_fld q f Hq k Hk). Qed.

Lemma stamped_walk r e : stamped r e -> walk (VDict e) = false -> walk (VDict r) = false.
Proof. by intros []. Qed.
Lemma stamped_secret r e : stamped r e -> looks_secret e = false -> looks_secret r = false.
Proof.
  intros Hs. unfold looks_secret, dget_or. rewrite (stamped_like _ _ Hs "credential_ref" eq_refl). intros He.
  apply orb_false_iff in He as [[Hw H1]%orb_false_iff H2]. rewrite (stamped_walk _ _ Hs Hw). by rewrite H1, H2.
Qed.

(** ** Steps *)

Lemma steps_app rs1 rs2 h : steps (rs1 ++ rs2) h =
  (o <- steps rs1 h;; match o with inl b => Ok (inl b) | inr h' => steps rs2 h' end).
Proof.
  revert h. induction rs1 as [|r rs1 IH]; intros h; cbn; [done|]. destruct (step r h) as [[b|h']|e]; cbn; [done|apply IH|done].
Qed.
Lemma steps_snoc rs r h h1 : steps rs h = Ok (inr h1) -> steps (rs ++ [r]) h = step r h1.
Proof. intros Hs. rewrite steps_app, Hs. cbn. by destruct (step r h1) as [[b|h']|e]. Qed.

Definition startup_decisions : list string := ["STARTUP"; "STARTUP_DEGRADED"; "STARTUP_FAILED"].
Lemma step_running d r h : decision_of r = d -> h_state h = RUNNING -> mem_str d startup_decisions = false ->
  step r h = on_active d (aid_of r) r (set_active h).
Proof. intros Hd Hs Hm. unfold step, after_disposition, startup_decisions in *. rewrite Hd, Hs. by rewrite Hm. Qed.

Lemma set_attempt_ne a b x h : a <> b -> attempt_of b (set_attempt a x h) = attempt_of b h.
Proof. apply find_put_ne. Qed.
Lemma set_attempt_eq a x h : attempt_of a (set_attempt a x h) = Some x.
Proof. apply find_put_eq. Qed.

(** A record leaves the attempts it does not name alone. *)
Lemma step_foreign r h h' a : step r h = Ok (inr h') -> aid_of r <> a -> attempt_of a h' = attempt_of a h.
Proof.
  intros Hs Ha. assert (forall aid x g, aid <> a -> attempt_of a (set_attempt aid x g) = attempt_of a g) as Hset.
  { intros aid x g Hne. by apply set_attempt_ne. }
  unfold step in Hs. fold (aid_of r) in Hs. revert Hs. generalize (aid_of r) Ha. intros aid Hne.
  unfold on_startup, on_active, on_auth, on_permit, on_attempted, on_terminal, on_allow, on_release, on_linearized, on_kill,
    on_disposition, on_closed, on_terminated, on_blocked, go, dindex.
  repeat (case_match; try discriminate); cbn [rbind]; repeat (case_match; try discriminate); intros Hs; try discriminate Hs; simplify_eq; rewrite ?Hset by done; done.
Qed.

(** ** The numbers a run gives out, and who recorded them *)

Inductive kind := KAuth | KPermit | KRelease.
Abbreviation owners := (string -> kind -> option Z).
Definition recorded (h : history) (b : string) (k : kind) : Prop :=
  exists x, attempt_of b h = Some x /\
    match k with KAuth => True | KPermit => is_Some (at_permit x) | KRelease => is_Some (at_release x) end.
(** No two are the same, and those of an attempt grow. *)
Record distinct_numbers (ow : owners) : Prop := {
  dn_inj : forall b k b' k' n, ow b k = Some n -> ow b' k' = Some n -> b = b' /\ k = k';
  dn_permit : forall b m n, ow b KAuth = Some m -> ow b KPermit = Some n -> m < n;
  dn_release : forall b m n, ow b KPermit = Some m -> ow b KRelease = Some n -> m < n }.
Record attempt_linked (f : kind -> option Z) (x : attempt) : Prop := {
  al_epoch : fld "epoch" (at_auth x) = VInt 0;
  al_late : at_late x = false;
  al_auth : f KAuth = Some (int_of "lifecycle_seq" (at_auth x));
  al_permit : forall p, at_permit x = Some p -> f KPermit = Some (int_of "lifecycle_seq" p);
  al_release : forall l, at_release x = Some l -> f KRelease = Some (int_of "lifecycle_seq" l) }.
Record linked (ow : owners) (ids : list string) (h : history) : Prop := {
  lk_state : h_state h = RUNNING;
  lk_kill : h_kill h = None;
  lk_cancel : h_cancel h = None;
  lk_nodup : NoDup (map fst (h_attempts h));
  lk_ids : forall b x, attempt_of b h = Some x -> b ∈ ids;
  lk_attempts : forall b x, attempt_of b h = Some x -> attempt_linked (ow b) x;
  lk_numbers : forall n, n ∈ h_sequences h -> exists b k, ow b k = Some n /\ recorded h b k }.

Lemma linked0 ow ids : linked ow ids history0.
Proof. split; cbn; try done; [constructor|]. by intros n Hn%not_elem_of_nil. Qed.
Lemma linked_active ow ids h : linked ow ids h -> linked ow ids (set_active h).
Proof. intros []. by split. Qed.
Lemma linked_more ow ow' ids h : linked ow ids h -> (forall b k n, ow b k = Some n -> ow' b k = Some n) -> linked ow' ids h.
Proof.
  intros [] Hm. split; try done.
  - intros b x Hx. destruct (lk_attempts0 b x Hx). split; eauto.
  - intros n Hn. destruct (lk_numbers0 n Hn) as (b & k & ? & ?). eauto.
Qed.
Lemma put_keys a x l k : k ∈ map fst (put_attempt a x l) <-> k = a \/ k ∈ map fst l.
Proof.
  induction l as [|[k' y] l IH]; cbn; [set_solver|]. destruct (String.eqb_spec a k') as [->|]; cbn; [set_solver|].
  rewrite !elem_of_cons, IH. tauto.
Qed.
Lemma put_nodup a x l : NoDup (map fst l) -> NoDup (map fst (put_attempt a x l)).
Proof.
  induction l as [|[k y] l IH]; cbn; intros Hl; [repeat constructor; set_solver|]. apply NoDup_cons in Hl as [Hk Hl].
  destruct (String.eqb_spec a k) as [->|]; cbn; apply NoDup_cons; split; auto. rewrite put_keys. intros [->|?]; done.
Qed.
(** One attempt moves; what it had recorded it still has. *)
Definition grows (o : option attempt) (x : attempt) : Prop := forall y, o = Some y ->
  (is_Some (at_permit y) -> is_Some (at_permit x)) /\ (is_Some (at_release y) -> is_Some (at_release x)).
Lemma recorded_set a x h b k : grows (attempt_of a h) x -> recorded h b k -> recorded (set_attempt a x h) b k.
Proof.
  intros Hg (y & Hy & Hk). destruct (decide (a = b)) as [->|Hne].
  - exists x. rewrite set_attempt_eq. split; [done|]. destruct (Hg y Hy). destruct k; auto.
  - exists y. by rewrite set_attempt_ne.
Qed.
Lemma linked_set ow ids a x h : linked ow ids h -> a ∈ ids -> attempt_linked (ow a) x -> grows (attempt_of a h) x ->
  linked ow ids (set_attempt a x h).
Proof.
  intros [] Ha Hx Hg. split; try done.
  - by apply put_nodup.
  - intros b y. destruct (decide (a = b)) as [->|Hne]; [done|]. rewrite set_attempt_ne by done. apply lk_ids0.
  - intros b y. destruct (decide (a = b)) as [->|Hne]; [rewrite set_attempt_eq; by intros [= <-]|].
    rewrite set_attempt_ne by done. apply lk_attempts0.
  - intros n Hn. destruct (lk_numbers0 n Hn) as (b & k & Hb & Hr). exists b, k. split; [done|]. by apply recorded_set.
Qed.
Lemma linked_own ow ids h b k n : linked ow ids h -> ow b k = Some n -> recorded h b k -> linked ow ids (own n h).
Proof. intros [] Hb Hr. split; try done. intros m [->|Hm]%elem_of_cons; [by exists b, k|]. by apply lk_numbers0. Qed.
(** A number whose record is not written yet is not owned. *)
Lemma unowned ow ids h a k n : linked ow ids h -> distinct_numbers ow -> ow a k = Some n -> ~ recorded h a k -> owned n h = false.
Proof.
  intros L D Ha Hn. apply not_true_iff_false. intros Ho. apply existsb_elem_of in Ho as (m & Hm & <-%Z.eqb_eq).
  destruct (lk_numbers _ _ _ L n Hm) as (b & k' & Hb & Hr). destruct (dn_inj _ D _ _ _ _ _ Ha Hb) as [-> ->]. done.
Qed.
Lemma linked_draining ow ids h : linked ow ids h -> draining h = true.
Proof. intros []. unfold draining. by rewrite lk_state0, lk_kill0. Qed.

(** ** The stages of an attempt, by the records written of it *)

Record trail := Trail {
  tl_state : string; tl_auth : dict; tl_permit : option dict; tl_attempted : option dict; tl_terminal : option dict;
  tl_allow : option dict; tl_release : option dict; tl_terminated : option dict }.
Definition likes (r e : option dict) : Prop :=
  match r, e with Some r, Some e => like r e | None, None => True | _, _ => False end.
Record follows (t : trail) (x : attempt) : Prop := {
  fo_state : at_state x = tl_state t;
  fo_auth : like (at_auth x) (tl_auth t);
  fo_permit : likes (at_permit x) (tl_permit t);
  fo_attempted : likes (at_attempted x) (tl_attempted t);
  fo_terminal : likes (at_terminal x) (tl_terminal t);
  fo_allow : likes (at_allow x) (tl_allow t);
  fo_release : likes (at_release x) (tl_release t);
  fo_terminated : likes (at_terminated x) (tl_terminated t) }.
Definition at_stage (t : trail) (o : option attempt) : Prop := exists x, o = Some x /\ follows t x.
Lemma likes_None r : likes r None -> r = None.
Proof. by destruct r. Qed.
Lemma likes_Some r e : likes r (Some e) -> exists q, r = Some q /\ like q e.
Proof. destruct r as [q|]; [by exists q|done]. Qed.
Ltac likes := repeat match goal with
  | F : likes _ None |- _ => apply likes_None in F
  | F : likes _ (Some _) |- _ => let q := fresh "q" in let Q := fresh "Q" in let E := fresh "E" in
      apply likes_Some in F as (q & E & Q)
  end.
(** What a step makes of the validation. *)
Definition goes (ow : owners) (ids : list string) (a : string) (S : option attempt -> Prop) (r : dict) (h : history) : Prop :=
  exists h', step r h = Ok (inr h') /\ linked ow ids h' /\ S (attempt_of a h').

(** ** One record *)

Section Records.
Context (ow : owners) (ids : list string) (D : distinct_numbers ow) (a : string) (Ha : a ∈ ids).

Lemma like_aid_eq r e : like r e -> aid_of e = a -> aid_of r = a.
Proof. intros L <-. by apply like_aid. Qed.

Lemma goes_blocked (S : option attempt -> Prop) r e h : like r e -> linked ow ids h -> decision_of e = "BLOCKED_BY_POLICY" ->
  match dget "pin" e with Some (VList (VStr f :: _)) => mem_str f ["ipv4"; "ipv6"] = true | _ => True end ->
  S (attempt_of a h) -> goes ow ids a S r h.
Proof.
  intros L K Hd Hp HS. exists (set_active h). rewrite <- (like_decision _ _ L) in Hd.
  rewrite (step_running _ _ _ Hd (lk_state _ _ _ K)) by done. split_and!; [|by apply linked_active|done].
  change (on_active "BLOCKED_BY_POLICY" (aid_of r) r (set_active h)) with (on_blocked r (set_active h)).
  unfold on_blocked. rewrite (linked_draining ow ids) by (by apply linked_active). rewrite (L "pin" eq_refl). cbn [negb].
  destruct (dget "pin" e) as [[| | | | |[|[| | | |f| |] l]|]|]; try done. by rewrite Hp.
Qed.

Lemma goes_auth r e h : stamped r e -> linked ow ids h -> attempt_of a h = None ->
  decision_of e = AUTH -> aid_of e = a -> looks_secret e = false -> fld "epoch" e = VInt 0 ->
  ow a KAuth = Some (int_of "lifecycle_seq" e) ->
  goes ow ids a (at_stage (Trail "AUTHORIZED" e None None None None None None)) r h.
Proof.
  intros Hr K Hn Hd Hi Hs He Ho. pose proof (stamped_like _ _ Hr) as L. apply linked_active in K.
  pose proof (like_int _ _ L "lifecycle_seq" eq_refl) as En. rewrite <- (like_decision _ _ L) in Hd.
  set (x := Attempt "AUTHORIZED" r None None None None None false None).
  exists (set_attempt a x (own (int_of "lifecycle_seq" e) (set_active h))).
  rewrite (step_running _ r h Hd (lk_state _ _ _ K)), (like_aid_eq _ _ L Hi) by done. split_and!.
  - change (on_active AUTH a r (set_active h)) with (on_auth a r (set_active h)). unfold on_auth.
    assert (owned (int_of "lifecycle_seq" e) (set_active h) = false) as Hown.
    { eapply unowned; [done|done|exact Ho|]. intros (y & Hy & _). change (attempt_of a h = Some y) in Hy. congruence. }
    rewrite (linked_draining _ _ _ K), En, (stamped_secret _ _ Hr Hs), Hown, (lk_state _ _ _ K).
    change (attempt_of a (set_active h)) with (attempt_of a h). rewrite Hn. done.
  - apply (linked_own ow ids (set_attempt a x (set_active h)) a KAuth _); [|done|].
    + apply linked_set; [done|done| |by intros y Hy; change (attempt_of a h = Some y) in Hy; congruence].
      split; subst x; cbn [at_auth at_late at_permit at_release]; try done; [by rewrite (like_fld _ _ L)|by rewrite En].
    + exists x. by rewrite set_attempt_eq.
  - rewrite set_attempt_eq. exists x. by split.
Qed.

Lemma goes_permit r A e h : stamped r e -> linked ow ids h ->
  at_stage (Trail "AUTHORIZED" A None None None None None None) (attempt_of a h) ->
  decision_of e = PERMIT -> aid_of e = a ->
  forallb (fun k => same k e A) ["conn_id"; "epoch"; "policy_generation"; "budget_binding"] = true ->
  ow a KPermit = Some (int_of "lifecycle_seq" e) ->
  goes ow ids a (at_stage (Trail "PERMITTED" A (Some e) None None None None None)) r h.
Proof.
  intros Hr K (x & Hx & [F1 F2 F3 F4 F5 F6 F7 F8]) Hd Hi Hsame Ho. cbn in *. likes.
  pose proof (stamped_like _ _ Hr) as L. apply linked_active in K. change (attempt_of a (set_active h) = Some x) in Hx.
  pose proof (like_int _ _ L "lifecycle_seq" eq_refl) as En. rewrite <- (like_decision _ _ L) in Hd.
  destruct (lk_attempts _ _ _ K a x Hx) as [A1 A2 A3 A4 A5].
  set (y := Attempt "PERMITTED" (at_auth x) (Some r) (at_attempted x) (at_terminal x) (at_allow x) (at_release x) false
              (at_terminated x)).
  exists (set_attempt a y (own (int_of "lifecycle_seq" e) (set_active h))).
  rewrite (step_running _ r h Hd (lk_state _ _ _ K)), (like_aid_eq _ _ L Hi) by done. split_and!.
  - change (on_active PERMIT a r (set_active h)) with (on_permit a r (set_active h)). unfold on_permit.
    assert (owned (int_of "lifecycle_seq" e) (set_active h) = false) as Hown.
    { eapply unowned; [done|done|exact Ho|]. intros (z & Hz & Hp). rewrite Hx in Hz. injection Hz as <-. rewrite F3 in Hp. by destruct Hp. }
    rewrite (linked_draining _ _ _ K), Hx, F1, A2, En, Hown, (lk_cancel _ _ _ K). cbn [negb orb String.eqb Ascii.eqb Bool.eqb].
    cbn [forallb] in Hsame |- *. rewrite !(like_same _ _ _ _ _ L F2) by done. rewrite Hsame. cbn [negb].
    assert ((int_of "lifecycle_seq" e <=? int_of "lifecycle_seq" (at_auth x)) = false) as -> by (apply Z.leb_gt; by eapply (dn_permit _ D a)).
    done.
  - apply (linked_own ow ids (set_attempt a y (set_active h)) a KPermit _); [|done|].
    + apply linked_set; [done|done| |].
      * split; subst y; cbn [at_auth at_late at_permit at_release]; try done. by intros p [= <-]; rewrite En.
      * intros z Hz. rewrite Hx in Hz. injection Hz as <-. split; [by eexists|done].
    + exists y. rewrite set_attempt_eq. split; [done|by eexists].
  - rewrite set_attempt_eq. exists y. split; [done|]. split; cbn [tl_state tl_auth tl_permit tl_attempted tl_terminal tl_allow tl_release tl_terminated at_state at_auth at_permit at_attempted at_terminal at_allow at_release at_terminated y]; try done; by rewrite ?F4, ?F5, ?F6, ?F7, ?F8.
Qed.

(** A move that gives out no number. *)
Lemma linked_moves x y h : linked ow ids h -> attempt_of a h = Some x -> at_auth y = at_auth x -> at_permit y = at_permit x ->
  at_release y = at_release x -> at_late y = false -> linked ow ids (set_attempt a y h).
Proof.
  intros K Hx E1 E2 E3 E4. destruct (lk_attempts _ _ _ K a x Hx) as [A1 A2 A3 A4 A5]. apply linked_set; [done|done| |].
  - split; rewrite ?E1, ?E2, ?E3; done.
  - intros z Hz. rewrite Hx in Hz. injection Hz as <-. by rewrite E2, E3.
Qed.
Ltac trail y := rewrite set_attempt_eq; exists y; split; [done|]; split;
  cbn [tl_state tl_auth tl_permit tl_attempted tl_terminal tl_allow tl_release tl_terminated at_state at_auth at_permit
       at_attempted at_terminal at_allow at_release at_terminated y]; try done;
  repeat match goal with E : _ = None |- _ => rewrite E end; repeat match goal with E : _ = Some _ |- _ => rewrite E end; try done.

Lemma goes_attempted r A P e h : stamped r e -> linked ow ids h ->
  at_stage (Trail "PERMITTED" A (Some P) None None None None None) (attempt_of a h) ->
  decision_of e = ATTEMPTED -> aid_of e = a ->
  py_eqb (fld "permit_seq" e) (fld "lifecycle_seq" P) && same "conn_id" e P && same "epoch" e P && same "pin_ip" e A &&
    same "pin_port" e A = true ->
  goes ow ids a (at_stage (Trail "ATTEMPTED" A (Some P) (Some e) None None None None)) r h.
Proof.
  intros Hr K (x & Hx & [F1 F2 F3 F4 F5 F6 F7 F8]) Hd Hi Hb. cbn in *. likes.
  pose proof (stamped_like _ _ Hr) as L. apply linked_active in K. change (attempt_of a (set_active h) = Some x) in Hx.
  rewrite <- (like_decision _ _ L) in Hd.
  set (y := Attempt "ATTEMPTED" (at_auth x) (at_permit x) (Some r) (at_terminal x) (at_allow x) (at_release x) (at_late x) (at_terminated x)).
  exists (set_attempt a y (set_active h)).
  rewrite (step_running _ r h Hd (lk_state _ _ _ K)), (like_aid_eq _ _ L Hi) by done. split_and!.
  - change (on_active ATTEMPTED a r (set_active h)) with (on_attempted a r (set_active h)). unfold on_attempted.
    rewrite (lk_state _ _ _ K), Hx, F1. rewrite E. cbn [negb default]. rewrite bool_decide_true by done. cbn [negb String.eqb Ascii.eqb Bool.eqb].
    rewrite !(like_same _ _ _ _ _ L F2), !(like_same _ _ _ _ _ L Q) by done.
    rewrite (like_fld _ _ L), (like_fld _ _ Q), Hb by done. cbn [negb]. unfold y. by rewrite E.
  - eapply linked_moves; [done|done|done|done|done|]. by destruct (lk_attempts _ _ _ K a x Hx).
  - trail y.
Qed.

(** The terminal record: after the intent alone, after the permit, after the attempt. *)
Lemma goes_terminal r A P T e h d st : stamped r e -> linked ow ids h ->
  at_stage (Trail st A P T None None None None) (attempt_of a h) ->
  decision_of e = d -> aid_of e = a -> d ∈ TERMINAL -> legal_terminal st d = true ->
  same "conn_id" e A = true -> same "epoch" e A = true ->
  match P with Some p => py_eqb (fld "permit_seq" e) (fld "lifecycle_seq" p) | None => negb (dmem "permit_seq" e) end = true ->
  goes ow ids a (at_stage (Trail d A P T (Some e) None None None)) r h.
Proof.
  intros Hr K (x & Hx & [F1 F2 F3 F4 F5 F6 F7 F8]) Hd Hi Ht Hl Hc He Hp. cbn in *. likes.
  pose proof (stamped_like _ _ Hr) as L. apply linked_active in K. change (attempt_of a (set_active h) = Some x) in Hx.
  rewrite <- (like_decision _ _ L) in Hd.
  set (y := Attempt d (at_auth x) (at_permit x) (at_attempted x) (Some r) (at_allow x) (at_release x) (at_late x) (at_terminated x)).
  exists (set_attempt a y (set_active h)). assert (mem_str d startup_decisions = false) as Hs.
  { unfold TERMINAL in Ht. repeat (apply elem_of_cons in Ht as [->|Ht]; [done|]). by apply not_elem_of_nil in Ht. }
  rewrite (step_running _ r h Hd (lk_state _ _ _ K) Hs), (like_aid_eq _ _ L Hi). split_and!.
  - assert (on_active d a r (set_active h) = on_terminal d a r (set_active h)) as ->.
    { clear - Ht. unfold TERMINAL in Ht. repeat (apply elem_of_cons in Ht as [->|Ht]; [done|]). by apply not_elem_of_nil in Ht. }
    unfold on_terminal. rewrite (linked_draining _ _ _ K), Hx, F1, Hl. cbn [negb].
    rewrite !(like_same _ _ _ _ _ L F2), Hc, He by done. cbn [negb andb].
    assert (match at_permit x with Some p => negb (py_eqb (fld "permit_seq" r) (fld "lifecycle_seq" p)) | None => dmem "permit_seq" r end = false)
      as Hpn; [|by rewrite Hpn].
    destruct (at_permit x) as [p|], P as [p'|]; try done; [|rewrite (like_dmem _ _ L) by done; by apply negb_true_iff].
    apply negb_false_iff. by rewrite (like_fld _ _ L), (like_fld _ _ F3).
  - eapply linked_moves; [done|done|done|done|done|]. by destruct (lk_attempts _ _ _ K a x Hx).
  - trail y.
Qed.

(** What the ALLOW record is compared with. *)
Definition allow_fits (e A T : dict) : bool := allow_valid e (Attempt "" A None (Some []) None None None false None) T.
Lemma allow_like r e x A q T : like r e -> like (at_auth x) A -> like q T -> is_Some (at_attempted x) ->
  allow_valid r x q = allow_fits e A T.
Proof.
  intros L LA LT [t Et]. unfold allow_fits, allow_valid. rewrite Et. cbn [at_auth at_attempted is_some].
  rewrite (like_str _ _ LA "request_intent_digest"), (like_str _ _ LA "credential_ref"), (like_str _ _ LA "canonical_host"),
    (like_fld _ _ LA "canonical_host"), !(like_same _ _ _ _ _ L LA), !(like_same _ _ _ _ _ L LT), !(like_str _ _ L), !(like_fld _ _ L) by done.
  reflexivity.
Qed.
Lemma goes_allow r A P t T e h : stamped r e -> linked ow ids h ->
  at_stage (Trail COMPLETED A P (Some t) (Some T) None None None) (attempt_of a h) ->
  decision_of e = "ALLOW" -> aid_of e = a -> decision_of T = COMPLETED -> allow_fits e A T = true ->
  goes ow ids a (at_stage (Trail COMPLETED A P (Some t) (Some T) (Some e) None None)) r h.
Proof.
  intros Hr K (x & Hx & [F1 F2 F3 F4 F5 F6 F7 F8]) Hd Hi HT Hf. cbn in *. likes.
  pose proof (stamped_like _ _ Hr) as L. apply linked_active in K. change (attempt_of a (set_active h) = Some x) in Hx.
  rewrite <- (like_decision _ _ L) in Hd.
  set (y := Attempt (at_state x) (at_auth x) (at_permit x) (at_attempted x) (at_terminal x) (Some r) (at_release x) (at_late x) (at_terminated x)).
  exists (set_attempt a y (set_active h)).
  rewrite (step_running _ r h Hd (lk_state _ _ _ K)), (like_aid_eq _ _ L Hi) by done. split_and!.
  - change (on_active "ALLOW" a r (set_active h)) with (on_allow a r (set_active h)). unfold on_allow.
    assert (completed x = true) as Hc.
    { unfold completed. rewrite E, (like_decision _ _ Q), HT. apply String.eqb_refl. }
    rewrite (linked_draining _ _ _ K), Hx, Hc, F6. cbn [negb is_some].
    rewrite (allow_like r e x A _ T L F2), Hf by (rewrite ?E, ?E0; done). done.
  - eapply linked_moves; [done|done|done|done|done|]. by destruct (lk_attempts _ _ _ K a x Hx).
  - trail y.
Qed.

Lemma goes_release r A P t T w e h st tm : stamped r e -> linked ow ids h ->
  at_stage (Trail st A (Some P) t (Some T) w None tm) (attempt_of a h) ->
  decision_of e = PERMIT_RELEASED -> aid_of e = a -> (decision_of T = COMPLETED -> is_Some w) ->
  same "conn_id" e P && same "epoch" e P && py_eqb (fld "permit_seq" e) (fld "lifecycle_seq" P) = true ->
  ow a KRelease = Some (int_of "lifecycle_seq" e) ->
  goes ow ids a (at_stage (Trail st A (Some P) t (Some T) w (Some e) tm)) r h.
Proof.
  intros Hr K (x & Hx & [F1 F2 F3 F4 F5 F6 F7 F8]) Hd Hi Hw Hb Ho. cbn in *. likes.
  pose proof (stamped_like _ _ Hr) as L. apply linked_active in K. change (attempt_of a (set_active h) = Some x) in Hx.
  pose proof (like_int _ _ L "lifecycle_seq" eq_refl) as En. rewrite <- (like_decision _ _ L) in Hd.
  destruct (lk_attempts _ _ _ K a x Hx) as [A1 A2 A3 A4 A5].
  set (y := Attempt (at_state x) (at_auth x) (at_permit x) (at_attempted x) (at_terminal x) (at_allow x) (Some r) (at_late x) (at_terminated x)).
  exists (set_attempt a y (own (int_of "lifecycle_seq" e) (set_active h))).
  rewrite (step_running _ r h Hd (lk_state _ _ _ K)), (like_aid_eq _ _ L Hi) by done. split_and!.
  - change (on_active PERMIT_RELEASED a r (set_active h)) with (on_release a r (set_active h)). unfold on_release.
    assert (owned (int_of "lifecycle_seq" e) (set_active h) = false) as Hown.
    { eapply unowned; [done|done|exact Ho|]. intros (z & Hz & Hp). rewrite Hx in Hz. injection Hz as <-. rewrite F7 in Hp. by destruct Hp. }
    assert (completed x && negb (is_some (at_allow x)) = false) as Hca.
    { unfold completed. rewrite E, (like_decision _ _ Q). destruct (String.eqb_spec (decision_of T) COMPLETED) as [Hc|]; [|done].
      destruct (Hw Hc) as [v ->]. by destruct (at_allow x). }
    rewrite (linked_draining _ _ _ K), Hx, En. rewrite E0, E, Hca, F7. cbn [negb is_some].
    rewrite !(like_same _ _ _ _ _ L Q0), (like_fld _ _ L), (like_fld _ _ Q0), Hb by done. cbn [negb].
    assert ((int_of "lifecycle_seq" e <=? int_of "lifecycle_seq" q0) = false) as ->.
    { apply Z.leb_gt. eapply (dn_release _ D a); [by apply A4|done]. }
    rewrite Hown. unfold y. by rewrite E, E0.
  - apply (linked_own ow ids (set_attempt a y (set_active h)) a KRelease _); [|done|].
    + apply linked_set; [done|done| |].
      * split; subst y; cbn [at_auth at_late at_permit at_release]; try done. by intros l [= <-]; rewrite En.
      * intros z Hz. rewrite Hx in Hz. injection Hz as <-. split; [done|by eexists].
    + exists y. rewrite set_attempt_eq. split; [done|by eexists].
  - trail y.
Qed.

Lemma goes_terminated r A P t T e h : stamped r e -> linked ow ids h ->
  at_stage (Trail UNKNOWN A P (Some t) (Some T) None None None) (attempt_of a h) ->
  decision_of e = "CONNECTION_TERMINATED" -> aid_of e = a -> decision_of T = UNKNOWN ->
  same "conn_id" e A && same "method" e A &&
    py_eqb (fld "pin" e) (VList [fld "pin_family" A; fld "pin_ip" A; fld "pin_port" A]) &&
    same "bytes_streamed" T e && startswith ("https://" ++ str_of "canonical_host" A) (str_of "url" e) = true ->
  goes ow ids a (at_stage (Trail UNKNOWN A P (Some t) (Some T) None None (Some e))) r h.
Proof.
  intros Hr K (x & Hx & [F1 F2 F3 F4 F5 F6 F7 F8]) Hd Hi HT Hb. cbn in *. likes.
  pose proof (stamped_like _ _ Hr) as L. apply linked_active in K. change (attempt_of a (set_active h) = Some x) in Hx.
  rewrite <- (like_decision _ _ L) in Hd.
  set (y := Attempt (at_state x) (at_auth x) (at_permit x) (at_attempted x) (at_terminal x) (at_allow x) (at_release x) (at_late x) (Some r)).
  exists (set_attempt a y (set_active h)).
  rewrite (step_running _ r h Hd (lk_state _ _ _ K)), (like_aid_eq _ _ L Hi) by done. split_and!.
  - change (on_active "CONNECTION_TERMINATED" a r (set_active h)) with (on_terminated a r (set_active h)). unfold on_terminated.
    rewrite (linked_draining _ _ _ K), Hx. rewrite E0, E, F8. cbn [negb is_some orb default id].
    rewrite (like_decision _ _ Q), HT. cbn [negb String.eqb Ascii.eqb Bool.eqb UNKNOWN].
    assert (termination_bound r q x = true) as ->; [|unfold y; by rewrite E, E0].
    unfold termination_bound. etrans; [|exact Hb]. rewrite !(like_same _ _ _ _ _ L F2), (like_same _ _ _ _ _ Q L), (like_fld _ _ L "pin"),
      !(like_fld _ _ F2), (like_str _ _ F2), (like_str _ _ L) by done. reflexivity.
  - eapply linked_moves; [done|done|done|done|done|]. by destruct (lk_attempts _ _ _ K a x Hx).
  - trail y.
Qed.
End Records.

(** ** The file a run leaves, as the verifier loads it

    A log file made of successful writes only is what [load_and_verify] reads
    back: the records as they were stamped, each in the order of its keys.  Where
    no secret is redacted, those are the entries but for what the log stamps. *)

(** ** Nothing to redact *)

Fixpoint free_of (secrets : list string) (v : val) : Prop :=
  match v with
  | VStr s => forall x, x ∈ secrets -> x = "" \/ contains x s = false
  | VList l => foldr (fun u P => free_of secrets u /\ P) True l
  | VDict d => foldr (fun kv P => free_of secrets kv.2 /\ P) True d
  | _ => True
  end.
Lemma scrub_str_free secrets s : (forall x, x ∈ secrets -> x = "" \/ contains x s = false) -> scrub_str secrets s = s.
Proof.
  unfold scrub_str. induction secrets as [|x secrets IH]; cbn [foldl]; intros Hs; [done|].
  assert (negb (String.eqb x "") && contains x s = false) as ->.
  { destruct (Hs x) as [->|Hc]; [by left|done|]. rewrite Hc. apply andb_false_r. }
  apply IH. intros y Hy. apply Hs. by right.
Qed.
Lemma scrub_free secrets v : free_of secrets v -> scrub secrets v = v.
Proof.
  induction v as [|b|z|f|s|l HL|d HD] using val_ind'; cbn [free_of scrub]; try done.
  - intros Hs. by rewrite scrub_str_free.
  - intros Hl. f_equal. induction HL as [|v l Hv HL IH]; [done|]. cbn in *. destruct Hl as [H1 H2]. by rewrite Hv, IH.
  - intros Hl. f_equal. induction HD as [|[k v] d Hv HD IH]; [done|]. cbn in *. destruct Hl as [H1 H2]. by rewrite Hv, IH.
Qed.
Lemma free_clean secrets e : free_of secrets (VDict e) -> clean secrets e.
Proof. intros He%scrub_free. cbn [scrub] in He. by injection He. Qed.
Lemma free_fewer secrets secrets' v : (forall x, x ∈ secrets -> x ∈ secrets') -> free_of secrets' v -> free_of secrets v.
Proof.
  intros Hin. induction v as [|b|z|f|s|l HL|d HD] using val_ind'; cbn [free_of]; try done.
  - intros Hs x Hx. by apply Hs, Hin.
  - induction HL as [|v l Hv HL IH]; [done|]. cbn. intros [H1 H2]. auto.
  - induction HD as [|[k v] d Hv HD IH]; [done|]. cbn. intros [H1 H2]. auto.
Qed.

Lemma free_none v : free_of [] v.
Proof.
  induction v as [|b|z|f|s|l HL|d HD] using val_ind'; cbn [free_of]; try done.
  - by intros x Hx%not_elem_of_nil.
  - by induction HL.
  - by induction HD.
Qed.

(** ** One record *)

Section Log.
Context `{Digest}.

(** The clock of a write. *)
Definition ticking (io : wio) : Prop := wf (io_time io) /\ is_number (io_time io) = true /\ isfinite (io_time io) = Ok true.
Lemma canon_number v : is_number v = true -> canon v = v /\ walk v = false.
Proof. by destruct v. Qed.
Lemma dget_unique k v d : NoDup (dkeys d) -> (k, v) ∈ d -> dget k d = Some v.
Proof.
  induction d as [|[k' v'] d IH]; cbn; [by intros _ Hn%not_elem_of_nil|]. intros [Hk Hd]%NoDup_cons [E|Hin]%elem_of_cons.
  - injection E as -> ->. by rewrite String.eqb_refl.
  - destruct (String.eqb_spec k k') as [->|]; [|by apply IH]. destruct Hk. by apply (list_elem_of_fmap_2 fst _ (k', v)).
Qed.
Lemma conforms_wf e : conforms e -> wf (VDict e).
Proof.
  intros (d & req & all & _ & _ & _ & _ & Hty & Hn%bool_decide_eq_true & _). constructor; [done|].
  eapply Forall_impl; [exact Hty|]. intros [k v] Hk. by apply typed_plain in Hk as (_ & ? & _).
Qed.
(** What is read back of a conforming entry is stamped, as [Conform] has it. *)
Lemma read_back io e l : conforms e -> clean (l_redact l) e -> is_hex64 (l_prev l) = true -> ticking io ->
  stamped_in (l_run_id l) (canon_d (stamp io e l)) e.
Proof.
  intros Hc Hcl Hp (Hwt & Hnum & Hfin). destruct (stamp_stamps io e l Hcl Hp Hnum Hfin) as [L K W R T P].
  pose proof (conforms_wf e Hc) as Hwf. pose proof (wf_stamp io e l Hwf Hwt) as Hws.
  assert (NoDup (dkeys (stamp io e l))) as Hn by by inversion Hws.
  destruct Hc as (d & req & all & _ & _ & _ & _ & Hty & _ & _). apply typed_known in Hty.
  assert (forall k, dget k (canon_d (stamp io e l)) = dget k (stamp io e l)) as Hg.
  { intros k. rewrite dget_canon_d by done. destruct (dget k (stamp io e l)) as [v|] eqn:E; [|done]. cbn. f_equal.
    destruct (mem_str k stamped_keys) eqn:Ek.
    - apply mem_str_spec in Ek. destruct T as (ts & T & Hts & _), P as (pv & P & _).
      repeat (apply elem_of_cons in Ek as [->|Ek]; [rewrite ?T, ?R, ?P in E; injection E as <-; first [by apply canon_number|done]|]).
      by apply not_elem_of_nil in Ek.
    - rewrite L in E by done. by apply Hty, typed_plain in E as (? & _). }
  assert (forall k, k ∈ dkeys (canon_d (stamp io e l)) -> k ∈ dkeys (stamp io e l)) as Hk.
  { intros k. unfold canon_d, dkeys. rewrite sort_keys_Permutation. by rewrite (dkeys_map canon). }
  split; try (by setoid_rewrite Hg).
  - intros k Hks. rewrite Hg. by apply L.
  - intros k Hks. by apply K, Hk.
  - intros He. cbn [walk]. apply orb_false_iff. split; apply not_true_iff_false; rewrite existsb_elem_of; intros ([k v] & Hin & Hf); cbn [fst snd] in Hf.
    + assert (k ∈ dkeys (canon_d (stamp io e l))) as Hkk by by apply (list_elem_of_fmap_2 fst _ (k, v)).
      apply Hk, K in Hkk as [Hkk|Hkk].
      * repeat (apply elem_of_cons in Hkk as [->|Hkk]; [done|]). by apply not_elem_of_nil in Hkk.
      * cbn [walk] in He. apply orb_false_iff in He as [He _]. apply not_true_iff_false in He. destruct He. apply existsb_elem_of.
        apply list_elem_of_fmap in Hkk as ([k' v'] & -> & Hin'). by exists (k', v').
    + apply dget_unique in Hin; [|by apply NoDup_canon_d]. rewrite Hg in Hin. destruct (mem_str k stamped_keys) eqn:Ek.
      * apply mem_str_spec in Ek. destruct T as (ts & T & Hts & _), P as (pv & P & _).
        repeat (apply elem_of_cons in Ek as [->|Ek]; [rewrite ?T, ?R, ?P in Hin; injection Hin as <-;
          first [done|by rewrite (proj2 (canon_number _ Hts)) in Hf]|]). by apply not_elem_of_nil in Ek.
      * rewrite L in Hin by done. apply Hty, typed_plain in Hin as (_ & _ & Hw). by rewrite Hw in Hf.
Qed.

(** ** The file *)

(** A write that succeeded: what storage and the log were. *)
Record line := Line { ln_io : wio; ln_entry : dict; ln_log : alog }.
Definition text (x : line) : string := line_of (ln_io x) (ln_entry x) (ln_log x).
Definition file_of (xs : list line) : string := foldl (fun f x => f ++ text x ++ String newline "") "" xs.
Definition read_line (x : line) : dict := canon_d (stamp (ln_io x) (ln_entry x) (ln_log x)).
(** Each line was stamped with the hash of the one before. *)
Fixpoint chained (prev : string) (xs : list line) (tail : string) : Prop :=
  match xs with [] => tail = prev | x :: xs => l_prev (ln_log x) = prev /\ chained (sha256 (text x)) xs tail end.
Lemma chained_snoc xs x : forall prev, chained prev xs (l_prev (ln_log x)) -> chained prev (xs ++ [x]) (sha256 (text x)).
Proof. induction xs as [|y xs IH]; intros prev; cbn; [done|]. intros [? ?]. auto. Qed.
Lemma file_of_snoc xs x : file_of (xs ++ [x]) = file_of xs ++ text x ++ String newline "".
Proof. unfold file_of. by rewrite foldl_app. Qed.
Lemma text_printed x : text x = print (VDict (read_line x)).
Proof. done. Qed.
Lemma file_of_lines xs : ends_nl (file_of xs) /\ file_lines (file_of xs) = map text xs.
Proof.
  induction xs as [|x xs [He IH]] using rev_ind; [split; [by left|done]|]. rewrite file_of_snoc. split; [apply ends_nl_append|].
  rewrite file_lines_append; [by rewrite IH, map_app|done|]. rewrite text_printed. apply print_one_line.
Qed.
Lemma lines_load xs : forall prev tail, chained prev xs tail -> Forall (fun x => wf (VDict (ln_entry x)) /\ ticking (ln_io x)) xs ->
  load_lines prev (map text xs) = Some (map read_line xs).
Proof.
  induction xs as [|x xs IH]; intros prev tail; cbn [chained map load_lines]; [done|]. intros [Hp Hc] [[Hw [Ht _]] Hxs]%Forall_cons.
  rewrite text_printed, strip_print_dict, <- text_printed.
  assert (String.eqb (text x) "" = false) as ->.
  { rewrite text_printed. destruct (print_dict_ends (read_line x)) as [s ->]. done. }
  assert (loads (text x) = Some (VDict (read_line x))) as ->.
  { unfold text, line_of. rewrite loads_dumps; [done|]. by apply wf_stamp. }
  assert (fld "prev" (read_line x) = VStr prev) as ->.
  { unfold fld, dget_or, read_line. rewrite dget_canon_d; [by rewrite dget_stamp_prev, Hp|].
    assert (wf (VDict (stamp (ln_io x) (ln_entry x) (ln_log x)))) as Hws by by apply wf_stamp. by inversion Hws. }
  assert (py_eqb (VStr prev) (VStr prev) = true) as -> by apply String.eqb_refl.
  by rewrite (IH _ _ Hc Hxs).
Qed.
Theorem file_loads xs tail : chained GENESIS xs tail -> Forall (fun x => wf (VDict (ln_entry x)) /\ ticking (ln_io x)) xs ->
  load_and_verify (Some (file_of xs)) = Some (map read_line xs).
Proof.
  intros Hc Hxs. unfold load_and_verify. cbn [mbind option_bind]. rewrite (proj2 (file_of_lines xs)). by eapply lines_load.
Qed.
(** The hashes are hexadecimal. *)
Lemma chained_hex prev xs tail : chained prev xs tail -> is_hex64 prev = true -> Forall (fun x => is_hex64 (l_prev (ln_log x)) = true) xs.
Proof.
  revert prev. induction xs as [|x xs IH]; intros prev; cbn; [by constructor|]. intros [E Hc] Hp. constructor; [by rewrite E|].
  apply (IH _ Hc), sha256_hex.
Qed.
End Log.
