(* ===== verification/AcceptedOk.v ===== *)
(** * The handlers against the verifier

    A rely-guarantee logic in which a thread knows the stage its own attempt has
    in the validation of the records written so far, whatever the other handlers
    write in between. *)

From S2P Require Import Prelude.
From S2P Require Import PyStr.
From S2P Require Import Json.
From S2P Require Import JsonFacts.
From S2P Require Import PyDyn.
From S2P Require Import Hash.
From S2P Require Import AuditLog.
From S2P Require Import Addressing.
From S2P Require Import Resolver.
From S2P Require Import Lifecycle.
From S2P Require Import LifecycleFacts.
From S2P Require Import Pdp.
From S2P Require Import PdpProps.
From S2P Require Import Conc.
From S2P Require Import World.
From S2P Require Import Registry.
From S2P Require Import Gateway.
From S2P Require Import VerifyE10.
From S2P Require Import VerifyE10Facts.
From S2P Require Import Conform.
From S2P Require Import ConformProps.
From S2P Require Import Accepted.
Open Scope Z_scope.

(** ** Storage that does what it is asked *)

(** Short writes are fine as long as everything is written in the end. *)
Record good (io : wio) : Prop := {
  gd_open : io_open io = true;
  gd_writes : forall data f, write_all (io_writes io) data f = (f ++ data, true);
  gd_fsync : io_fsync io = true;
  gd_close : io_close io = true;
  gd_time : ticking io }.

Section Ok.
Context `{Digest} `{Idna} (ids : list string).

(** A log that takes records: its registered secrets are texts. *)
Definition writable (l : alog) : Prop := l_healthy l = true /\ l_sealed l = false /\ l_mixed l = false.
(** What it leaves of the log. *)
Record wrote (io : wio) (e : dict) (l l' : alog) : Prop := {
  wr_writable : writable l';
  wr_file : l_file l' = Some (default "" (l_file l) ++ line_of io e l ++ String newline "");
  wr_prev : l_prev l' = sha256 (line_of io e l);
  wr_run : l_run_id l' = l_run_id l; wr_redact : l_redact l' = l_redact l }.
Lemma good_write io e l : good io -> writable l ->
  exists l', write io e l = (l', Ok (sha256 (line_of io e l))) /\ wrote io e l l'.
Proof.
  intros [Ho Hw Hf Hc _] (Hh & Hs & Hm). unfold write. rewrite Hs, Hh, Hm, Ho, Hw, Hf, Hc. cbn [negb andb]. eexists. split; [reflexivity|]. by split.
Qed.

(** ** The invariant *)

Definition entry_of (ev : event) : option dict := match ev with EvRecord e => Some e | _ => None end.
Definition written (w : world) : list dict := omap entry_of (w_trace w).
Definition owner (w : world) (b : string) (k : kind) : option Z :=
  match k with
  | KAuth => snd <$> r_authorizations (w_run w) !! b
  | KPermit => (fun p => g_seq (po_grant p)) <$> w_permits w !! b
  | KRelease => p ← w_permits w !! b; rt_seq <$> po_transition p
  end.
(** The file is what was written, line by line; nothing known as a secret then is
    forgotten. *)
Record of_log (l : alog) (x : line) : Prop := {
  ol_time : ticking (ln_io x); ol_run : l_run_id (ln_log x) = l_run_id l;
  ol_redact : forall s, s ∈ l_redact (ln_log x) -> s ∈ l_redact l }.
Definition filed_as (l : alog) (xs : list line) (es : list dict) : Prop :=
  map ln_entry xs = es /\ (l_file l = Some (file_of xs) \/ (xs = [] /\ l_file l = None)) /\ chained GENESIS xs (l_prev l) /\ Forall (of_log l) xs.
Definition filed (w : world) : Prop := exists xs, filed_as (w_log w) xs (written w).
Record files_alike (l l' : alog) : Prop := {
  la_file : l_file l' = l_file l; la_prev : l_prev l' = l_prev l; la_run : l_run_id l' = l_run_id l;
  la_redact : forall s, s ∈ l_redact l -> s ∈ l_redact l' }.
Record logs_alike (l l' : alog) : Prop := {
  la_writable : writable l -> writable l'; la_kept : files_alike l l' }.
Lemma filed_alike l l' xs es : files_alike l l' -> filed_as l xs es -> filed_as l' xs es.
Proof.
  intros [Ef Ep Er Hs] (E & Hf & Hc & Hx). unfold filed_as. rewrite Ef, Ep. split_and!; [done..|].
  eapply Forall_impl; [exact Hx|]. intros x [? ? ?]. split; [done|congruence|auto].
Qed.
Lemma filed_more io e l l' xs es : good io -> wrote io e l l' -> filed_as l xs es -> filed_as l' (xs ++ [Line io e l]) (es ++ [e]).
Proof.
  intros Hg [_ Ef Ep Er Hs] (E & Hf & Hc & Hx). unfold filed_as. rewrite Ef, Ep. split_and!.
  - by rewrite map_app, E.
  - left. rewrite file_of_snoc. destruct Hf as [->|[-> ->]]; done.
  - by apply (chained_snoc xs (Line io e l)).
  - apply Forall_app. split; [|constructor; [|constructor]].
    + eapply Forall_impl; [exact Hx|]. intros x [? ? Hr]. split; [done|congruence|]. intros s Hin. rewrite Hs. auto.
    + split; cbn; [apply Hg|done|]. intros s. by rewrite Hs.
Qed.
Record acc (w : world) : Prop := {
  ac_file : filed w;
  ac_ios : forall n, good (w_ios w n);
  ac_log : writable (w_log w);
  ac_run : run_inv (w_run w);
  ac_live : r_cancelled (w_run w) = false;
  ac_top : forall b k n, owner w b k = Some n -> 0 < n <= r_sequence (w_run w);
  ac_numbers : distinct_numbers (owner w);
  ac_read : forall rs, Forall2 stamped rs (written w) -> exists h, steps rs history0 = Ok (inr h) /\ linked (owner w) ids h }.

(** Others leave an attempt alone. *)
Record spares (b : string) (w w' : world) : Prop := {
  sp_trace : exists more, w_trace w' = (w_trace w ++ more)%list /\ forall e, EvRecord e ∈ more -> aid_of e <> b;
  sp_auth : r_authorizations (w_run w') !! b = r_authorizations (w_run w) !! b;
  sp_permit : w_permits w' !! b = w_permits w !! b;
  sp_inflight : r_inflight (w_run w') !! b = r_inflight (w_run w) !! b }.
Definition arely (b : string) (w w' : world) : Prop := b <> "" -> spares b w w'.
Definition aguar (a : string) (w w' : world) : Prop := forall b, b <> a -> b <> "" -> spares b w w'.
Lemma spares_refl b w : spares b w w.
Proof. split; try done. exists []. rewrite app_nil_r. split; [done|]. by intros e Hn%not_elem_of_nil. Qed.
Lemma spares_trans b w1 w2 w3 : spares b w1 w2 -> spares b w2 w3 -> spares b w1 w3.
Proof.
  intros [(m1 & T1 & N1) A1 P1 I1] [(m2 & T2 & N2) A2 P2 I2]. split; try congruence.
  exists (m1 ++ m2)%list. split; [by rewrite T2, T1, app_assoc|]. intros e [He|He]%elem_of_app; auto.
Qed.
Lemma arely_refl b w : arely b w w.
Proof. intros _. apply spares_refl. Qed.
Lemma arely_trans b w1 w2 w3 : arely b w1 w2 -> arely b w2 w3 -> arely b w1 w3.
Proof. intros H1 H2 Hb. eapply spares_trans; auto. Qed.
Lemma aguar_arely a b w w' : a <> b -> aguar a w w' -> arely b w w'.
Proof. intros Hne Hg Hb. apply Hg; [congruence|done]. Qed.

(** ** What a thread knows *)

Definition reads (w : world) (rs : list dict) (h : history) : Prop := Forall2 stamped rs (written w) /\ steps rs history0 = Ok (inr h).
Definition know (a : string) (S : option attempt -> Prop) (w : world) : Prop := forall rs h, reads w rs h -> S (attempt_of a h).
Record state (a : string) (S : option attempt -> Prop) (x : option (Z * Z)) (p : option permit) (g : option grant) (w : world) : Prop := {
  sa_know : know a S w;
  sa_auth : r_authorizations (w_run w) !! a = x;
  sa_permit : w_permits w !! a = p;
  sa_inflight : r_inflight (w_run w) !! a = g }.

Lemma steps_foreign a rs : forall h h', steps rs h = Ok (inr h') -> Forall (fun r => aid_of r <> a) rs -> attempt_of a h' = attempt_of a h.
Proof.
  induction rs as [|r rs IH]; intros h h' Hs Hf; cbn in Hs; [by injection Hs as <-|].
  inversion Hf; subst. destruct (step r h) as [[b|h1]|e] eqn:E; cbn in Hs; try done.
  rewrite (IH h1 h' Hs) by done. by eapply step_foreign.
Qed.
(** The history of a longer trace goes on from that of the shorter. *)
Lemma reads_prefix w w' rs' h' more : reads w' rs' h' -> written w' = (written w ++ more)%list ->
  exists rs rm h, rs' = (rs ++ rm)%list /\ Forall2 stamped rm more /\ reads w rs h /\ steps rm h = Ok (inr h').
Proof.
  intros [Hf Hs] Hw. rewrite Hw in Hf. apply Forall2_app_inv_r in Hf as (rs & rm & H1 & H2 & ->).
  rewrite steps_app in Hs. destruct (steps rs history0) as [[b|h]|e] eqn:E; try done. by exists rs, rm, h.
Qed.
Lemma reads_extend w w' rs' h' more : reads w' rs' h' -> written w' = (written w ++ more)%list -> acc w ->
  exists rs rm h, rs' = (rs ++ rm)%list /\ Forall2 stamped rm more /\ reads w rs h /\ linked (owner w) ids h /\ steps rm h = Ok (inr h').
Proof.
  intros Hr Hw Ha. destruct (reads_prefix w w' rs' h' more Hr Hw) as (rs & rm & h & -> & Hm & [H1 Hh] & Hs).
  destruct (ac_read _ Ha rs H1) as (h2 & Hh2 & L). rewrite Hh in Hh2. injection Hh2 as <-. by exists rs, rm, h.
Qed.
Lemma written_app w w' (more : list event) : w_trace w' = (w_trace w ++ more)%list -> written w' = (written w ++ omap entry_of more)%list.
Proof. intros E. unfold written. by rewrite E, omap_app. Qed.
Lemma omap_entries (more : list event) e : e ∈ omap entry_of more -> EvRecord e ∈ more.
Proof. intros (ev & Hin & He)%list_elem_of_omap. destruct ev; try done. by injection He as ->. Qed.
Lemma know_spares a S w w' : spares a w w' -> know a S w -> know a S w'.
Proof.
  intros [(more & T & N) _ _ _] Hk rs' h' Hr.
  destruct (reads_prefix w w' rs' h' _ Hr (written_app _ _ _ T)) as (rs & rm & h & -> & Hm & Hr0 & Hs).
  rewrite (steps_foreign a rm h h' Hs); [by eapply Hk|].
  clear - Hm N. apply Forall_forall. intros r Hin. apply list_elem_of_lookup_1 in Hin as [i Hi].
  destruct (Forall2_lookup_l _ _ _ _ _ Hm Hi) as (e & He & Hse). rewrite (like_aid _ _ (stamped_like _ _ Hse)).
  apply N, omap_entries. by eapply list_elem_of_lookup_2.
Qed.
Lemma state_spares a S x p g w w' : spares a w w' -> state a S x p g w -> state a S x p g w'.
Proof. intros Hs [K A P I]. split; [by eapply know_spares|..]; destruct Hs; congruence. Qed.

(** ** Steps that write nothing *)

Record still (w w' : world) : Prop := {
  sl_ios : w_ios w' = w_ios w;
  sl_log : logs_alike (w_log w) (w_log w');
  sl_run : w_run w' = w_run w;
  sl_permits : w_permits w' = w_permits w;
  sl_trace : exists more, w_trace w' = (w_trace w ++ more)%list /\ omap entry_of more = [] }.
Lemma still_owner w w' : still w w' -> owner w' = owner w.
Proof. intros [_ _ Hr Hp _]. unfold owner. by rewrite Hr, Hp. Qed.
Lemma still_written w w' : still w w' -> written w' = written w.
Proof. intros [_ _ _ _ (more & T & E)]. by rewrite (written_app _ _ _ T), E, app_nil_r. Qed.
Lemma still_acc w w' : still w w' -> acc w -> acc w'.
Proof.
  intros Hs [[xs A0] A1 A2 A3 A4 A5 A6 A7]. pose proof (still_owner _ _ Hs) as Eo. pose proof (still_written _ _ Hs) as Ew.
  destruct Hs as [S1 SL S3 S4 _]. pose proof SL as [S2 SF]. split; rewrite ?Eo, ?Ew, ?S1, ?S3; try done; [|by apply S2].
  exists xs. rewrite Ew. exact (filed_alike _ _ _ _ SF A0).
Qed.
Lemma still_spares b w w' : still w w' -> spares b w w'.
Proof.
  intros [_ _ Hr Hp (more & T & E)]. split; [|by rewrite ?Hr, ?Hp..]. exists more. split; [done|].
  intros e He. assert (e ∈ omap entry_of more) as Hin by (apply list_elem_of_omap; by exists (EvRecord e)).
  rewrite E in Hin. by apply not_elem_of_nil in Hin.
Qed.
Lemma alike_refl l : logs_alike l l.
Proof. split; [done|by split]. Qed.
Lemma still_refl w : still w w.
Proof. split; try done. exists []. by rewrite app_nil_r. Qed.

Context (a : string) (Ha : a ∈ ids) (Hne : a <> "").
Abbreviation okt := (ok arely aguar acc a).
Lemma rely_state S x p g w w1 : arely a w w1 -> state a S x p g w -> state a S x p g w1.
Proof. intros Hr. apply state_spares. by apply Hr. Qed.

(** Rules. The world a thread starts a stage in satisfies the invariant. *)
Definition at_ S x p g (w : world) : Prop := acc w /\ state a S x p g w.
Lemma at_rely S x p g w w1 : at_ S x p g w -> arely a w w1 -> acc w1 -> at_ S x p g w1.
Proof. intros [Hw Hs] Hr H1. split; [done|exact (rely_state _ _ _ _ _ _ Hr Hs)]. Qed.
Lemma at_still S x p g w w1 w2 : at_ S x p g w -> arely a w w1 -> acc w1 -> still w1 w2 -> at_ S x p g w2.
Proof.
  intros Hw Hr H1 Hs. destruct (at_rely _ _ _ _ _ _ Hw Hr H1) as [_ K]. split; [exact (still_acc _ _ Hs H1)|].
  exact (state_spares _ _ _ _ _ _ _ (still_spares a _ _ Hs) K).
Qed.
Lemma o_then {A B} (R : res A -> world -> Prop) (Q : res B -> world -> Prop) (p : thread A) (g : A -> thread B) w :
  okt R p w -> (forall x w', R (Ok x) w' -> okt Q (g x) w') -> (forall e w', R (Raise e) w' -> Q (Raise e) w') -> okt Q (pbind p g) w.
Proof. intros Hp Hg He. apply ok_bind. eapply ok_weaken; [exact Hp|]. intros [x|e] w' Hw'; auto. Qed.
Lemma o_still {A} (P : A -> Prop) (f : world -> world * A) S x p g w :
  (forall w1, acc w1 -> still w1 (f w1).1 /\ P (f w1).2) -> at_ S x p g w ->
  okt (fun r w' => at_ S x p g w' /\ outcome_is P r /\ is_ok r = true) (atomic f) w.
Proof.
  intros Hf Hw w1 Hr Hi. destruct (Hf w1 Hi) as [Hs HP]. split_and!; [|exact (still_acc _ _ Hs Hi)|].
  - intros b _ _. by apply still_spares.
  - cbn. split_and!; [|done|done]. exact (at_still _ _ _ _ _ _ _ Hw Hr Hi Hs).
Qed.
Lemma o_still_res {A} (P : A -> Prop) (f : world -> world * res A) S x p g w :
  (forall w1, acc w1 -> still w1 (f w1).1 /\ outcome_is P (f w1).2) -> at_ S x p g w ->
  okt (fun r w' => at_ S x p g w' /\ outcome_is P r) (atomic_res f) w.
Proof.
  intros Hf Hw w1 Hr Hi. destruct (Hf w1 Hi) as [Hs HP]. split_and!; [|exact (still_acc _ _ Hs Hi)|].
  - intros b _ _. by apply still_spares.
  - assert (at_ S x p g (f w1).1).
    { exact (at_still _ _ _ _ _ _ _ Hw Hr Hi Hs). }
    by destruct (f w1).2.
Qed.
(** A thread all of whose steps are still keeps what is known. *)
Lemma o_always {A} S x p g (q : thread A) w : always still q -> at_ S x p g w -> okt (fun _ w' => at_ S x p g w') q w.
Proof.
  revert w. induction q as [y|e|B f k IH|c k IH]; intros w Hq Hw; cbn in *; [done|done| |].
  - intros w1 Hr Hi. destruct (Hq w1) as [Hs Hk]. split_and!; [intros b _ _; by apply still_spares|exact (still_acc _ _ Hs Hi)|].
    apply IH; [done|]. exact (at_still _ _ _ _ _ _ _ Hw Hr Hi Hs).
  - intros w1 Hr Hi b _. apply IH; [done|]. by eapply at_rely.
Qed.

(** ** Writing a record *)

Lemma emitted e l w : let w' := emit (EvRecord e) (tick (set_log l w)) in
  written w' = (written w ++ [e])%list /\ owner w' = owner w /\ w_run w' = w_run w /\ w_permits w' = w_permits w /\ w_ios w' = w_ios w.
Proof. split_and!; try done. unfold written. cbn. by rewrite omap_app. Qed.
Lemma o_write S S' e x p g w : aid_of e = a \/ aid_of e = "" ->
  (forall r w1 h, acc w1 -> state a S x p g w1 -> stamped r e -> linked (owner w1) ids h -> S (attempt_of a h) -> goes (owner w1) ids a S' r h) ->
  at_ S x p g w -> okt (fun r w' => at_ S' x p g w' /\ is_ok r = true) (audit_write e) w.
Proof.
  intros Hid Hgo [Hw0 Hs0] w1 Hr Hi. pose proof (rely_state _ _ _ _ _ _ Hr Hs0) as Hs.
  destruct (good_write (w_ios w1 (w_nio w1)) e (w_log w1) (ac_ios _ Hi _) (ac_log _ Hi)) as (l' & E & Hwr).
  unfold do_write. rewrite E. cbn [is_ok fst snd]. set (w2 := emit _ _).
  destruct (emitted e l' w1) as (Ew & Eo & Er & Ep & Ei). fold w2 in Ew, Eo, Er, Ep, Ei.
  assert (forall rs h, reads w2 rs h -> linked (owner w1) ids h /\ S' (attempt_of a h)) as Hreads.
  { intros rs' h' Hrd. destruct (reads_extend w1 w2 rs' h' [e] Hrd Ew Hi) as (rs & rm & h & -> & Hm & Hr0 & L & Hst).
    apply Forall2_cons_inv_r in Hm as (r & rm' & Hr1 & Hnil & ->). apply Forall2_nil_inv_r in Hnil as ->.
    destruct (Hgo r w1 h Hi Hs Hr1 L) as (h1 & Hst1 & L1 & HS1); [by eapply (sa_know _ _ _ _ _ _ Hs)|].
    cbn in Hst. rewrite Hst1 in Hst. cbn in Hst. by injection Hst as <-. }
  assert (acc w2) as Hi2.
  { split; rewrite ?Ei, ?Er, ?Eo; try apply Hi; [|by destruct Hwr|].
    { destruct (ac_file _ Hi) as [xs Hxs]. eexists. rewrite Ew. eapply filed_more; [apply (ac_ios _ Hi)|exact Hwr|exact Hxs]. }
    intros rs' Hf. rewrite Ew in Hf.
    apply Forall2_app_inv_r in Hf as (rs & rm & H1 & H2 & ->). destruct (ac_read _ Hi rs H1) as (h & Hh1 & L).
    apply Forall2_cons_inv_r in H2 as (r & rm' & Hr1 & Hnil & ->). apply Forall2_nil_inv_r in Hnil as ->.
    destruct (Hgo r w1 h Hi Hs Hr1 L) as (h1 & Hst1 & L1 & HS1); [eapply (sa_know _ _ _ _ _ _ Hs); by split|].
    exists h1. rewrite (steps_snoc rs r _ h Hh1). by rewrite Hst1. }
  split_and!; [|exact Hi2|].
  - intros b Hb Hbn. split; rewrite ?Er, ?Ep; try done. exists [EvRecord e]. split; [done|].
    intros e' [= ->]%list_elem_of_singleton. destruct Hid as [-> | ->]; congruence.
  - split; [|done]. split; [exact Hi2|]. destruct Hs as [_ A P I]. split; rewrite ?Er, ?Ep; try done.
    intros rs h Hrd. by apply (Hreads rs h Hrd).
Qed.

(** ** Steps that give out a number *)

Lemma filed_same w1 w2 : w_log w2 = w_log w1 -> w_trace w2 = w_trace w1 -> filed w1 -> filed w2.
Proof. intros El Et [xs Hx]. exists xs. unfold written. by rewrite El, Et. Qed.
Lemma acc_alloc k0 w1 w2 : acc w1 -> w_log w2 = w_log w1 -> w_ios w2 = w_ios w1 -> w_trace w2 = w_trace w1 ->
  run_inv (w_run w2) -> r_cancelled (w_run w2) = false -> r_sequence (w_run w2) = r_sequence (w_run w1) + 1 ->
  owner w1 a k0 = None -> owner w2 a k0 = Some (r_sequence (w_run w1) + 1) ->
  (forall b k, (b, k) <> (a, k0) -> owner w2 b k = owner w1 b k) ->
  (k0 = KAuth -> owner w1 a KPermit = None) -> (k0 = KPermit -> owner w1 a KRelease = None) -> acc w2.
Proof.
  intros [A0 A1 A2 A3 A4 A5 [D1 D2 D3] A7] El Ei Et Hr Hc Hs Hn Hnew Hold HA HP.
  assert (forall b k n, owner w2 b k = Some n -> owner w1 b k = Some n \/ (b = a /\ k = k0 /\ n = r_sequence (w_run w1) + 1)) as Hcase.
  { intros b k n Hb. destruct (decide (b = a)) as [->|Hb'].
    - destruct k, k0; first [right; rewrite Hnew in Hb; injection Hb as <-; done | left; rewrite Hold in Hb; [done|congruence]].
    - left. rewrite Hold in Hb; [done|congruence]. }
  split; rewrite ?El, ?Ei; try done; [by apply (filed_same w1)|..].
  - intros b k n [Hb|(-> & -> & ->)]%Hcase; rewrite Hs; [destruct (A5 _ _ _ Hb); lia|]. pose proof (ri_seq _ A3). lia.
  - split.
    + intros b k b' k' n [Hb|(-> & -> & En)]%Hcase [Hb'|(-> & -> & En')]%Hcase; subst; [by eapply D1| | |done];
        match goal with Hx : owner w1 _ _ = Some (_ + 1) |- _ => apply A5 in Hx; lia end.
    + intros b m n [Hb|(-> & Ek & ->)]%Hcase [Hb'|(Eb & Ek' & En')]%Hcase; subst; [by eapply D2|apply A5 in Hb; lia| |done].
      rewrite HA in Hb' by done. done.
    + intros b m n [Hb|(-> & Ek & ->)]%Hcase [Hb'|(Eb & Ek' & En')]%Hcase; subst; [by eapply D3|apply A5 in Hb; lia| |done].
      rewrite HP in Hb' by done. done.
  - intros rs Hf. unfold written in Hf. rewrite Et in Hf. destruct (A7 rs Hf) as (h & Hh & L). exists h. split; [done|].
    eapply linked_more; [exact L|]. intros b k n Hb. destruct (decide (b = a)) as [->|Hb']; [|rewrite Hold; [done|congruence]].
    destruct k, k0; first [congruence | rewrite Hold; [done|congruence]].
Qed.
Lemma acc_same w1 w2 : acc w1 -> w_log w2 = w_log w1 -> w_ios w2 = w_ios w1 -> w_trace w2 = w_trace w1 -> w_run w2 = w_run w1 ->
  (forall b k, owner w2 b k = owner w1 b k) -> acc w2.
Proof.
  intros [A0 A1 A2 A3 A4 A5 [D1 D2 D3] A7] El Ei Et Er Ho. split; rewrite ?El, ?Ei, ?Er; try done; [by apply (filed_same w1)|..].
  - intros b k n. rewrite Ho. apply A5.
  - split; [intros b k b' k' n|intros b m n..]; rewrite !Ho; [apply D1|apply D2|apply D3].
  - intros rs Hf. unfold written in Hf. rewrite Et in Hf. destruct (A7 rs Hf) as (h & Hh & L). exists h. split; [done|].
    eapply linked_more; [exact L|]. intros b k n Hb. by rewrite Ho.
Qed.
Lemma know_trace S w1 w2 : w_trace w2 = w_trace w1 -> know a S w1 -> know a S w2.
Proof. intros Et Hk rs h [Hf Hs]. apply (Hk rs h). unfold reads, written in *. by rewrite Et in Hf. Qed.
Lemma spares_own b w1 w2 : w_trace w2 = w_trace w1 -> r_authorizations (w_run w2) !! b = r_authorizations (w_run w1) !! b ->
  w_permits w2 !! b = w_permits w1 !! b -> r_inflight (w_run w2) !! b = r_inflight (w_run w1) !! b -> spares b w1 w2.
Proof. intros Et. split; try done. exists []. rewrite app_nil_r. split; [done|]. by intros e Hn%not_elem_of_nil. Qed.

Lemma o_authorize S w : at_ S None None None w ->
  okt (fun r w' => exists s, r = Ok (Some s) /\ 0 < s /\ at_ S (Some (0, s)) None None w') (on_run (authorize a 0)) w.
Proof.
  intros [Hw0 Hs0] w1 Hr Hi. destruct (rely_state _ _ _ _ _ _ Hr Hs0) as [K X P G]. pose proof (ac_run _ Hi) as Hri.
  pose proof (ri_epoch _ Hri) as He. rewrite (ac_live _ Hi) in He. pose proof (ri_seq _ Hri) as Hq.
  pose proof (authorize_inv a 0 _ Hri) as Hri'. unfold authorize in *. rewrite (ac_live _ Hi), He, X in *.
  rewrite bool_decide_false in * by (by intros []). cbn [orb negb Z.eqb fst snd] in *. set (w2 := set_run _ w1).
  assert (acc w2) as Hi2.
  { apply (acc_alloc KAuth w1); try done; cbn.
    - by rewrite X.
    - by rewrite lookup_insert_eq.
    - intros b [] Hb; cbn; try done. rewrite lookup_insert_ne; [done|congruence].
    - by rewrite P. }
  split_and!; [|exact Hi2|].
  - intros b Hb _. apply spares_own; cbn; [done| |done|done]. by rewrite lookup_insert_ne.
  - exists (r_sequence (w_run w1) + 1). split_and!; [done|lia|]. split; [exact Hi2|]. split; cbn; [by apply (know_trace S w1)|by rewrite lookup_insert_eq|done|done].
Qed.

(** The permit of the attempt: its grant, and how far its release has come. *)
Definition granted_here (s : Z) (gr : grant) : Prop := g_attempt gr = a /\ g_epoch gr = 0 /\ s < g_seq gr.
Lemma o_issue S s c gen b w : at_ S (Some (0, s)) None None w ->
  okt (fun r w' => match r with
    | Ok (Some gr) => granted_here s gr /\ at_ S (Some (0, s)) (Some (EffectPermit gr false None None None)) (Some gr) w'
    | Ok None => at_ S (Some (0, s)) None None w'
    | Raise _ => False end) (atomic (do_issue a 0 c gen b)) w.
Proof.
  intros [Hw0 Hs0] w1 Hr Hi. pose proof (rely_state _ _ _ _ _ _ Hr Hs0) as [K X P G]. pose proof (ac_run _ Hi) as Hri.
  pose proof (ri_epoch _ Hri) as He. rewrite (ac_live _ Hi) in He.
  unfold do_issue. set (terminal := match w_conns w1 !! c with Some _ => _ | None => _ end).
  pose proof (issue_inv a 0 terminal gen b _ Hri) as Hri'. unfold issue_permit in *. rewrite (ac_live _ Hi), He, X in *.
  cbn [orb negb Z.eqb] in *.
  assert (still w1 (set_run (w_run w1) w1)) as Hst by (split; try done; exists []; by rewrite app_nil_r).
  destruct terminal.
  { split_and!; [by intros bb _ _; apply still_spares|by eapply still_acc|]. cbn. exact (at_still _ _ _ _ _ _ _ (conj Hw0 Hs0) Hr Hi Hst). }
  destruct (bool_decide (a ∈ r_permitted (w_run w1))).
  { split_and!; [by intros bb _ _; apply still_spares|by eapply still_acc|]. cbn. exact (at_still _ _ _ _ _ _ _ (conj Hw0 Hs0) Hr Hi Hst). }
  cbn [fst snd] in *. set (gr := Grant _ _ _ _ _) in *. set (w2 := set_permit _ _ _).
  assert (s < g_seq gr) as Hlt.
  { destruct (ac_top _ Hi a KAuth s) as [_ Htop]; [cbn; by rewrite X|]. cbn. lia. }
  assert (acc w2) as Hi2.
  { apply (acc_alloc KPermit w1); try done; cbn.
    - by rewrite P.
    - by rewrite lookup_insert_eq.
    - intros bb [] Hb; cbn; try done.
      + rewrite lookup_insert_ne; [done|congruence].
      + destruct (decide (bb = a)) as [->|]; [by rewrite P, lookup_insert_eq|by rewrite lookup_insert_ne].
    - by rewrite P. }
  split_and!; [|exact Hi2|].
  - intros bb Hb _. apply spares_own; cbn; [done|done|by rewrite lookup_insert_ne|by rewrite lookup_insert_ne].
  - split; [done|]. split; [exact Hi2|]. split; cbn; [by apply (know_trace S w1)|done|by rewrite lookup_insert_eq|by rewrite lookup_insert_eq].
Qed.
Lemma o_bind S x gr id w : at_ S x (Some (EffectPermit gr false None None None)) (Some gr) w ->
  okt (fun r w' => at_ S x (Some (EffectPermit gr false None None (Some id))) (Some gr) w' /\ is_ok r = true) (bind_durable_release a id) w.
Proof.
  intros [Hw0 Hs0] w1 Hr Hi. pose proof (rely_state _ _ _ _ _ _ Hr Hs0) as [K X P G]. rewrite P. cbn [po_released po_bound po_grant po_transition po_error fst snd].
  set (w2 := set_permit _ _ _). assert (acc w2) as Hi2.
  { apply (acc_same w1); try done. intros b []; cbn; [done|..];
      (destruct (decide (b = a)) as [->|]; [by rewrite P, lookup_insert_eq|by rewrite lookup_insert_ne]). }
  split_and!; [|exact Hi2|].
  - intros bb Hb _. apply spares_own; cbn; [done|done|by rewrite lookup_insert_ne|done].
  - split; [|done]. split; [exact Hi2|]. split; cbn; [by apply (know_trace S w1)|done|by rewrite lookup_insert_eq|done].
Qed.

(** Releasing: the record is written after the number is given out. *)
Definition released_by (gr : grant) (id : option string) (n : Z) : permit :=
  EffectPermit gr true (Some (ReleaseTransition a (g_epoch gr) (g_seq gr) n)) None id.
Lemma o_do_release S x gr id w : g_attempt gr = a -> at_ S x (Some (EffectPermit gr false None None id)) (Some gr) w ->
  okt (fun r w' => exists n, r = Ok (Now (released_by gr id n) (Some (ReleaseTransition a (g_epoch gr) (g_seq gr) n))) /\ g_seq gr < n /\
         at_ S x (Some (released_by gr id n)) None w') (atomic (do_release a)) w.
Proof.
  intros Hg [Hw0 Hs0] w1 Hr Hi. pose proof (rely_state _ _ _ _ _ _ Hr Hs0) as [K X P G]. pose proof (ac_run _ Hi) as Hri.
  unfold do_release. rewrite P. cbn [po_released po_grant po_error po_transition po_bound]. rewrite Hg.
  pose proof (release_inv a _ Hri) as Hri'. unfold release in *. rewrite G in *. cbn [fst snd] in *.
  set (w2 := set_permit _ _ _). assert (acc w2) as Hi2.
  { apply (acc_alloc KRelease w1); try done; cbn.
    - apply (ac_live _ Hi).
    - by rewrite P.
    - by rewrite lookup_insert_eq.
    - intros bb [] Hb; cbn; try done.
      + destruct (decide (bb = a)) as [->|]; [by rewrite P, lookup_insert_eq|by rewrite lookup_insert_ne].
      + rewrite lookup_insert_ne; [done|congruence]. }
  split_and!; [|exact Hi2|].
  - intros bb Hb _. apply spares_own; cbn; [done|done|by rewrite lookup_insert_ne|by rewrite lookup_delete_ne].
  - exists (r_sequence (w_run w1) + 1). split_and!; [done| |].
    + destruct (ac_top _ Hi a KPermit (g_seq gr)) as [_ Htop]; [cbn; by rewrite P|]. lia.
    + split; [exact Hi2|]. split; cbn; [by apply (know_trace S w1)|done|by rewrite lookup_insert_eq|by rewrite lookup_delete_eq].
Qed.
End Ok.
