(* ===== verification/AcceptedRun.v ===== *)
(** * A handler's run, as the verifier reads it

    The stages of a handled connection on the logic of [AcceptedOk]: whatever the
    other handlers do, once a handler has ended its attempt is settled. *)

From S2P Require Import Prelude.
From S2P Require Import PyStr.
From S2P Require Import Json.
From S2P Require Import JsonFacts.
From S2P Require Import PyDyn.
From S2P Require Import Hash.
From S2P Require Import AuditLog.
From S2P Require Import Addressing.
From S2P Require Import Resolver.
From S2P Require Import Lifecycle.
From S2P Require Import LifecycleFacts.
From S2P Require Import Pdp.
From S2P Require Import PdpProps.
From S2P Require Import Conc.
From S2P Require Import World.
From S2P Require Import Registry.
From S2P Require Import Gateway.
From S2P Require Import System.
From S2P Require Import SystemFacts.
From S2P Require Import VerifyE10.
From S2P Require Import VerifyE10Facts.
From S2P Require Import Conform.
From S2P Require Import ConformProps.
From S2P Require Import Accepted.
From S2P Require Import AcceptedOk.
Open Scope Z_scope.

(** ** Steps that write nothing *)

Section Still.
Context `{Digest} `{Idna}.

Lemma still_emit ev w : entry_of ev = None -> still w (emit ev w).
Proof. intros Hev. split; try done. exists [ev]. split; [done|]. cbn. by rewrite Hev. Qed.
Lemma still_trace w w' : still w w' -> forall ev, entry_of ev = None -> still w (emit ev w').
Proof.
  intros [S1 S2 S3 S4 (more & T & E)] ev Hev. split; try done. exists (more ++ [ev])%list. cbn. rewrite T, app_assoc. split; [done|].
  rewrite omap_app, E. cbn. by rewrite Hev.
Qed.
Lemma t_signal ev : entry_of ev = None -> always still (signal ev).
Proof. intros Hev. apply always_atomic. intros w. by apply still_emit. Qed.
Lemma t_healthy : always still audit_healthy.
Proof. intros w. split; [apply still_refl|done]. Qed.
Lemma t_run_id : always still audit_run_id.
Proof. intros w. split; [apply still_refl|done]. Qed.
Lemma still_like w w' : w_ios w' = w_ios w -> w_log w' = w_log w ->
  w_run w' = w_run w -> w_permits w' = w_permits w -> w_trace w' = w_trace w -> still w w'.
Proof. intros ? El ? ? E. split; try done; [rewrite El; apply alike_refl|]. exists []. by rewrite app_nil_r. Qed.
Lemma alike_secret s l : logs_alike l (add_secret s l).
Proof.
  unfold add_secret. destruct (String.eqb s ""); [apply alike_refl|]. destruct (mem_str s (l_redact l)); [apply alike_refl|].
  split; [done|]. split; try done. cbn. intros x Hx. apply elem_of_app. by left.
Qed.
Lemma t_add_secret s : always still (audit_add_secret s).
Proof. intros w. split; [|done]. split; try done; [apply alike_secret|]. exists []. by rewrite app_nil_r. Qed.
Lemma t_new_conn id : always still (new_conn id).
Proof. apply always_atomic. intros w. by apply still_like. Qed.
Lemma t_conn {A} c (d : A) f : always still (on_conn c d f).
Proof.
  apply always_atomic. intros w. destruct (w_conns w !! c) as [x|]; [|apply still_refl]. destruct (f x). by apply still_like.
Qed.
Lemma t_reg {A} (f : registry -> registry * A) : always still (on_reg f).
Proof. apply always_atomic. intros w. destruct (f _). by apply still_like. Qed.
Lemma t_end : always still end_producing.
Proof. apply always_atomic_res. intros w. destruct (end_producer _). by apply still_like. Qed.
Lemma still_ask e w b b' d a q : PDP.decide (pe_policy e) (pe_killed e) (pe_now e) (pe_resolve e) q b = (b', d) ->
  still w (match d with Ok d => emit (EvDecided a q d) (set_budgets b' w) | Raise _ => set_budgets b' w end).
Proof.
  intros _. assert (still w (set_budgets b' w)) by by apply still_like. destruct d; [|done]. by apply still_trace.
Qed.
Lemma t_close c obj : always still (close_connection c obj).
Proof.
  unfold close_connection. apply always_bind; [apply t_conn|intros _]. apply always_bind; [apply t_reg|intros _]. apply t_reg.
Qed.
End Still.

(** ** What a client has to be *)

(** A credential id the verifier takes as a reference: not a bearer token, not
    the word for no credential. *)
Definition plain_cred (s : string) : Prop :=
  s = "" \/ (s <> "none" /\ startswith "bearer " (str_lower s) = false /\ str_any c_isspace s = false).
Record orderly_client `{Idna} (c : client) : Prop := {
  pc_method : forall hd, read_head (cl_chunks c) = Ok (Some hd) -> str_upper (h_method hd) = h_method hd;
  pc_sni : forall s, cl_sni c = Some s -> canonical_host s = Some s;
  pc_cred : plain_cred (header c "X-Strix-Cred");
  pc_secret : forall pol pid host q s, pe_policy (cl_pdp_request c) = Ok pol -> q_cred q = header c "X-Strix-Cred" -> q_cred q <> "" ->
    decide_credential pid pol host q = Ok (Go s) -> exists t, s = VStr t /\ t <> "";
  pc_context : is_ok (cl_up_context c) = true }.

(** An attempt the verifier has nothing left to ask of. *)
Definition settled (o : option attempt) : Prop := forall x, o = Some x ->
  is_Some (at_terminal x) /\ (completed x = true -> is_Some (at_allow x)) /\ (is_Some (at_permit x) -> is_Some (at_release x)).

Lemma eqb_str s : py_eqb (VStr s) (VStr s) = true.
Proof. apply String.eqb_refl. Qed.
Lemma eqb_int z : py_eqb (VInt z) (VInt z) = true.
Proof. apply Z.eqb_refl. Qed.

Section Run.
Context `{Digest} `{Idna} (ids : list string) (a : string) (Ha : a ∈ ids) (Hne : a <> "").
Abbreviation okt := (ok arely aguar (acc ids) a).
Abbreviation at_ := (at_ ids a).

(** ** Rules *)

Definition keeping {A} S x p g (r : res A) (w : world) : Prop := at_ S x p g w /\ is_ok r = true.
Lemma at_mono (S S' : option attempt -> Prop) x p g w : (forall o, S o -> S' o) -> at_ S x p g w -> at_ S' x p g w.
Proof. intros HS [Hw [K A P I]]. split; [done|]. split; try done. intros rs h Hr. apply HS. by eapply K. Qed.
Lemma o_seq {A B} S x p g (Q : res B -> world -> Prop) (q : thread A) k w : okt (keeping S x p g) q w ->
  (forall y w', at_ S x p g w' -> okt Q (k y) w') -> okt Q (pbind q k) w.
Proof. intros Hq Hk. apply ok_bind. eapply ok_weaken; [exact Hq|]. intros [y|e] w' [Hw' E]; [by apply Hk|done]. Qed.
Lemma o_calm {A B} S x p g (Q : res B -> world -> Prop) (q : thread A) k w : at_ S x p g w -> always still q ->
  (forall y w', at_ S x p g w' -> okt Q (k y) w') -> (forall e w', at_ S x p g w' -> Q (Raise e) w') -> okt Q (pbind q k) w.
Proof.
  intros Hw Hq Hk He. apply ok_bind. eapply ok_weaken; [by apply (o_always ids a Hne S x p g)|]. intros [y|e] w' Hw'; [by apply Hk|by apply He].
Qed.
Lemma o_calm_ok {A B} S x p g (Q : res B -> world -> Prop) (f : world -> world * A) k w : at_ S x p g w -> always still (atomic f) ->
  (forall y w', at_ S x p g w' -> okt Q (k y) w') -> okt Q (pbind (atomic f) k) w.
Proof.
  intros Hw Hq Hk. eapply o_seq; [|exact Hk]. eapply ok_weaken; [eapply (o_still ids a Hne (fun _ => True)); [|exact Hw]|].
  - intros w1 _. split; [|done]. apply Hq.
  - by intros r w' (? & _ & ?).
Qed.
Lemma o_stay {A} S x p g (y : A) w : at_ S x p g w -> okt (keeping S x p g) (Ret y) w.
Proof. by split. Qed.

(** ** Denials *)

Lemma o_blocked S x p g e w : at_ S x p g w -> decision_of e = "BLOCKED_BY_POLICY" -> aid_of e = "" ->
  match dget "pin" e with Some (VList (VStr f :: _)) => mem_str f ["ipv4"; "ipv6"] = true | _ => True end ->
  okt (keeping S x p g) (audit_write e) w.
Proof.
  intros Hw Hd Hi Hp. eapply o_write; [done| |..|exact Hw]; [by right|]. intros r w1 h _ _ Hr L HS.
  by eapply goes_blocked; [apply stamped_like| | | |].
Qed.
Lemma o_denial S x p g ev e w : at_ S x p g w -> entry_of ev = None -> decision_of e = "BLOCKED_BY_POLICY" -> aid_of e = "" ->
  dget "pin" e = None -> okt (keeping S x p g) (signal ev;;; audit_write e;;; Ret tt) w.
Proof.
  intros Hw Hev Hd Hi Hp. apply (o_calm_ok S x p g); [done|by apply t_signal|]. intros _ w1 Hw1.
  eapply o_seq; [apply (o_blocked S x p g); [done|done|done|by rewrite Hp]|]. intros _ w2. apply o_stay.
Qed.
Lemma o_deny_plain S x p g reason url method src code who w : at_ S x p g w ->
  okt (keeping S x p g) (deny_plain reason url method src code who) w.
Proof.
  intros Hw. apply o_denial; [done|done|..]; unfold deny_record; destruct who as [[c s]|]; try destruct (String.eqb _ _); reflexivity.
Qed.
Lemma o_deny_tls S x p g reason url method c s w : at_ S x p g w -> okt (keeping S x p g) (deny_tls reason url method c s) w.
Proof. intros Hw. by apply o_denial. Qed.
Lemma o_refuse S x p g t reason w : at_ S x p g w -> okt (keeping S x p g) (refuse t reason) w.
Proof. apply o_deny_tls. Qed.

(** ** The tunnel and its intent *)

Record ready (t : tunnel) (A : dict) : Prop := {
  rd_attempt : cl_attempt (t_client t) = a;
  rd_intent : t_intents t !! a = Some A;
  rd_epoch : t_epoch t = 0;
  rd_sni : forall s, cl_sni (t_client t) = Some s -> s = cs_canonical (t_state t);
  rd_url : exists rest, t_label t = "https://" ++ cs_canonical (t_state t) ++ rest;
  rd_secret : truthy (t_secret t) = negb (String.eqb (header (t_client t) "X-Strix-Cred") "");
  rd_cred : plain_cred (header (t_client t) "X-Strix-Cred");
  rd_context : is_ok (cl_up_context (t_client t)) = true;
  ra_conn : fld "conn_id" A = VStr (cl_conn_id (t_client t));
  ra_epoch : fld "epoch" A = VInt 0;
  ra_program : fld "program_id" A = VStr (cs_program (t_state t));
  ra_method : fld "method" A = VStr (h_method (t_head t));
  ra_host : fld "canonical_host" A = VStr (cs_canonical (t_state t));
  ra_pin : fld "pin_family" A = VStr (pin_family (t_pin t)) /\ fld "pin_ip" A = VStr (pin_ip (t_pin t)) /\
           fld "pin_port" A = VInt (pin_port (t_pin t));
  ra_family : mem_str (pin_family (t_pin t)) ["ipv4"; "ipv6"] = true;
  ra_cred : fld "credential_ref" A = VStr (or_none (header (t_client t) "X-Strix-Cred"));
  ra_digest : fld "request_intent_digest" A = VStr ("sha256:" ++ t_digest t) }.

Lemma same_str k e f s : fld k e = VStr s -> fld k f = VStr s -> same k e f = true.
Proof. unfold same. intros -> ->. apply eqb_str. Qed.
Lemma same_int k e f z : fld k e = VInt z -> fld k f = VInt z -> same k e f = true.
Proof. unfold same. intros -> ->. apply eqb_int. Qed.
Lemma trail_settled st A P t T w l tm o : at_stage (Trail st A P t (Some T) w l tm) o -> (decision_of T = COMPLETED -> is_Some w) ->
  (is_Some P -> is_Some l) -> settled o.
Proof.
  intros (x & -> & [F1 F2 F3 F4 F5 F6 F7 F8]) Hw Hl y [= <-]. cbn in *. apply likes_Some in F5 as (q & E & Q). split_and!.
  - by exists q.
  - unfold completed. rewrite E, (like_decision _ _ Q). intros Hc%String.eqb_eq. destruct (Hw Hc) as [v ->]. destruct (at_allow x); [by eexists|done].
  - intros [p Hp]. rewrite Hp in F3. destruct P as [P|]; [|done]. destruct Hl as [v ->]; [by eexists|]. destruct (at_release x); [by eexists|done].
Qed.

(** ** Outcomes *)

Lemma o_settle S S' gi r id outcome extra x p g w : let e := settle_record gi r id outcome extra in
  aid_of e = a ->
  (forall r w1 h, acc ids w1 -> state a S x p g w1 -> stamped r e -> linked (owner w1) ids h -> S (attempt_of a h) -> goes (owner w1) ids a S' r h) ->
  at_ S x p g w -> okt (keeping S' x p g) (settle gi r id outcome extra) w.
Proof.
  intros e Hi Hgo Hw. unfold settle. apply ok_catch. apply ok_bind. eapply ok_weaken.
  - apply (o_write ids a Hne S S' e x p g); [by left|exact Hgo|exact Hw].
  - intros [y|y] w' [Hw' E]; [by split|done].
Qed.
(** An attempt that is given up before it has a permit. *)
Lemma o_dropped t A d reason x p g w : ready t A -> d ∈ [FAILED; CANCELLED] ->
  at_ (at_stage (Trail "AUTHORIZED" A None None None None None None)) x p g w ->
  okt (keeping settled x p g) (settle_t t (OfId (cl_attempt (t_client t))) d [("reason", VStr reason)]) w.
Proof.
  intros R Hd Hw. rewrite (rd_attempt _ _ R). unfold settle_t. assert (settle_record (t_intents t) (OfId a) (cl_conn_id (t_client t)) d [("reason", VStr reason)] =
    [("decision", VStr d); ("attempt_id", VStr a); ("conn_id", VStr (cl_conn_id (t_client t))); ("epoch", dget_or "epoch" VNull A); ("reason", VStr reason)]) as E.
  { unfold settle_record. cbn [ref_id]. by rewrite (rd_intent _ _ R). }
  eapply o_settle; [by rewrite E| |exact Hw]. rewrite E. intros r w1 h _ _ Hr L HS. set (e := [_; _; _; _; _]) in *.
  destruct (goes_terminal (owner w1) ids a Ha r A None None e h d "AUTHORIZED" Hr L HS) as (h' & Hs & L' & HS'); try done.
  - unfold TERMINAL. set_solver.
  - repeat (apply elem_of_cons in Hd as [->|Hd]; [done|]). by apply not_elem_of_nil in Hd.
  - by eapply same_str; [|apply (ra_conn _ _ R)].
  - unfold same. change (fld "epoch" e) with (fld "epoch" A). rewrite (ra_epoch _ _ R). apply eqb_int.
  - exists h'. split_and!; [done..|]. eapply trail_settled; [exact HS'| |by intros []].
    intros Hc. change (decision_of e) with d in Hc. subst d. clear - Hd. unfold FAILED, CANCELLED, COMPLETED in Hd. set_solver.
Qed.

(** ** Under a permit *)

Definition permit_of (gr : grant) (gen b : string) (t : tunnel) : dict := permit_record a (cl_conn_id (t_client t)) 0 gr gen b.
Definition core_keys : list string := ["decision"; "attempt_id"; "conn_id"; "epoch"; "permit_seq"].
(** An attempt that only has to release its permit. *)
Definition owes (A P : dict) (o : option attempt) : Prop := exists st t T w tm,
  at_stage (Trail st A (Some P) t (Some T) w None tm) o /\ (decision_of T = COMPLETED -> is_Some w).

Section Permitted.
Context (t : tunnel) (A : dict) (R : ready t A) (gr : grant) (seq : Z) (G : granted_here a seq gr) (gen b : string).
Context (x : option (Z * Z)) (p : option permit) (g : option grant).
Let P := permit_of gr gen b t.

Lemma o_outcome tried st d extra w : legal_terminal st d = true -> d ∈ TERMINAL -> Forall (fun kv => kv.1 ∉ core_keys) extra ->
  at_ (at_stage (Trail st A (Some P) tried None None None None)) x p g w ->
  okt (keeping (at_stage (Trail d A (Some P) tried (Some (settle_record (t_intents t) (OfPermit gr) (cl_conn_id (t_client t)) d extra)) None None None)) x p g)
    (settle_t t (OfPermit gr) d extra) w.
Proof.
  intros Hl Hd Hx Hw. destruct G as (G1 & G2 & G3). unfold settle_t. set (e := settle_record _ _ _ _ _).
  assert (forall k, k ∈ core_keys -> dget k e = dget k (settle_record (t_intents t) (OfPermit gr) (cl_conn_id (t_client t)) d [])) as Hg.
  { intros k Hk. unfold e, settle_record. rewrite !dget_dupdate_ne; [done|by constructor|]. eapply Forall_impl; [exact Hx|]. by intros kv Hkv <-. }
  assert (decision_of e = d /\ aid_of e = a /\ fld "conn_id" e = VStr (cl_conn_id (t_client t)) /\ fld "epoch" e = VInt 0 /\
          fld "permit_seq" e = VInt (g_seq gr)) as (E1 & E2 & E3 & E4 & E5).
  { unfold decision_of, str_of, aid_of, fld, dget_or. rewrite !Hg by (unfold core_keys; set_solver). cbn. by rewrite G1, G2. }
  eapply o_settle; [exact E2| |exact Hw]. intros r w1 h _ _ Hr L HS. eapply (goes_terminal _ ids a Ha); [exact Hr|exact L|exact HS|exact E1|exact E2|exact Hd|exact Hl|..].
  - by eapply same_str; [|apply (ra_conn _ _ R)].
  - by eapply same_int; [|apply (ra_epoch _ _ R)].
  - rewrite E5. apply eqb_int.
Qed.
Lemma o_lost tried st d reason w : legal_terminal st d = true -> d ∈ [CANCELLED; UNKNOWN] ->
  at_ (at_stage (Trail st A (Some P) tried None None None None)) x p g w ->
  okt (keeping (owes A P) x p g) (settle_t t (OfPermit gr) d [("reason", VStr reason)]) w.
Proof.
  intros Hl Hd Hw. eapply ok_weaken.
  - eapply o_outcome; [exact Hl|unfold TERMINAL; set_solver| |exact Hw]. apply Forall_cons. split; [cbn; unfold core_keys; set_solver|done].
  - intros r w' [Hw' E]. split; [|done]. eapply at_mono; [|exact Hw']. intros o Ho. do 5 eexists. split; [exact Ho|]. intros Hc. exfalso.
    revert Hc Hd. clear. change (decision_of (settle_record (t_intents t) (OfPermit gr) (cl_conn_id (t_client t)) d [("reason", VStr reason)])) with d.
    intros ->. unfold CANCELLED, UNKNOWN, COMPLETED. set_solver.
Qed.
Lemma o_gone tried st d reason refusal w : legal_terminal st d = true -> d ∈ [CANCELLED; UNKNOWN] ->
  at_ (at_stage (Trail st A (Some P) tried None None None None)) x p g w ->
  okt (keeping (owes A P) x p g) (settle_t t (OfPermit gr) d [("reason", VStr reason)];;; refuse t refusal) w.
Proof. intros Hl Hd Hw. eapply o_seq; [by eapply o_lost|]. intros _ w1. apply o_refuse. Qed.

Lemma url_fits : startswith ("https://" ++ str_of "canonical_host" A) (t_url t) = true.
Proof.
  unfold str_of. rewrite (ra_host _ _ R). unfold t_url. destruct (rd_url _ _ R) as [rest ->].
  replace (("https://" ++ cs_canonical (t_state t) ++ rest) ++ h_path (t_head t))
    with (("https://" ++ cs_canonical (t_state t)) ++ (rest ++ h_path (t_head t))) by (cbn; by rewrite !append_assoc).
  apply prefix_append.
Qed.
Lemma terminated_fits e n T : fld "bytes_streamed" T = VInt n ->
  let r := terminated_record t e n in
  same "conn_id" r A && same "method" r A && py_eqb (fld "pin" r) (VList [fld "pin_family" A; fld "pin_ip" A; fld "pin_port" A]) &&
    same "bytes_streamed" T r && startswith ("https://" ++ str_of "canonical_host" A) (str_of "url" r) = true.
Proof.
  intros HT r. destruct (ra_pin _ _ R) as (E1 & E2 & E3). rewrite !andb_true_iff. split_and!.
  - by eapply same_str; [|apply (ra_conn _ _ R)].
  - by eapply same_str; [|apply (ra_method _ _ R)].
  - rewrite E1, E2, E3. change (fld "pin" r) with (pin_val (t_pin t)). unfold pin_val.
    change (py_eqb (VStr (pin_family (t_pin t))) (VStr (pin_family (t_pin t))) && (py_eqb (VStr (pin_ip (t_pin t))) (VStr (pin_ip (t_pin t))) &&
      (py_eqb (VInt (pin_port (t_pin t))) (VInt (pin_port (t_pin t))) && true)) = true).
    by rewrite !eqb_str, eqb_int.
  - by eapply same_int; [apply HT|].
  - apply url_fits.
Qed.
Lemma expected_hash : match split1 ":" (str_of "request_intent_digest" A) with [_; h] => h | _ => "" end = t_digest t.
Proof. unfold str_of. by rewrite (ra_digest _ _ R). Qed.
Lemma credential_fits : truthy (t_secret t) = negb (String.eqb (str_of "credential_ref" A) "none").
Proof.
  rewrite (rd_secret _ _ R). unfold str_of. rewrite (ra_cred _ _ R). unfold or_none.
  destruct (rd_cred _ _ R) as [-> | (Hn & _)]; [done|]. destruct (String.eqb_spec (header (t_client t) "X-Strix-Cred") ""); [done|].
  by rewrite (proj2 (String.eqb_neq _ _) Hn).
Qed.
Lemma allow_fits_here r T : fld "response_hash" T = VStr (sha256 (rl_body r)) -> fld "upstream_status" T = VInt (rl_status r) ->
  fld "streamed_bytes" T = VInt (total r) -> allow_fits (allow_record t r) A T = true.
Proof.
  intros E1 E2 E3. destruct (ra_pin _ _ R) as (P1 & P2 & P3). unfold allow_fits, allow_valid. cbn [at_auth at_attempted is_some andb].
  set (e := allow_record t r). rewrite expected_hash. rewrite !andb_true_iff. split_and!.
  - by eapply same_str; [|apply (ra_conn _ _ R)].
  - by eapply same_str; [|apply (ra_program _ _ R)].
  - by eapply same_str; [|apply (ra_method _ _ R)].
  - by eapply same_str; [|apply (ra_host _ _ R)].
  - by eapply same_str; [|apply P1].
  - by eapply same_str; [|apply P2].
  - by eapply same_int; [|apply P3].
  - apply String.eqb_refl.
  - by eapply same_str; [|apply E1].
  - by eapply same_int; [|apply E2].
  - by eapply same_int; [|apply E3].
  - done.
  - done.
  - done.
  - rewrite <- credential_fits. change (fld "credential_injected" e) with (VBool (truthy (t_secret t))). by destruct (truthy (t_secret t)).
  - apply url_fits.
  - change (fld "sni" e) with (opt_val VStr (cl_sni (t_client t))). rewrite (ra_host _ _ R).
    destruct (cl_sni (t_client t)) as [sni|] eqn:Es; [|done]. rewrite (rd_sni _ _ R sni Es). apply eqb_str.
Qed.

Abbreviation attempted T0 := (at_stage (Trail "ATTEMPTED" A (Some P) (Some T0) None None None None)).
Lemma o_relay T0 w : at_ (attempted T0) x p g w -> okt (keeping (owes A P) x p g) (inside_relay t gr) w.
Proof.
  intros Hw. unfold inside_relay. set (r := relay _ _ _ _). destruct (rl_failed r) as [e|].
  - eapply o_seq; [eapply (o_outcome (Some T0) "ATTEMPTED" UNKNOWN); [done|unfold TERMINAL; set_solver| |exact Hw]|].
    { repeat (apply Forall_cons; split; [cbn; unfold core_keys; set_solver|]). done. }
    set (T := settle_record _ _ _ _ _). intros _ w1 Hw1. eapply o_seq; [|intros _ w2; apply o_stay].
    eapply (o_write ids a Hne _ (owes A P)); [left; apply (rd_attempt _ _ R)| |exact Hw1]. intros q w2 h _ _ Hq L HS.
    destruct (goes_terminated (owner w2) ids a Ha q A (Some P) T0 T (terminated_record t e (total r)) h Hq L HS) as (h' & Hs & L' & HS');
      [done|apply (rd_attempt _ _ R)|done|by apply terminated_fits|].
    exists h'. split_and!; [done..|]. do 5 eexists. split; [exact HS'|]. done.
  - eapply o_seq; [eapply (o_outcome (Some T0) "ATTEMPTED" COMPLETED); [done|unfold TERMINAL; set_solver| |exact Hw]|].
    { repeat (apply Forall_cons; split; [cbn; unfold core_keys; set_solver|]). done. }
    set (T := settle_record _ _ _ _ _). intros _ w1 Hw1. eapply o_seq; [|intros _ w2; apply o_stay].
    eapply (o_write ids a Hne _ (owes A P)); [left; apply (rd_attempt _ _ R)| |exact Hw1]. intros q w2 h _ _ Hq L HS.
    destruct (goes_allow (owner w2) ids a Ha q A (Some P) T0 T (allow_record t r) h Hq L HS) as (h' & Hs & L' & HS');
      [done|apply (rd_attempt _ _ R)|done|by apply allow_fits_here|].
    exists h'. split_and!; [done..|]. do 5 eexists. split; [exact HS'|]. by eexists.
Qed.
Lemma o_send T0 w : at_ (attempted T0) x p g w -> okt (keeping (owes A P) x p g) (inside_send t gr) w.
Proof.
  intros Hw. unfold inside_send. apply (o_calm_ok (attempted T0) x p g); [done|by apply t_signal|]. intros _ w1 Hw1.
  destruct (cl_up_send _) as [u|e]; [by eapply o_relay|]. by eapply o_gone; [| |exact Hw1]; [|set_solver].
Qed.
Lemma o_connect_failed T0 e w : at_ (attempted T0) x p g w -> okt (keeping (owes A P) x p g) (connect_failed t gr e) w.
Proof.
  intros Hw. assert (UNKNOWN ∈ [CANCELLED; UNKNOWN]) as Hu by set_solver. unfold connect_failed. destruct (String.eqb _ _).
  - eapply o_seq; [by eapply o_lost; [|exact Hu|exact Hw]|]. intros _ w1 Hw1. eapply o_seq; [|intros _ w2; apply o_refuse].
    apply o_blocked; [done|done|done|]. exact (ra_family _ _ R).
  - destruct (String.eqb _ _); by eapply o_gone; [|exact Hu|exact Hw].
Qed.
Lemma o_connect T0 w : at_ (attempted T0) x p g w -> okt (keeping (owes A P) x p g) (inside_connect t gr) w.
Proof.
  intros Hw. unfold inside_connect. apply (o_calm_ok (attempted T0) x p g); [done|by apply t_signal|]. intros _ w1 Hw1. apply ok_bind.
  apply (ok_weaken _ _ _ _ (fun r w' => match r with Ok true => at_ (attempted T0) x p g w' | Ok false => at_ (owes A P) x p g w' | Raise _ => False end)).
  2: { intros [[]|e] w2 Hw2; [by eapply o_send|by apply o_stay|done]. }
  apply ok_catch.
  assert (forall e w', at_ (attempted T0) x p g w' -> okt (fun r w' => match r with Ok true => at_ (attempted T0) x p g w' | Ok false => at_ (owes A P) x p g w' | Raise _ => False end)
    (connect_failed t gr e;;; Ret false) w') as Hf.
  { intros e w' Hw'. eapply o_seq; [by eapply o_connect_failed|]. by intros _ w2. }
  do 2 (apply (o_calm (attempted T0) x p g); [assumption|apply always_of_res| |by intros e w' Hw'; apply Hf]; clear dependent w1; intros _ w1 Hw1).
  apply (o_calm_ok (attempted T0) x p g); [done|apply t_conn|]. intros [] w2 Hw2; cbn [negb]; [done|].
  eapply o_seq; [by eapply o_lost; [| |exact Hw2]; [|set_solver]|]. intros _ w3 Hw3. eapply o_seq; [by apply o_refuse|]. by intros _ w4.
Qed.
Lemma o_mark w : let e := attempt_record gr (cl_conn_id (t_client t)) [("pin_ip", VStr (pin_ip (t_pin t))); ("pin_port", VInt (pin_port (t_pin t)))] in
  at_ (at_stage (Trail "PERMITTED" A (Some P) None None None None None)) x p g w ->
  okt (keeping (attempted e) x p g) (mark_attempted gr (cl_conn_id (t_client t)) [("pin_ip", VStr (pin_ip (t_pin t))); ("pin_port", VInt (pin_port (t_pin t)))]) w.
Proof.
  intros e Hw. destruct G as (G1 & G2 & G3), (ra_pin _ _ R) as (P1 & P2 & P3). unfold mark_attempted. apply ok_catch, ok_bind.
  assert (aid_of e = a) as Hi by exact G1. eapply ok_weaken.
  - eapply (o_write ids a Hne _ (attempted e)); [by left| |exact Hw]. intros q w2 h _ _ Hq L HS.
    apply (goes_attempted (owner w2) ids a Ha q A P e h Hq L HS); [done|done|]. rewrite !andb_true_iff. split_and!.
    + apply eqb_int.
    + by eapply same_str.
    + eapply same_int; [|done]. change (fld "epoch" e) with (VInt (g_epoch gr)). by rewrite G2.
    + by eapply same_str; [|exact P2].
    + by eapply same_int; [|exact P3].
  - intros [y|y] w' [Hw' E]; [by split|done].
Qed.
Lemma o_permitted w : at_ (at_stage (Trail "PERMITTED" A (Some P) None None None None None)) x p g w ->
  okt (keeping (owes A P) x p g) (inside_permitted t gr) w.
Proof.
  intros Hw. unfold inside_permitted.
  apply (o_calm_ok (at_stage (Trail "PERMITTED" A (Some P) None None None None None)) x p g); [done|exact (t_conn _ true (fun y => (y, c_terminal y)))|]. intros [] w1 Hw1.
  { by eapply o_gone; [| |exact Hw1]; [|set_solver]. }
  apply ok_bind, ok_catch. eapply o_seq; [by apply o_mark|]. intros _ w2 Hw2. by eapply o_connect.
Qed.
End Permitted.

(** ** The release *)

Lemma o_release t A gr seq gen b w : ready t A -> granted_here a seq gr -> let P := permit_of gr gen b t in
  at_ (owes A P) (Some (0, seq)) (Some (EffectPermit gr false None None (Some (cl_conn_id (t_client t))))) (Some gr) w ->
  okt (fun r w' => (exists p', at_ settled (Some (0, seq)) p' None w') /\ is_ok r = true) (permit_release a) w.
Proof.
  intros R (G1 & G2 & G3) P Hw. unfold permit_release. apply ok_bind. eapply ok_weaken; [by eapply o_do_release|].
  intros r w1 (n & -> & Hn & Hw1). cbn [po_bound released_by]. set (tr := ReleaseTransition _ _ _ _). set (e := release_record _ _ _).
  assert (aid_of e = a) as Hi by exact G1. apply ok_catch, ok_bind. eapply ok_weaken.
  - eapply (o_write ids a Hne _ settled); [by left| |exact Hw1]. intros q w2 h Hi2 Hs2 Hq L (st & T0 & T & v & tm & HS & Hv).
    destruct (goes_release (owner w2) ids (ac_numbers _ _ Hi2) a Ha q A P T0 T v e h st tm Hq L HS) as (h' & Hs & L' & HS'); [done|done|done|..].
    + rewrite !andb_true_iff. split_and!; [by eapply same_str| |apply eqb_int]. eapply same_int; [|done].
      change (fld "epoch" e) with (VInt (g_epoch gr)). by rewrite G2.
    + cbn. by rewrite (sa_permit _ _ _ _ _ _ Hs2).
    + exists h'. split_and!; [done..|]. eapply trail_settled; [exact HS'|done|done].
  - intros [y|y] w' [Hw' E]; [|done]. split; [by eexists|done].
Qed.
End Run.
