(* ===== verification/AcceptedFlow.v ===== *)
(** * From the CONNECT to the release, as the verifier reads it

    The rest of a handler on the stages of [AcceptedRun]: the decisions, the
    intent, the permit, the release, and the end of the connection. *)

From S2P Require Import Prelude.
From S2P Require Import PyStr.
From S2P Require Import Json.
From S2P Require Import JsonFacts.
From S2P Require Import PyDyn.
From S2P Require Import Hash.
From S2P Require Import AuditLog.
From S2P Require Import Addressing.
From S2P Require Import Resolver.
From S2P Require Import Lifecycle.
From S2P Require Import LifecycleFacts.
From S2P Require Import Pdp.
From S2P Require Import PdpProps.
From S2P Require Import Conc.
From S2P Require Import World.
From S2P Require Import Registry.
From S2P Require Import Gateway.
From S2P Require Import System.
From S2P Require Import SystemFacts.
From S2P Require Import VerifyE10.
From S2P Require Import VerifyE10Facts.
From S2P Require Import Conform.
From S2P Require Import ConformProps.
From S2P Require Import Accepted.
From S2P Require Import AcceptedOk.
From S2P Require Import AcceptedRun.
Open Scope Z_scope.

Lemma eqb_str_inv v s : py_eqb v (VStr s) = true -> v = VStr s.
Proof. destruct v as [| | |[]|t| |]; cbn; try done. by intros ->%String.eqb_eq. Qed.

(** ** What the decisions give *)

Section Decisions.
Context `{Idna}.

Definition answers (e : pdp_env) (q : request) (d : decision) : Prop :=
  exists b b', PDP.decide (pe_policy e) (pe_killed e) (pe_now e) (pe_resolve e) q b = (b', Ok d).
(** A pin that was resolved for the request has one of the two families. *)
Lemma answers_family e q d p : answers e q d -> d_allow d = true -> q_pin q = None -> d_pin d = Some p ->
  mem_str (pin_family p) ["ipv4"; "ipv6"] = true.
Proof.
  intros (b & b' & [[_ Hd]|(pol & ap & g & _ & _ & Hs & _ & _ & Hr)]%decide_cases) Ha Hq Hp; [by rewrite (Hd d eq_refl) in Ha|].
  injection Hr as ->. injection Hp as <-. apply decide_static_Go in Hs as [_ Hb]. unfold bound_or_resolved in Hb. rewrite Hq in Hb.
  destruct Hb as (rs & fams & ex & ip & fam & _ & _ & Hc & -> & _). by apply choose_inl in Hc as [_ [(-> & _)|(-> & _)]].
Qed.
(** A credential is injected when one was named, and it is a text. *)
Lemma answers_secret c q d : orderly_client c -> answers (cl_pdp_request c) q d -> d_allow d = true ->
  q_cred q = header c "X-Strix-Cred" ->
  (d_secret d = VNull \/ exists t, d_secret d = VStr t) /\
  truthy (d_secret d) = negb (String.eqb (header c "X-Strix-Cred") "").
Proof.
  intros Hc (b & b' & [[_ Hd]|(pol & ap & g & Hpol & _ & Hs & _ & _ & Hr)]%decide_cases) Ha Hq; [by rewrite (Hd d eq_refl) in Ha|].
  injection Hr as ->. apply decide_static_Go in Hs as [Hck _]. pose proof (ck_credential _ _ _ _ _ Hck) as Hcr. cbn [d_secret allowing].
  rewrite <- Hq. destruct (String.eqb_spec (q_cred q) "") as [E|E].
  - unfold decide_credential in Hcr. rewrite E in Hcr. injection Hcr as <-. by split; [left|].
  - destruct (pc_secret _ Hc pol _ _ q _ Hpol Hq E Hcr) as (t & -> & Ht). split; [right; by exists t|].
    cbn. by destruct (String.eqb_spec t "").
Qed.
End Decisions.

Section Flow.
Context `{Digest} `{Idna} (ids : list string) (a : string) (Ha : a ∈ ids) (Hne : a <> "").
Abbreviation okt := (ok arely aguar (acc ids) a).
Abbreviation at_ := (at_ ids a).

(** The attempt has nothing left to do. *)
Definition over (w : world) : Prop := exists x p, at_ settled x p None w.
Definition ends {B} (_ : res B) (w : world) : Prop := over w.

(** ** The permit *)

Abbreviation authorized A := (at_stage (Trail "AUTHORIZED" A None None None None None None)).
Section Ready.
Context (t : tunnel) (A : dict) (R : ready a t A) (seq : Z).
Definition unreleased (gr : grant) : permit := EffectPermit gr false None None (Some (cl_conn_id (t_client t))).
Lemma o_acquire c gen b w : at_ (authorized A) (Some (0, seq)) None None w ->
  okt (fun r w' => match r with
    | Ok (Some gr) => granted_here a seq gr /\
        at_ (at_stage (Trail "PERMITTED" A (Some (permit_of a gr gen b t)) None None None None None)) (Some (0, seq)) (Some (unreleased gr)) (Some gr) w'
    | Ok None => at_ (authorized A) (Some (0, seq)) None None w'
    | Raise _ => False end) (acquire_permit (t_intents t) a 0 c (cl_conn_id (t_client t)) gen b) w.
Proof.
  intros Hw. unfold acquire_permit. rewrite (rd_intent _ _ _ R). destruct (intent_matches _ _ _ _ _) eqn:E; cbn [negb]; [|done].
  unfold intent_matches in E. rewrite !andb_true_iff in E. destruct E as (((((_ & _) & Eg%eqb_str_inv) & Eb%eqb_str_inv) & _) & _).
  apply ok_bind. eapply ok_weaken; [by apply (o_issue ids a Hne (authorized A) seq)|]. intros [[gr|]|e] w1; [|done|done].
  intros [G Hw1]. set (P := permit_of a gr gen b t).
  assert (okt (keeping ids a (at_stage (Trail "PERMITTED" A (Some P) None None None None None)) (Some (0, seq)) (Some (EffectPermit gr false None None None)) (Some gr))
            (audit_write P) w1) as HP.
  { eapply (o_write ids a Hne (authorized A)); [by left| |exact Hw1]. intros r w2 h Hi2 Hs2 Hr L HS.
    apply (goes_permit (owner w2) ids (ac_numbers _ _ Hi2) a Ha r A P h Hr L HS); [done|done| |].
    - cbn [forallb]. rewrite (same_str _ P A (cl_conn_id (t_client t))), (same_int _ P A 0), (same_str _ P A gen), (same_str _ P A b); try done;
        apply R.
    - cbn. by rewrite (sa_permit _ _ _ _ _ _ Hs2). }
  apply ok_bind, ok_catch. eapply o_seq; [exact HP|]. intros _ w2 Hw2. cbn [ok].
  apply ok_bind. eapply ok_weaken; [by apply (o_bind ids a Hne)|]. by intros [[]|e] w3 [Hw3 E].
Qed.

Lemma keeping_ends {B} S x p (q : thread B) w : (forall o, S o -> settled o) -> okt (keeping ids a S x p None) q w -> okt ends q w.
Proof. intros HS Hq. eapply ok_weaken; [exact Hq|]. intros r w1 [Hw1 _]. do 2 eexists. by eapply at_mono. Qed.
Lemma o_give_up d reason refusal w : d ∈ [FAILED; CANCELLED] -> at_ (authorized A) (Some (0, seq)) None None w ->
  okt ends (settle_t t (OfId a) d [("reason", VStr reason)];;; refuse t refusal) w.
Proof.
  intros Hd Hw. eapply keeping_ends; [|eapply o_seq; [|intros _ w1; apply o_refuse; exact Hne]]; [done|].
  pose proof (o_dropped ids a Ha Hne t A d reason _ _ _ w R Hd Hw) as Ho. by rewrite (rd_attempt _ _ _ R) in Ho.
Qed.
Lemma o_effect gen b w : at_ (authorized A) (Some (0, seq)) None None w -> okt ends (inside_effect t gen b) w.
Proof.
  intros Hw. unfold inside_effect. rewrite (rd_attempt _ _ _ R), (rd_epoch _ _ _ R). destruct (cl_socket _); [|by apply o_give_up; [by left|]].
  apply (o_calm_ok ids a Hne (authorized A) (Some (0, seq)) None None); [done|apply t_conn|]. intros [] w1 Hw1; cbn [negb]; [|apply o_give_up; [set_solver|done]].
  apply ok_bind, ok_catch, ok_bind. eapply ok_weaken; [by apply o_acquire|]. intros [[gr|]|e] w2; [|apply o_give_up; set_solver|done].
  intros [G Hw2]. apply ok_finally. eapply ok_weaken; [by eapply (o_permitted ids a Ha Hne t A R gr seq G)|].
  intros r w3 [Hw3 _]. apply ok_bind. eapply ok_weaken; [by eapply (o_release ids a Ha Hne)|]. intros [y|y] w4 [[p' Hw4] E]; [|done].
  by exists (Some (0, seq)), p'.
Qed.
End Ready.

(** ** The decisions and the intent *)

Lemma o_try S x p g e at' q w : at_ S x p g w ->
  okt (fun r w' => at_ S x p g w' /\ is_ok r = true /\ outcome_is (fun y : decision + exn => forall d, y = inl d -> answers e q d) r)
    (pcatch (d <-- ask at' e q;; Ret (inl d)) (fun x => Ret (inr x))) w.
Proof.
  intros Hw. apply ok_catch, ok_bind. eapply ok_weaken; [eapply (o_still_res ids a Hne (answers e q) _ S x p g); [|exact Hw]|].
  - intros w1 _. destruct (PDP.decide _ _ _ _ _ _) as [b d] eqn:E. cbn [fst snd]. pose proof (still_ask e w1 (w_budgets w1) b d at' q E) as Hs.
    split; [by destruct d|]. destruct d as [d|?]; [|done]. by exists (w_budgets w1), b.
  - intros [d|y] w1 [Hw1 Hd]; cbn; split_and!; try done. by intros d' [= <-].
Qed.
Lemma o_recheck t A seq port gen b w : ready a t A -> at_ (authorized A) (Some (0, seq)) None None w ->
  okt ends (inside_recheck t port gen b) w.
Proof.
  intros R Hw. unfold inside_recheck. rewrite (rd_attempt _ _ _ R). apply ok_bind. eapply ok_weaken; [by apply o_try|].
  intros [[d|e]|e] w1 (Hw1 & E & _); [|eapply o_give_up; [done|by left|done]|done].
  destruct (recheck_fails _ _ _ _); [eapply o_give_up; [done|by left|done]|].
  pose proof (rd_context _ _ _ R) as Hc. destruct (cl_up_context _); [|done]. cbn [of_res pbind]. by eapply o_effect.
Qed.

Abbreviation unseen := (fun o : option attempt => o = None).
Abbreviation fresh w := (at_ unseen None None None w).
Lemma fresh_over w : fresh w -> over w.
Proof. intros Hw. do 2 eexists. eapply at_mono; [|exact Hw]. by intros o ->. Qed.
Lemma fresh_deny c s reason url method w : fresh w -> okt ends (deny_tls reason url method c s) w.
Proof. intros Hw. eapply ok_weaken; [by apply o_deny_tls|]. intros r w1 [Hw1 _]. by apply fresh_over. Qed.
Lemma fresh_refuse reason url method src code who w : fresh w -> okt ends (deny_plain reason url method src code who) w.
Proof. intros Hw. eapply ok_weaken; [by apply o_deny_plain|]. intros r w1 [Hw1 _]. by apply fresh_over. Qed.

Lemma o_commit intent w : decision_of intent = AUTH -> aid_of intent = a -> fld "epoch" intent = VInt 0 ->
  (forall seq, looks_secret (dset "lifecycle_seq" (VInt seq) intent) = false) -> fresh w ->
  okt (fun r w' => match r with
    | Ok gi => exists seq, let A := dset "lifecycle_seq" (VInt seq) intent in gi = <[a := A]> ∅ /\ at_ (authorized A) (Some (0, seq)) None None w'
    | Raise e => fresh w' /\ exn_cls e = "AuditUnhealthy" end) (commit_intent ∅ a 0 intent) w.
Proof.
  intros Hd Hi He Hs Hw. unfold commit_intent. apply (o_calm_ok ids a Hne unseen None None None); [done|apply t_healthy|].
  intros [] w1 Hw1; cbn [negb]; [|done]. apply ok_bind. eapply ok_weaken; [by apply (o_authorize ids a Hne)|].
  intros r w2 (seq & -> & Hseq & Hw2). set (A := dset "lifecycle_seq" (VInt seq) intent).
  assert (forall k, k <> "lifecycle_seq" -> dget k A = dget k intent) as Hk by (intros k Hk; by apply dget_dset_ne).
  assert (fld "lifecycle_seq" A = VInt seq) as Hl by (unfold fld, dget_or, A; by rewrite dget_dset).
  assert (aid_of A = a) as HiA by (unfold aid_of, dget_or; by rewrite Hk).
  apply ok_bind, ok_catch, ok_bind. eapply ok_weaken.
  - eapply (o_write ids a Hne unseen (authorized A)); [by left| |exact Hw2]. intros r w3 h Hi3 Hs3 Hr L HS.
    apply (goes_auth (owner w3) ids (ac_numbers _ _ Hi3) a Ha r A h Hr L HS); [|done|apply Hs| |].
    + unfold decision_of, str_of, fld, dget_or. by rewrite Hk.
    + unfold fld, dget_or. by rewrite Hk.
    + unfold int_of. rewrite Hl. cbn. by rewrite (sa_auth _ _ _ _ _ _ Hs3).
  - intros [y|y] w3 [Hw3 E]; [|done]. by exists seq.
Qed.

(** ** The tunnel *)

(** What the CONNECT has fixed. *)
Record opened (c : client) (s : conn_state) (p : pin) (label : string) : Prop := {
  op_client : orderly_client c /\ cl_attempt c = a;
  op_pin : cs_pin s = Some p /\ mem_str (pin_family p) ["ipv4"; "ipv6"] = true;
  op_sni : forall sni, cl_sni c = Some sni -> sni = cs_canonical s;
  op_label : exists rest, label = "https://" ++ cs_canonical s ++ rest }.
Lemma plain_ref s : plain_cred s -> let r := or_none (or_none s) in startswith "bearer " (str_lower r) = false /\ str_any c_isspace r = false.
Proof.
  intros [-> | (_ & H1 & H2)]; [done|]. unfold or_none. destruct (String.eqb_spec s "") as [->|Hs]; [done|].
  by rewrite (proj2 (String.eqb_neq _ _) Hs).
Qed.
Lemma intent_clean ia seq cr : ia_credential ia = or_none cr -> plain_cred cr -> is_Some (ia_pin ia) ->
  looks_secret (dset "lifecycle_seq" (VInt seq) (sanitized_intent ia)) = false.
Proof.
  intros Hc Hp [p Hpin]. destruct ia as [run c at' ep pr gen m h path pn cred bud n]. cbn [ia_pin ia_credential] in *. subst pn cred.
  unfold sanitized_intent.
  cbn [opt_val ia_run_id ia_conn_id ia_attempt ia_epoch ia_program ia_generation ia_method ia_host ia_path ia_pin ia_credential ia_budget ia_body_len].
  generalize (request_intent_digest m h path n). intros dg. destruct (plain_ref cr Hp) as [H1 H2].
  unfold looks_secret. rewrite !orb_false_iff. split; [split; [reflexivity|exact H1]|exact H2].
Qed.

Lemma o_inside_commit c s port hd label p d w : opened c s p label -> str_upper (h_method hd) = h_method hd ->
  truthy (d_secret d) = negb (String.eqb (header c "X-Strix-Cred") "") -> fresh w ->
  okt ends (inside_commit c s port hd label p d) w.
Proof.
  intros [[[Hm Hsni Hcr Hse Hcx] Hat] [Hpin Hfam] Hs [rest Hlabel]] Hup Hsec Hw. unfold inside_commit. apply ok_bind.
  eapply ok_weaken; [eapply (o_still ids a Hne (fun e => e = 0) (fun w => let '(r, e) := (fun r => (r, r_epoch r)) (w_run w) in (set_run r w, e)) unseen None None None); [|exact Hw]|].
  { intros w1 Hi. split; [by apply still_like|]. cbn. pose proof (ri_epoch _ (ac_run _ _ Hi)) as E. by rewrite (ac_live _ _ Hi) in E. }
  intros [y|y] w1 (Hw1 & Hy & E); [|done]. cbn in Hy. subst y. cbv zeta. destruct (_ || _); [by apply fresh_deny|].
  apply (o_calm_ok ids a Hne unseen None None None); [done|apply t_run_id|]. intros run w2 Hw2.
  set (ia := intent_of c s run 0 hd _ _). rewrite Hat. apply ok_bind, ok_catch, ok_bind. eapply ok_weaken.
  { apply o_commit; [..|exact Hw2]; [done|exact Hat|done|]. intros seq. apply (intent_clean ia seq _ eq_refl Hcr). by exists p. }
  intros [gi|e] w3; [|intros [Hw3 ->]; cbn; by apply fresh_deny]. intros (seq & -> & Hw3). set (A := dset _ _ _) in *. cbn [ok].
  set (t := Tunnel _ _ _ _ _ _ _ _ _). apply (o_recheck t A seq); [|exact Hw3].
  split; cbn [t t_client t_state t_head t_label t_pin t_secret t_epoch t_intents t_digest]; try done.
  - by rewrite lookup_insert_eq.
  - by exists rest.
  - change (fld "method" A) with (VStr (str_upper (h_method hd))). by rewrite Hup.
  - change (fld "pin_family" A) with (opt_val (fun p => VStr (pin_family p)) (cs_pin s)).
    change (fld "pin_ip" A) with (opt_val (fun p => VStr (pin_ip p)) (cs_pin s)).
    change (fld "pin_port" A) with (opt_val (fun p => VInt (pin_port p)) (cs_pin s)). by rewrite Hpin.
  - change (fld "credential_ref" A) with (VStr (or_none (or_none (header c "X-Strix-Cred")))). f_equal.
    unfold or_none. destruct (String.eqb_spec (header c "X-Strix-Cred") "") as [|Hn]; [done|]. by rewrite (proj2 (String.eqb_neq _ _) Hn).
Qed.
Lemma o_request c s port label p hd w : opened c s p label -> str_upper (h_method hd) = h_method hd -> fresh w ->
  okt ends (inside_request c s port label p hd) w.
Proof.
  intros Ho Hup Hw. pose proof (op_client _ _ _ _ Ho) as [Hc Hat]. unfold inside_request. cbv zeta.
  destruct (negb (bool_decide _)); [by apply fresh_deny|]. rewrite Hat.
  apply ok_bind. eapply ok_weaken; [by apply o_try|]. intros [[d|e]|e] w1 (Hw1 & E & Hd); [|by apply fresh_deny|done].
  specialize (Hd d eq_refl). destruct (d_allow d) eqn:Ea; cbn [negb]; [|by apply fresh_deny].
  apply (o_calm ids a Hne unseen None None None); [done| | |by intros e w2 Hw2; apply fresh_over].
  - destruct (answers_secret c _ d Hc Hd Ea eq_refl) as [[E2|[x E2]] _]; unfold add_secret_of; rewrite E2; [done|].
    destruct (negb _); [done|apply t_add_secret].
  - intros _ w2 Hw2. apply o_inside_commit; [done|done| |done]. by eapply answers_secret.
Qed.
Lemma fresh_blocked e w : fresh w -> decision_of e = "BLOCKED_BY_POLICY" -> aid_of e = "" -> dget "pin" e = None ->
  okt ends (audit_write e;;; Ret tt) w.
Proof.
  intros Hw Hd Hi Hp. eapply keeping_ends; [|eapply o_seq; [apply (o_blocked ids a Hne unseen None None None); [done..|by rewrite Hp]|intros _ w1; apply o_stay]].
  by intros o ->.
Qed.
Lemma o_head c s port label p w : opened c s p label -> fresh w ->
  okt ends (hd <-- of_res (read_head (cl_chunks c));;
            match hd with None => audit_write (malformed_record label c s);;; Ret tt | Some hd => inside_request c s port label p hd end) w.
Proof.
  intros Ho Hw. destruct (read_head (cl_chunks c)) as [[hd|]|e] eqn:Eh; [|by apply fresh_blocked|by apply fresh_over].
  apply o_request; [done| |done]. pose proof (op_client _ _ _ _ Ho) as [Hc _]. by apply (pc_method _ Hc).
Qed.
Lemma o_inside c s port p w : orderly_client c -> cl_attempt c = a -> cs_pin s = Some p -> mem_str (pin_family p) ["ipv4"; "ipv6"] = true ->
  fresh w -> okt ends (inside c s port p) w.
Proof.
  intros Hc Hat Hp Hf Hw. unfold inside. cbv zeta. destruct (cl_sni c) as [sni|] eqn:Es.
  - destruct (bool_decide (canonical_host sni = Some (cs_canonical s))) eqn:Eb; cbn [negb]; [|by apply fresh_deny].
    apply bool_decide_eq_true in Eb. rewrite (pc_sni _ Hc _ Es) in Eb. injection Eb as Esn.
    apply o_head; [|done]. split; [done|done| |by eexists]. rewrite Es. by intros ? [= <-].
  - apply o_head; [|done]. split; [done|done| |by eexists]. by rewrite Es.
Qed.

(** ** The connection *)

Lemma over_calm {B} (q : thread B) w : always still q -> over w -> okt ends q w.
Proof.
  intros Hq (x & p & Hw). eapply ok_weaken; [by apply (o_always ids a Hne settled x p None)|]. intros r w1 Hw1. by exists x, p.
Qed.
Lemma over_blocked e w : decision_of e = "BLOCKED_BY_POLICY" -> aid_of e = "" -> dget "pin" e = None -> over w ->
  okt ends (audit_write e;;; Ret tt) w.
Proof.
  intros Hd Hi Hp (x & p & Hw). eapply keeping_ends; [|eapply o_seq; [apply (o_blocked ids a Hne settled x p None); [done..|by rewrite Hp]|intros _ w1; apply o_stay]].
  done.
Qed.
Lemma fresh_raise {B} e w : fresh w -> okt ends (Throw (A := B) e) w.
Proof. apply fresh_over. Qed.
Ltac calm := apply (o_calm ids a Hne unseen None None None); [assumption| | |by intros ? ? ?; apply fresh_over].
Lemma o_connect_tls c s port p w : orderly_client c -> cl_attempt c = a -> cs_pin s = Some p -> mem_str (pin_family p) ["ipv4"; "ipv6"] = true ->
  fresh w -> okt ends (connect_tls c s port p) w.
Proof.
  intros Hc Hat Hp Hf Hw. unfold connect_tls. cbv zeta. destruct (cl_leaf c) as [u|e].
  2: { destruct (String.eqb _ _); [by apply fresh_refuse|by apply fresh_raise]. }
  calm; [apply always_of_res|]. intros _ w1 Hw1. destruct (cl_load_chain c); [|by apply fresh_refuse].
  calm; [apply t_conn|]. intros _ w2 Hw2. calm; [apply always_of_res|]. intros _ w3 Hw3. destruct (cl_handshake c) as [v|e].
  - calm; [apply t_conn|]. intros [] w4 Hw4; cbn [negb]; [by apply o_inside|by apply fresh_over].
  - destruct (os_error e); [by apply fresh_blocked|by apply fresh_raise].
Qed.
Lemma o_flow c s host port w : orderly_client c -> cl_attempt c = a -> fresh w -> okt ends (connect_flow c s host port) w.
Proof.
  intros Hc Hat Hw. unfold connect_flow. cbv zeta. apply ok_bind. eapply ok_weaken; [by apply o_try|].
  intros [[d|e]|e] w1 (Hw1 & E & Hd); [|by apply fresh_refuse|done]. specialize (Hd d eq_refl).
  destruct (d_allow d) eqn:Ea; cbn [negb]; [|by apply fresh_refuse].
  destruct (d_pin d) as [p|] eqn:Ep, (canonical_host host) as [canon|]; [|by apply fresh_raise..].
  apply o_connect_tls; [done|done|done| |done]. by eapply answers_family.
Qed.
(** An early denial leaves the attempt unseen and the connection open. *)
Definition reached (r : res bool) (w : world) : Prop := match r with Ok false => fresh w | _ => over w end.
Lemma fresh_open reason url method src code who w : fresh w ->
  okt reached (deny_plain reason url method src code who;;; Ret false) w.
Proof.
  intros Hw. apply (o_seq ids a unseen None None None); [by apply o_deny_plain|]. intros _ w1 Hw1. exact Hw1.
Qed.
Lemma o_do_CONNECT c w : orderly_client c -> cl_attempt c = a -> fresh w -> okt reached (do_CONNECT c) w.
Proof.
  intros Hc Hat Hw. unfold do_CONNECT. destruct (rpartition _ _) as [[host sep] p]. destruct (_ || _); [by apply fresh_open|].
  apply (o_calm ids a Hne unseen None None None); [done|apply always_of_res| |by intros e w2 Hw2; apply fresh_over].
  intros port w1 Hw1. apply (o_calm_ok ids a Hne unseen None None None); [done|apply t_reg|].
  intros [] w2 Hw2; cbn [negb]; [|by apply fresh_open].
  apply (o_calm_ok ids a Hne unseen None None None); [done|apply t_new_conn|]. intros obj w3 Hw3. cbv zeta.
  apply ok_bind. apply (ok_weaken _ _ _ _ ends); [|by intros [] w4 Hw4]. apply ok_finally. eapply ok_weaken.
  - apply (ok_catch _ _ _ _ ends). apply (ok_weaken _ _ _ _ ends).
    + calm; [apply t_reg|]. intros [] w4 Hw4; cbn [negb]; [by apply o_flow|by apply fresh_blocked].
    + intros [y|e] w4 Hw4; [exact Hw4|by apply over_blocked].
  - intros r w4 Hw4. eapply ok_weaken; [apply over_calm; [apply t_close|exact Hw4]|]. by intros [] w5.
Qed.
Lemma o_dispatch cmds w : (forall c, Connect c ∈ cmds -> orderly_client c /\ cl_attempt c = a) -> fresh w -> okt ends (dispatch cmds) w.
Proof.
  revert w. induction cmds as [|[c|m q s] cmds IH]; intros w Hc Hw; cbn [dispatch]; [by apply fresh_over| |].
  - destruct (Hc c) as [H1 H2]; [by left|]. apply ok_bind. eapply ok_weaken; [by apply o_do_CONNECT|].
    intros [[]|e] w1 Hw1; [exact Hw1| |exact Hw1]. apply IH; [|exact Hw1]. intros d Hin. apply Hc. by right.
  - apply (o_seq ids a unseen None None None); [unfold do_other; destruct (String.eqb _ _); by apply o_deny_plain|].
    intros _ w1 Hw1. apply IH; [|done]. intros c Hin. apply Hc. by right.
Qed.
Lemma o_handle cmds w : (forall c, Connect c ∈ cmds -> orderly_client c /\ cl_attempt c = a) -> fresh w -> okt ends (handle cmds) w.
Proof.
  intros Hc Hw. unfold handle. calm; [apply t_reg|]. intros [] w1 Hw1; cbn [negb]; [|by apply fresh_over].
  apply ok_finally. eapply ok_weaken; [by apply o_dispatch|]. intros r w2 Hw2.
  eapply ok_weaken; [apply over_calm; [apply t_end|exact Hw2]|]. by intros [] w3.
Qed.
End Flow.
