(* ===== verification/AcceptedProps.v ===== *)
(** * What the gateway records, the verifier accepts

    The composition of the running gateway with the closed-run verifier: handlers
    in any interleaving, then a cancellation that seals, leave a log whose history
    is valid. *)

From S2P Require Import Prelude.
From S2P Require Import PyStr.
From S2P Require Import Json.
From S2P Require Import JsonFacts.
From S2P Require Import PyDyn.
From S2P Require Import Hash.
From S2P Require Import AuditLog.
From S2P Require Import AuditFacts.
From S2P Require Import AuditProps.
From S2P Require Import Addressing.
From S2P Require Import Resolver.
From S2P Require Import Lifecycle.
From S2P Require Import LifecycleFacts.
From S2P Require Import Pdp.
From S2P Require Import Conc.
From S2P Require Import World.
From S2P Require Import Registry.
From S2P Require Import Gateway.
From S2P Require Import System.
From S2P Require Import SystemFacts.
From S2P Require Import SystemProps.
From S2P Require Import Startup.
From S2P Require Import StartupProps.
From S2P Require Import VerifyE10.
From S2P Require Import VerifyE10Facts.
From S2P Require Import Conform.
From S2P Require Import ConformProps.
From S2P Require Import Accepted.
From S2P Require Import AcceptedOk.
From S2P Require Import AcceptedRun.
From S2P Require Import AcceptedFlow.
From S2P Require Import HandlerProps.
From S2P Require Import Scenario.
Open Scope Z_scope.

(** ** Every attempt settled *)

Section Settled.
Definition all_settled (h : history) : Prop := forall b, settled (attempt_of b h).
Lemma find_in b x l : NoDup (map fst l) -> (b, x) ∈ l -> find_attempt b l = Some x.
Proof.
  induction l as [|[k y] l IH]; cbn; [by intros _ Hn%not_elem_of_nil|]. intros [Hk Hl]%NoDup_cons [E|Hin]%elem_of_cons.
  - injection E as -> ->. by rewrite String.eqb_refl.
  - destruct (String.eqb_spec b k) as [->|]; [|by apply IH]. destruct Hk. by apply (list_elem_of_fmap_2 fst _ (k, x)).
Qed.
Lemma none_where p h : NoDup (map fst (h_attempts h)) -> (forall b x, attempt_of b h = Some x -> p x = false) -> keys_where p h = [].
Proof.
  intros Hn Hp. unfold keys_where. assert (List.filter (fun ka => p ka.2) (h_attempts h) = []) as ->; [|done].
  assert (forall b x, (b, x) ∈ h_attempts h -> p x = false) as Hall.
  { intros b x Hin. apply (Hp b). by apply find_in. }
  clear - Hall. induction (h_attempts h) as [|[b x] l IH]; [done|]. cbn. rewrite (Hall b x) by (by left). apply IH.
  intros b' x' Hin. apply (Hall b'). by right.
Qed.
Section History.
Context (h : history) (Hn : NoDup (map fst (h_attempts h))) (Hs : all_settled h).
Lemma settled_incomplete : incomplete_attempts h = [].
Proof. apply none_where; [done|]. intros b x Hx. by destruct (Hs b x Hx) as ([t ->] & _). Qed.
Lemma settled_allows : missing_allows h = [].
Proof.
  apply none_where; [done|]. intros b x Hx. destruct (Hs b x Hx) as (_ & Hc & _). destruct (completed x); [|done].
  by destruct Hc as [w ->].
Qed.
Lemma settled_releases : missing_releases h = [].
Proof.
  apply none_where; [done|]. intros b x Hx. destruct (Hs b x Hx) as (_ & _ & Hr). destruct (at_permit x); [|done].
  by destruct Hr as [w ->].
Qed.
End History.
End Settled.

(** ** The handlers *)

Section Handlers.
Context `{Digest} `{Idna}.

(** Handlers alone, each under the attempt id it draws; the connection ids two of
    them draw are different. *)
Definition draws (s : system) (a k : string) : Prop := exists cmds c, (a, Handler cmds) ∈ s /\ Connect c ∈ cmds /\ cl_conn_id c = k.
Record serving (s : system) : Prop := {
  sv_conns : forall a b k, draws s a k -> draws s b k -> a = b;
  sv_named : named s;
  sv_ids : "" ∉ s.*1;
  sv_plain : forall a r, (a, r) ∈ s -> exists cmds, r = Handler cmds /\ forall c, Connect c ∈ cmds -> orderly_client c }.
(** What the handlers start from: a world nothing has run in, whose records so far
    are those of the start. *)
Record sound_start (ids : list string) (w : world) : Prop := {
  ss_unused : unused w;
  ss_acc : acc ids w;
  ss_none : forall a, know a (fun o => o = None) w }.
Lemma fresh_start ids a w : sound_start ids w -> at_ ids a (fun o => o = None) None None None w.
Proof.
  intros [[Hr Hp _ _] Ha Hk]. split; [done|]. split; [apply Hk|by rewrite Hr|by rewrite Hp|by rewrite Hr].
Qed.
(** At the end every attempt of the validation is settled. *)
Definition settles (i : string) (w : world) : Prop := i <> "" -> know i settled w.
Lemma handlers_done s w0 ts w : sound_start s.*1 w0 -> serving s -> reach (start s w0) (ts, w) ->
  acc s.*1 w /\ (Forall finished ts -> forall i, i ∈ s.*1 -> know i settled w).
Proof.
  intros Hl [_ [Hnd Hat] Hne Hp] Hr.
  assert (pool_ok arely aguar (acc s.*1) s.*1 settles (ts, w)) as Hok.
  { apply (pool_reach_ok arely aguar (acc s.*1) arely_trans arely_refl) with (cfg := start s w0); [| | |exact Hr].
    - intros i j w1 w2 Hij. by apply aguar_arely.
    - intros i w1 w2 Hw Hk Hi. eapply know_spares; [by apply Hw|by apply Hk].
    - split; [change (length s.*1 = length (threads s)); unfold threads; by rewrite !length_fmap|done|apply (ss_acc _ _ Hl)|].
      intros j i p Hi Hj. change (threads s !! j = Some p) in Hj. unfold threads in Hj. rewrite list_lookup_fmap in Hi. rewrite list_lookup_fmap in Hj. destruct (s !! j) as [[a r]|] eqn:E; [|done].
      cbn in Hi, Hj. injection Hi as ->. injection Hj as <-. apply list_elem_of_lookup_2 in E as Hin.
      destruct (Hp i r Hin) as (cmds & -> & Hc). cbn [role_thread].
      assert (i ∈ s.*1) as Hii by (apply list_elem_of_fmap; by exists (i, Handler cmds)).
      assert (i <> "") as Hi by by intros ->.
      eapply ok_weaken; [apply (o_handle s.*1 i Hii Hi); [|by apply fresh_start]|].
      + intros c Hin'. split; [by apply Hc|]. apply (Hat i (Handler cmds) Hin). cbn. apply list_elem_of_omap. by exists (Connect c).
      + intros r w1 (x & p & Hw1) _. apply Hw1. }
  split; [by destruct Hok|]. intros Hf i Hi. apply (pool_done arely aguar (acc s.*1) s.*1 settles ts w i Hok Hf Hi). by intros ->.
Qed.
End Handlers.

(** ** The closing records *)

Lemma step_after r h d : decision_of r = d -> bool_decide (h_state h = CLOSED) = false -> after_disposition d h = false ->
  mem_str d startup_decisions = false -> step r h = on_active d (aid_of r) r (set_active h).
Proof. intros Hd Hs Ha Hm. unfold step. rewrite Hd, Hs, Ha. unfold startup_decisions in Hm. by rewrite Hm. Qed.
Lemma linearization_none r l : (forall k x, (k, x) ∈ l -> fld "epoch" (at_auth x) = fld "cancelled_epoch" r /\ fld "epoch" (at_auth x) = VInt 0 /\
    int_of "lifecycle_seq" (at_auth x) < int_of "lifecycle_seq" r /\ forall p, at_permit x = Some p -> int_of "lifecycle_seq" p < int_of "lifecycle_seq" r) ->
  linearization_error r l = None.
Proof.
  induction l as [|[k x] l IH]; intros Hl; cbn [linearization_error]; [done|].
  destruct (Hl k x) as (He & H0 & Ha & Hp); [by left|]. rewrite <- He, H0, eqb_int. cbn [negb].
  rewrite (proj2 (Z.leb_gt _ _) Ha). assert (match at_permit x with Some p => int_of "lifecycle_seq" r <=? int_of "lifecycle_seq" p | None => false end = false) as ->.
  { destruct (at_permit x) as [p|]; [|done]. apply Z.leb_gt. by apply Hp. }
  apply IH. intros k' x' Hin. apply (Hl k'). by right.
Qed.
Lemma inflight_none h c : NoDup (map fst (h_attempts h)) ->
  (forall b x l, attempt_of b h = Some x -> is_Some (at_permit x) -> at_release x = Some l -> int_of "lifecycle_seq" l <= int_of "lifecycle_seq" c) ->
  all_settled h -> logical_inflight h c = 0.
Proof.
  intros Hn Hr Hs. unfold logical_inflight.
  assert (forall b x, (b, x) ∈ h_attempts h -> match at_permit x with Some p => (int_of "lifecycle_seq" p <? int_of "lifecycle_seq" c) &&
     (int_of "lifecycle_seq" c <? int_of "lifecycle_seq" (default [] (at_release x))) | None => false end = false) as Hall.
  { intros b x Hin. apply find_in in Hin; [|done]. destruct (at_permit x) as [p|] eqn:E; [|done]. apply andb_false_iff. right.
    destruct (Hs b x Hin) as (_ & _ & Hrel). destruct Hrel as [l El]; [by rewrite E|]. rewrite El. cbn [default id]. apply Z.ltb_ge.
    eapply Hr; [exact Hin|by rewrite E|exact El]. }
  clear - Hall. induction (h_attempts h) as [|[b x] l IH]; [done|]. cbn [List.filter snd]. rewrite (Hall b x) by (by left). apply IH.
  intros b' x' Hin. apply (Hall b'). by right.
Qed.

Section Closing.
Context (ow : string -> kind -> option Z) (ids : list string) (h : history) (L : linked ow ids h) (S : all_settled h).
Context (seq now : Z) (B : forall b k n, ow b k = Some n -> n < seq).
Let t : cancel_tr := CancellationTransition 0 1 seq 0 now true.
Let s : drained_state := DrainedState 0 0 true true 1 (Some t).
Definition closing_records : list dict :=
  [requested_record t; linearized_record t; kill_record [] [] s; ack_record s; closed_record t].

Lemma in_linked k x : (k, x) ∈ h_attempts h -> attempt_linked (ow k) x.
Proof. intros Hin. apply (lk_attempts _ _ _ L). apply find_in; [apply (lk_nodup _ _ _ L)|done]. Qed.
Ltac read L := unfold int_of, str_of, strs_of, same; rewrite ?(like_fld _ _ L) by reflexivity.
Ltac each_eq := repeat (apply andb_true_iff; split); first [reflexivity | apply eqb_int].
Section Steps.
Context (r1 r2 r3 r4 r5 : dict).
Context (L1 : like r1 (requested_record t)) (L2 : like r2 (linearized_record t)) (L3 : like r3 (kill_record [] [] s)).
Context (L4 : like r4 (ack_record s)) (L5 : like r5 (closed_record t)).
Let h1 := set_request r1 (set_active h).
Let h2 := set_cancel r2 (own seq (set_active h1)).
Let h3 := set_kill r3 (set_active h2).
Let h4 := set_disposition ACKNOWLEDGED CANCEL_ACK (set_active h3).
Let h5 := set_closure r5 (set_active h4).
Lemma after_running : h_state h = RUNNING -> bool_decide (h_state h = CLOSED) = false /\ after_disposition CANCEL_REQUESTED h = false.
Proof. unfold after_disposition. by intros ->. Qed.
Lemma step_requested : step r1 h = Ok (inr h1).
Proof.
  pose proof (lk_state _ _ _ L) as Hst. destruct (after_running Hst) as [H1 H2].
  rewrite (step_after r1 h CANCEL_REQUESTED) by (try done; by rewrite (like_decision _ _ L1)).
  change (on_active CANCEL_REQUESTED (aid_of r1) r1 (set_active h)) with
    (if negb (bool_decide (h_state h = RUNNING)) then Ok (inl (only "ILLEGAL_RUN_TRANSITION")) else go h1). by rewrite Hst.
Qed.
Lemma seq_free : owned seq (set_active h1) = false.
Proof.
  apply not_true_iff_false. intros Ho. apply existsb_elem_of in Ho as (m & Hm & E%Z.eqb_eq). subst m.
  destruct (lk_numbers _ _ _ L seq Hm) as (b & k & Hb & _). apply B in Hb. lia.
Qed.
Lemma step_linearized : step r2 h1 = Ok (inr h2).
Proof.
  rewrite (step_after r2 h1 CANCEL_LINEARIZED) by (try done; by rewrite (like_decision _ _ L2)).
  change (on_active CANCEL_LINEARIZED (aid_of r2) r2 (set_active h1)) with (on_linearized r2 (set_active h1)). unfold on_linearized.
  change (h_state (set_active h1)) with REQUESTED. change (default [] (h_request (set_active h1))) with r1.
  change (h_attempts (set_active h1)) with (h_attempts h).
  assert (int_of "lifecycle_seq" r2 = seq) as Hq by by read L2. rewrite Hq.
  assert ((int_of "new_epoch" r2 =? int_of "cancelled_epoch" r2 + 1) = true) as -> by by read L2.
  assert (same "lifecycle_seq" r1 r2 && py_eqb (fld "cancellation_epoch" r1) (fld "new_epoch" r2) = true) as ->.
  { read L1. read L2. each_eq. }
  rewrite seq_free, linearization_none; [done|]. intros k x Hin. destruct (in_linked k x Hin) as [A1 A2 A3 A4 A5]. rewrite Hq, A1.
  split_and!; [by read L2|done|by eapply B|]. intros p Hp. by eapply B, A4.
Qed.
Lemma settled_h2 : all_settled (set_active h2).
Proof. exact S. Qed.
Lemma step_killed : step r3 h2 = Ok (inr h3).
Proof.
  rewrite (step_after r3 h2 "KILL_SWITCH") by (try done; by rewrite (like_decision _ _ L3)).
  change (on_active "KILL_SWITCH" (aid_of r3) r3 (set_active h2)) with (on_kill r3 (set_active h2)). unfold on_kill.
  change (h_state (set_active h2)) with LINEARIZED. change (h_kill (set_active h2)) with (h_kill h). rewrite (lk_kill _ _ _ L).
  change (default [] (h_cancel (set_active h2))) with r2.
  pose proof (lk_nodup _ _ _ L : NoDup (map fst (h_attempts (set_active h2)))) as Hn.
  rewrite (settled_incomplete _ Hn S), (settled_allows _ Hn S), (settled_releases _ Hn S).
  assert (int_of "lifecycle_seq" r2 = seq) as Hq by by read L2.
  rewrite (inflight_none _ _ Hn); [| |exact S].
  - assert (count_error r3 = false) as -> by (unfold count_error; by read L3).
    assert (int_of "inflight_at_linearization" r2 = 0) as -> by by read L2.
    assert (kill_bound r3 r2 = true) as ->.
    { unfold kill_bound. read L3. read L2. each_eq. }
    assert (is_truth (kill_quiescent r3) (fld "local_drain_complete" r3) = true) as -> by (unfold kill_quiescent; by read L3).
    done.
  - intros b x l Hx _ Hl. rewrite Hq. apply Z.lt_le_incl. eapply (B b KRelease). by apply (lk_attempts _ _ _ L b x Hx).
Qed.
Lemma step_acknowledged : step r4 h3 = Ok (inr h4).
Proof.
  rewrite (step_after r4 h3 CANCEL_ACK) by (try done; by rewrite (like_decision _ _ L4)).
  change (on_active CANCEL_ACK (aid_of r4) r4 (set_active h3)) with (on_disposition CANCEL_ACK r4 (set_active h3)). unfold on_disposition.
  change (h_kill (set_active h3)) with (Some r3). change (h_state (set_active h3)) with LINEARIZED.
  assert (count_error r4 = false) as -> by (unfold count_error; by read L4).
  assert (forallb (fun k => same k r4 r3) CANCEL_REQUIRED = true) as ->.
  { unfold CANCEL_REQUIRED. cbn [forallb]. rewrite !(like_same _ _ _ _ _ L4 L3) by reflexivity. unfold same.
    change (fld "lifecycle_seq" (ack_record s)) with (VInt seq). change (fld "lifecycle_seq" (kill_record [] [] s)) with (VInt seq).
    rewrite eqb_int. reflexivity. }
  assert (ack_valid r4 = true) as -> by (unfold ack_valid; by read L4). done.
Qed.
Lemma step_closed : step r5 h4 = Ok (inr h5).
Proof.
  rewrite (step_after r5 h4 RUN_CLOSED) by (try done; by rewrite (like_decision _ _ L5)).
  change (on_active RUN_CLOSED (aid_of r5) r5 (set_active h4)) with (on_closed r5 (set_active h4)). unfold on_closed.
  change (h_state (set_active h4)) with ACKNOWLEDGED. change (default [] (h_cancel (set_active h4))) with r2.
  assert (closure_exact r5 r2 = true) as ->.
  { unfold closure_exact. read L5. read L2. each_eq. }
  assert (count_error r5 = false) as -> by (unfold count_error; by read L5). done.
Qed.
Lemma steps_closing : steps [r1; r2; r3; r4; r5] h = Ok (inr h5).
Proof.
  cbn [steps]. rewrite step_requested. cbn [rbind]. rewrite step_linearized. cbn [rbind]. rewrite step_killed. cbn [rbind].
  rewrite step_acknowledged. cbn [rbind]. by rewrite step_closed.
Qed.
(** A run with an attempt is valid. *)
Lemma conclude_closing : h_attempts h <> [] -> rs_status (conclude h5) = "LOCAL_HISTORY_VALID".
Proof.
  intros Hne. pose proof (lk_nodup _ _ _ L : NoDup (map fst (h_attempts h5))) as Hn. unfold conclude.
  rewrite (settled_incomplete _ Hn S), (settled_allows _ Hn S), (settled_releases _ Hn S).
  change (h_attempts h5) with (h_attempts h). rewrite (bool_decide_false _ Hne). done.
Qed.
End Steps.
End Closing.

(** ** The watcher alone *)

Section Watcher.
Context `{Digest} `{Idna}.

(** Writing works. *)
Record able (w : world) : Prop := {
  ab_ios : forall n, good (w_ios w n); ab_log : writable (w_log w); ab_file : filed w }.
(** One more record, and nothing else a cancellation reads. *)
Record after (e : dict) (w w' : world) : Prop := {
  af_able : able w'; af_written : written w' = (written w ++ [e])%list; af_run : w_run w' = w_run w; af_reg : w_reg w' = w_reg w }.
Lemma able_same w w' : w_ios w' = w_ios w -> w_log w' = w_log w -> written w' = written w -> able w -> able w'.
Proof. intros Ei El Et [Hi Hl [xs Hf]]. split; [by rewrite Ei|by rewrite El|]. exists xs. by rewrite El, Et. Qed.
Ltac same_able H := lazymatch type of H with able ?w => apply (able_same w); [reflexivity..|exact H] end.
Lemma exec_write e w : able w -> exists w' x, exec (audit_write e) w = (w', Ok x) /\ after e w w'.
Proof.
  intros [Hi Hl [xs Hx]]. destruct (good_write (w_ios w (w_nio w)) e (w_log w) (Hi _) Hl) as (l' & E & Hwr).
  unfold audit_write, atomic_res. cbn [exec]. unfold do_write. rewrite E. cbn [is_ok fst snd of_res exec].
  destruct (emitted e l' w) as (Ew & _ & Er & _ & Ei). eexists _, _. split; [reflexivity|]. split; [|done..].
  split; [intros m; by rewrite Ei|by destruct Hwr|]. eexists. rewrite Ew. by eapply filed_more; [apply Hi|exact Hwr|].
Qed.
Lemma exec_seal e w : able w -> dget "decision" e = Some (VStr RUN_CLOSED) ->
  exists w' x, exec (audit_seal e) w = (w', Ok x) /\ written w' = (written w ++ [e])%list /\ filed w'.
Proof.
  intros [Hi Hl [xs Hx]] Hd. pose proof Hl as (_ & Hs & _). destruct (good_write (w_ios w (w_nio w)) e (w_log w) (Hi _) Hl) as (l' & E & Hwr).
  unfold audit_seal, atomic_res. cbn [exec]. unfold do_seal, seal_with. rewrite Hd, Hs, E. cbn [is_str negb String.eqb Ascii.eqb Bool.eqb RUN_CLOSED is_ok fst snd of_res exec].
  eexists _, _. split; [reflexivity|]. destruct (emitted e (set_sealed true l') w) as (Ew & _). split; [exact Ew|]. eexists. rewrite Ew.
  eapply (filed_alike l'); [by split|]. by eapply filed_more; [apply Hi|exact Hwr|].
Qed.
Lemma exec_on_run {A} (f : run -> run * A) w : exec (on_run f) w = (set_run (f (w_run w)).1 w, Ok (f (w_run w)).2).
Proof. unfold on_run. cbn. by destruct (f (w_run w)). Qed.
Lemma exec_registry {A} (f : registry -> registry * A) w : exec (on_reg f) w = (set_reg (f (w_reg w)).1 w, Ok (f (w_reg w)).2).
Proof. unfold on_reg. cbn. by destruct (f (w_reg w)). Qed.

(** The cancellation up to the drain of the permits. *)
Definition cancelled_run (now : Z) (w : world) : run := (cancel now (w_run w)).1.
Lemma exec_terminate e w : able w -> g_conns (w_reg w) = [] ->
  let t := (cancel (ke_now e) (w_run w)).2 in
  exists w' started, exec (terminate_all e (Some record_linearization)) w = (w', Ok ([], [])) /\ able w' /\
    written w' = (written w ++ [requested_record t; linearized_record t])%list /\ w_run w' = (cancel (ke_now e) (w_run w)).1 /\
    exists d n, g_last (w_reg w') = Some (CancelResult t d n true started).
Proof.
  intros Ha Hc t. unfold terminate_all. rewrite exec_bind, exec_on_run. cbv beta iota. fold t.
  rewrite exec_bind, exec_registry. cbv beta iota. assert (forall r, (kill (w_reg (set_run r w))).2 = []) as -> by (intros r; exact Hc).
  cbv zeta. change (listed e []) with (@nil nat).
  set (w1 := set_reg _ _). assert (able w1) as H1 by (same_able Ha). cbn [for_each].
  rewrite exec_bind. cbn [exec]. cbv beta iota. rewrite exec_bind. cbn [for_each exec]. cbv beta iota. rewrite exec_bind.
  assert (exists w2 b, exec (stop_listener e) w1 = (w2, Ok b) /\ able w2 /\ written w2 = written w /\ w_run w2 = w_run w1) as (w2 & b & -> & H2 & E2 & R2).
  { unfold stop_listener. destruct (ke_stop e) as [r|]; cbn; [|by exists w1, true]. eexists _, _. split; [reflexivity|].
    assert (written (emit EvStopListener w1) = written w) as Et by (unfold written; cbn; by rewrite omap_app, app_nil_r).
    split; [by apply (able_same w1)|by split]. }
  cbv beta iota. rewrite exec_bind, exec_catch, exec_bind. unfold record_linearization. rewrite exec_bind.
  destruct (exec_write (requested_record t) w2 H2) as (w3 & x3 & -> & [H3 E3 R3 _]). cbv beta iota. rewrite exec_bind.
  destruct (exec_write (linearized_record t) w3 H3) as (w4 & x4 & -> & [H4 E4 R4 _]). cbn [exec]. cbv beta iota. cbn [exec]. cbv beta iota.
  rewrite exec_bind. unfold drain at 1. cbn [exec]. cbv beta iota. rewrite exec_bind. unfold run_inflight_count. rewrite exec_on_run. cbv beta iota.
  cbn [fst snd]. rewrite exec_bind. unfold on_reg_. rewrite exec_registry. cbv beta iota. cbn [fst snd].
  set (w5 := set_reg _ _). rewrite exec_bind. cbn [for_each exec]. cbv beta iota. cbn [exec List.filter map].
  exists w5, b. split; [reflexivity|]. split; [same_able H4|]. split; [|split].
  - change (written w4 = (written w ++ [requested_record t; linearized_record t])%list). by rewrite E4, E3, E2, <- app_assoc.
  - change (w_run w4 = (cancel (ke_now e) (w_run w)).1). by rewrite R4, R3, R2.
  - by do 2 eexists.
Qed.

Lemma quiescent_all s : quiescent s = true ->
  dr_effects s = 0 /\ dr_producers s = 0 /\ dr_listener s = true /\ dr_started s = true.
Proof.
  unfold quiescent, blockers. intros Hq%bool_decide_eq_true. destruct (Z.eqb_spec (dr_effects s) 0), (Z.eqb_spec (dr_producers s) 0), (dr_listener s), (dr_started s); done.
Qed.
(** A cancellation that is not certified does not seal. *)
Lemma exec_certify s t w w' : able w -> dr_transition s = Some t -> exec (certify [] [] s true) w = (w', Ok true) ->
  quiescent s = true /\ filed w' /\ written w' = (written w ++ [kill_record [] [] s; ack_record s; closed_record t])%list.
Proof.
  intros Ha Ht. unfold certify. cbn [negb]. rewrite exec_bind. cbn [audit_healthy atomic exec fst snd]. destruct (ab_log _ Ha) as (-> & _ & _). cbn [negb].
  rewrite exec_bind. destruct (exec_write (kill_record [] [] s) w Ha) as (w1 & x1 & -> & [H1 E1 _ _]). cbv beta iota.
  destruct (quiescent s); cbn [negb].
  - rewrite exec_bind. destruct (exec_write (ack_record s) w1 H1) as (w2 & x2 & -> & [H2 E2 _ _]). cbv beta iota. rewrite Ht, exec_bind.
    destruct (exec_seal (closed_record t) w2 H2 eq_refl) as (w3 & x3 & -> & E3 & F3). cbn [exec]. intros [= <-]. split_and!; [done|done|].
    by rewrite E3, E2, E1, <- !app_assoc.
  - rewrite exec_bind. destruct (exec_write (timeout_record s) w1 H1) as (w2 & x2 & -> & _). by intros [= _ ?].
Qed.
Lemma exec_quiesce e w w' o : able w -> run_inv (w_run w) -> r_cancelled (w_run w) = false -> g_conns (w_reg w) = [] ->
  exec (cancel_and_quiesce e) w = (w', Ok o) -> oc_sealed o = true ->
  filed w' /\ written w' = (written w ++ closing_records (r_sequence (w_run w) + 1) (ke_now e))%list.
Proof.
  intros Ha Hr Hn Hc. pose proof (ri_cancel _ Hr) as Hcn. pose proof (ri_epoch _ Hr) as Hep. rewrite Hn in Hcn, Hep.
  destruct (r_cancellation (w_run w)) as [?|] eqn:Hx; [done|].
  unfold cancel_and_quiesce. rewrite exec_bind.
  destruct (exec_terminate e w Ha Hc) as (w1 & started & -> & H1 & E1 & R1 & d & n & Hl). cbv beta iota.
  rewrite exec_bind, exec_registry. cbv beta iota. cbn [fst snd]. rewrite Hl. set (w2 := set_reg _ w1).
  assert (able w2 /\ w_run w2 = w_run w1 /\ written w2 = written w1) as (H2 & R2 & E2) by (split; [same_able H1|done]).
  rewrite exec_bind. cbn [drain exec]. rewrite exec_bind. unfold run_inflight_count at 1. rewrite exec_on_run. cbv beta iota. cbn [fst snd].
  set (w3 := set_run _ w2). assert (able w3) as H3 by (same_able H2).
  rewrite exec_bind, exec_registry. cbv beta iota. cbn [fst snd]. set (w4 := set_reg _ w3). assert (able w4) as H4 by (same_able H3).
  rewrite exec_bind. unfold run_epoch. rewrite exec_on_run. cbv beta iota. cbn [fst snd]. set (w5 := set_run _ w4).
  assert (able w5) as H5 by (same_able H4). change (w_run w4) with (w_run w2). rewrite R2, R1.
  cbn [fmap option_fmap option_map cr_evidence cr_stop_started cr_transition]. set (s := DrainedState _ _ _ _ _ _).
  rewrite exec_catch, exec_bind. intros He Hsealed. destruct (exec (certify [] [] s true) w5) as [w6 [sealed|x]] eqn:Ec; [|by injection He as <- <-].
  cbn [exec] in He. injection He as <- <-. cbn in Hsealed. subst sealed.
  destruct (exec_certify s _ w5 w6 H5 eq_refl Ec) as (Hq & Hf & ->). split; [exact Hf|]. clear Hf. destruct (quiescent_all s Hq) as (Q1 & Q2 & Q3 & Q4).
  change (written w5) with (written w1). rewrite E1, <- app_assoc. unfold closing_records. cbn [app].
  unfold s in Q1, Q2, Q3, Q4 |- *. cbn [dr_effects dr_producers dr_listener dr_started] in Q1, Q2, Q3, Q4. rewrite Q1, Q2, Q3, Q4. clear - Hx Hep Q1.
  unfold cancel in *. rewrite Hx in *. cbn [fst snd r_epoch] in *. unfold inflight_count in *. cbn [r_inflight] in Q1. by rewrite Q1, Hep.
Qed.
End Watcher.

(** ** The start *)

Section Started.
Context `{Digest} `{Idna}.

(** A process on storage that works, over a log that is new or empty. *)
Record working (p : process) : Prop := {
  wk_ios : forall n, good (pr_ios p n);
  wk_fresh : (pr_file p = None /\ pr_creation p = Created) \/ pr_file p = Some "";
  wk_max : 0 < se_max (pr_serve p);
  wk_port : 0 <= se_port (pr_serve p) }.
Lemma open_fresh p l : working p -> open_log p = Ok l -> writable l /\ filed_as l [] [].
Proof.
  intros [_ Hf _ _]. unfold open_log, init, writable, filed_as. destruct (pr_lock p); [|done]. cbn [negb andb].
  destruct Hf as [[-> ->]| ->]; destruct (pr_dir_ok p); try done; cbn; intros [= <-]; cbn; split_and!; try done; by left.
Qed.
Lemma startup_alike d l l' x : startup_verify d l = Ok (l', (true, x)) -> logs_alike l l'.
Proof.
  unfold startup_verify. destruct (l_healthy l) eqn:Hh; cbn [negb]; [|done]. destruct (AuditLog.verify (l_file l)) as [[b y]|]; cbn; [|done].
  destruct b; cbn; [|done]. unfold ensure_parent_durable. destruct d; cbn; rewrite ?Hh; cbn; [|done]. intros [= <- _]. by split.
Qed.
Lemma announce_able env w w' : able w -> exec (announce env) w = (w', Ok tt) -> able w'.
Proof.
  intros Ha (l & d & w2 & li & families & t & Hv & H2 & H3)%exec_announce. apply startup_alike in Hv as [Hw Hk].
  assert (able (set_log l w)) as H1.
  { destruct Ha as [Hi Hl [xs Hx]]. split; [exact Hi|by apply Hw|]. exists xs. by eapply filed_alike. }
  assert (able w2) as Hw2.
  { destruct H2 as [->|(e & t2 & H2)]; [done|]. destruct (exec_write (degraded_record e (se_port env)) _ H1) as (w3 & x & E & Hx).
    rewrite E in H2. injection H2 as <- _. apply Hx. }
  destruct (exec_write (startup_record env li families) _ Hw2) as (w3 & x & E & Hx). rewrite E in H3. injection H3 as <- _. apply Hx.
Qed.

(** The verifier on the records of a start: an open run, and no attempt yet. *)
Lemma step_degraded r e port h : like r (degraded_record e port) -> h = history0 -> step r h = Ok (inr h).
Proof. intros L ->. unfold step. rewrite (like_decision _ _ L). reflexivity. Qed.
Lemma step_startup r env li families : like r (startup_record env li families) -> 0 < se_max env ->
  step r history0 = Ok (inr (set_state RUNNING (set_startup history0))).
Proof.
  intros L Hm. unfold step. rewrite (like_decision _ _ L). change (decision_of (startup_record env li families)) with "STARTUP".
  change (on_startup "STARTUP" r history0 = Ok (inr (set_state RUNNING (set_startup history0)))). unfold on_startup. cbn [h_startup h_active h_state history0 orb negb].
  rewrite (like_int _ _ L) by reflexivity. change (int_of "max_connections" (startup_record env li families)) with (se_max env).
  rewrite (proj2 (Z.leb_gt _ _) Hm). reflexivity.
Qed.
Lemma steps_start env li families ds rs : 0 < se_max env -> ds = [] \/ (exists e, ds = [degraded_record e (se_port env)]) ->
  Forall2 stamped rs (ds ++ [startup_record env li families]) -> steps rs history0 = Ok (inr (set_state RUNNING (set_startup history0))).
Proof.
  intros Hm Hd (rs1 & rs2 & H1 & H2 & ->)%Forall2_app_inv_r. apply Forall2_cons_inv_r in H2 as (r & rs3 & Hr & H2 & ->).
  apply Forall2_nil_inv_r in H2 as ->. apply stamped_like in Hr. rewrite steps_app.
  assert (steps rs1 history0 = Ok (inr history0)) as ->; [|cbn; by rewrite (step_startup _ _ _ _ Hr)].
  destruct Hd as [->|[e ->]]; [by apply Forall2_nil_inv_r in H1 as ->|].
  apply Forall2_cons_inv_r in H1 as (q & rs3 & Hq & H1 & ->). apply Forall2_nil_inv_r in H1 as ->. apply stamped_like in Hq.
  cbn [steps]. by rewrite (step_degraded _ _ _ _ Hq).
Qed.
(** What [main] hands over. *)
Lemma main_running p zone w : main p = Running zone w -> exists l, open_log p = Ok l /\
  exec (announce (pr_serve p)) (world0 l (pr_ios p) (se_max (pr_serve p))) = (w, Ok tt).
Proof.
  unfold main. destruct (pr_policy p) as [policy|]; [|done]. destruct (pr_ca p); [|done]. destruct (open_log p) as [l|]; [|done].
  destruct (v_get _ _) as [z|]; [|done]. intros Hm. exists l. split; [done|]. revert Hm.
  destruct (exec (serve (pr_serve p)) _) as [w1 [r|e]] eqn:E; [|by destruct (String.eqb _ _)]. apply exec_serve in E as (w2 & Ea & E).
  destruct (se_killed (pr_serve p)); [destruct E as (o & _ & ->); by intros|]. destruct E as [-> ->]. by intros [= _ <-].
Qed.
Lemma main_sound ids p zone w : working p -> main p = Running zone w -> sound_start ids w /\ announced w.
Proof.
  intros Hp (l & Hl & Ea)%main_running. pose proof (open_fresh p l Hp Hl) as [Hw Hx]. destruct Hp as [Hi _ Hm Hport].
  assert (able w) as [Ai Al Af].
  { eapply announce_able; [|exact Ea]. split; [exact Hi|exact Hw|]. by exists []. }
  apply announce_noted in Ea as (li & families & ds & Hds & [Hrest Ht _] & _).
  assert (written w = (ds ++ [startup_record (pr_serve p) li families])%list) as Ew.
  { unfold written. rewrite Ht. cbn [world0 w_trace app]. clear. induction (ds ++ _)%list as [|d l IH]; [done|]. cbn. by rewrite IH. }
  assert (unused w) as Hun by (rewrite Hrest; split; try done; exists (se_max (pr_serve p)); split; [lia|done]).
  assert (forall b k, owner w b k = None) as Ho.
  { destruct Hun as [Hr Hpm _ _]. intros b []; cbn; rewrite ?Hr, ?Hpm; cbn; by rewrite ?lookup_empty. }
  assert (forall rs, Forall2 stamped rs (written w) -> steps rs history0 = Ok (inr (set_state RUNNING (set_startup history0)))) as Hst.
  { intros rs. rewrite Ew. by apply steps_start. }
  assert (forall e, EvRecord e ∈ w_trace w -> conforms e) as Hc.
  { intros e. rewrite Ht. intros (d & [= ->] & Hd)%list_elem_of_fmap. apply elem_of_app in Hd as [Hd| ->%list_elem_of_singleton]; [|apply c_startup; lia].
    destruct Hds as [->|[x ->]]; [by apply not_elem_of_nil in Hd|]. apply list_elem_of_singleton in Hd as ->. by apply c_degraded. }
  split; [|by split]. split; [done| |].
  - split; try done; try (rewrite (un_run _ Hun); try apply run_inv0; done).
    + intros b k m. by rewrite Ho.
    + split; [intros b k b' k' m|intros b m m'..]; by rewrite !Ho.
    + intros rs Hrs. eexists. split; [by apply Hst|]. split; cbn; try done; [constructor|]. by intros n Hn%not_elem_of_nil.
  - intros a rs h [Hf Hs]. rewrite (Hst rs Hf) in Hs. by injection Hs as <-.
Qed.
End Started.

(** ** The composition *)

(** An intent leaves an attempt, and no record removes one. *)
Lemma put_ne a x l : put_attempt a x l <> [].
Proof. destruct l as [|[k y] l]; cbn; [done|]. by destruct (String.eqb a k). Qed.
Lemma step_attempts r h h' : step r h = Ok (inr h') -> (h_attempts h <> [] \/ decision_of r = AUTH) -> h_attempts h' <> [].
Proof.
  unfold step. generalize (decision_of r) (py_str (dget_or "attempt_id" (VStr "") r)). intros d aid Hs Hor.
  assert (forall b x g, h_attempts (set_attempt b x g) <> []) as Hput by (intros b x g; apply put_ne).
  assert (h_attempts h <> [] \/ d = AUTH) as [Hne| ->] by done; revert Hs.
  - unfold on_startup, on_active, on_auth, on_permit, on_attempted, on_terminal, on_allow, on_release, on_linearized, on_kill,
      on_disposition, on_closed, on_terminated, on_blocked, go, dindex.
    repeat (case_match; try discriminate); cbn [rbind]; repeat (case_match; try discriminate); intros Hs; try discriminate Hs; simplify_eq; first [apply Hput|exact Hne].
  - destruct (bool_decide _); [done|]. destruct (after_disposition _ _); [done|]. change (mem_str AUTH _) with false. cbv iota.
    change (on_active AUTH aid r (set_active h)) with (on_auth aid r (set_active h)). unfold on_auth, go.
    repeat (case_match; try discriminate). intros Hs. simplify_eq. apply Hput.
Qed.
Lemma steps_attempts rs h h' : steps rs h = Ok (inr h') -> (h_attempts h <> [] \/ exists r, r ∈ rs /\ decision_of r = AUTH) -> h_attempts h' <> [].
Proof.
  revert h. induction rs as [|r rs IH]; intros h Hs Hor; cbn in Hs.
  - injection Hs as <-. destruct Hor as [?|(r & Hr%not_elem_of_nil & _)]; done.
  - destruct (step r h) as [[b|h1]|e] eqn:E; cbn in Hs; try done. apply (IH h1 Hs).
    destruct Hor as [Hne|(q & [->|Hq]%elem_of_cons & Hd)].
    + left. eapply step_attempts; eauto.
    + left. eapply step_attempts; eauto.
    + right. by exists q.
Qed.
Lemma check_all run_id rs es : Forall2 (stamped_in run_id) rs es -> (forall e, e ∈ es -> conforms e) -> run_id <> "" ->
  check_records run_id rs = Ok None.
Proof.
  intros Hf Hc Hrun. induction Hf as [|r e rs es Hr Hf IH]; [done|]. cbn [check_records].
  assert (fld "run_id" r = VStr run_id) as E by (unfold fld, dget_or; by rewrite (si_run _ _ _ Hr)). rewrite E, eqb_str. cbn [negb]. rewrite (stamped_fits run_id r e); [|apply Hc; by left|done|done]. cbn [rbind]. apply IH. intros e' He'. apply Hc. by right.
Qed.

Section Compose.
Context `{Digest} `{Idna}.

(** The records of a settled run and of its cancellation make a valid history. *)
Lemma history_valid ids w rs now : acc ids w -> (forall i, i ∈ ids -> know i settled w) ->
  Forall2 stamped rs (written w ++ closing_records (r_sequence (w_run w) + 1) now) ->
  (exists A, A ∈ written w /\ decision_of A = AUTH) ->
  exists h, steps rs history0 = Ok (inr h) /\ rs_status (conclude h) = "LOCAL_HISTORY_VALID".
Proof.
  intros Hacc Hset (rs1 & rs2 & H1 & H2 & ->)%Forall2_app_inv_r (A & HA & Hauth).
  destruct (ac_read _ _ Hacc rs1 H1) as (h & Hh & L).
  assert (all_settled h) as Hall.
  { intros b. destruct (attempt_of b h) as [x|] eqn:Ex; [|done]. rewrite <- Ex.
    exact (Hset b (lk_ids _ _ _ L b x Ex) rs1 h (conj H1 Hh)). }
  assert (forall b k m, owner w b k = Some m -> m < r_sequence (w_run w) + 1) as Hb.
  { intros b k m Hm%(ac_top _ _ Hacc). lia. }
  assert (h_attempts h <> []) as Hne.
  { eapply steps_attempts; [exact Hh|]. right. apply list_elem_of_lookup_1 in HA as [i Hi].
    destruct (Forall2_lookup_r _ _ _ _ _ H1 Hi) as (r & Hri & Hsr). exists r. split; [by eapply list_elem_of_lookup_2|].
    by rewrite (like_decision _ _ (stamped_like _ _ Hsr)). }
  unfold closing_records in H2. do 5 (apply Forall2_cons_inv_r in H2 as (? & ? & ?%stamped_like & H2 & ->)). apply Forall2_nil_inv_r in H2 as ->.
  rewrite steps_app, Hh. cbn [rbind]. erewrite steps_closing; [|done..]. eexists. split; [reflexivity|]. by eapply conclude_closing.
Qed.

(** Forall2 from a map. *)
Lemma read_stamped l xs : is_hex64 GENESIS = true -> chained GENESIS xs (l_prev l) -> Forall (of_log l) xs ->
  Forall (fun x => conforms (ln_entry x) /\ clean (l_redact (ln_log x)) (ln_entry x)) xs ->
  Forall2 (stamped_in (l_run_id l)) (map read_line xs) (map ln_entry xs).
Proof.
  intros Hg Hc%chained_hex Ho He; [|done]. induction xs as [|x xs IH]; [constructor|].
  apply Forall_cons in Hc as [Hp Hc], Ho as [[Ht Hr _] Ho], He as [[Hco Hcl] He]. cbn [map]. constructor; [|by apply IH].
  rewrite <- Hr. by apply read_back.
Qed.

(** C2: the gateway records what the verifier accepts, on the quiet path. A process
    starts on storage whose every call works, over a new or empty log, and
    writes its STARTUP; handlers of any number of connections, with distinct
    non-empty ids and no kill watcher beside them, then interleave in any way,
    until all have ended; a cancellation then runs alone, and says it sealed.
    The clients have methods in upper case, canonical server names, credentials
    that are named, well formed and a non-empty text, a TLS context for the
    upstream that can be built, and upstreams whose status is not negative; the
    policies name their programs and allow ports from 1 to
    65535; the codec encodes no host as empty. If the run has an id, no record
    holds a registered secret, and at least one request got as far as its AUTH
    record, then the log file loads and its history is LOCAL_HISTORY_VALID: each
    record has the schema, every attempt is settled, its permit released and its
    completion allowed, the lifecycle numbers are unique and in order, and the
    closure binds the cancellation. *)
Theorem gateway_accepted p zone w0 s ts w e w' o : (forall h, idna h <> Some "") -> sane s -> serving s ->
  working p -> main p = Running zone w0 -> reach (start s w0) (ts, w) -> Forall finished ts ->
  exec (cancel_and_quiesce e) w = (w', Ok o) -> oc_sealed o = true ->
  (exists A, A ∈ written w /\ decision_of A = AUTH) -> l_run_id (w_log w') <> "" ->
  (forall d, d ∈ written w' -> free_of (l_redact (w_log w')) (VDict d)) ->
  exists rs res, load_and_verify (l_file (w_log w')) = Some rs /\ validate_history rs (l_run_id (w_log w')) = Ok res /\
    rs_status res = "LOCAL_HISTORY_VALID".
Proof.
  intros Hidna Hsane Hsv Hwork Hmain Hr Hfin Hex Hsealed (A & HA & Hauth) Hrun Hfree.
  destruct (main_sound s.*1 p zone w0 Hwork Hmain) as [Hst Hann].
  destruct (handlers_done s w0 ts w Hst Hsv Hr) as [Hacc Hset]. specialize (Hset Hfin).
  assert (g_conns (w_reg w) = []) as Hconns.
  { destruct Hsv as [Hd [Hnd _] _ Hp]. apply (all_left (draws s) s w0 ts w); [by destruct (un_reg _ (ss_unused _ _ Hst)) as (n & _ & ->)| |intros i j k Hij Hi Hj; by apply Hij, (Hd i j k)|done..].
    intros a r Hin. destruct (Hp a r Hin) as (cmds & -> & _). exists cmds. split; [done|]. intros c Hc. by exists cmds, c. }
  pose proof (reach_fit s w0 ts w Hidna Hsane Hann Hr) as Hfit.
  assert (fit w') as Hfit'.
  { by apply (exec_ok remembers remembers fit (fun i w1 => id) 0%nat _ _ w w' (Ok o) Hfit (y_cancel_and_quiesce e 0%nat w)). }
  assert (able w) as Hab by (destruct Hacc; by split).
  destruct (exec_quiesce e w w' o Hab (ac_run _ _ Hacc) (ac_live _ _ Hacc) Hconns Hex Hsealed) as [(xs & Hxs & Hfile & Hch & Hol) Hw'].
  assert (forall d, d ∈ written w' -> conforms d) as Hconf by by intros d Hd; apply (ft_trace _ Hfit'), omap_entries.
  assert (l_file (w_log w') = Some (file_of xs)) as ->.
  { destruct Hfile as [->|[-> _]]; [done|]. rewrite <- Hxs in Hw'. by apply app_cons_not_nil in Hw'. }
  assert (Forall (fun x => conforms (ln_entry x) /\ clean (l_redact (ln_log x)) (ln_entry x)) xs) as Hcl.
  { rewrite Forall_forall in Hol |- *. intros x Hin. assert (ln_entry x ∈ written w') as Hd by (rewrite <- Hxs; by apply list_elem_of_fmap_2).
    split; [by apply Hconf|]. eapply free_clean, free_fewer; [|by apply Hfree]. apply (ol_redact _ _ (Hol x Hin)). }
  exists (map read_line xs). assert (is_hex64 GENESIS = true) as Hgen by (vm_compute; reflexivity).
  assert (load_and_verify (Some (file_of xs)) = Some (map read_line xs)) as ->.
  { eapply file_loads; [exact Hch|]. apply Forall_and. split.
    - eapply Forall_impl; [exact Hcl|]. intros x [Hc _]. by apply conforms_wf.
    - eapply Forall_impl; [exact Hol|]. by intros x []. }
  pose proof (read_stamped _ xs Hgen Hch Hol Hcl) as Hrs. rewrite Hxs in Hrs. revert Hrs. generalize (map read_line xs). intros rs Hrs.
  pose proof (check_all _ rs _ Hrs Hconf Hrun) as Hcheck.
  assert (Forall2 stamped rs (written w')) as Hst2 by (eapply Forall2_impl; [exact Hrs|]; intros r d; apply stamped_in_stamped).
  destruct (history_valid s.*1 w rs (ke_now e) Hacc Hset) as (h & Hh & Hv); [by rewrite <- Hw'|by exists A|].
  exists (conclude h). split; [done|]. split; [|done]. unfold validate_history. rewrite (proj2 (String.eqb_neq _ _) Hrun).
  rewrite bool_decide_false; [|intros ->; by injection Hh as <-]. by rewrite Hcheck, Hh.
Qed.
End Compose.

(** ** The evaluated run *)

Definition serving_ex : system := [("a1", Handler [Connect client_ex])].
(** From the process of [StartupProps], whose host has no IPv6. *)
Definition w_main : world := match main process_s with Running _ w => w | _ => w_ex end.
Definition w_served : world := (exec (handle [Connect client_ex]) w_main).1.
Definition ts_served : list (thread unit) := [of_res (exec (handle [Connect client_ex]) w_main).2].
Definition w_sealed : world := (exec (cancel_and_quiesce kill_ex) w_served).1.
Definition outcome_ex : outcome :=
  match (exec (cancel_and_quiesce kill_ex) w_served).2 with Ok o => o | Raise _ => Outcome (DrainedState 0 0 false false 0 None) false false None end.
Lemma serving_ex_ok : serving serving_ex.
Proof.
  split.
  - by intros a b k (? & ? & [= -> _]%list_elem_of_singleton & _) (? & ? & [= -> _]%list_elem_of_singleton & _).
  - split; [repeat (constructor; [not_in|]); constructor|].
    intros a r [= -> ->]%list_elem_of_singleton b Hb%list_elem_of_singleton. exact Hb.
  - cbn. by intros [=]%list_elem_of_singleton.
  - intros a r [= -> ->]%list_elem_of_singleton. exists [Connect client_ex]. split; [done|]. intros c [= ->]%list_elem_of_singleton.
    split; cbn.
    + intros hd. vm_compute. by intros [= <-].
    + intros x [= <-]. vm_compute. reflexivity.
    + by left.
    + intros pol pid host q x _ Hq Hne. by rewrite Hq in Hne.
    + done.
Qed.
Lemma serving_ex_sane : sane serving_ex.
Proof. intros a cmds c [= -> ->]%list_elem_of_singleton [= ->]%list_elem_of_singleton. apply client_ex_sane. Qed.
Lemma good_io0 : good io0.
Proof.
  split; try done; [|by split; [apply wf_io0|]].
  intros data f. cbn. destruct (String.eqb_spec data "") as [->|]; [by rewrite append_nil_r|done].
Qed.
Lemma process_s_working : working process_s.
Proof. split; [intros n; apply good_io0|by left|cbn; lia|cbn; lia]. Qed.
Lemma process_s_runs : main process_s = Running false w_main.
Proof. vm_compute. reflexivity. Qed.
Lemma reach_served : reach (start serving_ex w_main) (ts_served, w_served).
Proof. exact (exec_reach (handle [Connect client_ex]) (threads serving_ex) 0%nat w_main eq_refl). Qed.
Definition intent_ex : dict := match written w_served !! 2%nat with Some d => d | None => [] end.
Lemma gateway_accepted_witness : exists rs res, load_and_verify (l_file (w_log w_sealed)) = Some rs /\
  validate_history rs (l_run_id (w_log w_sealed)) = Ok res /\ rs_status res = "LOCAL_HISTORY_VALID".
Proof.
  refine (gateway_accepted process_s false w_main serving_ex ts_served w_served kill_ex w_sealed outcome_ex _ serving_ex_sane serving_ex_ok
    process_s_working process_s_runs reach_served _ _ _ _ _ _).
  - done.
  - constructor; [|constructor]. vm_compute. exact I.
  - assert (is_ok (exec (cancel_and_quiesce kill_ex) w_served).2 = true) as Ho by (vm_compute; reflexivity).
    unfold w_sealed, outcome_ex. destruct (exec (cancel_and_quiesce kill_ex) w_served) as [w1 [o|x]]; [done|discriminate Ho].
  - vm_compute. reflexivity.
  - exists intent_ex. split; [apply (list_elem_of_lookup_2 _ 2); vm_compute; reflexivity|vm_compute; reflexivity].
  - vm_compute. discriminate.
  - assert (l_redact (w_log w_sealed) = []) as -> by (vm_compute; reflexivity). intros d _. apply free_none.
Defined.
